(* ===== verification/_CoqProject ===== *)
-Q . S2P
Prelude.v
Util.v
BootMap.v
LinkedList.v
Io.v
Console.v
PhysMem.v
PhysMemProofs.v
PhysMemRefs.v
Paging.v
PagingProofs.v
PagingArea.v
Allocator.v
HeapBlocks.v
AllocatorProofs.v
HeapPages.v
HeapProofs.v
Kernel.v
Semaphore.v
Event.v
Timer.v
Pipe.v
Handle.v
Thread.v
Process.v
Elf.v
KeymapDE.v
Devices.v
Gdt.v
GdtProofs.v
InterruptEntry.v
FileSystem.v
Dispatch.v
Pic.v
Keyboard.v
KeyLayout.v
Syscall.v
Interrupt.v
Main.v
Waiting.v
Sample.v
TimerProofs.v
Blocking.v
HandleProofs.v
PipeProofs.v
FileProofs.v
ElfProofs.v
SyscallProofs.v
KeyboardProofs.v
ScheduleProofs.v
User.v
UserProofs.v
Shell.v
ShellProofs.v
VConsole.v
VConsoleProofs.v
Programs.v
ProgramsProofs.v
