(* ===== verification/Prelude.v ===== *)
(** * ibnos

    A model of ibnos, a small operating system for the x86, in Rocq, with the
    theorems that make its parts correct: the kernel (src/kernelmode/kernel/, to
    which all paths are relative that do not begin with src/) and the programs
    around it (src/usermode/).

    ** The program

    The boot loader hands over to [main], which sets up the physical memory
    (memory/physmem.c), the page tables (memory/paging.c), the heap
    (memory/allocator.c), the segments, the interrupt controller and the file
    system, starts the first process and enters the scheduler. From then on the
    kernel runs in interrupts: system calls, page faults, the keyboard and the
    timer. Everything a process can name is a kernel object
    (include/process/object.h): processes, threads, semaphores, events, timers,
    pipes, files and directories, with a reference counter and a table of
    methods. Objects wait in queues that are linked through them
    (include/util/list.h), and a process refers to them by handles. The first
    program (src/usermode/main.c) runs a shell on each of seven virtual consoles
    and draws the one that is shown on the console of the kernel.

    ** The files

    - Prelude: integers of the machine, the monad of a kernel function and its
      weakest preconditions, arrays, digits.
    - Util (util/util.c: strings and memory blocks), Io (include/io/io.h),
      Console (console/console.c).
    - LinkedList (include/util/list.h): the doubly linked lists as nodes of a
      memory, and that they implement abstract queues, which all other files use.
    - BootMap, PhysMem, PhysMemProofs, PhysMemRefs (memory/physmem.c and the
      boot map of memory/paging.c): the bitmap of the physical pages, its
      initialization from the information of the boot loader, allocation, and
      the reference counters with their tables, which are kernel pages
      themselves ([KernelPages] is what they need of paging.c).
    - Paging, PagingProofs, PagingArea (memory/paging.c): page directories and
      tables in the physical memory, reached through the addresses that the
      memory management unit translates; PagingProofs is about the directory of
      the kernel, which maps itself, PagingArea about mapping, searching,
      allocating and releasing, and discharges [KernelPages].
    - Allocator (memory/allocator.c) over an interface to the pages of paging.c,
      HeapBlocks (a heap as a list of blocks), AllocatorProofs, HeapPages and
      HeapProofs (the operations, and the growing and shrinking of the heap).
    - Kernel (include/process/object.h and the structures of all objects),
      Semaphore, Event, Timer, Pipe, Handle, Thread, Process, FileSystem
      (process/*.c): one file per object type, written against the interface
      [Methods] of calls through the function table; Dispatch ties the knot.
      The memory of these objects is a state with the interface [Memory].
    - Elf (loader/elf.c), KeymapDE (hardware/keymap_de.c), Devices (the state of
      the devices), Gdt (hardware/gdt.c) with GdtProofs and InterruptEntry, which
      runs the instructions of the generated interrupt entries, Pic (hardware/pic.c
      and pit.c), Keyboard (hardware/keyboard.c), Syscall and Interrupt
      (interrupt/interrupt.c), Main (main.c).
    - Waiting, Blocking (waiting, waking up, semaphores), TimerProofs,
      HandleProofs, PipeProofs, FileProofs, ElfProofs: the theorems about the
      objects. SyscallProofs is about calls from a process, KeyboardProofs about
      what is typed, with the meaning of the keys in KeyLayout, ScheduleProofs about
      running a thread. Sample: a concrete kernel with a heap, for witnesses.
    - User (the port of the C library, src/usermode/libc/newlib/newlib/libc/sys/ibnos),
      written against the interface [Sys] of system calls, Shell
      (src/usermode/shell.c), VConsole (src/usermode/vconsole.c and main.c), Programs
      (src/usermode/programs: wc, echo, setled, top), and their theorems in
      UserProofs, ShellProofs, VConsoleProofs and ProgramsProofs. VConsoleProofs
      connects [Sys] with the kernel's console by the interface [KernelConsole].

    ** What a definition is

    A C function is a function of the same name in the monad [M S] over the
    state [S] of its component. Its outcome is a value with the new state, the
    stop of the system ([Panic], a failed [assert] or [SYSTEM_FAILURE]),
    undefined behaviour ([Undef], a bad pointer or index), or [NoFuel] where a
    loop is a recursion on fuel. [wp m s Q] is total correctness: none of the
    last three, and [Q] of the result. Integers are [Z], wrapped with [u8], [u16],
    [u32], [u64] wherever the code can leave the range of its type. An object is
    known by its address; a queue of objects is the list of their entries.

    ** What is shown

    - Lists: any sequence of list calls does to the linked nodes what the same
      calls do to abstract queues; the safe loop visits every element once.
    - Physical memory: initialization leaves free exactly what the entries of odd
      types in the memory map cover and nothing protected touches (for a map of
      available and reserved memory, what is available; the last page is never
      free); a range is marked exactly; the
      lowest free page is allocated; reference counters count, a page is freed
      with its last reference, and the counter never wraps; the boot map stays
      sorted and apart.
    - Paging: after a mapping the memory management unit translates exactly the
      new page differently and memory in use is untouched; the search finds the
      lowest fit; allocated pages are distinct and were free; releasing restores
      every entry and counter; the recursion between physmem.c and paging.c
      ends.
    - Heap: allocating gives a block that was free and leaves all others alone,
      freeing merges the neighbours; the self test passes exactly if every entry
      of every list is sound, and whenever the invariant of the heap holds, which
      allocating and freeing keep (resizing is modelled, without a theorem).
    - Waiting: a thread that waits goes on with the result, or blocks in the queue,
      that a relation gives for each kind of object ([Blocking.outcome]); waking up
      takes the right threads off and makes them runnable, follows the sub events to
      the waiters of their events, and loses nobody ([Waiting.roused],
      [Waiting.none_lost]); semaphores count, releasing a semaphore wakes its waiters, a pipe behaves
      as a byte queue and wakes its readers and writers, the timer interrupt
      ends if no number of a due timer wraps in 32 bits, fires what is due, wakes
      up its waiters and computes the next period.
    - Handles: allocating, setting and releasing handles keeps the table well
      formed and the reference counters right, but for the handles that [handleSet]
      stores behind its array.
    - Files: opened files refine byte arrays with positions, and what is written
      through one opening is read back through another; the ELF loader fills the
      pages of the sections with the bytes of the file and zeroes, provided that one
      more header fits behind the section table, which it reads, or refuses.
    - Interrupts: the descriptors are those the processor needs, and the generated
      code of an interrupt entry saves the interrupted registers and reaches the
      dispatcher with them; a system call with a handle that the process does not
      have changes nothing but its result; the bytes that a process writes to the
      console appear on it; what is typed on a German keyboard, written down by key
      in KeyLayout, reaches the pipe of the standard input.
    - Scheduling: what running a thread does for every way in which its turn ends,
      and which thread the scheduler goes on with.
    - Strings, memory blocks and the console: octal fields, [memmove], the
      terminal as a specification of what is written, the failure screen.
    - Programs: the parser of the shell is a tokenizer, every virtual console is a
      terminal and the screen shows the current one, the arguments of a program
      survive their packing, wc counts words.
    - Where the code does not do what it means to, a theorem says what it does:
      an event attached to itself, a timer whose product of periods wraps to 0,
      [handleSet] behind the end of its array, a thread that destroys the next one,
      a handle that is not the lowest, a partial write of the C library, arguments
      of a program that are dropped, a command line with too many words.

    ** Bounds and fuel

    [loop_fuel] of the list loops in Kernel is a parameter of the theorems in
    the form of a bound on the length of the queues. [EXTRA_FUEL] is 1025: there
    are 1024 tables of page information. The loops over pages have the number of
    pages as fuel. The boot loops take fuel as an argument, bounded by the length
    of the map they read. The loops of the programs take fuel as an argument, of
    which the theorems ask for the length of the input.

    ** What is not modelled

    - console/vgafont.c is a table and its copy to the video memory; the assembly of
      the boot loader, the first half of main.c as one function (the functions it
      calls are modelled on states of their own), the accessed and dirty bits, the
      translation buffers and the concurrency of interrupts (the kernel runs with
      interrupts disabled) are outside the model.
    - src/usermode: newlib and its allocator liballoc are third-party code, and
      programs/test.c tests the system calls; src/bootloader is configuration and
      code of other projects. *)

From stdpp Require Export base tactics gmap sets strings numbers.
From stdpp Require Export list.
#[global] Set Default Goal Selector "!".
Open Scope Z_scope.

(** ** Machine integers

    A w-bit unsigned integer of the C code is a [Z]; every operation of the
    code that can leave the range of its type is wrapped explicitly. *)

Definition u8 (x : Z) : Z := x mod 256.
Definition u16 (x : Z) : Z := x mod 65536.
Definition u32 (x : Z) : Z := x mod 4294967296.
Definition u64 (x : Z) : Z := x mod 18446744073709551616.

(** The signed reading of a 32-bit pattern, as a conversion to [int32_t]. *)
Definition i32 (x : Z) : Z :=
  let y := u32 x in if y <? 2147483648 then y else y - 4294967296.

(** The signed reading of an 8-bit pattern, as a conversion to [int8_t]. *)
Definition i8 (x : Z) : Z :=
  let y := u8 x in if y <? 128 then y else y - 256.

(** The bytes of a number in memory, least significant first. *)
Definition le32 (x : Z) : list Z := (λ k, u8 (Z.shiftr (u32 x) (8 * k))) <$> [0; 1; 2; 3].
Definition le16 (x : Z) : list Z := (λ k, u8 (Z.shiftr (u16 x) (8 * k))) <$> [0; 1].

(** [(uint32_t)-1], the error value of many kernel functions. *)
Abbreviation ERR := 4294967295.

Definition is_u8 (x : Z) : Prop := 0 ≤ x < 256.
Definition is_u16 (x : Z) : Prop := 0 ≤ x < 65536.
Definition is_u32 (x : Z) : Prop := 0 ≤ x < 4294967296.
Definition is_u64 (x : Z) : Prop := 0 ≤ x < 18446744073709551616.

(** Pages, as include/memory/physmem.h counts them. *)
Definition PAGE_SIZE := 0x1000.
Definition PAGE_MASK := 0xFFF.
Definition PAGE_BITS := 12.
Definition PAGE_COUNT := 0x100000.

Create HintDb ibnos.

(** [ulia] discharges side conditions on machine integers. *)
Ltac ulia :=
  unfold is_u8, is_u16, is_u32, is_u64, u8, u16, u32, u64 in *;
  Z.to_euclidean_division_equations; lia.

Lemma u32_small x : is_u32 x → u32 x = x.
Proof. intros; apply Z.mod_small; done. Qed.
Lemma i32_small n : 0 ≤ n < 2 ^ 31 → i32 n = n.
Proof. intros Hn. unfold i32. rewrite u32_small by (unfold is_u32; lia). destruct (Z.ltb_spec n 2147483648); lia. Qed.

Lemma u32_range x : is_u32 (u32 x).
Proof. ulia. Qed.

Lemma u64_small x : is_u64 x → u64 x = x.
Proof. intros; apply Z.mod_small; done. Qed.

Lemma u64_range x : is_u64 (u64 x).
Proof. ulia. Qed.

Lemma u8_small x : is_u8 x → u8 x = x.
Proof. intros; apply Z.mod_small; done. Qed.

Lemma u8_range x : is_u8 (u8 x).
Proof. ulia. Qed.

#[export] Hint Resolve u8_range u32_range u64_range : ibnos.

(** ** Bit operations on disjoint fields *)

Lemma lor_disjoint a b : Z.land a b = 0 → Z.lor a b = a + b.
Proof. intros H. by rewrite <-(Z.lxor_lor _ _ H), (Z.add_nocarry_lxor _ _ H). Qed.

Lemma land_shiftl_low a d n : 0 ≤ n → 0 ≤ d < 2 ^ n → Z.land (Z.shiftl a n) d = 0.
Proof.
  intros Hn Hd. apply Z.bits_inj'. intros i Hi. rewrite Z.land_spec, Z.bits_0.
  destruct (decide (i < n)).
  - by rewrite Z.shiftl_spec_low.
  - rewrite <-(Z.mod_small d (2 ^ n)) by done.
    rewrite Z.mod_pow2_bits_high by lia. by rewrite andb_false_r.
Qed.

(** A field of [n] low bits under a shifted value. *)
Lemma lor_shiftl_low a d n :
  0 ≤ n → 0 ≤ d < 2 ^ n → Z.lor (Z.shiftl a n) d = a * 2 ^ n + d.
Proof.
  intros. rewrite lor_disjoint by by apply land_shiftl_low.
  by rewrite Z.shiftl_mul_pow2.
Qed.

(** [x & (2^n - 1)] and [x >> n] as arithmetic. *)
Lemma land_low x n m : 0 ≤ n → m = Z.ones n → Z.land x m = x mod 2 ^ n.
Proof. intros ? ->. by apply Z.land_ones. Qed.

(** ** Outcomes and the state-and-error monad

    A kernel function returns normally, stops the system (a failed [assert],
    a [SYSTEM_FAILURE] or a [NOTIMPLEMENTED], which all print a message and
    halt), does something C gives no meaning to (a null or dangling pointer,
    an index out of a buffer), or, where the Rocq function is defined by
    recursion on a fuel argument, runs out of that fuel. *)

Inductive outcome (A : Type) : Type :=
  | Ok (a : A)
  | Panic (why : string)
  | Undef (why : string)
  | NoFuel.
Arguments Ok {A} a.
Arguments Panic {A} why.
Arguments Undef {A} why.
Arguments NoFuel {A}.

Definition M (S A : Type) : Type := S → outcome (A * S).

#[global] Instance M_ret S : MRet (M S) := λ A a s, Ok (a, s).
#[global] Instance M_bind S : MBind (M S) := λ A B f m s,
  match m s with
  | Ok (a, s') => f a s'
  | Panic w => Panic w
  | Undef w => Undef w
  | NoFuel => NoFuel
  end.

Notation "'let*' x := m 'in' k" := (mbind (λ x, k) m)
  (at level 10, x binder, m at level 200, k at level 200,
   format "'[v' 'let*'  x  :=  m  'in' '/' k ']'").
Notation "'let*' ' p := m 'in' k" := (mbind (λ p, k) m)
  (at level 10, p strict pattern, m at level 200, k at level 200, only parsing).

Section Monad.
Context {S : Type}.

Definition panic {A} (why : string) : M S A := λ _, Panic why.
Definition undef {A} (why : string) : M S A := λ _, Undef why.
Definition no_fuel {A} : M S A := λ _, NoFuel.
Definition get : M S S := λ s, Ok (s, s).
Definition put (s : S) : M S unit := λ _, Ok (tt, s).
Definition modify (f : S → S) : M S unit := λ s, Ok (tt, f s).
Definition gets {A} (f : S → A) : M S A := λ s, Ok (f s, s).

  (** The [assert] macro of util.h: halt with a message unless the condition holds. *)
Definition assert (b : bool) (why : string) : M S unit :=
    if b then mret tt else panic why.

  (** Dereferencing what may be a null or dangling pointer. *)
Definition deref {A} (o : option A) (why : string) : M S A :=
    match o with Some a => mret a | None => undef why end.

  (** [when b m]: an [if] with no [else]. *)
Definition when (b : bool) (m : M S unit) : M S unit :=
    if b then m else mret tt.
End Monad.

(** ** Total-correctness weakest preconditions

    [wp m s Q]: run from [s], [m] returns (no halt, no undefined behaviour,
    enough fuel) and its result and final state satisfy [Q]. *)

Definition wp {S A} (m : M S A) (s : S) (Q : A → S → Prop) : Prop :=
  match m s with Ok (a, s') => Q a s' | _ => False end.

Section WP.
Context {S : Type}.
Implicit Types s : S.

Lemma wp_ret {A} (a : A) s Q : Q a s → wp (mret a : M S A) s Q.
  Proof. done. Qed.

Lemma wp_bind {A B} (m : M S A) (f : A → M S B) s Q :
    wp m s (λ a s', wp (f a) s' Q) → wp (m ≫= f) s Q.
  Proof. unfold wp, mbind, M_bind. destruct (m s) as [[a s']| | |]; done. Qed.

Lemma wp_bind_inv {A B} (m : M S A) (f : A → M S B) s Q :
    wp (m ≫= f) s Q → wp m s (λ a s', wp (f a) s' Q).
  Proof. unfold wp, mbind, M_bind. destruct (m s) as [[a s']| | |]; done. Qed.

Lemma wp_mono {A} (m : M S A) s (P Q : A → S → Prop) :
    wp m s P → (∀ a s', P a s' → Q a s') → wp m s Q.
  Proof. unfold wp. destruct (m s) as [[a s']| | |]; eauto. Qed.

Lemma wp_and {A} (m : M S A) s (P Q : A → S → Prop) :
    wp m s P → wp m s Q → wp m s (λ a s', P a s' ∧ Q a s').
  Proof. unfold wp. destruct (m s) as [[a s']| | |]; done. Qed.

Lemma wp_get s Q : Q s s → wp get s Q.
  Proof. done. Qed.

Lemma wp_gets {A} (f : S → A) s Q : Q (f s) s → wp (gets f) s Q.
  Proof. done. Qed.

Lemma wp_put s s' Q : Q tt s' → wp (put s') s Q.
  Proof. done. Qed.

Lemma wp_modify f s Q : Q tt (f s) → wp (modify f) s Q.
  Proof. done. Qed.

Lemma wp_assert b why s Q : b = true → Q tt s → wp (assert b why) s Q.
  Proof. by intros ->. Qed.

Lemma wp_deref {A} (o : option A) a why s Q :
    o = Some a → Q a s → wp (deref o why) s Q.
  Proof. by intros ->. Qed.

Lemma wp_when b m s Q :
    (b = true → wp m s Q) → (b = false → Q tt s) → wp (when b m) s Q.
  Proof. destruct b; [intros H _; by apply H|intros _ H; by apply H]. Qed.

Lemma wp_run {A} (m : M S A) s Q : wp m s Q ↔ ∃ a s', m s = Ok (a, s') ∧ Q a s'.
  Proof.
    unfold wp. split.
    - destruct (m s) as [[a s']| | |]; naive_solver.
    - intros (a & s' & -> & HQ); done.
  Qed.

  (** Partial correctness: the same, but halting and divergence are allowed.
      Undefined behaviour is not. *)
Definition wlp {A} (m : M S A) (s : S) (Q : A → S → Prop) : Prop :=
    match m s with Ok (a, s') => Q a s' | Undef _ => False | _ => True end.

Lemma wlp_bind {A B} (m : M S A) (f : A → M S B) s Q :
    wlp m s (λ a s', wlp (f a) s' Q) → wlp (m ≫= f) s Q.
  Proof. unfold wlp, mbind, M_bind. destruct (m s) as [[a s']| | |]; done. Qed.
End WP.

(** [leads m s m' P]: run from [s], [m] reaches a state that satisfies [P], from
    where on it does what [m'] does. *)
Definition leads {S A} (m : M S A) (s : S) (m' : M S A) (P : S → Prop) : Prop :=
  ∃ s1, P s1 ∧ m s = m' s1.

Lemma leads_bind {S A B} (m : M S A) (f : A → M S B) s m' P :
  wp m s (λ a s', leads (f a) s' m' P) → leads (m ≫= f) s m' P.
Proof.
  unfold wp, leads, mbind, M_bind. destruct (m s) as [[a s']| | |]; naive_solver.
Qed.

Lemma leads_here {S A} (m : M S A) s (P : S → Prop) : P s → leads m s m P.
Proof. intros. by exists s. Qed.

Lemma wp_same {S A} (m m' : M S A) s s' Q : m s = m' s' → wp m' s' Q → wp m s Q.
Proof. unfold wp. by intros ->. Qed.

(** [wp_step] runs one monadic primitive of the goal. *)
Ltac wp_step :=
  match goal with
  | |- wp (_ ≫= _) _ _ => apply wp_bind
  | |- wp (mret _) _ _ => apply wp_ret
  | |- wp get _ _ => apply wp_get
  | |- wp (gets _) _ _ => apply wp_gets
  | |- wp (put _) _ _ => apply wp_put
  | |- wp (modify _) _ _ => apply wp_modify
  | |- wp (assert _ _) _ _ => apply wp_assert
  end; cbv beta.
Ltac wp_steps := repeat wp_step.

(** Running a computation on one part of a larger state. *)
Definition zoom {S T A} (get_part : S → T) (set_part : T → S → S) (m : M T A) : M S A := λ s,
  match m (get_part s) with
  | Ok (a, t) => Ok (a, set_part t s)
  | Panic w => Panic w
  | Undef w => Undef w
  | NoFuel => NoFuel
  end.

Lemma wp_zoom {S T A} (g : S → T) u (m : M T A) s (Q : A → S → Prop) :
  wp m (g s) (λ a t, Q a (u t s)) → wp (zoom g u m) s Q.
Proof. unfold wp, zoom. destruct (m (g s)) as [[a t]| | |]; done. Qed.

(** [for (i = from; i < from + n; i++) body], with its invariant rule. *)
Fixpoint for_loop {T} (n : nat) (i : Z) (body : Z → M T unit) : M T unit :=
  match n with
  | O => mret tt
  | S n => body i ;; for_loop n (i + 1) body
  end.

Lemma wp_for_loop {T} (I : Z → T → Prop) n i (body : Z → M T unit) s Q :
  I i s →
  (∀ j s, i ≤ j < i + Z.of_nat n → I j s → wp (body j) s (λ _ s', I (j + 1) s')) →
  (∀ s', I (i + Z.of_nat n) s' → Q tt s') →
  wp (for_loop n i body) s Q.
Proof.
  revert i s. induction n as [|n IH]; intros i s HI Hb HQ; simpl.
  - apply wp_ret, HQ. by rewrite Z.add_0_r.
  - apply wp_bind. eapply wp_mono; [apply Hb; [lia|done]|]. intros [] s' HI'.
    apply IH; [done| |].
    + intros j s'' Hj. apply Hb. lia.
    + intros s''. replace (i + 1 + Z.of_nat n) with (i + Z.of_nat (S n)) by lia. apply HQ.
Qed.

(** ** Lists

    [nthZ l i] reads an array at a C index, [setZ l i x] writes it; both say
    what happens out of bounds through [option] and an unchanged list. *)

Definition nthZ {A} (l : list A) (i : Z) : option A :=
  if i <? 0 then None else l !! Z.to_nat i.

Definition setZ {A} (l : list A) (i : Z) (x : A) : list A :=
  if i <? 0 then l else <[Z.to_nat i := x]> l.

Abbreviation lenZ l := (Z.of_nat (length l)).

Section ListZ.
Context {A : Type}.
Implicit Types l : list A.

Lemma nthZ_Some_lt l i x : nthZ l i = Some x → 0 ≤ i < lenZ l.
  Proof.
    unfold nthZ. case_match eqn:E; [done|].
    intros ?%lookup_lt_Some. lia.
  Qed.

Lemma nthZ_is_Some l i : 0 ≤ i < lenZ l → ∃ x, nthZ l i = Some x.
  Proof.
    intros. unfold nthZ. case_match eqn:E; [lia|].
    destruct (lookup_lt_is_Some_2 l (Z.to_nat i)) as [x ?]; [lia|]. eauto.
  Qed.

Lemma nthZ_None l i : nthZ l i = None ↔ i < 0 ∨ lenZ l ≤ i.
  Proof.
    unfold nthZ. case_match eqn:E; [split; [left; lia|done]|].
    rewrite lookup_ge_None. lia.
  Qed.

Lemma length_setZ l i x : length (setZ l i x) = length l.
  Proof. unfold setZ. case_match; [done|]. apply length_insert. Qed.

Lemma nthZ_setZ_eq l i x : 0 ≤ i < lenZ l → nthZ (setZ l i x) i = Some x.
  Proof.
    intros. unfold nthZ, setZ. case_match eqn:E; [lia|].
    apply list_lookup_insert_eq. lia.
  Qed.

Lemma nthZ_setZ_ne l i j x : i ≠ j → nthZ (setZ l i x) j = nthZ l j.
  Proof.
    intros. unfold nthZ, setZ. destruct (i <? 0) eqn:?, (j <? 0) eqn:?; try done.
    apply list_lookup_insert_ne. lia.
  Qed.

Lemma nthZ_app_l l1 l2 i : i < lenZ l1 → nthZ (l1 ++ l2) i = nthZ l1 i.
  Proof.
    intros. unfold nthZ. case_match eqn:E; [done|]. apply lookup_app_l. lia.
  Qed.

Lemma nthZ_app_r l1 l2 i : lenZ l1 ≤ i → nthZ (l1 ++ l2) i = nthZ l2 (i - lenZ l1).
  Proof.
    intros. unfold nthZ. destruct (i <? 0) eqn:?, (i - _ <? 0) eqn:?; try lia.
    rewrite lookup_app_r by lia. f_equal; lia.
  Qed.

Lemma nthZ_replicate n (x : A) i : 0 ≤ i < Z.of_nat n → nthZ (replicate n x) i = Some x.
  Proof.
    intros. unfold nthZ. case_match eqn:E; [lia|].
    apply lookup_replicate_2. lia.
  Qed.

Lemma nthZ_take l n i : i < Z.of_nat n → nthZ (take n l) i = nthZ l i.
  Proof.
    intros. unfold nthZ. case_match eqn:E; [done|]. apply lookup_take_lt. lia.
  Qed.
End ListZ.

(** An element without duplicates splits a list in one way. *)
Lemma NoDup_split_inj {A} (e : A) xs ys xs' ys' :
  NoDup (xs ++ e :: ys) → xs ++ e :: ys = xs' ++ e :: ys' → xs' = xs ∧ ys' = ys.
Proof.
  revert xs'. induction xs as [|x xs IH]; intros [|x' xs']; simpl; intros Hnd Heq; simplify_eq; [done|..].
  - apply NoDup_cons in Hnd. set_solver.
  - apply NoDup_cons in Hnd. set_solver.
  - apply NoDup_cons in Hnd as [_ Hnd]. by edestruct (IH xs' Hnd) as [-> ->].
Qed.

(** ** Positional notation

    [digits b w n]: the [w] low digits of [n] in base [b], most significant
    first, and the number a sequence of digits denotes. *)

Fixpoint digits (b : Z) (w : nat) (n : Z) : list Z :=
  match w with
  | O => []
  | S w' => digits b w' (n / b) ++ [n mod b]
  end.

Definition digits_value (b : Z) (ds : list Z) : Z := fold_left (λ v d, b * v + d) ds 0.

Lemma length_digits b w n : length (digits b w n) = w.
Proof. revert n. induction w; intros n; simpl; [done|]. rewrite length_app, IHw. simpl; lia. Qed.

Lemma digits_range b w n : 0 < b → Forall (λ d, 0 ≤ d < b) (digits b w n).
Proof.
  intros Hb. revert n. induction w; intros n; simpl; [constructor|].
  apply Forall_app_2; [done|]. repeat constructor; apply Z.mod_pos_bound; lia.
Qed.

Lemma digits_value_spec b w n :
  0 < b → 0 ≤ n < b ^ Z.of_nat w → digits_value b (digits b w n) = n.
Proof.
  intros Hb. revert n. induction w as [|w IH]; intros n Hn.
  - unfold digits_value. simpl in *. lia.
  - rewrite Nat2Z.inj_succ, Z.pow_succ_r in Hn by lia.
    unfold digits_value in *. simpl. rewrite fold_left_app, IH; simpl.
    + rewrite (Z.div_mod n b) at 3; lia.
    + split; [apply Z.div_pos; lia|apply Z.div_lt_upper_bound; lia].
Qed.
