(* ===== verification/Util.v ===== *)
(** * util.c: C strings and memory blocks

    Models [stringLength], [stringIsEqual], [stringParseOctal], [memset],
    [memcpy] and [memmove] of src/kernelmode/kernel/util/util.c.

    A [char *] is the list of bytes that starts at the pointer ([None] is the
    null pointer); reading behind the end of the list is undefined behaviour.
    Memory is a finite map from 32-bit addresses to bytes. *)

From S2P Require Import Prelude.
Open Scope Z_scope.

Module Str.

Definition SPACE := 32.
Definition CHAR0 := 48.
Definition CHAR8 := 56.

(** [while ( *str++ ) len++;] *)
Fixpoint strlen_loop (str : list Z) (len : Z) : outcome Z :=
  match str with
  | [] => Undef "stringLength: no terminator"
  | c :: str' => if c =? 0 then Ok len else strlen_loop str' (u32 (len + 1))
  end.

Definition stringLength (str : option (list Z)) : outcome Z :=
  match str with
  | None => Ok 0
  | Some str => strlen_loop str 0
  end.

(** [while (len && !buf[len - 1]) len--;] *)
Fixpoint trim_loop (buf : list Z) (len : nat) : outcome nat :=
  match len with
  | O => Ok O
  | S n =>
      match buf !! n with
      | None => Undef "stringIsEqual: buf too short"
      | Some c => if c =? 0 then trim_loop buf n else Ok (S n)
      end
  end.

(** [while ( *str && len && ( *str == *buf )) ...; return (!len && !*str);] *)
Fixpoint equal_loop (str buf : list Z) (len : nat) : outcome bool :=
  match str with
  | [] => Undef "stringIsEqual: str not terminated"
  | c :: str' =>
      if c =? 0 then Ok (bool_decide (len = O))
      else
        match len with
        | O => Ok false
        | S n =>
            match buf with
            | [] => Undef "stringIsEqual: buf too short"
            | b :: buf' => if c =? b then equal_loop str' buf' n else Ok false
            end
        end
  end.

Definition stringIsEqual (str : option (list Z)) (buf : list Z) (len : Z) : outcome bool :=
  match trim_loop buf (Z.to_nat len) with
  | Ok n =>
      match str with
      | None => Ok (bool_decide (n = O))
      | Some str => equal_loop str buf n
      end
  | Panic w => Panic w
  | Undef w => Undef w
  | NoFuel => NoFuel
  end.

(** The two whitespace loops of [stringParseOctal]; [str] and [len] advance together. *)
Fixpoint skip_spaces (str : list Z) (len : nat) {struct len} : outcome (list Z * nat) :=
  match len with
  | O => Ok (str, O)
  | S n =>
      match str with
      | [] => Undef "stringParseOctal: buffer too short"
      | c :: str' => if c =? SPACE then skip_spaces str' n else Ok (str, len)
      end
  end.

Fixpoint octal_digits (str : list Z) (len : nat) (value : Z) {struct len} : outcome (list Z * nat * Z) :=
  match len with
  | O => Ok (str, O, value)
  | S n =>
      match str with
      | [] => Undef "stringParseOctal: buffer too short"
      | c :: str' =>
          if (CHAR0 <=? c) && (c <? CHAR8)
          then octal_digits str' n (Z.lor (u32 (Z.shiftl value 3)) (c - CHAR0))
          else Ok (str, len, value)
      end
  end.

Definition stringParseOctal (str : list Z) (len : Z) : outcome Z :=
  match skip_spaces str (Z.to_nat len) with
  | Ok (str, len) =>
      match octal_digits str len 0 with
      | Ok (str, len, value) =>
          match skip_spaces str len with
          | Ok (str, len) =>
              match len, str with
              | O, _ => Ok value
              | S _, [] => Undef "stringParseOctal: buffer too short"
              | S _, c :: _ => if c =? 0 then Ok value else Ok ERR
              end
          | Panic w => Panic w | Undef w => Undef w | NoFuel => NoFuel
          end
      | Panic w => Panic w | Undef w => Undef w | NoFuel => NoFuel
      end
  | Panic w => Panic w | Undef w => Undef w | NoFuel => NoFuel
  end.

(** ** Reference readings *)

(** The text of a terminated string: everything before the first null. *)
Definition nonzero (s : list Z) : Prop := Forall (λ c, c ≠ 0) s.

(** A buffer with its trailing nulls removed. *)
Fixpoint rtrim (l : list Z) : list Z :=
  match l with
  | [] => []
  | x :: l' =>
      match rtrim l' with
      | [] => if x =? 0 then [] else [x]
      | t => x :: t
      end
  end.

(** The number a string of octal digits denotes, and the fixed-width field a
    tar archiver writes: [w] digits, zero padded. *)
Definition octal_value : list Z → Z := digits_value 8.
Definition octal_field (w : nat) (n : Z) : list Z := digits 8 w n.

Definition digit_char (d : Z) : Z := CHAR0 + d.

(** The field with its terminator. *)
Definition tar_field (w : nat) (n : Z) : list Z := (digit_char <$> octal_field w n) ++ [0].

(** ** stringLength *)

Lemma strlen_loop_spec s rest n :
  nonzero s → is_u32 n → n + lenZ s < 4294967296 →
  strlen_loop (s ++ 0 :: rest) n = Ok (n + lenZ s).
Proof.
  revert n. induction s as [|c s IH]; intros n Hs Hn Hl; simpl in *.
  - f_equal. lia.
  - inversion_clear Hs. destruct (Z.eqb_spec c 0); [done|].
    rewrite u32_small by ulia. rewrite IH; [f_equal; lia|done|ulia|lia].
Qed.

(** ** stringIsEqual *)

Lemma rtrim_snoc_zero l : rtrim (l ++ [0]) = rtrim l.
Proof. induction l as [|x l IH]; simpl; [done|]. by rewrite IH. Qed.

Lemma rtrim_snoc_ne l c : c ≠ 0 → rtrim (l ++ [c]) = l ++ [c].
Proof.
  intros. induction l as [|x l IH]; simpl.
  - destruct (Z.eqb_spec c 0); done.
  - rewrite IH. by destruct l.
Qed.

Lemma rtrim_nonzero s : nonzero s → rtrim s = s.
Proof.
  induction 1 as [|c s Hc _ IH]; simpl; [done|].
  rewrite IH. destruct s; [|done]. by destruct (Z.eqb_spec c 0).
Qed.

Lemma trim_loop_spec buf n :
  (n ≤ length buf)%nat →
  ∃ m, trim_loop buf n = Ok m ∧ (m ≤ n)%nat ∧ take m buf = rtrim (take n buf).
Proof.
  induction n as [|n IH]; intros Hn; [by exists O|].
  destruct (lookup_lt_is_Some_2 buf n) as [c Hc]; [lia|].
  rewrite (take_S_r _ _ _ Hc). simpl. rewrite Hc.
  destruct (Z.eqb_spec c 0) as [->|Hne].
  - destruct IH as (m & Hm & Hle & Ht); [lia|].
    exists m. rewrite rtrim_snoc_zero. split_and!; [done|lia|done].
  - exists (S n). rewrite rtrim_snoc_ne by done.
    split_and!; [done|lia|]. by rewrite (take_S_r _ _ _ Hc).
Qed.

Lemma equal_loop_spec s rest buf n :
  nonzero s → (n ≤ length buf)%nat →
  equal_loop (s ++ 0 :: rest) buf n = Ok (bool_decide (s = take n buf)).
Proof.
  revert buf n. induction s as [|c s IH]; intros buf n Hs Hn; simpl.
  - f_equal. apply bool_decide_ext. destruct n, buf; simpl in *; [done|done|lia|done].
  - inversion_clear Hs. destruct (Z.eqb_spec c 0); [done|].
    destruct n as [|n]; [by rewrite bool_decide_eq_false_2|].
    destruct buf as [|b buf]; simpl in *; [lia|].
    destruct (Z.eqb_spec c b) as [->|Hne].
    + rewrite IH by (done || lia). f_equal. apply bool_decide_ext. naive_solver.
    + rewrite bool_decide_eq_false_2; [done|]. naive_solver.
Qed.

Lemma stringIsEqual_correct s rest buf len :
  nonzero s → 0 ≤ len ≤ lenZ buf →
  stringIsEqual (Some (s ++ 0 :: rest)) buf len
  = Ok (bool_decide (s = rtrim (take (Z.to_nat len) buf))).
Proof.
  intros Hs Hlen. unfold stringIsEqual.
  destruct (trim_loop_spec buf (Z.to_nat len)) as (m & -> & Hle & <-); [lia|].
  apply equal_loop_spec; [done|lia].
Qed.

Lemma stringIsEqual_null buf len :
  0 ≤ len ≤ lenZ buf →
  stringIsEqual None buf len = Ok (bool_decide (rtrim (take (Z.to_nat len) buf) = [])).
Proof.
  intros Hlen. unfold stringIsEqual.
  destruct (trim_loop_spec buf (Z.to_nat len)) as (m & -> & Hle & <-); [lia|].
  f_equal. apply bool_decide_ext. destruct m; [done|].
  destruct buf; simpl in *; [lia|]. done.
Qed.

(** ** stringParseOctal *)

Lemma skip_spaces_spec k str n :
  (∀ c str', str = c :: str' → c ≠ SPACE) → (n = O ∨ str ≠ []) →
  skip_spaces (replicate k SPACE ++ str) (k + n) = Ok (str, n).
Proof.
  intros Hc Hn. induction k as [|k IH]; simpl; [|done].
  destruct n as [|n]; [done|]. destruct str as [|c str']; [by destruct Hn|].
  simpl. destruct (Z.eqb_spec c SPACE); [|done]. by destruct (Hc c str').
Qed.

Lemma octal_step value d :
  is_u32 value → 0 ≤ d < 8 → Z.lor (u32 (Z.shiftl value 3)) d = u32 (8 * value + d).
Proof.
  intros Hv Hd.
  replace (u32 (Z.shiftl value 3)) with (Z.shiftl (value mod 2 ^ 29) 3).
  - rewrite lor_shiftl_low by lia. ulia.
  - rewrite !Z.shiftl_mul_pow2 by done. ulia.
Qed.

Lemma octal_digits_spec ds str n value :
  Forall (λ d, 0 ≤ d < 8) ds → is_u32 value →
  (∀ c str', str = c :: str' → ¬ (CHAR0 ≤ c < CHAR8)) → (n = O ∨ str ≠ []) →
  octal_digits ((digit_char <$> ds) ++ str) (length ds + n) value
  = Ok (str, n, u32 (fold_left (λ v d, 8 * v + d) ds value)).
Proof.
  intros Hds Hv Hc Hn. revert value Hv.
  induction Hds as [|d ds Hd Hds IH]; intros value Hv; simpl.
  - rewrite u32_small by done. destruct n as [|n]; [done|].
    destruct str as [|c str']; [by destruct Hn|]. simpl.
    destruct (Z.leb_spec CHAR0 c), (Z.ltb_spec c CHAR8); simpl; try done.
    exfalso. by eapply Hc.
  - unfold digit_char at 1 2, CHAR0, CHAR8.
    destruct (Z.leb_spec 48 (48 + d)), (Z.ltb_spec (48 + d) 56); try lia. simpl.
    unfold digit_char, CHAR0. replace (48 + d - 48) with d by lia.
    rewrite octal_step by done.
    fold (digit_char <$> ds).
    etrans; [apply IH; apply u32_range|]. do 2 f_equal.
    clear. generalize (8 * value + d). intros v.
    assert (∀ ds v w, u32 v = u32 w →
      u32 (fold_left (λ v d, 8 * v + d) ds v) = u32 (fold_left (λ v d, 8 * v + d) ds w)) as Hf.
    { clear. induction ds as [|d ds IH]; intros v w E; simpl; [done|]. apply IH. ulia. }
    apply Hf. ulia.
Qed.

(** What may follow the number: the end of the field or a null. *)
Definition field_end (tail : list Z) : Prop := tail = [] ∨ ∃ t, tail = 0 :: t.

Lemma field_end_skip m tail :
  field_end tail →
  skip_spaces (replicate m SPACE ++ tail) (m + length tail) = Ok (tail, length tail).
Proof.
  intros Ht. apply skip_spaces_spec.
  - intros c str' ->. destruct Ht as [|[t [= -> ->]]]; done.
  - destruct Ht as [->|[t ->]]; [by left|by right].
Qed.

Lemma stringParseOctal_correct k ds m tail :
  ds ≠ [] → Forall (λ d, 0 ≤ d < 8) ds → field_end tail →
  let field := replicate k SPACE ++ (digit_char <$> ds) ++ replicate m SPACE ++ tail in
  stringParseOctal field (lenZ field) = Ok (u32 (octal_value ds)).
Proof.
  intros Hne Hds Ht field. unfold stringParseOctal. rewrite Nat2Z.id.
  assert (length field = k + (length ds + (m + length tail)))%nat as ->.
  { unfold field. by rewrite !length_app, !length_replicate, length_fmap. }
  unfold field. rewrite skip_spaces_spec.
  2: { destruct ds as [|d ds]; [done|]. inversion_clear Hds. simpl.
       intros c str' [= <- <-]. unfold digit_char, CHAR0, SPACE. lia. }
  2: { right. by destruct ds. }
  rewrite octal_digits_spec; [|done|ulia| |].
  - rewrite field_end_skip by done. by destruct Ht as [->|[t ->]].
  - intros c str' E. destruct m as [|m]; simpl in E.
    + destruct Ht as [->|[t ->]]; simplify_eq. unfold CHAR0, CHAR8. lia.
    + simplify_eq. unfold SPACE, CHAR0, CHAR8. lia.
  - destruct m; simpl; [|by right]. destruct Ht as [->|[t ->]]; [by left|by right].
Qed.

(** A character that is neither an octal digit, a blank nor the end is rejected. *)
Lemma stringParseOctal_garbage k ds m c t :
  ds ≠ [] → Forall (λ d, 0 ≤ d < 8) ds → c ≠ 0 → c ≠ SPACE →
  (m = O → ¬ (CHAR0 ≤ c < CHAR8)) →
  let field := replicate k SPACE ++ (digit_char <$> ds) ++ replicate m SPACE ++ c :: t in
  stringParseOctal field (lenZ field) = Ok ERR.
Proof.
  intros Hne Hds Hc0 Hcs Hcd field. unfold stringParseOctal. rewrite Nat2Z.id.
  assert (length field = k + (length ds + (m + S (length t))))%nat as ->.
  { unfold field. by rewrite !length_app, !length_replicate, length_fmap. }
  unfold field. rewrite skip_spaces_spec.
  2: { destruct ds as [|d ds]; [done|]. inversion_clear Hds. simpl.
       intros c' str' [= <- <-]. unfold digit_char, CHAR0, SPACE. lia. }
  2: { right. by destruct ds. }
  rewrite octal_digits_spec; [|done|ulia| |by destruct m; right].
  - rewrite skip_spaces_spec; [|naive_solver|by right].
    destruct (Z.eqb_spec c 0); done.
  - intros c' str' E. destruct m as [|m]; simpl in E; simplify_eq; [by apply Hcd|].
    unfold SPACE, CHAR0, CHAR8. lia.
Qed.

Lemma octal_field_value w n :
  0 ≤ n < 8 ^ Z.of_nat w →
  Forall (λ d, 0 ≤ d < 8) (octal_field w n) ∧ octal_value (octal_field w n) = n.
Proof. intros. split; [by apply digits_range|by apply digits_value_spec]. Qed.


(** [stringParseOctal] reads back the number a tar archiver wrote into a
    fixed-width header field: [w] octal digits, zero padded, then the
    terminator. *)
Theorem stringParseOctal_roundtrip w n :
  (0 < w)%nat → 0 ≤ n < 8 ^ Z.of_nat w → n < 4294967296 →
  stringParseOctal (tar_field w n) (Z.of_nat w + 1) = Ok n.
Proof.
  intros Hw Hn Hu. destruct (octal_field_value w n Hn) as [Hds Hv].
  pose proof (stringParseOctal_correct 0 (octal_field w n) 0 [0]) as Hp. simpl in Hp.
  assert (length (octal_field w n) = w) as Hlen by apply length_digits.
  rewrite length_app, length_fmap, Hlen in Hp. simpl in Hp.
  unfold tar_field. replace (Z.of_nat w + 1) with (Z.of_nat (w + 1)) by lia.
  rewrite Hp, Hv, u32_small; [done|ulia| |done|right; by eexists].
  intros E. apply (f_equal length) in E. rewrite Hlen in E. simpl in E. lia.
Qed.

Lemma stringParseOctal_roundtrip_witness :
  stringParseOctal [48; 48; 48; 49; 50; 51; 0] 7 = Ok 83.
Proof. apply (stringParseOctal_roundtrip 6 83); lia. Defined.
End Str.

Module Mem.
Abbreviation mem := (gmap Z Z).

Definition load (a : Z) : M mem Z :=
  let* m := get in deref (m !! a) "load: unmapped address".

Definition store (a v : Z) : M mem unit :=
  let* m := get in
  match m !! a with
  | Some _ => put (<[a := v]> m)
  | None => undef "store: unmapped address"
  end.

(** [while (num--) *dst++ = value;] *)
Fixpoint memset_loop (num : nat) (dst value : Z) : M mem unit :=
  match num with
  | O => mret tt
  | S n => store dst (u8 value) ;; memset_loop n (u32 (dst + 1)) value
  end.

Definition memset (ptr value num : Z) : M mem Z :=
  memset_loop (Z.to_nat num) ptr value ;; mret ptr.

(** [while (num--) *dst++ = *src++;] *)
Fixpoint memcpy_loop (num : nat) (dst src : Z) : M mem unit :=
  match num with
  | O => mret tt
  | S n =>
      let* c := load src in
      store dst c ;; memcpy_loop n (u32 (dst + 1)) (u32 (src + 1))
  end.

Definition memcpy (destination source num : Z) : M mem Z :=
  memcpy_loop (Z.to_nat num) destination source ;; mret destination.

(** [while (num--) *dst-- = *src--;] *)
Fixpoint memmove_loop (num : nat) (dst src : Z) : M mem unit :=
  match num with
  | O => mret tt
  | S n =>
      let* c := load src in
      store dst c ;; memmove_loop n (u32 (dst - 1)) (u32 (src - 1))
  end.

Definition memmove (destination source num : Z) : M mem Z :=
  if (destination <? source) || (u32 (source + num) <=? destination)
  then memcpy destination source num
  else if negb (destination =? source)
  then
    memmove_loop (Z.to_nat num) (u32 (destination + num - 1)) (u32 (source + num - 1)) ;;
    mret destination
  else mret destination.

(** ** Specification *)

Definition block (m : mem) (a n : Z) : Prop := ∀ i, 0 ≤ i < n → is_Some (m !! (a + i)).

(** [copied m m' dst src n]: [m'] is [m] with [n] bytes at [dst] replaced by
    the bytes [m] had at [src]. *)
Definition copied (m m' : mem) (dst src n : Z) : Prop :=
  (∀ i, 0 ≤ i < n → m' !! (dst + i) = m !! (src + i)) ∧
  (∀ a, a < dst ∨ dst + n ≤ a → m' !! a = m !! a).

Lemma block_store m a n x v : block m a n → block (<[x := v]> m) a n.
Proof.
  intros Hb i Hi. destruct (decide (x = a + i)) as [->|];
    [rewrite lookup_insert_eq; eauto | rewrite lookup_insert_ne by done; by apply Hb].
Qed.

Lemma wp_load m a v Q : m !! a = Some v → Q v m → wp (load a) m Q.
Proof. intros Ha HQ. unfold load. wp_steps. by eapply wp_deref. Qed.

Lemma wp_store m a v Q : is_Some (m !! a) → Q tt (<[a := v]> m) → wp (store a v) m Q.
Proof. intros [w Ha] HQ. unfold store. wp_steps. rewrite Ha. by wp_steps. Qed.

(** One step of a copy loop, followed by the rest of the block. *)
Lemma copied_cons m m' v dst src n :
  0 ≤ n → m !! src = Some v → (dst ≤ src ∨ src + (n + 1) ≤ dst) →
  copied (<[dst := v]> m) m' (dst + 1) (src + 1) n → copied m m' dst src (n + 1).
Proof.
  intros Hn Hv Hd [Hc Ho]. split.
  - intros i Hi. destruct (decide (i = 0)) as [->|].
    + rewrite !Z.add_0_r, Ho, Hv by lia. apply lookup_insert_eq.
    + replace (dst + i) with (dst + 1 + (i - 1)) by lia.
      rewrite Hc, lookup_insert_ne by lia. f_equal; lia.
  - intros a Ha. rewrite Ho, lookup_insert_ne by lia. done.
Qed.

Lemma copied_snoc m m' v dst src n :
  0 ≤ n → m !! (src + n) = Some v → src ≤ dst →
  copied (<[dst + n := v]> m) m' dst src n → copied m m' dst src (n + 1).
Proof.
  intros Hn Hv Hd [Hc Ho]. split.
  - intros i Hi. destruct (decide (i = n)) as [->|].
    + rewrite Ho, Hv by lia. apply lookup_insert_eq.
    + rewrite Hc, lookup_insert_ne by lia. done.
  - intros a Ha. rewrite Ho, lookup_insert_ne by lia. done.
Qed.

Lemma memcpy_loop_spec n m dst src :
  block m dst (Z.of_nat n) → block m src (Z.of_nat n) →
  0 ≤ dst → 0 ≤ src → dst + Z.of_nat n ≤ 4294967296 → src + Z.of_nat n ≤ 4294967296 →
  (dst ≤ src ∨ src + Z.of_nat n ≤ dst) →
  wp (memcpy_loop n dst src) m (λ _ m', copied m m' dst src (Z.of_nat n)).
Proof.
  revert m dst src. induction n as [|n IH]; intros m dst src Hd Hs ? ? ? ? Hov; simpl.
  { wp_steps. split; [intros; lia|done]. }
  destruct (Hs 0) as [v Hv]; [lia|]. rewrite Z.add_0_r in Hv.
  wp_steps. apply (wp_load _ _ _ _ Hv). wp_steps.
  apply wp_store; [by specialize (Hd 0); rewrite Z.add_0_r in Hd; apply Hd; lia|].
  destruct n as [|n].
  { simpl. wp_steps. apply (copied_cons _ _ v dst src 0); [lia|done|lia|]. split; [lia|done]. }
  rewrite !u32_small by ulia. eapply wp_mono.
  - apply IH; try lia; apply block_store.
    + intros i Hi. rewrite <-Z.add_assoc. apply Hd. lia.
    + intros i Hi. rewrite <-Z.add_assoc. apply Hs. lia.
  - intros ? m' Hc. replace (Z.of_nat (S (S n))) with (Z.of_nat (S n) + 1) by lia.
    eapply copied_cons; [lia|done|lia|done].
Qed.

Lemma memmove_loop_spec n m dst src :
  block m dst (Z.of_nat n) → block m src (Z.of_nat n) →
  0 ≤ src ≤ dst → dst + Z.of_nat n ≤ 4294967296 →
  wp (memmove_loop n (u32 (dst + Z.of_nat n - 1)) (u32 (src + Z.of_nat n - 1))) m
    (λ _ m', copied m m' dst src (Z.of_nat n)).
Proof.
  revert m. induction n as [|n IH]; intros m Hd Hs ??; simpl.
  { wp_steps. split; [intros; lia|done]. }
  rewrite !(u32_small (_ + Z.of_nat (S n) - 1)) by ulia.
  replace (dst + Z.of_nat (S n) - 1) with (dst + Z.of_nat n) by lia.
  replace (src + Z.of_nat (S n) - 1) with (src + Z.of_nat n) by lia.
  destruct (Hs (Z.of_nat n)) as [v Hv]; [lia|].
  wp_steps. apply (wp_load _ _ _ _ Hv). wp_steps.
  apply wp_store; [apply Hd; lia|].
  eapply wp_mono.
  - apply IH; try lia; apply block_store; intros i Hi; [apply Hd|apply Hs]; lia.
  - intros ? m' Hc. replace (Z.of_nat (S n)) with (Z.of_nat n + 1) by lia.
    eapply copied_snoc; [lia|done|lia|done].
Qed.

(** [memset] fills the block and touches nothing else. *)
Lemma memset_loop_spec n m dst v :
  block m dst (Z.of_nat n) → 0 ≤ dst → dst + Z.of_nat n ≤ 4294967296 →
  wp (memset_loop n dst v) m (λ _ m',
    (∀ i, 0 ≤ i < Z.of_nat n → m' !! (dst + i) = Some (u8 v)) ∧
    (∀ a, a < dst ∨ dst + Z.of_nat n ≤ a → m' !! a = m !! a)).
Proof.
  revert m dst. induction n as [|n IH]; intros m dst Hd ??; simpl.
  { wp_steps. split; [intros; lia|done]. }
  wp_steps. apply wp_store; [by specialize (Hd 0); rewrite Z.add_0_r in Hd; apply Hd; lia|].
  destruct n as [|n].
  { simpl. wp_steps. split; intros i Hi.
    - replace (dst + i) with dst by lia. apply lookup_insert_eq.
    - by rewrite lookup_insert_ne by lia. }
  rewrite !u32_small by ulia. eapply wp_mono.
  - apply IH; try lia. apply block_store. intros i Hi. rewrite <-Z.add_assoc. apply Hd. lia.
  - intros ? m' [Hf Ho]. split.
    + intros i Hi. destruct (decide (i = 0)) as [->|].
      * rewrite Z.add_0_r, Ho by lia. apply lookup_insert_eq.
      * replace (dst + i) with (dst + 1 + (i - 1)) by lia. apply Hf. lia.
    + intros x Hx. rewrite Ho, lookup_insert_ne by lia. done.
Qed.

(** C28: [memmove] copies the [n] bytes at [src] to [dst] as they were before
    the call, whether or not the two blocks overlap, and changes nothing else. *)
Theorem memmove_correct m dst src n :
  block m dst n → block m src n → 0 ≤ n →
  0 ≤ dst → 0 ≤ src → dst + n ≤ 4294967296 → src + n < 4294967296 →
  wp (memmove dst src n) m (λ r m', r = dst ∧ copied m m' dst src n).
Proof.
  intros Hd Hs Hn Hd0 Hs0 Hdn Hsn. unfold memmove, memcpy.
  replace n with (Z.of_nat (Z.to_nat n)) in * by lia.
  set (k := Z.to_nat n) in *. clearbody k.
  rewrite (u32_small (src + _)) by ulia. rewrite Nat2Z.id.
  destruct ((dst <? src) || (src + Z.of_nat k <=? dst)) eqn:E.
  - wp_steps. eapply wp_mono; [apply memcpy_loop_spec; (done || lia)|].
    intros ? m' Hc. by wp_steps.
  - destruct (Z.eqb_spec dst src) as [->|]; simpl.
    + wp_steps. split; [done|]. split; done.
    + wp_steps. eapply wp_mono; [apply memmove_loop_spec; (done || lia)|].
      intros ? m' Hc. by wp_steps.
Qed.

(** Two overlapping blocks of four bytes, moved up and down by one. *)
Definition sample : mem := list_to_map (zip (seqZ 100 6) [1; 2; 3; 4; 5; 6]).

Lemma block_check m a n :
  bool_decide (Forall (λ i, is_Some (m !! (a + i))) (seqZ 0 n)) = true → block m a n.
Proof.
  rewrite bool_decide_eq_true, Forall_forall. intros H i Hi. apply H, elem_of_seqZ. lia.
Qed.

Lemma memmove_correct_witness :
  wp (memmove 101 100 4) sample (λ r m', r = 101 ∧ copied sample m' 101 100 4).
Proof. apply memmove_correct; try lia; apply block_check; by vm_compute. Defined.
End Mem.
