(* ===== verification/BootMap.v ===== *)
(** * paging.c: the boot map

    Models the array [pagingBootMap] of src/kernelmode/kernel/memory/paging.c:
    the ranges of physical pages that are mapped to the same virtual pages when
    paging is enabled. The array up to [pagingNumBootMaps] is a list. *)

From S2P Require Import Prelude.
Open Scope Z_scope.

Definition MAX_BOOT_ENTRIES := 1024.

Record bootMapEntry := BootMapEntry { startIndex : Z; length_ : Z }.

(** [startIndex + length] in 32 bits. *)
Definition entry_end (e : bootMapEntry) : Z := u32 (startIndex e + length_ e).

Record bootMap := BootMap {
  pagingBootMap : list bootMapEntry;
  pagingInitialized : bool;
}.

Abbreviation BM := (M bootMap).

(** The loop of [pagingInsertBootMap] from index [mapIndex] on: where the new
    entry goes, its bounds, and the map without the entries it replaces;
    [None]: there is nothing to do. *)
Fixpoint insert_scan (fuel : nat) (l : list bootMapEntry) (mapIndex : nat) (start stop : Z)
    : outcome (option (nat * Z * Z * list bootMapEntry)) :=
  match fuel with
  | O => NoFuel
  | S fuel =>
      match l !! mapIndex with
      | None => Ok (Some (mapIndex, start, stop, l))
      | Some e =>
          if stop <? startIndex e then Ok (Some (mapIndex, start, stop, l))
          else if entry_end e <? start then insert_scan fuel l (S mapIndex) start stop
          else if (startIndex e <=? start) && (stop <=? entry_end e) then Ok None
          else
            insert_scan fuel (delete mapIndex l) mapIndex
              (if startIndex e <? start then startIndex e else start)
              (if stop <? entry_end e then entry_end e else stop)
      end
  end.

Definition pagingInsertBootMap (start stop : Z) : BM unit :=
  let* b := get in
  assert (negb (pagingInitialized b)) "!pagingInitialized" ;;
  match insert_scan (S (length (pagingBootMap b))) (pagingBootMap b) 0 start stop with
  | Ok None => mret tt
  | Ok (Some (mapIndex, start, stop, l)) =>
      assert (lenZ l <? MAX_BOOT_ENTRIES) "pagingNumBootMaps < MAX_BOOT_ENTRIES" ;;
      put (BootMap (take mapIndex l ++ BootMapEntry start (u32 (stop - start)) :: drop mapIndex l) (pagingInitialized b))
  | _ => no_fuel
  end.

Fixpoint bootmap_check (l : list bootMapEntry) (start stop : Z) : bool :=
  match l with
  | [] => false
  | e :: l =>
      if stop <=? startIndex e then false
      else if entry_end e <=? start then bootmap_check l start stop
      else true
  end.

Definition __pagingBootMapCheck (start stop : Z) : BM bool :=
  gets (λ b, bootmap_check (pagingBootMap b) start stop).

(** ** The pages of a boot map *)

Definition covers (l : list bootMapEntry) (i : Z) : Prop :=
  ∃ e, e ∈ l ∧ startIndex e ≤ i < startIndex e + length_ e.

(** The invariant: entries are in range, in order, and with a gap of at least
    one page between them. *)
Fixpoint ordered_from (lo : Z) (l : list bootMapEntry) : Prop :=
  match l with
  | [] => True
  | e :: l => lo ≤ startIndex e ∧ 0 ≤ length_ e ∧ startIndex e + length_ e ≤ PAGE_COUNT ∧
              ordered_from (startIndex e + length_ e + 1) l
  end.

Definition bootmap_ok (l : list bootMapEntry) : Prop := ordered_from 0 l.

Lemma ordered_from_le lo lo' l : lo' ≤ lo → ordered_from lo l → ordered_from lo' l.
Proof. destruct l; simpl; [done|]. intros ? (?&?&?&?). split_and!; (done || lia). Qed.

Lemma ordered_from_elem lo l e : ordered_from lo l → e ∈ l → lo ≤ startIndex e ∧ 0 ≤ length_ e ∧ startIndex e + length_ e ≤ PAGE_COUNT.
Proof.
  revert lo. induction l as [|e' l IH]; intros lo; [by intros _ ?%not_elem_of_nil|].
  intros (Hs & Hl & Hp & Ho) [->|He]%elem_of_cons; [done|].
  destruct (IH _ Ho He) as (? & ? & ?). split_and!; lia.
Qed.

(** A map in two parts, with nothing between [a] and [b]. *)
Lemma ordered_from_app lo l1 l2 :
  ordered_from lo (l1 ++ l2) ↔
  ordered_from lo l1 ∧ ordered_from lo l2 ∧
  ∀ e, e ∈ l1 → ordered_from (startIndex e + length_ e + 1) l2.
Proof.
  revert lo. induction l1 as [|e l1 IH]; intros lo; simpl.
  - split; [intros; split_and!; [done|done|by intros ? ?%not_elem_of_nil]|by intros (_ & ? & _)].
  - rewrite IH. split.
    + intros (Hs & Hl & Hp & H1 & H2 & H3). split_and!; try done.
      * eapply ordered_from_le; [|done]. lia.
      * intros e' [->|He]%elem_of_cons; [done|by apply H3].
    + intros ((Hs & Hl & Hp & H1) & H2 & H3). split_and!; try done.
      * apply H3. by left.
      * intros e' He. apply H3. by right.
Qed.

Lemma entry_end_small lo l e : 0 ≤ lo → ordered_from lo l → e ∈ l → entry_end e = startIndex e + length_ e.
Proof.
  intros Hlo Ho He. destruct (ordered_from_elem _ _ _ Ho He) as (? & ? & ?).
  unfold entry_end. apply u32_small. unfold is_u32, PAGE_COUNT in *. lia.
Qed.

Lemma covers_app l1 l2 i : covers (l1 ++ l2) i ↔ covers l1 i ∨ covers l2 i.
Proof. unfold covers. setoid_rewrite elem_of_app. naive_solver. Qed.

Lemma covers_cons e l i : covers (e :: l) i ↔ startIndex e ≤ i < startIndex e + length_ e ∨ covers l i.
Proof. unfold covers. setoid_rewrite elem_of_cons. naive_solver. Qed.

Lemma covers_nil i : ¬ covers [] i.
Proof. by intros (e & ?%not_elem_of_nil & _). Qed.

(** ** Inserting *)

(** The loop, with the entries before [mapIndex] as [l1], the others as [l2]. *)
Lemma insert_scan_spec l2 : ∀ fuel l1 start stop,
  (length l2 < fuel)%nat → bootmap_ok (l1 ++ l2) → 0 ≤ start ≤ stop → stop ≤ PAGE_COUNT →
  (∀ e, e ∈ l1 → startIndex e + length_ e < start) →
  ∃ res, insert_scan fuel (l1 ++ l2) (length l1) start stop = Ok res ∧
  match res with
  | None => ∀ i, start ≤ i < stop → covers (l1 ++ l2) i
  | Some (m, start', stop', l) => ∃ l1' l2', l = l1' ++ l2' ∧ m = length l1' ∧
      bootmap_ok (l1' ++ BootMapEntry start' (stop' - start') :: l2') ∧ start' ≤ stop' ∧ stop' ≤ PAGE_COUNT ∧ 0 ≤ start' ∧
      (length l ≤ length (l1 ++ l2))%nat ∧
      ∀ i, covers (l1' ++ BootMapEntry start' (stop' - start') :: l2') i ↔ covers (l1 ++ l2) i ∨ start ≤ i < stop
  end.
Proof.
  induction l2 as [|e l2 IH]; intros fuel l1 start stop Hf Hok Hs Hst Hl1; (destruct fuel as [|fuel]; [simpl in Hf; lia|]);
    cbn [insert_scan].
  - rewrite app_nil_r in *. rewrite lookup_ge_None_2 by lia. eexists. split; [done|]. exists l1, [].
    rewrite app_nil_r. split_and!; (done || lia || idtac).
    + apply ordered_from_app. split_and!; [done|simpl; split_and!; (done || lia)|].
      intros e He. specialize (Hl1 e He). simpl. split_and!; (done || lia).
    + intros i. rewrite covers_app, covers_cons. simpl. pose proof (covers_nil i). intuition lia.
  - rewrite list_lookup_middle by done.
    assert (Hend : entry_end e = startIndex e + length_ e).
    { eapply entry_end_small; [|exact Hok|set_solver]. done. }
    pose proof (ordered_from_elem _ _ e Hok ltac:(set_solver)) as (He0 & Hel & Hep). rewrite Hend.
    unfold bootmap_ok in *. apply ordered_from_app in Hok as (Ho1 & Ho2 & Ho12). simpl in Ho2.
    destruct Ho2 as (_ & _ & _ & Ho2).
    destruct (Z.ltb_spec stop (startIndex e)) as [Hbefore|Hnb].
    + eexists. split; [done|]. exists l1, (e :: l2). split_and!; (done || lia || idtac).
      * apply ordered_from_app. split_and!; [done|simpl; split_and!; (done || lia || (eapply ordered_from_le; [|done]; lia))|].
        intros e' He'. specialize (Hl1 e' He'). simpl. split_and!; (done || lia).
      * intros i. rewrite !covers_app, covers_cons. simpl. intuition lia.
    + destruct (Z.ltb_spec (startIndex e + length_ e) start) as [Hafter|Hna].
      * destruct (IH fuel (l1 ++ [e]) start stop) as (res & Hr & Hpost).
        -- simpl in Hf. lia.
        -- rewrite <-app_assoc. apply ordered_from_app. simpl. split_and!; (done || lia).
        -- done.
        -- done.
        -- intros e' [He'| ->%list_elem_of_singleton]%elem_of_app; [by apply Hl1|done].
        -- rewrite length_app, Nat.add_1_r, <-app_assoc in Hr. simpl in Hr. exists res. split; [exact Hr|].
           by rewrite <-app_assoc in Hpost.
      * destruct ((startIndex e <=? start) && (stop <=? startIndex e + length_ e)) eqn:Hin.
        -- exists None. split; [done|]. intros i Hi. apply covers_app. right. apply covers_cons. left.
           apply andb_true_iff in Hin as [?%Z.leb_le ?%Z.leb_le]. lia.
        -- assert (delete (length l1) (l1 ++ e :: l2) = l1 ++ l2) as ->.
           { rewrite delete_middle. done. }
           set (start1 := if startIndex e <? start then startIndex e else start).
           set (stop1 := if stop <? startIndex e + length_ e then startIndex e + length_ e else stop).
           assert (start1 = Z.min (startIndex e) start ∧ stop1 = Z.max (startIndex e + length_ e) stop) as [E1 E2].
           { subst start1 stop1. destruct (Z.ltb_spec (startIndex e) start), (Z.ltb_spec stop (startIndex e + length_ e)); lia. }
           destruct (IH fuel l1 start1 stop1) as (res & Hr & Hpost).
           ++ simpl in Hf. lia.
           ++ apply ordered_from_app. split_and!; [done| |].
              ** eapply ordered_from_le; [|done]. lia.
              ** intros e' He'. destruct (Ho12 e' He') as (? & ? & ? & ?).
                 eapply ordered_from_le; [|done]. lia.
           ++ lia.
           ++ lia.
           ++ intros e' He'. destruct (Ho12 e' He') as (? & _). specialize (Hl1 e' He'). lia.
           ++ exists res. split; [exact Hr|]. destruct res as [[[[m s'] t'] l]|].
              ** destruct Hpost as (l1' & l2' & -> & -> & Hok' & Hst' & Htp & Hs0 & Hlen & Hcov). exists l1', l2'.
                 split_and!; try done.
                 { rewrite !length_app in *. simpl. lia. }
                 intros i. rewrite Hcov, !covers_app, covers_cons. intuition lia.
              ** intros i Hi. apply covers_app. rewrite covers_cons. specialize (Hpost i ltac:(lia)).
                 apply covers_app in Hpost. tauto.
Qed.

Lemma wp_insert b start stop (Q : unit → bootMap → Prop) :
  pagingInitialized b = false → bootmap_ok (pagingBootMap b) → lenZ (pagingBootMap b) < MAX_BOOT_ENTRIES →
  0 ≤ start ≤ stop → stop ≤ PAGE_COUNT →
  (∀ l, bootmap_ok l → lenZ l ≤ lenZ (pagingBootMap b) + 1 →
     (∀ i, covers l i ↔ covers (pagingBootMap b) i ∨ start ≤ i < stop) → Q tt (BootMap l false)) →
  wp (pagingInsertBootMap start stop) b Q.
Proof.
  intros Hi Hok Hlen Hs Hst HQ. unfold pagingInsertBootMap. wp_steps; [by rewrite Hi|].
  destruct (insert_scan_spec (pagingBootMap b) (S (length (pagingBootMap b))) [] start stop) as (res & Hr & Hpost);
    [lia|done|done|done|by intros ? ?%not_elem_of_nil|].
  cbn [app length] in Hr, Hpost. rewrite Hr, Hi. destruct res as [[[[m s] t] l]|].
  - destruct Hpost as (l1 & l2 & -> & -> & Hok' & Hst' & Htp & Hs0 & Hl & Hcov). wp_steps; [apply Z.ltb_lt; lia|].
    rewrite take_app_length, drop_app_length, u32_small by (unfold is_u32, PAGE_COUNT in *; lia). apply HQ; [done| |done].
    rewrite !length_app in *. simpl. lia.
  - wp_step. destruct b as [l []]; [done|]. apply HQ; [done|simpl; lia|]. intros i. specialize (Hpost i). tauto.
Qed.

(** C40: Inserting a range of pages into a boot map. An insertion that does not
    run into the limit of 1024 entries returns; the map covers what it covered
    before and the new range, and the entries are again in order with a gap
    between them, so that no page belongs to two entries. *)
Theorem pagingInsertBootMap_correct b start stop :
  pagingInitialized b = false → bootmap_ok (pagingBootMap b) → lenZ (pagingBootMap b) < MAX_BOOT_ENTRIES →
  0 ≤ start ≤ stop → stop ≤ PAGE_COUNT →
  wp (pagingInsertBootMap start stop) b (λ _ b',
    pagingInitialized b' = false ∧ bootmap_ok (pagingBootMap b') ∧
    ∀ i, covers (pagingBootMap b') i ↔ covers (pagingBootMap b) i ∨ start ≤ i < stop).
Proof. intros. by apply wp_insert. Qed.

Definition sample_map : bootMap := BootMap [BootMapEntry 16 4; BootMapEntry 100 10; BootMapEntry 200 1] false.

Lemma pagingInsertBootMap_correct_witness :
  wp (pagingInsertBootMap 18 105) sample_map (λ _ b',
    pagingInitialized b' = false ∧ bootmap_ok (pagingBootMap b') ∧
    ∀ i, covers (pagingBootMap b') i ↔ covers (pagingBootMap sample_map) i ∨ 18 ≤ i < 105).
Proof.
  refine (pagingInsertBootMap_correct sample_map 18 105 eq_refl _ _ _ _); vm_compute; intuition discriminate.
Defined.

(** [__pagingBootMapCheck] finds an entry that begins before [stop] and ends
    after [start]. *)
Lemma bootmap_check_spec lo l start stop :
  0 ≤ lo → ordered_from lo l →
  bootmap_check l start stop = true ↔ ∃ e, e ∈ l ∧ startIndex e < stop ∧ start < startIndex e + length_ e.
Proof.
  revert lo. induction l as [|e l IH]; intros lo Hlo Hok; simpl.
  { split; [done|by intros (? & ?%not_elem_of_nil & _)]. }
  rewrite (entry_end_small lo (e :: l)) by (done || by left). destruct Hok as (He0 & Hl & Hp & Hok).
  destruct (Z.leb_spec stop (startIndex e)) as [Hb|Hb].
  - split; [done|]. intros (e' & [->|He']%elem_of_cons & H1 & H2); [lia|].
    destruct (ordered_from_elem _ _ _ Hok He') as (? & _). lia.
  - destruct (Z.leb_spec (startIndex e + length_ e) start) as [Ha|Ha].
    + rewrite (IH (startIndex e + length_ e + 1)) by (done || lia). split.
      * intros (e' & He' & ?). exists e'. split; [by right|done].
      * intros (e' & [->|He']%elem_of_cons & H1 & H2); [lia|]. by exists e'.
    + split; [|done]. intros _. exists e. split; [by left|lia].
Qed.
