(* ===== verification/LinkedList.v ===== *)
(** * list.h: circular doubly linked lists

    Models [struct linkedList] and the inline functions and iteration macro of
    src/kernelmode/kernel/include/util/list.h on a store of nodes, and proves
    that they implement the queues the rest of the kernel thinks in: a finite
    map from list heads to the sequence of their elements. *)

From S2P Require Import Prelude.
Open Scope Z_scope.

(** [struct linkedList]: the two link fields. *)
Record linkedList (node : Type) := LinkedList { next : node; prev : node }.
Arguments LinkedList {node} _ _.
Arguments next {node} _.
Arguments prev {node} _.

(** The queues the nodes stand for: the elements behind each head, in order. *)
Abbreviation queues node := (gmap node (list node)).

(** ** The operations on the store of nodes *)

Section Ops.
Context {node : Type} `{Countable node}.

Abbreviation store := (gmap node (linkedList node)).

Definition get_next (n : node) : M store node :=
  let* h := get in let* l := deref (h !! n) "list: dangling pointer" in mret (next l).

Definition get_prev (n : node) : M store node :=
  let* h := get in let* l := deref (h !! n) "list: dangling pointer" in mret (prev l).

Definition set_next (n x : node) : M store unit :=
  let* h := get in let* l := deref (h !! n) "list: dangling pointer" in
  put (<[n := LinkedList x (prev l)]> h).

Definition set_prev (n x : node) : M store unit :=
  let* h := get in let* l := deref (h !! n) "list: dangling pointer" in
  put (<[n := LinkedList (next l) x]> h).

Definition ll_init (list : node) : M store unit :=
  set_next list list ;; set_prev list list.

Definition ll_empty (list : node) : M store bool :=
  let* n := get_next list in mret (bool_decide (n = list)).

Definition ll_add_after (list element : node) : M store unit :=
  let* n := get_next list in
  set_next element n ;;
  set_prev element list ;;
  let* n := get_next list in
  set_prev n element ;;
  set_next list element.

Definition ll_add_before (list element : node) : M store unit :=
  set_next element list ;;
  let* p := get_prev list in
  set_prev element p ;;
  let* p := get_prev list in
  set_next p element ;;
  set_prev list element.

Definition ll_remove (element : node) : M store node :=
  let* n := get_next element in
  let* p := get_prev element in
  set_prev n p ;;
  let* p := get_prev element in
  let* n := get_next element in
  set_next p n ;;
  mret element.

(** The loop of LL_FOR_EACH_SAFE around [body]; one unit of fuel per test of
    the loop condition. *)
Fixpoint ll_for_each_loop (fuel : nat) (list : node) (body : node → M store unit)
    (element next_element : node) : M store unit :=
  match fuel with
  | O => no_fuel
  | S fuel =>
      if decide (element = list) then mret tt
      else
        body element ;;
        let* n := get_next next_element in
        ll_for_each_loop fuel list body next_element n
  end.

Definition ll_for_each_safe (fuel : nat) (list : node) (body : node → M store unit) : M store unit :=
  let* element := get_next list in
  let* next_element := get_next element in
  ll_for_each_loop fuel list body element next_element.

(** ** Queues *)

(** [chain h a xs b]: following [next] from [a] leads through [xs] to [b], and
    the [prev] pointers lead back. *)
Fixpoint chain (h : store) (a : node) (xs : list node) (b : node) : Prop :=
  match xs with
  | [] => (next <$> h !! a) = Some b ∧ (prev <$> h !! b) = Some a
  | x :: xs' => (next <$> h !! a) = Some x ∧ (prev <$> h !! x) = Some a ∧ chain h x xs' b
  end.

(** [dlist h head xs]: a well formed circular list. *)
Definition dlist (h : store) (head : node) (xs : list node) : Prop :=
  NoDup (head :: xs) ∧ chain h head xs head.

(** The same operations on a map of queues. *)
Definition q_init (list : node) (qs : queues node) : queues node := <[list := []]> qs.

Fixpoint ins_after (r e : node) (xs : list node) : list node :=
  match xs with
  | [] => []
  | x :: xs => if decide (x = r) then x :: e :: xs else x :: ins_after r e xs
  end.

Fixpoint ins_before (r e : node) (xs : list node) : list node :=
  match xs with
  | [] => []
  | x :: xs => if decide (x = r) then e :: x :: xs else x :: ins_before r e xs
  end.

(** The reference node is the head of a queue or one of its elements. *)
Definition q_add_after (r element : node) (qs : queues node) : queues node :=
  map_imap (λ l xs, Some (if decide (r = l) then element :: xs else ins_after r element xs)) qs.
Definition q_add_before (r element : node) (qs : queues node) : queues node :=
  map_imap (λ l xs, Some (if decide (r = l) then xs ++ [element] else ins_before r element xs)) qs.
Definition q_without (element : node) (xs : list node) : list node :=
  filter (λ x, x ≠ element) xs.
Definition q_remove (element : node) (qs : queues node) : queues node :=
  q_without element <$> qs.

(** No node is used twice: as the head or the element of two queues. *)
Definition q_disjoint (qs : queues node) : Prop :=
  ∀ l1 l2 xs1 xs2 x, qs !! l1 = Some xs1 → qs !! l2 = Some xs2 →
    x ∈ l1 :: xs1 → x ∈ l2 :: xs2 → l1 = l2.

(** [represents h qs]: the node store [h] holds the queues [qs]. *)
Definition represents (h : store) (qs : queues node) : Prop :=
  (∀ l xs, qs !! l = Some xs → dlist h l xs) ∧ q_disjoint qs.

Definition free_node (qs : queues node) (x : node) : Prop :=
  map_Forall (λ l xs, x ∉ l :: xs) qs.

Definition linked (qs : queues node) (x : node) : Prop :=
  map_Exists (λ l xs, x ∈ l :: xs) qs.

(** The node behind [x]: [None] if [x] is not linked. *)
Definition q_next (x : node) (qs : queues node) : option node :=
  match qs !! x with
  | Some xs => Some (hd x xs)
  | None =>
      '(l, xs) ← snd <$> list_find (λ '(l, xs), x ∈ xs) (map_to_list qs);
      '(i, _) ← list_find (x =.) xs;
      Some (default l (xs !! S i))
  end.

(** One call of the interface, on the node store and on the queues. *)
Inductive ll_call :=
  | CallInit (list : node)
  | CallAddAfter (reference element : node)
  | CallAddBefore (reference element : node)
  | CallRemove (element : node).

Definition ll_exec (c : ll_call) : M store unit :=
  match c with
  | CallInit l => ll_init l
  | CallAddAfter r e => ll_add_after r e
  | CallAddBefore r e => ll_add_before r e
  | CallRemove e => ll_remove e ;; mret tt
  end.

(** [None]: the caller breaks the contract of the interface. *)
Definition q_exec (c : ll_call) (qs : queues node) : option (queues node) :=
  match c with
  | CallInit l => if decide (free_node qs l) then Some (q_init l qs) else None
  | CallAddAfter r e =>
      if decide (linked qs r ∧ free_node qs e) then Some (q_add_after r e qs) else None
  | CallAddBefore r e =>
      if decide (linked qs r ∧ free_node qs e) then Some (q_add_before r e qs) else None
  | CallRemove e =>
      if decide (map_Exists (λ _ xs, e ∈ xs) qs) then Some (q_remove e qs) else None
  end.

Fixpoint ll_execs (cs : list ll_call) : M store unit :=
  match cs with [] => mret tt | c :: cs => ll_exec c ;; ll_execs cs end.

Fixpoint q_execs (cs : list ll_call) (qs : queues node) : option (queues node) :=
  match cs with [] => Some qs | c :: cs => qs ← q_exec c qs; q_execs cs qs end.

Definition call_nodes (c : ll_call) : list node :=
  match c with CallInit l => [l] | CallAddAfter r e | CallAddBefore r e => [r; e] | CallRemove e => [e] end.

(** ** Frame and rotation *)

Implicit Types (h : store) (qs : queues node) (xs : list node).

Lemma chain_ext h h' a xs b :
  chain h a xs b → (∀ x, x ∈ a :: xs → next <$> h' !! x = next <$> h !! x) →
  (∀ x, x ∈ b :: xs → prev <$> h' !! x = prev <$> h !! x) → chain h' a xs b.
Proof.
  revert a. induction xs as [|x xs IH]; simpl; intros a Hc Hn Hp.
  - by rewrite Hn, Hp by set_solver.
  - destruct Hc as (? & ? & Hc). rewrite Hn, Hp by set_solver. split_and!; [done..|].
    apply IH; [done|set_solver..].
Qed.

Lemma dlist_ext h h' l xs :
  dlist h l xs → (∀ x, x ∈ l :: xs → h' !! x = h !! x) → dlist h' l xs.
Proof. intros [Hn Hc] E. split; [done|]. eapply chain_ext; [done|intros x ?; by rewrite E..]. Qed.

Lemma chain_app h a xs x ys b :
  chain h a (xs ++ x :: ys) b ↔ chain h a xs x ∧ chain h x ys b.
Proof. revert a. induction xs as [|y xs IH]; simpl; intros a; [tauto|]. rewrite IH. tauto. Qed.

Lemma chain_lookup h a xs b x : chain h a xs b → x ∈ a :: b :: xs → is_Some (h !! x).
Proof.
  revert a. induction xs as [|y xs IH]; simpl; intros a Hc Hx.
  - destruct Hc as [Ha Hb]. rewrite !elem_of_cons in Hx.
    destruct Hx as [->|[->|Hx]]; [|..|set_solver].
    + destruct (h !! a); eauto; done.
    + destruct (h !! b); eauto; done.
  - destruct Hc as (Ha & Hy & Hc). destruct (decide (x = a)) as [->|].
    + destruct (h !! a); eauto; done.
    + apply (IH y); [done|set_solver].
Qed.

(** A circular list may be read from any of its elements. *)
Lemma dlist_rotate h l xs x ys : dlist h l (xs ++ x :: ys) → dlist h x (ys ++ l :: xs).
Proof.
  intros [Hn Hc]. split.
  - assert (x :: ys ++ l :: xs ≡ₚ l :: xs ++ x :: ys) as ->; [|done].
    rewrite <-!Permutation_middle, Permutation_swap. by rewrite (Permutation_app_comm xs).
  - apply chain_app in Hc. apply chain_app. tauto.
Qed.

Lemma dlist_NoDup h l xs : dlist h l xs → NoDup (l :: xs).
Proof. by intros []. Qed.

Lemma dlist_lookup h l xs x : dlist h l xs → x ∈ l :: xs → is_Some (h !! x).
Proof. intros [_ Hc] ?. apply (chain_lookup _ _ _ _ _ Hc). set_solver. Qed.

Lemma dlist_next h l xs : dlist h l xs → next <$> h !! l = Some (hd l xs).
Proof. intros [_ Hc]. destruct xs; simpl in *; tauto. Qed.

Lemma dlist_prev h l xs : dlist h l xs → prev <$> h !! l = Some (List.last xs l).
Proof.
  intros [_ Hc]. destruct xs as [|x xs _] using rev_ind; [simpl in *; tauto|].
  apply chain_app in Hc. simpl in Hc. rewrite last_last. tauto.
Qed.

(** Linking [e] between [l] and its successor. *)
Lemma dlist_link h h' l xs e :
  dlist h l xs → e ∉ l :: xs →
  (∀ x, next <$> h' !! x = if decide (x = l) then Some e else
                           if decide (x = e) then Some (hd l xs) else next <$> h !! x) →
  (∀ x, prev <$> h' !! x = if decide (x = hd l xs) then Some e else
                           if decide (x = e) then Some l else prev <$> h !! x) →
  dlist h' l (e :: xs).
Proof.
  intros [Hnd Hc] He Hn Hp. split.
  { apply NoDup_cons in Hnd as [??]. repeat (apply NoDup_cons; split); set_solver. }
  assert (e ≠ hd l xs) by (destruct xs; set_solver).
  simpl. split_and!.
  - rewrite Hn. by rewrite decide_True.
  - rewrite Hp. rewrite decide_False, decide_True by done. done.
  - destruct xs as [|x xs]; simpl in *.
    + rewrite Hn, Hp, decide_False, !decide_True by set_solver. done.
    + apply NoDup_cons in Hnd as [? [??]%NoDup_cons].
      rewrite Hn, Hp, decide_False, !decide_True by set_solver. split_and!; [done..|].
      eapply chain_ext; [apply Hc|intros y ?; rewrite Hn|intros y ?; rewrite Hp];
        by rewrite !decide_False by set_solver.
Qed.

(** Linking the two neighbours of [e] past it. *)
Lemma dlist_unlink h h' e z zs :
  dlist h e (z :: zs) →
  (∀ x, next <$> h' !! x = if decide (x = List.last zs z) then Some z else next <$> h !! x) →
  (∀ x, prev <$> h' !! x = if decide (x = z) then Some (List.last zs z) else prev <$> h !! x) →
  dlist h' z zs.
Proof.
  intros [Hnd Hc] Hn Hp. apply NoDup_cons in Hnd as [He Hnd]. split; [done|].
  destruct zs as [|w ys _] using rev_ind; simpl in *.
  - by rewrite Hn, Hp, !decide_True.
  - rewrite last_last in *. destruct Hc as (_ & _ & Hc).
    apply chain_app in Hc as [Hc _]. apply chain_app. simpl. split.
    + apply NoDup_cons in Hnd as [Hz [? [Hw _]]%NoDup_app].
      eapply chain_ext; [done|intros x ?; rewrite Hn|intros x ?; rewrite Hp];
        by rewrite decide_False by set_solver.
    + by rewrite Hn, Hp, !decide_True.
Qed.

(** ** The primitive accesses *)

Lemma wp_get_next n x h Q : next <$> h !! n = Some x → Q x h → wp (get_next n) h Q.
Proof.
  intros Hn HQ. apply fmap_Some in Hn as (l & Hl & ->).
  unfold get_next. wp_steps. rewrite Hl. by apply wp_deref with l, wp_ret.
Qed.

Lemma wp_get_prev n x h Q : prev <$> h !! n = Some x → Q x h → wp (get_prev n) h Q.
Proof.
  intros Hn HQ. apply fmap_Some in Hn as (l & Hl & ->).
  unfold get_prev. wp_steps. rewrite Hl. by apply wp_deref with l, wp_ret.
Qed.

Lemma wp_set_next n x h Q :
  is_Some (h !! n) →
  (∀ h', (∀ m, is_Some (h !! m) → is_Some (h' !! m)) →
    (∀ m, next <$> h' !! m = if decide (m = n) then Some x else next <$> h !! m) →
    (∀ m, prev <$> h' !! m = prev <$> h !! m) →
    (∀ m, m ≠ n → h' !! m = h !! m) → Q tt h') →
  wp (set_next n x) h Q.
Proof.
  intros [l Hl] HQ. unfold set_next. wp_steps. rewrite Hl. apply wp_deref with l; [done|].
  apply wp_put, HQ; intros m; destruct (decide (m = n)) as [->|];
    rewrite ?lookup_insert_eq, ?lookup_insert_ne, ?Hl by done; simpl; eauto; done.
Qed.

Lemma wp_set_prev n x h Q :
  is_Some (h !! n) →
  (∀ h', (∀ m, is_Some (h !! m) → is_Some (h' !! m)) →
    (∀ m, prev <$> h' !! m = if decide (m = n) then Some x else prev <$> h !! m) →
    (∀ m, next <$> h' !! m = next <$> h !! m) →
    (∀ m, m ≠ n → h' !! m = h !! m) → Q tt h') →
  wp (set_prev n x) h Q.
Proof.
  intros [l Hl] HQ. unfold set_prev. wp_steps. rewrite Hl. apply wp_deref with l; [done|].
  apply wp_put, HQ; intros m; destruct (decide (m = n)) as [->|];
    rewrite ?lookup_insert_eq, ?lookup_insert_ne, ?Hl by done; simpl; eauto; done.
Qed.

(** ** The operations on one list *)

(** Nodes other than those of [xs] are left alone, and no node disappears. *)
Definition frame (xs : list node) (h h' : store) : Prop :=
  (∀ m, m ∉ xs → h' !! m = h !! m) ∧ (∀ m, is_Some (h !! m) → is_Some (h' !! m)).

Lemma wp_ll_init l h :
  is_Some (h !! l) → wp (ll_init l) h (λ _ h', dlist h' l [] ∧ frame [l] h h').
Proof.
  intros Hl. unfold ll_init. wp_step.
  apply wp_set_next; [done|]. intros h1 Hd1 Hn1 Hp1 Hf1.
  apply wp_set_prev; [auto|]. intros h2 Hd2 Hp2 Hn2 Hf2. split; split; simpl.
  - apply NoDup_singleton.
  - by rewrite Hn2, Hn1, Hp2, !decide_True.
  - intros m Hm. rewrite Hf2, Hf1; set_solver.
  - auto.
Qed.

Lemma wp_ll_empty l xs h :
  dlist h l xs → wp (ll_empty l) h (λ b h', h' = h ∧ b = bool_decide (xs = [])).
Proof.
  intros Hd. unfold ll_empty. wp_steps. eapply wp_get_next; [by eapply dlist_next|].
  wp_steps. split; [done|]. apply bool_decide_ext. apply dlist_NoDup in Hd.
  destruct xs; simpl; [done|]. apply NoDup_cons in Hd. split; [|done].
  intros ->. set_solver.
Qed.

Lemma wp_ll_add_after l xs e h :
  dlist h l xs → e ∉ l :: xs → is_Some (h !! e) →
  wp (ll_add_after l e) h (λ _ h', dlist h' l (e :: xs) ∧ frame (e :: l :: xs) h h').
Proof.
  intros Hd He Hs. pose proof (dlist_next _ _ _ Hd) as Hnx. unfold ll_add_after.
  assert (hd l xs ∈ l :: xs) as Hhd by (destruct xs; set_solver).
  wp_step. eapply wp_get_next; [done|].
  wp_step. apply wp_set_next; [done|]. intros h1 Hd1 Hn1 Hp1 Hf1.
  wp_step. apply wp_set_prev; [auto|]. intros h2 Hd2 Hp2 Hn2 Hf2.
  wp_step. apply (wp_get_next _ (hd l xs)).
  { rewrite Hn2, Hn1, decide_False by set_solver. done. }
  wp_step. apply wp_set_prev.
  { apply Hd2, Hd1. by eapply dlist_lookup. }
  intros h3 Hd3 Hp3 Hn3 Hf3. apply wp_set_next.
  { apply Hd3, Hd2, Hd1. eapply dlist_lookup; [done|set_solver]. }
  intros h4 Hd4 Hn4 Hp4 Hf4. split; [|split; [|auto]].
  - eapply dlist_link; [done..| |]; intros x.
    + by rewrite Hn4, Hn3, Hn2, Hn1.
    + by rewrite Hp4, Hp3, Hp2, Hp1.
  - intros m Hm. rewrite Hf4, Hf3, Hf2, Hf1; set_solver.
Qed.

Lemma dlist_snoc h l xs y : dlist h l (xs ++ [y]) ↔ dlist h y (l :: xs).
Proof. split; [apply dlist_rotate|apply (dlist_rotate h y [] l xs)]. Qed.

Lemma wp_ll_add_before l xs e h :
  dlist h l xs → e ∉ l :: xs → is_Some (h !! e) →
  wp (ll_add_before l e) h (λ _ h', dlist h' l (xs ++ [e]) ∧ frame (e :: l :: xs) h h').
Proof.
  intros Hd He Hs. pose proof (dlist_prev _ _ _ Hd) as Hpv. unfold ll_add_before.
  set (p := List.last xs l) in *.
  assert (p ∈ l :: xs) as Hp.
  { subst p. destruct xs using rev_ind; [set_solver|]. rewrite last_last. set_solver. }
  wp_step. apply wp_set_next; [done|]. intros h1 Hd1 Hn1 Hp1 Hf1.
  wp_step. apply (wp_get_prev _ p); [by rewrite Hp1|].
  wp_step. apply wp_set_prev; [auto|]. intros h2 Hd2 Hp2 Hn2 Hf2.
  wp_step. apply (wp_get_prev _ p); [by rewrite Hp2, decide_False, Hp1 by set_solver|].
  wp_step. apply wp_set_next.
  { apply Hd2, Hd1. by eapply dlist_lookup. }
  intros h3 Hd3 Hn3 Hp3 Hf3. apply wp_set_prev.
  { apply Hd3, Hd2, Hd1. eapply dlist_lookup; [done|set_solver]. }
  intros h4 Hd4 Hp4 Hn4 Hf4. split; [|split; [|auto]].
  2: { intros m Hm. rewrite Hf4, Hf3, Hf2, Hf1; set_solver. }
  assert (∃ ys, dlist h p ys ∧ hd p ys = l ∧ (dlist h4 p (e :: ys) → dlist h4 l (xs ++ [e])) ∧ e ∉ p :: ys)
    as (ys & Hys & Hl & Hback & He').
  { subst p. destruct xs as [|y xs _] using rev_ind.
    - by exists [].
    - rewrite last_last in *. exists (l :: xs).
      split_and!; [by apply dlist_snoc|done| |set_solver].
      intros Hd'. apply (dlist_rotate h4 y [e] l xs) in Hd'. by rewrite <-app_assoc. }
  apply Hback. eapply dlist_link; [done..| |]; rewrite Hl; intros x.
  - by rewrite Hn4, Hn3, Hn2, Hn1.
  - by rewrite Hp4, Hp3, Hp2, Hp1.
Qed.

Lemma last_cons_default (z e : node) zs : List.last (z :: zs) e = List.last zs z.
Proof.
  revert z e. induction zs as [|a zs IH]; intros z e; [done|].
  change (List.last (a :: zs) e = List.last (a :: zs) z). by rewrite !IH.
Qed.

Lemma wp_ll_remove l xs e ys h :
  dlist h l (xs ++ e :: ys) →
  wp (ll_remove e) h (λ r h', r = e ∧ dlist h' l (xs ++ ys) ∧
    frame (l :: xs ++ ys) h h').
Proof.
  intros Hd. assert (∃ z zs, ys ++ l :: xs = z :: zs) as (z & zs & E) by (destruct ys; eauto).
  assert (dlist h e (z :: zs)) as Hde by (rewrite <-E; by apply dlist_rotate).
  pose proof (dlist_next _ _ _ Hde) as Hnx. pose proof (dlist_prev _ _ _ Hde) as Hpv.
  rewrite last_cons_default in Hpv. set (p := List.last zs z) in *.
  assert (p ∈ z :: zs) as Hp.
  { subst p. clear. destruct zs using rev_ind; [set_solver|]. rewrite last_last. set_solver. }
  pose proof (dlist_NoDup _ _ _ Hde) as [He _]%NoDup_cons.
  unfold ll_remove. wp_step. apply (wp_get_next _ z); [done|].
  wp_step. apply (wp_get_prev _ p); [done|].
  wp_step. apply wp_set_prev; [eapply dlist_lookup; [done|set_solver]|].
  intros h1 Hd1 Hp1 Hn1 Hf1.
  wp_step. apply (wp_get_prev _ p); [by rewrite Hp1, decide_False by set_solver|].
  wp_step. apply (wp_get_next _ z); [by rewrite Hn1|].
  wp_step. apply wp_set_next; [apply Hd1; eapply dlist_lookup; [done|set_solver]|].
  intros h2 Hd2 Hn2 Hp2 Hf2. wp_step.
  assert (dlist h2 z zs) as Hz.
  { eapply dlist_unlink; [done| |]; intros x.
    - by rewrite Hn2, Hn1.
    - by rewrite Hp2, Hp1. }
  split; [done|]. split; [|split; [|auto]].
  - destruct ys as [|y ys]; simpl in E; simplify_eq; [by rewrite app_nil_r|].
    by apply dlist_rotate.
  - intros m Hm. assert (m ∉ z :: zs) by (rewrite <-E; set_solver).
    rewrite Hf2, Hf1; set_solver.
Qed.

(** ** Refinement *)

(** Queues no node of which is used twice. *)
Definition q_ok (qs : queues node) : Prop :=
  (∀ l xs, qs !! l = Some xs → NoDup (l :: xs)) ∧ q_disjoint qs.

Lemma represents_ok h qs : represents h qs → q_ok qs.
Proof. intros [Hr Hq]. split; [|done]. intros l xs Hl. by eapply dlist_NoDup, Hr. Qed.

Lemma q_ok_elsewhere qs l xs r l' xs' :
  q_ok qs → qs !! l = Some xs → r ∈ l :: xs → l' ≠ l → qs !! l' = Some xs' → r ≠ l' ∧ r ∉ xs'.
Proof.
  intros [_ Hq] Hl Hr Hne Hl'. assert (r ∉ l' :: xs') as Hn; [|set_solver].
  intros Hr'. destruct Hne. by eapply Hq.
Qed.

(** Replacing one queue by a list of its own and free nodes. *)
Lemma q_ok_insert qs l xs ys :
  q_ok qs → qs !! l = Some xs → NoDup (l :: ys) → (∀ y, y ∈ ys → y ∈ xs ∨ free_node qs y) →
  q_ok (<[l := ys]> qs).
Proof.
  intros [Hn Hq] Hl Hnd Hys. split.
  { intros l' xs' [[<- <-]|[_ Hl']]%lookup_insert_Some; [done|by apply Hn]. }
  intros l1 l2 xs1 xs2 x H1 H2 Hx1 Hx2.
  assert (∀ l' xs', l' ≠ l → qs !! l' = Some xs' → x ∈ l :: ys → x ∈ l' :: xs' → False) as Hc.
  { intros l' xs' Hne Hl' [->|[?|Hfr]%Hys]%elem_of_cons Hx'.
    - destruct Hne. eapply Hq; [done..|set_solver].
    - destruct Hne. eapply Hq; [done..|set_solver].
    - by apply (Hfr _ _ Hl'). }
  apply lookup_insert_Some in H1 as [[<- <-]|[? H1]], H2 as [[<- <-]|[? H2]];
    [done|by edestruct Hc|by edestruct Hc|by eapply Hq].
Qed.

Lemma q_ok_removed qs l xs e ys :
  q_ok qs → qs !! l = Some (xs ++ e :: ys) → q_ok (<[l := xs ++ ys]> qs).
Proof.
  intros Hok Hl. eapply q_ok_insert; [done..| |set_solver].
  pose proof (proj1 Hok _ _ Hl) as Hnd. rewrite <-Permutation_middle in Hnd.
  apply NoDup_cons in Hnd as [Hne Hnd]. apply NoDup_cons in Hnd as [_ Hnd].
  apply NoDup_cons. split; [set_solver|done].
Qed.

Lemma free_removed qs l xs e ys :
  q_ok qs → qs !! l = Some (xs ++ e :: ys) → free_node (<[l := xs ++ ys]> qs) e.
Proof.
  intros Hok Hl. pose proof (proj1 Hok _ _ Hl) as Hnd. rewrite <-Permutation_middle in Hnd.
  apply NoDup_cons in Hnd as [Hne Hnd]. apply NoDup_cons in Hnd as [He _].
  intros l' zs [[<- <-]|[Hne' Hl']]%lookup_insert_Some; [set_solver|].
  destruct (q_ok_elsewhere qs l (xs ++ e :: ys) e l' zs); [done..|set_solver|done|done|set_solver].
Qed.

Lemma q_ok_added qs l xs e ys :
  q_ok qs → qs !! l = Some xs → free_node qs e → ys ≡ₚ e :: xs → q_ok (<[l := ys]> qs).
Proof.
  intros Hok Hl Hf Hys. eapply q_ok_insert; [done..| |].
  - rewrite Hys. pose proof (proj1 Hok _ _ Hl) as [Hln Hnd]%NoDup_cons. pose proof (Hf _ _ Hl) as He.
    repeat (apply NoDup_cons; split); set_solver.
  - intros y Hy. rewrite Hys in Hy. set_solver.
Qed.

Lemma represents_update h h' qs l xs ys :
  represents h qs → qs !! l = Some xs →
  dlist h' l ys → frame (l :: xs ++ ys) h h' →
  (∀ y, y ∈ ys → y ∈ xs ∨ free_node qs y) →
  represents h' (<[l := ys]> qs).
Proof.
  intros Hrep Hl Hd [Hf _] Hys. pose proof (represents_ok _ _ Hrep) as Hok.
  split; [|eapply q_ok_insert; [done..|by eapply dlist_NoDup|done]].
  destruct Hrep as [Hr Hq].
  intros l' xs' [[<- <-]|[Hne Hl']]%lookup_insert_Some; [done|].
  eapply dlist_ext; [by apply Hr|]. intros x Hx. apply Hf.
  assert (x ∉ l :: xs) by (intros Hx'; destruct Hne; eapply Hq; eauto).
  intros [->|[?|[?|Hfr]%Hys]%elem_of_app]%elem_of_cons; [set_solver..|].
  by apply (Hfr _ _ Hl').
Qed.

Lemma q_without_notin e xs : e ∉ xs → q_without e xs = xs.
Proof.
  induction xs as [|x xs IH]; [done|]. intros He. unfold q_without.
  rewrite filter_cons_True by set_solver. f_equal. apply IH. set_solver.
Qed.

Lemma q_without_split e xs ys : NoDup (xs ++ e :: ys) → q_without e (xs ++ e :: ys) = xs ++ ys.
Proof.
  intros (_ & He & Hn)%NoDup_app. apply NoDup_cons in Hn as [? _]. unfold q_without.
  rewrite filter_app, filter_cons_False by set_solver. f_equal; apply q_without_notin; set_solver.
Qed.

Lemma q_remove_insert qs l xs e ys :
  q_ok qs → qs !! l = Some (xs ++ e :: ys) → q_remove e qs = <[l := xs ++ ys]> qs.
Proof.
  intros Hok Hl. apply map_eq. intros l'. unfold q_remove. rewrite lookup_fmap.
  destruct (decide (l' = l)) as [->|Hne].
  - rewrite lookup_insert_eq, Hl. simpl. f_equal. apply q_without_split.
    by apply Hok, NoDup_cons in Hl as [_ ?].
  - rewrite lookup_insert_ne by done. destruct (qs !! l') as [xs'|] eqn:Hl'; [|done].
    simpl. f_equal. apply q_without_notin.
    by destruct (q_ok_elsewhere qs l (xs ++ e :: ys) e l' xs') as [_ ?]; [done..|set_solver|done|done|].
Qed.

Lemma ins_after_split r e xs ys : r ∉ xs → ins_after r e (xs ++ r :: ys) = xs ++ r :: e :: ys.
Proof.
  induction xs as [|x xs IH]; simpl; intros Hr; [by rewrite decide_True|].
  rewrite decide_False by set_solver. f_equal. apply IH. set_solver.
Qed.

Lemma ins_before_split r e xs ys : r ∉ xs → ins_before r e (xs ++ r :: ys) = xs ++ e :: r :: ys.
Proof.
  induction xs as [|x xs IH]; simpl; intros Hr; [by rewrite decide_True|].
  rewrite decide_False by set_solver. f_equal. apply IH. set_solver.
Qed.

Lemma ins_notin r e xs : r ∉ xs → ins_after r e xs = xs ∧ ins_before r e xs = xs.
Proof.
  induction xs as [|x xs IH]; simpl; intros Hr; [done|].
  rewrite !decide_False by set_solver. destruct IH as [-> ->]; [set_solver|done].
Qed.

(** An operation on every queue that changes only the one it concerns. *)
Lemma imap_insert (f : node → list node → list node) qs l xs ys :
  qs !! l = Some xs → f l xs = ys → (∀ l' xs', l' ≠ l → qs !! l' = Some xs' → f l' xs' = xs') →
  map_imap (λ l xs, Some (f l xs)) qs = <[l := ys]> qs.
Proof.
  intros Hl <- Hf. apply map_eq. intros l'. rewrite map_lookup_imap.
  destruct (decide (l' = l)) as [->|Hne].
  - by rewrite lookup_insert_eq, Hl.
  - rewrite lookup_insert_ne by done. destruct (qs !! l') as [xs'|] eqn:E; [|done].
    simpl. f_equal. by apply Hf.
Qed.

Lemma q_add_head qs l xs e :
  q_ok qs → qs !! l = Some xs →
  q_add_after l e qs = <[l := e :: xs]> qs ∧ q_add_before l e qs = <[l := xs ++ [e]]> qs.
Proof.
  intros Hok Hl. split; (eapply imap_insert; [done|by rewrite decide_True|]);
    intros l' xs' Hne Hl'; destruct (q_ok_elsewhere qs l xs l l' xs') as [??]; try done;
    try set_solver; rewrite decide_False by done; by apply ins_notin.
Qed.

Lemma q_add_elem qs l xs r ys e :
  q_ok qs → qs !! l = Some (xs ++ r :: ys) →
  q_add_after r e qs = <[l := xs ++ r :: e :: ys]> qs ∧
  q_add_before r e qs = <[l := xs ++ e :: r :: ys]> qs.
Proof.
  intros Hok Hl. assert (r ≠ l ∧ r ∉ xs) as [Hrl Hr].
  { pose proof (proj1 Hok _ _ Hl) as [? (_ & Hd & _)%NoDup_app]%NoDup_cons. set_solver. }
  split; (eapply imap_insert; [done|rewrite decide_False by done|]);
    try (by apply ins_after_split); try (by apply ins_before_split);
    intros l' xs' Hne Hl'; destruct (q_ok_elsewhere qs l (xs ++ r :: ys) r l' xs') as [??]; try done;
    try set_solver; rewrite decide_False by done; by apply ins_notin.
Qed.

(** The next element of a queue. *)
Lemma q_next_head qs l xs : qs !! l = Some xs → q_next l qs = Some (hd l xs).
Proof. intros Hl. unfold q_next. by rewrite Hl. Qed.

Lemma q_next_elem qs l xs x ys :
  q_ok qs → qs !! l = Some (xs ++ x :: ys) → q_next x qs = Some (hd l ys).
Proof.
  intros Hok Hl. unfold q_next.
  assert (qs !! x = None) as ->.
  { destruct (qs !! x) as [zs|] eqn:Hx; [|done]. exfalso.
    assert (l = x) as -> by (apply (proj2 Hok l x _ _ x Hl Hx); set_solver).
    pose proof (proj1 Hok _ _ Hl) as [? _]%NoDup_cons. set_solver. }
  destruct (list_find (λ '(_, xs), x ∈ xs) (map_to_list qs)) as [[i [l' zs]]|] eqn:Hf.
  2: { apply list_find_None in Hf. rewrite Forall_forall in Hf.
       exfalso. apply (Hf (l, xs ++ x :: ys)); [by apply elem_of_map_to_list|set_solver]. }
  apply list_find_Some in Hf as (Hi & Hxs & _).
  apply list_elem_of_lookup_2, elem_of_map_to_list in Hi.
  assert (l' = l) as -> by (apply (proj2 Hok l' l _ _ x Hi Hl); set_solver).
  simplify_eq. simpl.
  pose proof (proj1 Hok _ _ Hl) as [_ (Hnd & Hd & _)%NoDup_app]%NoDup_cons.
  assert (list_find (x =.) (xs ++ x :: ys) = Some (length xs, x)) as ->.
  { apply list_find_Some. split_and!; [by rewrite list_lookup_middle|done|].
    intros j y Hj Hlt Hxy. subst y. rewrite lookup_app_l in Hj by done.
    apply list_elem_of_lookup_2 in Hj. set_solver. }
  simpl. f_equal. rewrite lookup_app_r by lia.
  replace (S (length xs) - length xs)%nat with 1%nat by lia. by destruct ys.
Qed.

Lemma q_add_after_insert h qs l xs r e :
  represents h qs → qs !! l = Some xs → r ∈ l :: xs → free_node qs e → is_Some (h !! e) →
  ∃ ys, q_add_after r e qs = <[l := ys]> qs ∧ (∀ y, y ∈ ys ↔ y = e ∨ y ∈ xs) ∧
    wp (ll_add_after r e) h (λ _ h', dlist h' l ys ∧ frame (l :: e :: xs) h h').
Proof.
  intros Hrep Hl Hr Hfr He. assert (Hd : dlist h l xs) by by apply Hrep.
  pose proof (represents_ok _ _ Hrep) as Hok.
  pose proof (Hfr _ _ Hl) as Hel. destruct (decide (r = l)) as [->|Hrl].
  - exists (e :: xs). split_and!; [by apply q_add_head|set_solver|].
    eapply wp_mono; [by apply wp_ll_add_after|]; simpl.
    intros _ h' [? Hf]. split; [done|]. split; [intros; apply Hf; set_solver|apply Hf].
  - assert (r ∈ xs) as (xs1 & xs2 & ->)%list_elem_of_split by set_solver.
    exists (xs1 ++ r :: e :: xs2). split_and!; [by apply q_add_elem|set_solver|].
    apply dlist_rotate in Hd. eapply wp_mono; [apply wp_ll_add_after; [done|set_solver|done]|]; simpl.
    intros _ h' [Hd' Hf]. split; [|split; [intros; apply Hf; set_solver|apply Hf]].
    by apply (dlist_rotate h' r (e :: xs2) l xs1) in Hd'.
Qed.

Lemma q_add_before_insert h qs l xs r e :
  represents h qs → qs !! l = Some xs → r ∈ l :: xs → free_node qs e → is_Some (h !! e) →
  ∃ ys, q_add_before r e qs = <[l := ys]> qs ∧ (∀ y, y ∈ ys ↔ y = e ∨ y ∈ xs) ∧
    wp (ll_add_before r e) h (λ _ h', dlist h' l ys ∧ frame (l :: e :: xs) h h').
Proof.
  intros Hrep Hl Hr Hfr He. assert (Hd : dlist h l xs) by by apply Hrep.
  pose proof (represents_ok _ _ Hrep) as Hok.
  pose proof (Hfr _ _ Hl) as Hel. destruct (decide (r = l)) as [->|Hrl].
  - exists (xs ++ [e]). split_and!; [by apply q_add_head|set_solver|].
    eapply wp_mono; [by apply wp_ll_add_before|]; simpl.
    intros _ h' [? Hf]. split; [done|]. split; [intros; apply Hf; set_solver|apply Hf].
  - assert (r ∈ xs) as (xs1 & xs2 & ->)%list_elem_of_split by set_solver.
    exists (xs1 ++ e :: r :: xs2). split_and!; [by apply q_add_elem|set_solver|].
    apply dlist_rotate in Hd. eapply wp_mono; [apply wp_ll_add_before; [done|set_solver|done]|]; simpl.
    intros _ h' [Hd' Hf]. split; [|split; [intros; apply Hf; set_solver|apply Hf]].
    rewrite <-app_assoc in Hd'. simpl in Hd'.
    apply (dlist_rotate h' r xs2 l (xs1 ++ [e])) in Hd'. by rewrite <-app_assoc in Hd'.
Qed.

(** Following a [next] pointer of the store is [q_next] on the queues. *)
Lemma get_next_refines h qs x y :
  represents h qs → q_next x qs = Some y → wp (get_next x) h (λ r h', r = y ∧ h' = h).
Proof.
  intros [Hr Hq] Hn. unfold q_next in Hn. destruct (qs !! x) as [xs|] eqn:Hx.
  - injection Hn as <-. by eapply wp_get_next; [eapply dlist_next, Hr|].
  - destruct (list_find (λ '(_, xs), x ∈ xs) (map_to_list qs)) as [[i [l xs]]|] eqn:Hf; [|done].
    apply list_find_Some in Hf as (Hi & Hxs & _). apply list_elem_of_lookup_2, elem_of_map_to_list, Hr in Hi.
    simpl in Hn. destruct (list_find (x =.) xs) as [[j z]|] eqn:Hj; [|done].
    apply list_find_Some in Hj as (Hj & <- & _). simpl in Hn. injection Hn as <-.
    rewrite <-(take_drop_middle _ _ _ Hj) in Hi. apply dlist_rotate, dlist_next in Hi.
    eapply wp_get_next; [done|]. split; [|done].
    assert (xs !! S j = drop (S j) xs !! 0%nat) as -> by (rewrite lookup_drop; f_equal; lia).
    by destruct (drop (S j) xs).
Qed.

Lemma ll_exec_refines c h qs qs' :
  represents h qs → q_exec c qs = Some qs' → Forall (λ x, is_Some (h !! x)) (call_nodes c) →
  wp (ll_exec c) h (λ _ h', represents h' qs' ∧ ∀ m, is_Some (h !! m) → is_Some (h' !! m)).
Proof.
  intros Hrep Hq Hal. destruct c as [l|r e|r e|e]; simpl in *; case_decide as Hd; simplify_eq.
  - inversion_clear Hal as [|? ? Hl _]. eapply wp_mono; [by apply wp_ll_init|]; simpl.
    intros _ h' [Hdl Hf]. split; [|apply Hf].
    destruct Hrep as [Hr Hdj]. unfold q_init. split.
    + intros l' xs' [[<- <-]|[Hne Hl']]%lookup_insert_Some; [done|].
      eapply dlist_ext; [by apply Hr|]. intros x Hx. apply Hf.
      rewrite list_elem_of_singleton. intros ->. by apply (Hd _ _ Hl').
    + intros l1 l2 xs1 xs2 x [[<- <-]|[? H1]]%lookup_insert_Some [[<- <-]|[? H2]]%lookup_insert_Some Hx1 Hx2;
        [done| | |by eapply Hdj].
      * apply list_elem_of_singleton in Hx1 as ->. by apply Hd in H2.
      * apply list_elem_of_singleton in Hx2 as ->. by apply Hd in H1.
  - destruct Hd as [(l & xs & Hl & Hr) Hfr].
    inversion_clear Hal as [|? ? _ Hal']. inversion_clear Hal' as [|? ? He _].
    edestruct (q_add_after_insert h qs l xs r e) as (ys & -> & Hys & Hd); [done..|].
    eapply wp_mono; [by apply Hd|]; simpl.
    intros _ h' [Hdl Hf]. split; [|apply Hf]. eapply represents_update; [done..| |set_solver].
    split; [intros m Hm; apply Hf; set_solver|apply Hf].
  - destruct Hd as [(l & xs & Hl & Hr) Hfr].
    inversion_clear Hal as [|? ? _ Hal']. inversion_clear Hal' as [|? ? He _].
    edestruct (q_add_before_insert h qs l xs r e) as (ys & -> & Hys & Hd); [done..|].
    eapply wp_mono; [by apply Hd|]; simpl.
    intros _ h' [Hdl Hf]. split; [|apply Hf]. eapply represents_update; [done..| |set_solver].
    split; [intros m Hm; apply Hf; set_solver|apply Hf].
  - destruct Hd as (l & xs & Hl & (xs1 & xs2 & ->)%list_elem_of_split).
    wp_step. eapply wp_mono; [eapply wp_ll_remove; by apply Hrep|]; simpl.
    intros r h' (-> & Hdl & Hf). wp_step. split; [|apply Hf].
    erewrite q_remove_insert by (done || by eapply represents_ok). eapply represents_update; [done..| |set_solver].
    split; [intros m Hm; apply Hf; set_solver|apply Hf].
Qed.

(** C4: any sequence of list calls that keeps to the contract (an element is
    linked once, only linked elements are removed, a used head is not
    initialised again) runs without following a bad pointer, and leaves in the
    node store exactly the queues the calls build. *)
Theorem ll_refines_queues cs h qs qs' :
  represents h qs → q_execs cs qs = Some qs' →
  Forall (λ x, is_Some (h !! x)) (cs ≫= call_nodes) →
  wp (ll_execs cs) h (λ _ h', represents h' qs').
Proof.
  revert h qs. induction cs as [|c cs IH]; simpl; intros h qs Hr Hq Hal; simplify_eq; [done|].
  apply bind_Some in Hq as (qs1 & Hq1 & Hq). apply Forall_app in Hal as [Hal1 Hal].
  wp_step. eapply wp_mono; [by eapply ll_exec_refines|]; simpl.
  intros _ h1 [Hr1 Hd1]. eapply IH; [done..|]. eapply Forall_impl; [done|auto].
Qed.

(** ** Iteration *)

Section ForEach.
Context (l : node) (body : node → M store unit) (I : list node → store → Prop).

(** The contract of a loop body: visiting [e] extends the visited elements
    in [I], and the body may unlink [e] but nothing else. *)
Definition body_spec : Prop := ∀ vis kept e rest h,
  dlist h l (kept ++ e :: rest) → I vis h →
  wp (body e) h (λ _ h', I (vis ++ [e]) h' ∧
    (dlist h' l (kept ++ e :: rest) ∨ dlist h' l (kept ++ rest))).

Lemma ll_for_each_loop_S fuel e n :
  ll_for_each_loop (S fuel) l body e n =
  if decide (e = l) then mret tt
  else body e ;; let* n' := get_next n in ll_for_each_loop fuel l body n n'.
Proof. done. Qed.

Lemma ll_for_each_loop_spec rest vis kept e h :
  body_spec → dlist h l (kept ++ e :: rest) → I vis h →
  wp (ll_for_each_loop (S (S (length rest))) l body e (hd l rest)) h
    (λ _ h', I (vis ++ e :: rest) h' ∧ ∃ kept', kept' ⊆ kept ++ e :: rest ∧ dlist h' l kept').
Proof.
  intros Hb. revert vis kept e h. induction rest as [|e' rest IH]; intros vis kept e h Hd HI.
  all: rewrite ll_for_each_loop_S.
  all: assert (e ≠ l) by (apply dlist_NoDup, NoDup_cons in Hd; set_solver).
  all: rewrite decide_False by done; wp_step; eapply wp_mono; [by eapply Hb|].
  - intros ? h' [HI' Hd']. simpl. wp_step.
    assert (∃ kept', kept' ⊆ kept ++ [e] ∧ dlist h' l kept') as (kept' & Hk & Hd'').
    { rewrite app_nil_r in Hd'. destruct Hd'; eexists; split; [|done| |done]; set_solver. }
    eapply wp_get_next; [by eapply dlist_next|]. rewrite decide_True by done. wp_step. eauto.
  - intros ? h' [HI' Hd']. simpl hd. wp_step.
    assert (∃ kept', kept' ⊆ kept ++ [e] ∧ dlist h' l (kept' ++ e' :: rest)) as (kept' & Hk & Hd'').
    { destruct Hd' as [Hd'|Hd'].
      - exists (kept ++ [e]). split; [set_solver|by rewrite <-app_assoc].
      - exists kept. split; [set_solver|done]. }
    apply (wp_get_next _ (hd l rest)).
    { apply dlist_rotate, dlist_next in Hd''. by destruct rest. }
    eapply wp_mono; [by apply (IH (vis ++ [e]) kept')|]. simpl.
    intros _ h2 [HI2 (k2 & Hk2 & Hd2)]. rewrite <-app_assoc in HI2. split; [done|].
    exists k2. split; [set_solver|done].
Qed.

Lemma ll_for_each_safe_visits_all' h xs :
  body_spec → dlist h l xs → I [] h →
  wp (ll_for_each_safe (S (length xs)) l body) h
    (λ _ h', I xs h' ∧ ∃ kept, kept ⊆ xs ∧ dlist h' l kept).
Proof.
  intros Hb Hd HI. unfold ll_for_each_safe. wp_step.
  eapply wp_get_next; [by eapply dlist_next|]. wp_step. destruct xs as [|e xs].
  - eapply wp_get_next; [by eapply dlist_next|]. simpl. rewrite decide_True by done. wp_step. eauto.
  - apply (wp_get_next _ (hd l xs)).
    { apply (dlist_rotate h l [] e xs), dlist_next in Hd. by destruct xs. }
    by apply (ll_for_each_loop_spec xs [] [] e).
Qed.

(** LL_FOR_EACH_SAFE ends and visits every element once, in list order,
    even if the body unlinks the element it is called on. *)
Theorem ll_for_each_safe_visits_all h xs :
  body_spec → dlist h l xs → I [] h →
  wp (ll_for_each_safe (S (length xs)) l body) h
    (λ _ h', I xs h' ∧ ∃ kept, kept ⊆ xs ∧ dlist h' l kept).
Proof. apply ll_for_each_safe_visits_all'. Qed.
End ForEach.

(** A head determines its list. *)
Lemma chain_inj h l a xs ys :
  chain h a xs l → chain h a ys l → l ∉ xs → l ∉ ys → xs = ys.
Proof.
  revert a ys. induction xs as [|x xs IH]; intros a [|y ys] Hx Hy Hlx Hly; simpl in *; [done|..].
  - destruct Hx as [Hx _], Hy as [Hy _]. set_solver.
  - destruct Hx as [Hx _], Hy as [Hy _]. set_solver.
  - destruct Hx as (Hx & _ & Hxs), Hy as (Hy & _ & Hys). rewrite Hx in Hy. injection Hy as <-.
    f_equal. apply (IH x); set_solver.
Qed.

Lemma dlist_inj h l xs ys : dlist h l xs → dlist h l ys → xs = ys.
Proof.
  intros [[??]%NoDup_cons ?] [[??]%NoDup_cons ?]. by eapply chain_inj.
Qed.

(** Draining a list: the body unlinks every element it visits. *)
Definition ll_drain (fuel : nat) (l : node) : M store unit :=
  ll_for_each_safe fuel l (λ e, ll_remove e ;; mret tt).

Lemma drain_body_spec l :
  body_spec l (λ e, ll_remove e ;; mret tt) (λ vis h, ∃ kept, dlist h l kept ∧ vis ## kept).
Proof.
  intros vis kept e rest h Hd (kept' & Hd' & Hdj).
  rewrite (dlist_inj _ _ _ _ Hd' Hd) in Hdj. wp_step.
  eapply wp_mono; [by apply wp_ll_remove|]; simpl.
  intros r h' (-> & Hd2 & _). wp_step. split; [|by right].
  exists (kept ++ rest). split; [done|].
  apply dlist_NoDup, NoDup_cons in Hd as [_ (_ & He & Hn)%NoDup_app].
  apply NoDup_cons in Hn. set_solver.
Qed.

Lemma ll_drain_empties h l xs :
  dlist h l xs → wp (ll_drain (S (length xs)) l) h (λ _ h', dlist h' l []).
Proof.
  intros Hd. eapply wp_mono.
  - eapply (ll_for_each_safe_visits_all' _ _ _ _ _ (drain_body_spec l)); [done|].
    exists xs. split; [done|set_solver].
  - simpl. intros _ h' ((kept & Hk & Hdj) & kept' & Hsub & Hk').
    rewrite (dlist_inj _ _ _ _ Hk' Hk) in Hsub. destruct kept as [|x kept]; [done|]. set_solver.
Qed.
End Ops.

Arguments linkedList : clear implicits.

(** ** Concrete lists *)

(** Five nodes with arbitrary links. *)
Definition nodes : gmap nat (linkedList nat) :=
  list_to_map ((λ n, (n, LinkedList 0%nat 7%nat)) <$> seq 0 5).

Lemma ll_refines_queues_witness :
  wp (ll_execs [CallInit 0; CallAddBefore 0 1; CallAddAfter 0 2; CallInit 3; CallAddBefore 1 4; CallRemove 1]%nat)
    nodes (λ _ h', represents h' {[0 := [2; 4]; 3 := []]}%nat).
Proof.
  apply (ll_refines_queues _ _ ∅); [|by vm_compute|].
  - split; [intros l xs Hl|intros l1 l2 xs1 xs2 x Hl]; by rewrite lookup_empty in Hl.
  - apply (bool_decide_unpack _). by vm_compute.
Defined.

Lemma ll_for_each_safe_visits_all_witness : ∃ h : gmap nat (linkedList nat),
  dlist h 0%nat [2; 1]%nat ∧
  wp (ll_for_each_safe 3 0%nat (λ e, ll_remove e ;; mret tt)) h (λ _ h',
    (∃ kept, dlist h' 0%nat kept ∧ [2; 1]%nat ## kept) ∧ ∃ kept, kept ⊆ [2; 1]%nat ∧ dlist h' 0%nat kept).
Proof.
  exists (list_to_map [(0, LinkedList 2 1); (1, LinkedList 0 2); (2, LinkedList 1 0)]%nat).
  assert (dlist (list_to_map [(0, LinkedList 2 1); (1, LinkedList 0 2); (2, LinkedList 1 0)]%nat
    : gmap nat (linkedList nat)) 0%nat [2; 1]%nat) as Hd.
  { split; [apply (bool_decide_unpack _); by vm_compute|by vm_compute]. }
  split; [done|].
  apply (ll_for_each_safe_visits_all _ _ (λ vis h, ∃ kept, dlist h 0%nat kept ∧ vis ## kept) _ [2; 1]%nat
    (drain_body_spec _) Hd).
  exists [2; 1]%nat. split; [done|set_solver].
Defined.
