(* ===== verification/Io.v ===== *)
(** * io.h: the I/O port space

    The instructions behind [inb], [outb] and [outw] of
    src/kernelmode/kernel/include/io/io.h reach devices outside the program.
    The machine is a log of the accesses made and the values the devices
    answer with, in order; an exhausted answer list reads as 0xFF, which is
    what an unconnected port gives. *)

From S2P Require Import Prelude.
Open Scope Z_scope.

Inductive port_op :=
  | Inb (port value : Z)
  | Outb (port value : Z)
  | Outw (port value : Z).

Record ports := Ports {
  log : list port_op;      (* oldest access first *)
  answers : list Z;        (* what the next reads return *)
}.

Definition outb (port val : Z) : M ports unit :=
  modify (λ p, Ports (log p ++ [Outb (u16 port) (u8 val)]) (answers p)).

Definition outw (port val : Z) : M ports unit :=
  modify (λ p, Ports (log p ++ [Outw (u16 port) (u16 val)]) (answers p)).

Definition inb (port : Z) : M ports Z :=
  let* p := get in
  match answers p with
  | [] => put (Ports (log p ++ [Inb (u16 port) 255]) []) ;; mret 255
  | v :: vs => put (Ports (log p ++ [Inb (u16 port) (u8 v)]) vs) ;; mret (u8 v)
  end.

Lemma wp_outb port val p Q :
  Q tt (Ports (log p ++ [Outb (u16 port) (u8 val)]) (answers p)) → wp (outb port val) p Q.
Proof. done. Qed.

Lemma wp_outw port val p Q :
  Q tt (Ports (log p ++ [Outw (u16 port) (u16 val)]) (answers p)) → wp (outw port val) p Q.
Proof. done. Qed.

Lemma wp_inb port p Q :
  (∀ v vs, is_u8 v → Q v (Ports (log p ++ [Inb (u16 port) v]) vs)) → wp (inb port) p Q.
Proof.
  intros HQ. unfold inb. wp_steps. destruct (answers p) as [|v vs]; wp_steps; apply HQ; [done|apply u8_range].
Qed.
