(* ===== verification/Console.v ===== *)
(** * console.c: the text console

    Models src/kernelmode/kernel/console/console.c and the packing macros of
    include/console/console.h. The state holds the file's static variables,
    the 80 x 25 words of text memory at 0xB8000 (an access behind them is
    undefined behaviour here), the font memory and the I/O ports. *)

From S2P Require Import Prelude Io Util.
Open Scope Z_scope.

Definition VGA_WIDTH := 80.
Definition VGA_HEIGHT := 25.
Definition CHAR_OFFSET (x y : Z) : Z := y * VGA_WIDTH + x.

Definition CONFLAGS_ECHO := 1.
Definition CONFLAGS_HWCURSOR := 2.
Definition CONFLAGS_HWCURSOR_AUTO := 4.
Definition CONFLAGS_RAW_MODE := 8.

Definition COLOR_BLACK := 0.
Definition COLOR_LIGHT_BLUE := 9.
Definition COLOR_WHITE := 15.

Definition MAKE_COLOR (foreground background : Z) : Z :=
  Z.lor (Z.land foreground 15) (Z.shiftl background 4).
Definition MAKE_RAW_CHAR (color chr : Z) : Z :=
  Z.lor (Z.land (u32 chr) 255) (Z.shiftl (Z.land (u32 color) 255) 8).
Definition RAW_CHAR_COLOR (raw : Z) : Z := Z.land (Z.shiftr raw 8) 255.
Definition RAW_CHAR_CHR (raw : Z) : Z := Z.land raw 255.
Definition BG_COLOR (color : Z) : Z := Z.land (Z.shiftr color 4) 15.
Definition FG_COLOR (color : Z) : Z := Z.land color 15.
Definition CONSOLE_WIDTH (size : Z) : Z := Z.land size 65535.
Definition CONSOLE_HEIGHT (size : Z) : Z := Z.land (Z.shiftr size 16) 65535.
Definition CONSOLE_POSX (pos : Z) : Z := Z.land pos 65535.
Definition CONSOLE_POSY (pos : Z) : Z := Z.land (Z.shiftr pos 16) 65535.

(** The static variables of the file. *)
Record console := Console {
  videoTextMemory : list Z;
  cursorX : Z;
  cursorY : Z;
  consoleColor : Z;
  consoleFlags : Z;
  cursorHardwareX : Z;
  cursorHardwareY : Z;
  io : ports;
}.

Definition set_text (t : list Z) (c : console) : console :=
  Console t (cursorX c) (cursorY c) (consoleColor c) (consoleFlags c) (cursorHardwareX c) (cursorHardwareY c) (io c).
Definition set_cursor (x y : Z) (c : console) : console :=
  Console (videoTextMemory c) x y (consoleColor c) (consoleFlags c) (cursorHardwareX c) (cursorHardwareY c) (io c).
Definition set_color (v : Z) (c : console) : console :=
  Console (videoTextMemory c) (cursorX c) (cursorY c) v (consoleFlags c) (cursorHardwareX c) (cursorHardwareY c) (io c).
Definition set_flags (v : Z) (c : console) : console :=
  Console (videoTextMemory c) (cursorX c) (cursorY c) (consoleColor c) v (cursorHardwareX c) (cursorHardwareY c) (io c).
Definition set_hwcursor (x y : Z) (c : console) : console :=
  Console (videoTextMemory c) (cursorX c) (cursorY c) (consoleColor c) (consoleFlags c) x y (io c).
Definition set_io (p : ports) (c : console) : console :=
  Console (videoTextMemory c) (cursorX c) (cursorY c) (consoleColor c) (consoleFlags c) (cursorHardwareX c) (cursorHardwareY c) p.

Definition with_io {A} (m : M ports A) : M console A := zoom io set_io m.

(** An access to [videoTextMemory[i]]. *)
Definition peek (i : Z) : M console Z :=
  let* c := get in deref (nthZ (videoTextMemory c) i) "videoTextMemory: out of the screen".

Definition poke (i v : Z) : M console unit :=
  let* c := get in
  match nthZ (videoTextMemory c) i with
  | Some _ => put (set_text (setZ (videoTextMemory c) i (u16 v)) c)
  | None => undef "videoTextMemory: out of the screen"
  end.

Definition flag (c : console) (f : Z) : bool := negb (Z.land (consoleFlags c) f =? 0).

Definition __consoleSetMiscOutputRegister (set : bool) : M console unit :=
  let* value := with_io (inb 0x3CC) in
  with_io (outb 0x3C2 (if set then Z.lor value 1 else Z.land value 254)).

Definition consoleShowHardwareCursor (changed : bool) : M console unit :=
  __consoleSetMiscOutputRegister true ;;
  let* c := get in
  if flag c CONFLAGS_HWCURSOR then
    when changed (with_io (outb 0x3D4 0x0A) ;; with_io (outb 0x3D5 0x00)) ;;
    let indexPos := u32 (CHAR_OFFSET (cursorHardwareX c) (cursorHardwareY c)) in
    with_io (outb 0x3D4 0x0F) ;;
    with_io (outb 0x3D5 (Z.land indexPos 255)) ;;
    with_io (outb 0x3D4 0x0E) ;;
    with_io (outb 0x3D5 (Z.land (Z.shiftr indexPos 8) 255))
  else
    with_io (outb 0x3D4 0x0A) ;;
    with_io (outb 0x3D5 0x10).

Definition consoleSetHardwareCursor (x y : Z) : M console unit :=
  modify (set_hwcursor (u8 x) (u8 y)) ;;
  let* c := get in
  when (flag c CONFLAGS_HWCURSOR) (consoleShowHardwareCursor false).

Definition consoleSetCursorPos (x y : Z) : M console bool :=
  let x := u8 x in let y := u8 y in
  if (VGA_WIDTH <=? x) || (VGA_HEIGHT <=? y) then mret false
  else modify (set_cursor x y) ;; mret true.

(** A blank in the current color. *)
Definition blank (c : console) : Z := Z.lor 32 (Z.shiftl (consoleColor c) 8).

Definition consoleClear : M console unit :=
  for_loop 25 0 (λ y, for_loop 80 0 (λ x,
    let* c := get in poke (CHAR_OFFSET x y) (blank c))) ;;
  consoleSetCursorPos 0 0 ;;
  let* c := get in
  when (flag c CONFLAGS_HWCURSOR_AUTO) (consoleSetHardwareCursor 0 0).

Definition consoleSetColor (color : Z) : M console unit := modify (set_color (u8 color)).
Definition consoleGetColor : M console Z := gets consoleColor.
Definition consoleGetColorForeground : M console Z := gets (λ c, Z.land (consoleColor c) 15).
Definition consoleGetColorBackground : M console Z :=
  gets (λ c, Z.land (Z.shiftr (consoleColor c) 4) 15).

Definition consoleScrollUp : M console unit :=
  for_loop 24 1 (λ y, for_loop 80 0 (λ x,
    let* v := peek (CHAR_OFFSET x y) in poke (CHAR_OFFSET x (y - 1)) v)) ;;
  for_loop 80 0 (λ x,
    let* c := get in poke (CHAR_OFFSET x (VGA_HEIGHT - 1)) (blank c)).

(** The end of [consolePutChar] and [consolePutCharRaw]: wrap the line if it
    is full or broken by [newline], and the screen if it is full. *)
Definition advance (newline : bool) : M console unit :=
  let* c := get in
  let rawMode := flag c CONFLAGS_RAW_MODE in
  when ((newline && negb rawMode) || (VGA_WIDTH <=? cursorX c))
    (modify (λ c, set_cursor 0 (u8 (cursorY c + 1)) c)) ;;
  let* c := get in
  when (VGA_HEIGHT <=? cursorY c)
    (if rawMode then modify (λ c, set_cursor (cursorX c) 0 c)
     else consoleScrollUp ;; modify (λ c, set_cursor (cursorX c) (VGA_HEIGHT - 1) c)) ;;
  let* c := get in
  when (flag c CONFLAGS_HWCURSOR_AUTO) (consoleSetHardwareCursor (cursorX c) (cursorY c)).

Definition consolePutChar (chr : Z) : M console unit :=
  let* c := get in
  when (flag c CONFLAGS_RAW_MODE || negb (chr =? 10))
    (poke (CHAR_OFFSET (cursorX c) (cursorY c)) (Z.lor (Z.land chr 255) (Z.shiftl (consoleColor c) 8)) ;;
     modify (λ c, set_cursor (u8 (cursorX c + 1)) (cursorY c) c)) ;;
  advance (chr =? 10).

Definition consoleEchoChar (chr : Z) : M console unit :=
  let* c := get in when (flag c CONFLAGS_ECHO) (consolePutChar chr).

Definition consolePutCharRaw (chr : Z) : M console unit :=
  let* c := get in
  poke (CHAR_OFFSET (cursorX c) (cursorY c)) chr ;;
  modify (λ c, set_cursor (u8 (cursorX c + 1)) (cursorY c) c) ;;
  advance (RAW_CHAR_CHR chr =? 10).

Fixpoint consoleWriteString (str : list Z) : M console unit :=
  match str with
  | [] => undef "consoleWriteString: no terminator"
  | c :: str => if c =? 0 then mret tt else consolePutChar c ;; consoleWriteString str
  end.

Fixpoint consoleWriteStringLen (str : list Z) (len : nat) {struct len} : M console unit :=
  match len, str with
  | O, _ => mret tt
  | S len, c :: str => consolePutChar c ;; consoleWriteStringLen str len
  | S _, [] => undef "consoleWriteStringLen: buffer too short"
  end.

Fixpoint consoleWriteRawLen (data : list Z) (count : nat) {struct count} : M console unit :=
  match count, data with
  | O, _ => mret tt
  | S count, c :: data => consolePutCharRaw c ;; consoleWriteRawLen data count
  | S _, [] => undef "consoleWriteRawLen: buffer too short"
  end.

Fixpoint consoleWriteStringMax (str : list Z) (len : nat) {struct len} : M console unit :=
  match len, str with
  | O, _ => mret tt
  | S len, c :: str => if c =? 0 then mret tt else consolePutChar c ;; consoleWriteStringMax str len
  | S _, [] => undef "consoleWriteStringMax: buffer too short"
  end.

(** A string literal of the source: its characters and the terminator. *)
Definition literal (s : string) : list Z := (Z.of_N ∘ Ascii.N_of_ascii <$> String.list_ascii_of_string s) ++ [0].

Definition hexTable : list Z := literal "0123456789ABCDEF".

(** [for (i = n - 1; i >= 0; i--) buf[i] = hexTable[value & 0xF], value >>= 4;] *)
Fixpoint hex_loop (n : nat) (value : Z) (buf : list Z) : list Z :=
  match n with
  | O => buf
  | S n => hex_loop n (Z.shiftr value 4) (<[n := default 0 (nthZ hexTable (Z.land value 15))]> buf)
  end.

Definition consoleWriteHex32 (value : Z) : M console unit :=
  let buf := hex_loop 8 value (replicate 8 0) in
  consoleWriteString (literal "0x") ;;
  consoleWriteStringLen buf 8.

Definition consoleWriteHex16 (value : Z) : M console unit :=
  let buf := hex_loop 4 value (replicate 4 0) in
  consoleWriteString (literal "0x") ;;
  consoleWriteStringLen buf 4.

(** The digit loop of [consoleWriteInt32]: [i] is the index of the first
    character written so far; index 0 is reached only if the buffer is too
    small for the number. *)
Fixpoint int_loop (i : nat) (value : Z) (buf : list Z) : outcome (nat * list Z) :=
  match i with
  | O => Undef "consoleWriteInt32: buffer underrun"
  | S i =>
      let buf := <[i := 48 + value mod 10]> buf in
      let value := value / 10 in
      if value =? 0 then Ok (i, buf) else int_loop i value buf
  end.

Definition consoleWriteInt32 (value : Z) : M console unit :=
  match int_loop 11 value (replicate 12 0) with
  | Ok (i, buf) => consoleWriteString (drop i buf)
  | Panic w => panic w
  | Undef w => undef w
  | NoFuel => no_fuel
  end.

Definition consoleGetCursorPos : M console Z :=
  gets (λ c, Z.lor (Z.shiftl (cursorY c) 16) (cursorX c)).
Definition consoleGetCursorPosX : M console Z := gets cursorX.
Definition consoleGetCursorPosY : M console Z := gets cursorY.
Definition consoleGetHeight : Z := VGA_HEIGHT.
Definition consoleGetWidth : Z := VGA_WIDTH.
Definition consoleGetSize : Z := Z.lor (Z.shiftl VGA_HEIGHT 16) VGA_WIDTH.
Definition consoleGetHardwareCursor : M console Z :=
  gets (λ c, Z.lor (Z.shiftl (cursorHardwareY c) 16) (cursorHardwareX c)).

Definition consoleSetFlags (flags : Z) : M console unit :=
  modify (set_flags flags) ;; consoleShowHardwareCursor true.
Definition consoleGetFlags : M console Z := gets consoleFlags.

(** ** The failure screen

    A literal of the source with its [\n] escapes: [nl n] is a run of line
    breaks. *)
Definition nl (n : nat) : list Z := replicate n 10 ++ [0].
Definition text (s : string) : M console unit := consoleWriteString (literal s).
Definition show_register (name : string) (value : Z) : M console unit :=
  text name ;; consoleWriteHex32 value.

(** The registers of the [struct taskContext] that are shown. *)
Record failure_context := FailureContext {
  fc_cr3 : Z; fc_eip : Z; fc_eflags : Z;
  fc_eax : Z; fc_ecx : Z; fc_edx : Z; fc_ebx : Z; fc_esp : Z; fc_ebp : Z; fc_esi : Z; fc_edi : Z;
  fc_es : Z; fc_cs : Z; fc_ss : Z; fc_ds : Z; fc_fs : Z; fc_gs : Z;
}.

Fixpoint write_all (lines : list (list Z)) : M console unit :=
  match lines with
  | [] => mret tt
  | l :: lines => consoleWriteString l ;; write_all lines
  end.

Fixpoint write_args (i : Z) (args : list Z) : M console unit :=
  match args with
  | [] => mret tt
  | a :: args =>
      text "  Exception argument " ;; consoleWriteInt32 i ;;
      text ": " ;; consoleWriteHex32 a ;; consoleWriteString (nl 1) ;;
      write_args (u32 (i + 1)) args
  end.

(** Everything [consoleSystemFailure] does before it halts the processor.
    [lines] without its terminating null pointer, [None] for a null pointer. *)
Definition failure_screen (lines : option (list (list Z))) (args : list Z)
    (context : option failure_context) : M console unit :=
  consoleSetFlags (Z.lor CONFLAGS_HWCURSOR CONFLAGS_HWCURSOR_AUTO) ;;
  consoleSetColor (MAKE_COLOR COLOR_WHITE COLOR_LIGHT_BLUE) ;;
  consoleClear ;;
  match lines with
  | None => mret tt
  | Some lines =>
      match lines with
      | [] => mret tt
      | title :: lines =>
          match Util.Str.stringLength (Some title) with
          | Ok length =>
              consoleSetCursorPos (if length <? VGA_WIDTH then (VGA_WIDTH - length) / 2 else 0) 2 ;;
              consoleSetColor (MAKE_COLOR COLOR_LIGHT_BLUE COLOR_WHITE) ;;
              consoleWriteString title ;;
              consoleSetColor (MAKE_COLOR COLOR_WHITE COLOR_LIGHT_BLUE) ;;
              consoleWriteString (nl 2)
          | _ => undef "consoleSystemFailure: unterminated title"
          end
      end ;;
      write_all (tail lines) ;;
      consoleWriteString (nl 2)
  end ;;
  match args with
  | [] => mret tt
  | _ => write_args 0 args ;; consoleWriteString (nl 1)
  end ;;
  match context with
  | None => mret tt
  | Some c =>
      text "  Registers:" ;; consoleWriteString (nl 1) ;;
      show_register "    cr3 = " (fc_cr3 c) ;; show_register ", eip = " (fc_eip c) ;;
      show_register ", efl = " (fc_eflags c) ;; consoleWriteString (nl 1) ;;
      show_register "    eax = " (fc_eax c) ;; show_register ", ecx = " (fc_ecx c) ;;
      show_register ", edx = " (fc_edx c) ;; show_register ", ebx = " (fc_ebx c) ;;
      consoleWriteString (nl 1) ;;
      show_register "    esp = " (fc_esp c) ;; show_register ", ebp = " (fc_ebp c) ;;
      show_register ", esi = " (fc_esi c) ;; show_register ", edi = " (fc_edi c) ;;
      consoleWriteString (nl 2) ;;
      text "  Segments:" ;; consoleWriteString (nl 1) ;;
      show_register "    es  = " (fc_es c) ;; show_register ", cs  = " (fc_cs c) ;;
      show_register ", ss  = " (fc_ss c) ;; consoleWriteString (nl 1) ;;
      show_register "    ds  = " (fc_ds c) ;; show_register ", fs  = " (fc_fs c) ;;
      show_register ", gs  = " (fc_gs c) ;; consoleWriteString (nl 2)
  end.

(** [debugHalt] never returns. *)
Definition consoleSystemFailure lines args context : M console unit :=
  failure_screen lines args context ;; panic "system halted".

(** ** Invariant *)

(** The text memory holds 80 x 25 words and the color is a byte. *)
Definition text_ok (c : console) : Prop :=
  length (videoTextMemory c) = 2000%nat ∧ Forall is_u16 (videoTextMemory c) ∧ is_u8 (consoleColor c).

Definition console_ok (c : console) : Prop :=
  text_ok c ∧ 0 ≤ cursorX c < VGA_WIDTH ∧ 0 ≤ cursorY c < VGA_HEIGHT.

(** ** Accesses to the screen and to the cursor registers *)

Lemma wp_with_io {A} (m : M ports A) c Q :
  wp m (io c) (λ a p, Q a (set_io p c)) → wp (with_io m) c Q.
Proof. apply wp_zoom. Qed.

Lemma wp_peek i v c Q : nthZ (videoTextMemory c) i = Some v → Q v c → wp (peek i) c Q.
Proof. intros Hi HQ. unfold peek. wp_steps. by eapply wp_deref. Qed.

Lemma wp_poke i v c Q :
  0 ≤ i < lenZ (videoTextMemory c) →
  Q tt (set_text (setZ (videoTextMemory c) i (u16 v)) c) → wp (poke i v) c Q.
Proof.
  intros [x Hx]%nthZ_is_Some HQ. unfold poke. wp_steps. rewrite Hx. by wp_steps.
Qed.

(** A computation that only talks to the ports. *)
Definition io_only (m : M console unit) : Prop := ∀ c Q,
  (∀ p, Q tt (set_io p c)) → wp m c Q.

Lemma io_only_outb port v : io_only (with_io (outb port v)).
Proof. intros c Q HQ. apply wp_with_io, wp_outb, HQ. Qed.

Lemma io_only_seq m1 m2 : io_only m1 → io_only m2 → io_only (m1 ;; m2).
Proof. intros H1 H2 c Q HQ. wp_step. apply H1. intros p. apply H2. intros p'. apply HQ. Qed.

Lemma io_only_ret : io_only (mret tt).
Proof. intros [] Q HQ. wp_step. exact (HQ _). Qed.

Lemma io_only_when b m : io_only m → io_only (when b m).
Proof. intros Hm. destruct b; [done|apply io_only_ret]. Qed.

#[local] Hint Resolve io_only_outb io_only_seq io_only_ret io_only_when : ibnos.

Lemma io_only_show changed : io_only (consoleShowHardwareCursor changed).
Proof.
  intros c Q HQ. unfold consoleShowHardwareCursor, __consoleSetMiscOutputRegister.
  wp_steps. apply wp_with_io, wp_inb. intros v vs _. apply io_only_outb. intros p. wp_steps.
  assert (∀ b, io_only (if b : bool then
     when changed (with_io (outb 0x3D4 0x0A) ;; with_io (outb 0x3D5 0x00)) ;;
     with_io (outb 0x3D4 0x0F) ;;
     with_io (outb 0x3D5 (Z.land (u32 (CHAR_OFFSET (cursorHardwareX c) (cursorHardwareY c))) 255)) ;;
     with_io (outb 0x3D4 0x0E) ;;
     with_io (outb 0x3D5 (Z.land (Z.shiftr (u32 (CHAR_OFFSET (cursorHardwareX c) (cursorHardwareY c))) 8) 255))
   else with_io (outb 0x3D4 0x0A) ;; with_io (outb 0x3D5 0x10))) as Hio.
  { intros []; auto 10 with ibnos. }
  apply Hio. intros p'. apply HQ.
Qed.

Lemma wp_set_hw x y c Q :
  (∀ p, Q tt (set_io p (set_hwcursor (u8 x) (u8 y) c))) → wp (consoleSetHardwareCursor x y) c Q.
Proof.
  intros HQ. unfold consoleSetHardwareCursor. wp_steps.
  apply io_only_when; [apply io_only_show|done].
Qed.

(** ** Scrolling *)

Definition scrolled (t : list Z) (b : Z) : list Z := drop 80 t ++ replicate 80 b.

Lemma blank_u16 c : is_u8 (consoleColor c) → is_u16 (blank c).
Proof.
  intros Hc. unfold blank. rewrite Z.lor_comm, lor_shiftl_low by ulia. ulia.
Qed.

Lemma nthZ_ext (l1 l2 : list Z) :
  length l1 = length l2 → (∀ i, 0 ≤ i < lenZ l1 → nthZ l1 i = nthZ l2 i) → l1 = l2.
Proof.
  intros Hl Hi. apply list_eq. intros n. destruct (decide (n < length l1)%nat).
  - specialize (Hi (Z.of_nat n)). unfold nthZ in Hi.
    destruct (Z.ltb_spec (Z.of_nat n) 0); [lia|]. rewrite !Nat2Z.id in Hi. apply Hi. lia.
  - rewrite !lookup_ge_None_2 by lia. done.
Qed.

Lemma nthZ_drop (l : list Z) n i : 0 ≤ i → nthZ (drop n l) i = nthZ l (i + Z.of_nat n).
Proof.
  intros. unfold nthZ. destruct (Z.ltb_spec i 0), (Z.ltb_spec (i + Z.of_nat n) 0); try lia.
  rewrite lookup_drop. f_equal. lia.
Qed.

(** [moved t k c]: the first [k] cells of the screen are those of [t] one row
    below, the others are those of [t]. *)
Definition moved (c0 : console) (k : Z) (c : console) : Prop :=
  ∃ t, c = set_text t c0 ∧ length t = 2000%nat ∧
    ∀ i, 0 ≤ i < 2000 → nthZ t i = nthZ (videoTextMemory c0) (if i <? k then i + 80 else i).

Lemma moved_step c0 k c :
  text_ok c0 → 0 ≤ k < 1920 → moved c0 k c →
  wp (let* v := peek (k + 80) in poke k v) c (λ _ c', moved c0 (k + 1) c').
Proof.
  intros (Hl & Hu & _) Hk (t & -> & Ht & Hi). destruct (nthZ_is_Some t (k + 80)) as [v Hv]; [lia|].
  wp_step. eapply wp_peek; [done|]. apply wp_poke; [simpl; lia|].
  assert (is_u16 v) as Hv16.
  { rewrite Hi in Hv by lia. unfold nthZ in Hv. case_match; [done|].
    by eapply Forall_lookup_1 in Hv. }
  exists (setZ t k (u16 v)). simpl. split; [done|]. rewrite length_setZ. split; [done|].
  intros i Hi2. unfold u16. rewrite Z.mod_small by done.
  destruct (decide (i = k)) as [->|].
  - rewrite nthZ_setZ_eq by lia. rewrite <-Hv, Hi by lia.
    destruct (Z.ltb_spec (k + 80) k), (Z.ltb_spec k (k + 1)); done || lia.
  - rewrite nthZ_setZ_ne, Hi by done. f_equal.
    destruct (Z.ltb_spec i k), (Z.ltb_spec i (k + 1)); lia.
Qed.

(** The last row is blanked cell by cell. *)
Definition blanked (c0 : console) (k : Z) (c : console) : Prop :=
  ∃ t, c = set_text t c0 ∧ length t = 2000%nat ∧
    ∀ i, 0 ≤ i < 2000 → nthZ t i =
      if i <? 1920 then nthZ (videoTextMemory c0) (i + 80)
      else if i <? 1920 + k then Some (blank c0) else nthZ (videoTextMemory c0) i.

Lemma blanked_step c0 k c :
  text_ok c0 → 0 ≤ k < 80 → blanked c0 k c →
  wp (let* c := get in poke (1920 + k) (blank c)) c (λ _ c', blanked c0 (k + 1) c').
Proof.
  intros (Hl & _ & Hc) Hk (t & -> & Ht & Hi). wp_steps. apply wp_poke; [simpl; lia|].
  exists (setZ t (1920 + k) (u16 (blank c0))). simpl. split; [done|]. rewrite length_setZ.
  split; [done|]. intros i Hi2. unfold u16. rewrite Z.mod_small by by apply blank_u16.
  destruct (decide (i = 1920 + k)) as [->|].
  - rewrite nthZ_setZ_eq by lia.
    destruct (Z.ltb_spec (1920 + k) 1920), (Z.ltb_spec (1920 + k) (1920 + (k + 1))); done || lia.
  - rewrite nthZ_setZ_ne, Hi by done. destruct (Z.ltb_spec i 1920); [done|].
    destruct (Z.ltb_spec i (1920 + k)), (Z.ltb_spec i (1920 + (k + 1))); done || lia.
Qed.

Lemma wp_scroll c Q :
  text_ok c → Q tt (set_text (scrolled (videoTextMemory c) (blank c)) c) →
  wp consoleScrollUp c Q.
Proof.
  intros Hok HQ. pose proof Hok as (Hl & _). unfold consoleScrollUp. wp_step.
  apply (wp_for_loop (λ y c', moved c ((y - 1) * 80) c')).
  { exists (videoTextMemory c). split; [by destruct c|]. split; [done|].
    intros i Hi. by destruct (Z.ltb_spec i ((1 - 1) * 80)); [lia|]. }
  { intros y c1 Hy Hm. apply (wp_for_loop (λ x c', moved c ((y - 1) * 80 + x) c')).
    - by rewrite Z.add_0_r.
    - intros x c2 Hx Hm2. unfold CHAR_OFFSET, VGA_WIDTH.
      replace (y * 80 + x) with ((y - 1) * 80 + x + 80) by lia. rewrite Z.add_assoc.
      apply moved_step; [done|lia|done].
    - intros c2. by replace (y + 1 - 1) with (y - 1 + 1) by lia; rewrite Z.mul_add_distr_r. }
  intros c1 (t & -> & Ht & Hi).
  apply (wp_for_loop (λ k c', blanked c k c')).
  { exists t. split; [done|]. split; [done|]. intros i Hi2. rewrite Hi by done.
    destruct (Z.ltb_spec i ((1 + Z.of_nat 24 - 1) * 80)), (Z.ltb_spec i 1920), (Z.ltb_spec i (1920 + 0)); try lia; done. }
  { intros k c2 Hk Hb. unfold CHAR_OFFSET, VGA_HEIGHT, VGA_WIDTH.
    apply (blanked_step c k c2); [done|lia|done]. }
  intros c2 (t2 & -> & Ht2 & Hi3).
  replace (scrolled (videoTextMemory c) (blank c)) with t2 in HQ; [done|].
  apply nthZ_ext; unfold scrolled.
  - rewrite length_app, length_drop, length_replicate. lia.
  - intros i Hi4. rewrite Hi3 by lia. destruct (Z.ltb_spec i 1920).
    + rewrite nthZ_app_l by (rewrite length_drop; lia). by rewrite nthZ_drop by lia.
    + rewrite nthZ_app_r by (rewrite length_drop; lia). rewrite nthZ_replicate.
      * by destruct (Z.ltb_spec i (1920 + (0 + Z.of_nat 80))); [|lia].
      * rewrite length_drop. lia.
Qed.

(** ** The terminal the console implements

    Writing one character to the cells, the column and the row of a screen. *)

Definition cell (color chr : Z) : Z := Z.land chr 255 + 256 * color.

Definition term_advance (raw newline : bool) (color : Z) (s : list Z * Z * Z) : list Z * Z * Z :=
  let '(t, x, y) := s in
  let '(x, y) := if (newline && negb raw) || (VGA_WIDTH <=? x) then (0, y + 1) else (x, y) in
  if VGA_HEIGHT <=? y then
    if raw then (t, x, 0) else (scrolled t (cell color 32), x, VGA_HEIGHT - 1)
  else (t, x, y).

Definition term_putc (raw : bool) (color : Z) (s : list Z * Z * Z) (chr : Z) : list Z * Z * Z :=
  let '(t, x, y) := s in
  term_advance raw (chr =? 10) color
    (if raw || negb (chr =? 10) then (setZ t (y * VGA_WIDTH + x) (cell color chr), x + 1, y)
     else (t, x, y)).

Definition screen (c : console) : list Z * Z * Z := (videoTextMemory c, cursorX c, cursorY c).

(** The color, the flags and the shape of the state survive output. *)
Definition same_mode (c c' : console) : Prop :=
  consoleColor c' = consoleColor c ∧ consoleFlags c' = consoleFlags c.

Lemma cell_lor color chr :
  is_u8 color → u16 (Z.lor (Z.land chr 255) (Z.shiftl color 8)) = cell color chr.
Proof.
  intros Hc. pose proof (land_low chr 8 255 ltac:(lia) eq_refl) as E.
  rewrite Z.lor_comm, lor_shiftl_low by (try rewrite E; ulia). unfold cell. rewrite E. ulia.
Qed.

Lemma blank_cell c : is_u8 (consoleColor c) → blank c = cell (consoleColor c) 32.
Proof.
  intros Hc. unfold blank, cell. rewrite Z.lor_comm, lor_shiftl_low by ulia.
  change (Z.land 32 255) with 32. lia.
Qed.

Lemma cell_u16 color chr : is_u8 color → is_u16 (cell color chr).
Proof. intros. rewrite <-cell_lor by done. unfold is_u16, u16. apply Z.mod_pos_bound. lia. Qed.

Lemma scrolled_ok c : text_ok c → text_ok (set_text (scrolled (videoTextMemory c) (blank c)) c).
Proof.
  intros (Hl & Hu & Hc). unfold text_ok; simpl; unfold scrolled. split_and!; [|apply Forall_app; split|done].
  - rewrite length_app, length_drop, length_replicate. lia.
  - by apply Forall_drop.
  - apply Forall_replicate. by apply blank_u16.
Qed.

(** The cursor registers follow the text cursor. *)
Lemma wp_follow c Q :
  (∀ c', screen c' = screen c → same_mode c c' → (console_ok c → console_ok c') → Q tt c') →
  wp (let* c := get in when (flag c CONFLAGS_HWCURSOR_AUTO) (consoleSetHardwareCursor (cursorX c) (cursorY c)))
    c Q.
Proof.
  intros HQ. wp_steps. apply wp_when; intros _; [apply wp_set_hw; intros p|]; by apply HQ.
Qed.

Lemma wp_advance newline c Q :
  text_ok c → 0 ≤ cursorX c ≤ VGA_WIDTH → 0 ≤ cursorY c < VGA_HEIGHT →
  (∀ c', screen c' = term_advance (flag c CONFLAGS_RAW_MODE) newline (consoleColor c) (screen c) →
         same_mode c c' → console_ok c' → Q tt c') →
  wp (advance newline) c Q.
Proof.
  intros Ht Hx Hy HQ. unfold advance. wp_steps. set (raw := flag c CONFLAGS_RAW_MODE) in *.
  set (x' := if (newline && negb raw) || (VGA_WIDTH <=? cursorX c) then 0 else cursorX c).
  set (y' := if (newline && negb raw) || (VGA_WIDTH <=? cursorX c) then cursorY c + 1 else cursorY c).
  assert (0 ≤ x' < VGA_WIDTH ∧ 0 ≤ y' ≤ VGA_HEIGHT) as [Hx' Hy'].
  { subst x' y'. unfold VGA_WIDTH, VGA_HEIGHT in *. destruct (newline && negb raw); simpl; [lia|].
    destruct (Z.leb_spec 80 (cursorX c)); lia. }
  assert (term_advance raw newline (consoleColor c) (screen c) =
    if VGA_HEIGHT <=? y' then if raw then (videoTextMemory c, x', 0)
      else (scrolled (videoTextMemory c) (blank c), x', VGA_HEIGHT - 1)
    else (videoTextMemory c, x', y')) as E.
  { unfold term_advance, screen, x', y'. rewrite blank_cell by apply Ht.
    by destruct ((newline && negb raw) || (VGA_WIDTH <=? cursorX c)). }
  rewrite E in HQ. clear E.
  assert (Hw : wp (when ((newline && negb raw) || (VGA_WIDTH <=? cursorX c))
    (modify (λ c, set_cursor 0 (u8 (cursorY c + 1)) c))) c
    (λ _ c', c' = set_cursor x' y' c)).
  { subst x' y'. apply wp_when; intros ->; [|by destruct c].
    wp_step. f_equal. apply u8_small. unfold is_u8, VGA_HEIGHT in *. lia. }
  eapply wp_mono; [exact Hw|]. intros [] c' ->. wp_steps.
  apply wp_when; intros Hfull; change (cursorY (set_cursor x' y' c)) with y' in Hfull; rewrite Hfull in HQ.
  - destruct raw.
    + wp_steps. apply wp_follow. intros c' Hs Hm Hok. apply HQ; [done|done|]. by apply Hok.
    + wp_steps. apply wp_scroll; [done|]. wp_steps.
      apply wp_follow. intros c' Hs Hm Hok. apply HQ; [done|done|]. apply Hok. split; [|done].
      by apply (scrolled_ok c).
  - apply wp_follow. intros c' Hs Hm Hok. apply HQ; [done|done|]. apply Hok. split; [done|].
    split; [done|]. simpl. unfold VGA_HEIGHT in *. lia.
Qed.

(** ** Output *)

Lemma console_ok_offset c : console_ok c → 0 ≤ CHAR_OFFSET (cursorX c) (cursorY c) < 2000.
Proof. intros (_ & Hx & Hy). unfold CHAR_OFFSET, VGA_WIDTH, VGA_HEIGHT in *. lia. Qed.

Lemma wp_putc chr c Q :
  console_ok c →
  (∀ c', screen c' = term_putc (flag c CONFLAGS_RAW_MODE) (consoleColor c) (screen c) chr →
         same_mode c c' → console_ok c' → Q tt c') →
  wp (consolePutChar chr) c Q.
Proof.
  intros Hok HQ. pose proof (console_ok_offset c Hok) as Ho. pose proof Hok as ((Hl & Hu & Hc) & Hx & Hy).
  unfold consolePutChar. wp_steps. unfold term_putc, screen in HQ.
  apply wp_when; intros E; rewrite E in HQ.
  - wp_steps. apply wp_poke; [rewrite Hl; lia|]. rewrite cell_lor by done. wp_steps.
    set (c1 := set_text _ _).
    assert (u8 (cursorX c1 + 1) = cursorX c + 1) as ->.
    { apply u8_small. unfold is_u8, VGA_WIDTH in *. simpl. lia. }
    apply wp_advance; [|simpl; lia|done|].
    + split_and!; simpl; [by rewrite length_setZ| |done].
      unfold setZ. case_match; [done|]. apply Forall_insert; [done|by apply cell_u16].
    + intros c' Hs Hm Hok'. by apply HQ.
  - apply wp_advance; [done|lia|done|]. intros c' Hs Hm Hok'. by apply HQ.
Qed.

Lemma wp_putraw chr c Q :
  console_ok c → is_u16 chr →
  (∀ c', same_mode c c' → console_ok c' → Q tt c') → wp (consolePutCharRaw chr) c Q.
Proof.
  intros Hok Hchr HQ. pose proof (console_ok_offset c Hok) as Ho. pose proof Hok as ((Hl & Hu & Hc) & Hx & Hy).
  unfold consolePutCharRaw. wp_steps. apply wp_poke; [rewrite Hl; lia|]. wp_steps.
  set (c1 := set_text _ _).
  assert (u8 (cursorX c1 + 1) = cursorX c + 1) as ->.
  { apply u8_small. unfold is_u8, VGA_WIDTH in *. simpl. lia. }
  apply wp_advance; [|simpl; lia|done|intros c' Hs Hm Hok'; by apply HQ].
  split_and!; simpl; [by rewrite length_setZ| |done].
  unfold setZ. case_match; [done|]. apply Forall_insert; [done|]. unfold u16. ulia.
Qed.

(** What a program sees of an output operation: characters [s] put on the
    screen one after the other, in the current color. *)
Definition prints (c : console) (s : list Z) (c' : console) : Prop :=
  screen c' = fold_left (term_putc (flag c CONFLAGS_RAW_MODE) (consoleColor c)) s (screen c) ∧
  same_mode c c' ∧ console_ok c'.

Lemma prints_nil c : console_ok c → prints c [] c.
Proof. done. Qed.

Lemma prints_cons c c1 c2 x s : 
  screen c1 = term_putc (flag c CONFLAGS_RAW_MODE) (consoleColor c) (screen c) x → same_mode c c1 →
  prints c1 s c2 → prints c (x :: s) c2.
Proof.
  intros Hs [Hc Hf] (Hs2 & [Hc2 Hf2] & Hok). unfold prints, flag in *. simpl.
  rewrite Hs2, Hs, Hc, Hf. split; [done|]. split; [|done]. split; congruence.
Qed.

Lemma prints_app c c1 c2 s1 s2 : prints c s1 c1 → prints c1 s2 c2 → prints c (s1 ++ s2) c2.
Proof.
  intros (Hs1 & [Hc1 Hf1] & _) (Hs2 & [Hc2 Hf2] & Hok). unfold prints, flag in *.
  rewrite fold_left_app, <-Hs1, Hs2, Hc1, Hf1. split; [done|]. split; [|done]. split; congruence.
Qed.

Lemma wp_write_len str n c :
  console_ok c → (n ≤ length str)%nat →
  wp (consoleWriteStringLen str n) c (λ _ c', prints c (take n str) c').
Proof.
  revert str c. induction n as [|n IH]; intros str c Hok Hn; [by apply wp_ret|].
  destruct str as [|x str]; simpl in *; [lia|].
  wp_step. apply wp_putc; [done|]. intros c1 Hs Hm Hok1.
  eapply wp_mono; [apply IH; [done|lia]|]. intros [] c2 Hp. by eapply prints_cons.
Qed.

Lemma wp_write_string s rest c :
  console_ok c → Util.Str.nonzero s →
  wp (consoleWriteString (s ++ 0 :: rest)) c (λ _ c', prints c s c').
Proof.
  intros Hok Hs. revert c Hok. induction Hs as [|x s Hx _ IH]; intros c Hok; simpl; [by apply wp_ret|].
  destruct (Z.eqb_spec x 0); [done|].
  wp_step. apply wp_putc; [done|]. intros c1 Hsc Hm Hok1.
  eapply wp_mono; [by apply IH|]. intros [] c2 Hp. by eapply prints_cons.
Qed.

(** writing [len] characters of a buffer has the effect of a terminal of
    80 x 25 cells that receives them one by one: line breaks, wrapped lines and
    scrolling (wrapping to the first row in raw mode) included, and no access
    leaves the screen. *)
Theorem consoleWriteStringLen_correct str len c :
  console_ok c → (len ≤ length str)%nat →
  wp (consoleWriteStringLen str len) c (λ _ c',
    screen c' = fold_left (term_putc (flag c CONFLAGS_RAW_MODE) (consoleColor c)) (take len str) (screen c) ∧
    same_mode c c' ∧ console_ok c').
Proof. apply wp_write_len. Qed.

(** *** Numbers *)

Definition hex_char (d : Z) : Z := if d <? 10 then 48 + d else 55 + d.

Lemma hexTable_spec d : 0 ≤ d < 16 → default 0 (nthZ hexTable d) = hex_char d.
Proof.
  intros Hd. assert (Forall (λ d, default 0 (nthZ hexTable d) = hex_char d) (seqZ 0 16)) as Hf
    by (apply (bool_decide_unpack _); by vm_compute).
  rewrite Forall_forall in Hf. apply Hf, elem_of_seqZ. lia.
Qed.

Lemma hex_loop_spec n value buf :
  (n ≤ length buf)%nat → hex_loop n value buf = (hex_char <$> digits 16 n value) ++ drop n buf.
Proof.
  revert value buf. induction n as [|n IH]; intros value buf Hn; [done|].
  assert (Z.land value 15 = value mod 16) as E by (apply (land_low value 4); done).
  change (hex_loop (S n) value buf) with
    (hex_loop n (Z.shiftr value 4) (<[n := default 0 (nthZ hexTable (Z.land value 15))]> buf)).
  rewrite IH by (rewrite length_insert; lia).
  rewrite E, hexTable_spec by (apply Z.mod_pos_bound; lia).
  assert (Z.shiftr value 4 = value / 16) as -> by by rewrite Z.shiftr_div_pow2.
  change (digits 16 (S n) value) with (digits 16 n (value / 16) ++ [value mod 16]).
  rewrite fmap_app, <-app_assoc. f_equal. simpl.
  destruct (lookup_lt_is_Some_2 buf n) as [x Hx]; [lia|].
  rewrite <-(take_drop_middle _ _ _ Hx) at 1.
  assert (length (take n buf) = n) as Ht by (rewrite length_take; lia).
  rewrite insert_app_r_alt, Ht, Nat.sub_diag by lia. simpl.
  rewrite drop_app_length' by done. done.
Qed.

Lemma wp_write_hex n value c :
  console_ok c →
  wp (consoleWriteString (literal "0x") ;;
      consoleWriteStringLen (hex_loop n value (replicate n 0)) n) c
    (λ _ c', prints c ([48; 120] ++ (hex_char <$> digits 16 n value)) c').
Proof.
  intros Hok. wp_step.
  eapply wp_mono; [apply (wp_write_string [48; 120] [] c Hok); by repeat constructor|].
  intros [] c1 Hp1. pose proof Hp1 as (_ & _ & Hok1).
  rewrite hex_loop_spec by (rewrite length_replicate; lia).
  rewrite drop_replicate, Nat.sub_diag. simpl replicate. rewrite app_nil_r.
  assert (length (hex_char <$> digits 16 n value) = n) as Hlen by (by rewrite length_fmap, length_digits).
  eapply wp_mono; [apply wp_write_len; [done|by rewrite Hlen]|].
  intros [] c2 Hp2. rewrite take_ge in Hp2 by by rewrite Hlen. by eapply prints_app.
Qed.

(** [consoleWriteHex32] prints "0x" and eight hexadecimal digits whose
    value is the number. *)
Theorem consoleWriteHex32_correct value c :
  console_ok c → is_u32 value →
  wp (consoleWriteHex32 value) c (λ _ c', ∃ ds,
    length ds = 8%nat ∧ Forall (λ d, 0 ≤ d < 16) ds ∧ digits_value 16 ds = value ∧
    prints c ([48; 120] ++ (hex_char <$> ds)) c').
Proof.
  intros Hok Hv. unfold consoleWriteHex32. cbv zeta.
  eapply wp_mono; [exact (wp_write_hex 8 value c Hok)|]. intros [] c' Hp.
  exists (digits 16 8 value). split_and!; [apply length_digits|by apply digits_range| |done].
  by apply digits_value_spec.
Qed.

(** The digits of [consoleWriteInt32]: as many as the number needs. *)
Lemma int_loop_spec i v buf :
  (0 < i ≤ length buf)%nat → 0 ≤ v < 10 ^ Z.of_nat i →
  ∃ k buf', int_loop i v buf = Ok ((i - k)%nat, buf') ∧ (0 < k ≤ i)%nat ∧
    drop (i - k) buf' = ((λ d, 48 + d) <$> digits 10 k v) ++ drop i buf ∧
    v < 10 ^ Z.of_nat k ∧ (k = 1%nat ∨ 10 ^ (Z.of_nat k - 1) ≤ v).
Proof.
  revert v buf. induction i as [|i IH]; intros v buf Hi Hv; [lia|].
  destruct (lookup_lt_is_Some_2 buf i) as [x Hx]; [lia|].
  assert (drop i (<[i := 48 + v mod 10]> buf) = (48 + v mod 10) :: drop (S i) buf) as Hd.
  { assert (length (take i buf) = i) as Ht by (rewrite length_take; lia).
    rewrite <-(take_drop_middle _ _ _ Hx) at 1.
    rewrite insert_app_r_alt, Ht, Nat.sub_diag by lia. simpl. by rewrite drop_app_length' by done. }
  change (int_loop (S i) v buf) with
    (if v / 10 =? 0 then Ok (i, <[i := 48 + v mod 10]> buf)
     else int_loop i (v / 10) (<[i := 48 + v mod 10]> buf)).
  rewrite Nat2Z.inj_succ, Z.pow_succ_r in Hv by lia.
  destruct (Z.eqb_spec (v / 10) 0) as [Hz|Hz].
  - exists 1%nat, (<[i := 48 + v mod 10]> buf). split_and!; [do 2 f_equal; lia|lia|lia| | |by left].
    + by replace (S i - 1)%nat with i by lia.
    + simpl. Z.to_euclidean_division_equations; lia.
  - destruct i as [|i']; [simpl in *; exfalso; Z.to_euclidean_division_equations; lia|].
    destruct (IH (v / 10) (<[S i' := 48 + v mod 10]> buf)) as (k & buf' & E & Hk & Hdr & Hlt & Hge).
    { rewrite length_insert. lia. }
    { split; [apply Z.div_pos; lia|apply Z.div_lt_upper_bound; lia]. }
    exists (S k), buf'. rewrite Nat.sub_succ. split_and!; [done|lia|lia| | |].
    + rewrite Hdr, Hd. change (digits 10 (S k) v) with (digits 10 k (v / 10) ++ [v mod 10]).
      by rewrite fmap_app, <-app_assoc.
    + rewrite Nat2Z.inj_succ, Z.pow_succ_r by lia. Z.to_euclidean_division_equations; lia.
    + right. replace (Z.of_nat (S k) - 1) with (Z.of_nat k) by lia.
      destruct Hge as [->|Hge]; [Z.to_euclidean_division_equations; lia|].
      replace (Z.of_nat k) with (Z.succ (Z.of_nat k - 1)) by lia. rewrite Z.pow_succ_r by lia.
      Z.to_euclidean_division_equations; lia.
Qed.

(** [consoleWriteInt32] never leaves its twelve byte buffer, and prints
    the decimal digits of the number without a leading zero. *)
Theorem consoleWriteInt32_correct value c :
  console_ok c → is_u32 value →
  wp (consoleWriteInt32 value) c (λ _ c', ∃ ds,
    Forall (λ d, 0 ≤ d < 10) ds ∧ digits_value 10 ds = value ∧
    (length ds = 1%nat ∨ 10 ^ (lenZ ds - 1) ≤ value) ∧
    prints c ((λ d, 48 + d) <$> ds) c').
Proof.
  intros Hok Hv. unfold consoleWriteInt32.
  destruct (int_loop_spec 11 value (replicate 12 0)) as (k & buf & E & Hk & Hd & Hlt & Hge);
    [rewrite length_replicate; lia|unfold is_u32 in Hv; lia|].
  rewrite E, Hd. eapply wp_mono; [apply (wp_write_string _ []); [done|]|].
  - apply Forall_fmap. eapply Forall_impl; [by apply digits_range|]. simpl. lia.
  - intros [] c' Hp. exists (digits 10 k value). rewrite length_digits.
    split_and!; [by apply digits_range|apply digits_value_spec; unfold is_u32 in Hv; lia|done|done].
Qed.

(** ** The failure screen *)

(** A computation that keeps the console well formed. *)
Definition keeps (m : M console unit) : Prop := ∀ c, console_ok c → wp m c (λ _ c', console_ok c').

Create HintDb console discriminated.
#[local] Hint Constants Opaque : console.

Lemma keeps_ret : keeps (mret tt).
Proof. by intros c Hc. Qed.

Lemma keeps_seq m1 m2 : keeps m1 → keeps m2 → keeps (m1 ;; m2).
Proof.
  intros H1 H2 c Hc. wp_step. eapply wp_mono; [by apply H1|]. intros [] c' Hc'. by apply H2.
Qed.

Lemma keeps_color v : keeps (consoleSetColor v).
Proof.
  intros c ((Hl & Hu & _) & Hcur). unfold consoleSetColor. wp_step.
  split; [|done]. split_and!; [done..|apply u8_range].
Qed.

Lemma keeps_flags v : keeps (consoleSetFlags v).
Proof.
  intros c Hc. unfold consoleSetFlags. wp_steps. by apply io_only_show.
Qed.

Lemma keeps_write s : (∃ s' rest, s = s' ++ 0 :: rest ∧ Util.Str.nonzero s') → keeps (consoleWriteString s).
Proof.
  intros (s' & rest & -> & Hs) c Hc. eapply wp_mono; [by apply wp_write_string|]. by intros [] c' (_ & _ & ?).
Qed.

Lemma keeps_nl n : keeps (consoleWriteString (nl n)).
Proof.
  apply keeps_write. exists (replicate n 10), []. split; [done|]. by apply Forall_replicate.
Qed.

Lemma keeps_hex v : keeps (consoleWriteHex32 v).
Proof.
  intros c Hc. unfold consoleWriteHex32. cbv zeta.
  eapply wp_mono; [exact (wp_write_hex 8 v c Hc)|]. by intros [] c' (_ & _ & ?).
Qed.

Lemma keeps_int v : is_u32 v → keeps (consoleWriteInt32 v).
Proof.
  intros Hv c Hc. unfold consoleWriteInt32.
  destruct (int_loop_spec 11 v (replicate 12 0)) as (k & buf & E & Hk & Hd & Hlt & Hge);
    [rewrite length_replicate; lia|unfold is_u32 in Hv; lia|].
  rewrite E, Hd. apply keeps_write; [|done]. eexists _, []. split; [done|].
  apply Forall_fmap. eapply Forall_impl; [by apply digits_range|]. simpl. lia.
Qed.

Lemma keeps_text s :
  Util.Str.nonzero (Z.of_N ∘ Ascii.N_of_ascii <$> String.list_ascii_of_string s) → keeps (text s).
Proof. intros Hs. apply keeps_write. by eexists _, []. Qed.

Lemma keeps_clear : keeps consoleClear.
Proof.
  intros c Hc. unfold consoleClear. wp_step.
  apply (wp_for_loop (λ _, console_ok)); [done| |].
  - intros y c1 Hy Hc1. apply (wp_for_loop (λ _, console_ok)); [done| |by intros].
    intros x c2 Hx ((Hl & Hu & Hcol) & Hcur). wp_steps. apply wp_poke.
    + rewrite Hl. unfold CHAR_OFFSET, VGA_WIDTH. lia.
    + split; [|done]. split_and!; simpl; [by rewrite length_setZ| |done].
      unfold setZ. case_match; [done|]. apply Forall_insert; [done|]. unfold u16. ulia.
  - intros c1 [Ht Hcur]. unfold consoleSetCursorPos. wp_steps. simpl. wp_steps.
    assert (console_ok (set_cursor (u8 0) (u8 0) c1)) as Hok by (split; [done|]; split; done).
    apply wp_when; intros _; [|done]. apply wp_set_hw. by intros p.
Qed.

Lemma wp_set_cursor_pos x y c :
  console_ok c → wp (consoleSetCursorPos x y) c (λ _ c', console_ok c').
Proof.
  intros [Ht Hc]. unfold consoleSetCursorPos.
  destruct ((VGA_WIDTH <=? u8 x) || (VGA_HEIGHT <=? u8 y)) eqn:E; wp_steps; [done|].
  apply orb_false_iff in E as [?%Z.leb_gt ?%Z.leb_gt].
  pose proof (u8_range x). pose proof (u8_range y). unfold is_u8 in *.
  split; [done|]. split; simpl; lia.
Qed.

Lemma keeps_register name v :
  Util.Str.nonzero (Z.of_N ∘ Ascii.N_of_ascii <$> String.list_ascii_of_string name) →
  keeps (show_register name v).
Proof. intros Hs. apply keeps_seq; [by apply keeps_text|apply keeps_hex]. Qed.

#[local] Hint Resolve keeps_ret keeps_seq keeps_color keeps_flags keeps_nl keeps_hex keeps_clear : console.
#[local] Hint Extern 1 (keeps (text _)) => apply keeps_text; by repeat constructor : console.
#[local] Hint Extern 1 (keeps (show_register _ _)) => apply keeps_register; by repeat constructor : console.

(** [keeps_tac] takes a sequence apart without unfolding its parts. *)
Ltac keeps_tac :=
  lazymatch goal with
  | |- keeps (mbind _ _) => apply keeps_seq; keeps_tac
  | |- _ => try (by auto with console)
  end.

(** A zero terminated string. *)
Definition terminated (s : list Z) : Prop := ∃ s' rest, s = s' ++ 0 :: rest ∧ Util.Str.nonzero s'.

Lemma keeps_write_all lines : Forall terminated lines → keeps (write_all lines).
Proof.
  induction 1 as [|l lines Hl _ IH]; simpl; [apply keeps_ret|].
  apply keeps_seq; [by apply keeps_write|done].
Qed.

Lemma keeps_write_args args i : is_u32 i → keeps (write_args i args).
Proof.
  revert i. induction args as [|a args IH]; intros i Hi; cbn [write_args]; [apply keeps_ret|].
  keeps_tac.
  - by apply keeps_int.
  - apply IH, u32_range.
Qed.

Lemma keeps_title title :
  terminated title → lenZ title < 4294967296 →
  keeps (match Util.Str.stringLength (Some title) with
         | Ok length =>
            consoleSetCursorPos (if length <? VGA_WIDTH then (VGA_WIDTH - length) / 2 else 0) 2 ;;
            consoleSetColor (MAKE_COLOR COLOR_LIGHT_BLUE COLOR_WHITE) ;;
            consoleWriteString title ;;
            consoleSetColor (MAKE_COLOR COLOR_WHITE COLOR_LIGHT_BLUE) ;;
            consoleWriteString (nl 2)
         | _ => undef "consoleSystemFailure: unterminated title"
         end).
Proof.
  intros Ht Hl. assert (∃ n, Util.Str.stringLength (Some title) = Ok n) as [n ->].
  { destruct Ht as (s & rest & -> & Hs). eexists. apply Util.Str.strlen_loop_spec; [done|ulia|].
    rewrite length_app in Hl. simpl in Hl. lia. }
  intros c Hc. wp_step.
  eapply wp_mono; [by apply wp_set_cursor_pos|]. intros b c1 Hc1.
  assert (keeps (consoleSetColor (MAKE_COLOR COLOR_LIGHT_BLUE COLOR_WHITE) ;;
    consoleWriteString title ;; consoleSetColor (MAKE_COLOR COLOR_WHITE COLOR_LIGHT_BLUE) ;;
    consoleWriteString (nl 2))) as Hk; [|by apply Hk].
  keeps_tac. by apply keeps_write.
Qed.

(** the failure screen is drawn completely whatever its lines, its
    arguments and the register values are: no access leaves the screen. *)
Theorem failure_screen_safe lines args context c :
  console_ok c →
  (∀ ls, lines = Some ls → Forall (λ l, terminated l ∧ lenZ l < 4294967296) ls) →
  wp (failure_screen lines args context) c (λ _ c', console_ok c').
Proof.
  intros Hc Hl. revert c Hc. change (keeps (failure_screen lines args context)). unfold failure_screen.
  keeps_tac.
  - destruct lines as [[|title ls]|]; [keeps_tac; apply keeps_ret| |apply keeps_ret].
    apply keeps_seq; [|apply keeps_seq; [|apply keeps_nl]].
    + specialize (Hl _ eq_refl). inversion_clear Hl as [|? ? [??] _]. by apply keeps_title.
    + apply keeps_write_all. specialize (Hl _ eq_refl). inversion_clear Hl as [|? ? _ Hls].
      eapply Forall_impl; [done|]. by intros ? [].
  - destruct args; [apply keeps_ret|]. apply keeps_seq; [by apply keeps_write_args|apply keeps_nl].
  - destruct context; [keeps_tac|apply keeps_ret].
Qed.

(** ** Witnesses: the screen at boot *)

Definition boot_console : console := Console (replicate 2000 (cell 15 32)) 78 24 15 7 0 0 (Ports [] []).

Lemma boot_console_ok : console_ok boot_console.
Proof.
  split; [split_and!; [by vm_compute| |by vm_compute]|by vm_compute].
  by apply Forall_replicate.
Qed.

Lemma consoleWriteStringLen_correct_witness :
  wp (consoleWriteStringLen [65; 66; 67; 10] 4) boot_console (λ _ c',
    screen c' = fold_left (term_putc (flag boot_console CONFLAGS_RAW_MODE) (consoleColor boot_console))
      (take 4 [65; 66; 67; 10]) (screen boot_console) ∧
    same_mode boot_console c' ∧ console_ok c').
Proof. exact (consoleWriteStringLen_correct [65; 66; 67; 10] 4 boot_console
  boot_console_ok ltac:(simpl; lia)). Defined.

Lemma consoleWriteHex32_correct_witness :
  wp (consoleWriteHex32 3735928559) boot_console (λ _ c', ∃ ds,
    length ds = 8%nat ∧ Forall (λ d, 0 ≤ d < 16) ds ∧ digits_value 16 ds = 3735928559 ∧
    prints boot_console ([48; 120] ++ (hex_char <$> ds)) c').
Proof. exact (consoleWriteHex32_correct 3735928559 boot_console boot_console_ok ltac:(ulia)). Defined.

Lemma consoleWriteInt32_correct_witness :
  wp (consoleWriteInt32 4294967295) boot_console (λ _ c', ∃ ds,
    Forall (λ d, 0 ≤ d < 10) ds ∧ digits_value 10 ds = 4294967295 ∧
    (length ds = 1%nat ∨ 10 ^ (lenZ ds - 1) ≤ 4294967295) ∧
    prints boot_console ((λ d, 48 + d) <$> ds) c').
Proof. exact (consoleWriteInt32_correct 4294967295 boot_console boot_console_ok ltac:(ulia)). Defined.

Lemma failure_screen_safe_witness :
  wp (failure_screen (Some [[72; 105; 0]]) [7; 4294967295] (Some (FailureContext 0 1 2 3 4 5 6 7 8 9 10 11 12 13 14 15 16)))
    boot_console (λ _ c', console_ok c').
Proof.
  apply (failure_screen_safe _ _ _ _ boot_console_ok). intros ls [= <-].
  repeat constructor. exists [72; 105], []. split; [done|]. by repeat constructor.
Defined.
