(* ===== verification/PhysMem.v ===== *)
(** * physmem.c: the physical pages

    Models src/kernelmode/kernel/memory/physmem.c: a bitmap with a bit for each
    physical page, and on demand a word of extra information per page (whether
    it is in use, a counter of 7 bits, and whether it may be paged out). *)

From S2P Require Import Prelude Util BootMap Console.
Open Scope Z_scope.

Definition PHYSMEM_FREE := false.
Definition PHYSMEM_RESERVED := true.
Definition PHYSMEMEXTRA_BITS := 10.
Definition PHYSMEMEXTRA_MASK := 0x3FF.
Definition PHYSMEMEXTRA_COUNT := 0x400.
Definition ALL_ONES := 0xFFFFFFFF.

(** [physMemExtra] holds the tables of 1024 words, [None] for a null pointer.
    [rest] is the state of the components above this one, which allocating a
    page of the kernel may change. *)
Record physmem {Rest : Type} := PhysMem {
  physMemMap : list Z;
  physMemExtra : list (option (list Z));
  ramSize : Z;
  physMemInitialized : bool;
  pagingEnabled : bool;        (* the PG bit of CR0 *)
  boot : bootMap;
  rest : Rest;
}.
Arguments physmem : clear implicits.
Arguments PhysMem {Rest}.

Section PhysMem.
Context {Rest : Type}.
Abbreviation pmem := (physmem Rest).
Abbreviation PM := (M pmem).

Definition set_map (x : list Z) (m : pmem) : pmem :=
  PhysMem x (physMemExtra m) (ramSize m) (physMemInitialized m) (pagingEnabled m) (boot m) (rest m).
Definition set_extra (x : list (option (list Z))) (m : pmem) : pmem :=
  PhysMem (physMemMap m) x (ramSize m) (physMemInitialized m) (pagingEnabled m) (boot m) (rest m).
Definition set_ramSize (x : Z) (m : pmem) : pmem :=
  PhysMem (physMemMap m) (physMemExtra m) x (physMemInitialized m) (pagingEnabled m) (boot m) (rest m).
Definition set_initialized (x : bool) (m : pmem) : pmem :=
  PhysMem (physMemMap m) (physMemExtra m) (ramSize m) x (pagingEnabled m) (boot m) (rest m).
Definition set_paging (x : bool) (m : pmem) : pmem :=
  PhysMem (physMemMap m) (physMemExtra m) (ramSize m) (physMemInitialized m) x (boot m) (rest m).
Definition set_rest (x : Rest) (m : pmem) : pmem :=
  PhysMem (physMemMap m) (physMemExtra m) (ramSize m) (physMemInitialized m) (pagingEnabled m) (boot m) x.
Definition set_boot (x : bootMap) (m : pmem) : pmem :=
  PhysMem (physMemMap m) (physMemExtra m) (ramSize m) (physMemInitialized m) (pagingEnabled m) x (rest m).

(** ** The bitmap *)

Definition read_word (i : Z) : PM Z :=
  let* m := get in deref (nthZ (physMemMap m) i) "physMemMap: out of the array".

Definition write_word (i v : Z) : PM unit :=
  let* m := get in
  if (0 <=? i) && (i <? lenZ (physMemMap m)) then put (set_map (setZ (physMemMap m) i v) m)
  else undef "physMemMap: out of the array".

(** [|= mask] or [&= ~mask] *)
Definition masked (reserved : bool) (mask w : Z) : Z :=
  if reserved then Z.lor w mask else Z.land w (u32 (Z.lnot mask)).

Definition update_word (i : Z) (reserved : bool) (mask : Z) : PM unit :=
  let* w := read_word i in write_word i (masked reserved mask w).

Definition full_mask (reserved : bool) : Z := if reserved then ALL_ONES else 0.

(** [(1 << length) - 1] *)
Definition low_mask (length : Z) : Z := u32 (Z.shiftl 1 length - 1).

(** The loop over full words; it returns the index and the length that are left. *)
Fixpoint fill_words (fuel : nat) (longIndex length mask : Z) : PM (Z * Z) :=
  match fuel with
  | O => no_fuel
  | S fuel =>
      if 32 <=? length then write_word longIndex mask ;; fill_words fuel (longIndex + 1) (length - 32) mask
      else mret (longIndex, length)
  end.

Definition physMemSetMemoryBits (start length : Z) (reserved : bool) : PM unit :=
  assert (length <? PAGE_COUNT) "length < PAGE_COUNT" ;;
  assert (start <? PAGE_COUNT - length) "startIndex < PAGE_COUNT - length" ;;
  let longIndex := Z.shiftr start 5 in
  let longOffset := Z.land start 31 in
  let* ' (longIndex, length) :=
    (if longOffset =? 0 then mret (longIndex, length)
     else
       let mask := if 32 - longOffset <? length then u32 (Z.shiftl ALL_ONES longOffset)
                   else u32 (Z.shiftl (low_mask length) longOffset) in
       let rest := if 32 - longOffset <? length then length - (32 - longOffset) else 0 in
       update_word longIndex reserved mask ;; mret (longIndex + 1, rest)) in
  let* ' (longIndex, length) := fill_words (S (Z.to_nat (Z.shiftr length 5))) longIndex length (full_mask reserved) in
  when (0 <? length) (update_word longIndex reserved (low_mask length)).

Definition physMemClearMemoryBits (reserved : bool) : PM unit :=
  modify (λ m, set_map (replicate (length (physMemMap m)) (full_mask reserved)) m).

(** *** Ranges of memory *)

(** [(addr + length + PAGE_MASK) >> PAGE_BITS] in 64 bits, at most the last page. *)
Definition stop_index (x : Z) : Z :=
  let stop := u32 (Z.shiftr x PAGE_BITS) in
  if PAGE_COUNT <=? stop then PAGE_COUNT - 1 else stop.

Definition physMemProtectBootEntry (addr length : Z) : PM unit :=
  let start := Z.shiftr addr PAGE_BITS in
  let stop := stop_index (u64 (addr + length + PAGE_MASK)) in
  assert (start <=? stop) "startIndex <= stopIndex" ;;
  zoom boot set_boot (pagingInsertBootMap start stop) ;;
  physMemSetMemoryBits start (u32 (stop - start)) PHYSMEM_RESERVED.

Definition physMemReserveMemory (addr length : Z) : PM unit :=
  let start := Z.shiftr addr PAGE_BITS in
  let stop := stop_index (u64 (addr + length + PAGE_MASK)) in
  assert (start <=? stop) "startIndex <= stopIndex" ;;
  physMemSetMemoryBits start (u32 (stop - start)) PHYSMEM_RESERVED.

(** [addr + PAGE_MASK] is a 32-bit sum. *)
Definition physMemFreeMemory (addr length : Z) : PM unit :=
  let start := Z.shiftr (u32 (addr + PAGE_MASK)) PAGE_BITS in
  let stop := stop_index (u64 (addr + length)) in
  assert (start <=? stop) "startIndex <= stopIndex" ;;
  physMemSetMemoryBits start (u32 (stop - start)) PHYSMEM_FREE.

(** *** Allocation *)

Definition physMemPageOut (length : Z) : PM unit := panic "NOTIMPLEMENTED: physMemPageOut".
Definition physMemPageIn (hdd_index : Z) : PM Z := panic "NOTIMPLEMENTED: physMemPageIn".

(** The first word of [ws], whose index is [i], that is not full. *)
Fixpoint find_word (ws : list Z) (i : Z) : option (Z * Z) :=
  match ws with
  | [] => None
  | w :: ws => if negb (w =? ALL_ONES) then Some (i, w) else find_word ws (i + 1)
  end.

(** [while ((w >> longOffset) & 1) longOffset++;] *)
Fixpoint find_bit (fuel : nat) (w longOffset : Z) : option Z :=
  match fuel with
  | O => None
  | S fuel => if Z.testbit w longOffset then find_bit fuel w (longOffset + 1) else Some longOffset
  end.

Definition first_word (lowmem : bool) : Z := if lowmem then 0 else 8.

Fixpoint alloc_tries (tries : nat) (lowmem : bool) : PM Z :=
  match tries with
  | O => panic "OUT OF MEMORY"
  | S tries =>
      let* m := get in
      match find_word (drop (Z.to_nat (first_word lowmem)) (physMemMap m)) (first_word lowmem) with
      | Some (longIndex, w) =>
          match find_bit 33 w 0 with
          | Some longOffset =>
              write_word longIndex (Z.lor w (u32 (Z.shiftl 1 longOffset))) ;;
              mret (Z.lor (Z.shiftl longIndex 5) longOffset)
          | None => no_fuel
          end
      | None => physMemPageOut 1 ;; alloc_tries tries lowmem
      end
  end.

Definition physMemAllocPage (lowmem : bool) : PM Z := alloc_tries 16 lowmem.

(** ** The extra information

    A word [struct physMemExtraInfo]: bit 0 is [present], bits 1 to 7 are
    [ref], bit 8 is [unpageable]. *)

Definition ei_present (v : Z) : Z := Z.land v 1.
Definition ei_ref (v : Z) : Z := Z.land (Z.shiftr v 1) 127.
Definition ei_unpageable (v : Z) : Z := Z.land (Z.shiftr v 8) 1.
Definition set_field (off mask v x : Z) : Z :=
  Z.lor (Z.land v (u32 (Z.lnot (Z.shiftl mask off)))) (Z.shiftl (Z.land x mask) off).
Definition ei_set_present (x v : Z) : Z := set_field 0 1 v x.
Definition ei_set_ref (x v : Z) : Z := set_field 1 127 v x.
Definition ei_set_unpageable (x v : Z) : Z := set_field 8 1 v x.

(** The physical page behind a new page of the kernel,
    [pagingGetPhysMem(NULL, pagingAllocatePhysMem(NULL, 1, true, false))]. *)
Class KernelPages := newKernelPage : PM Z.

(** A pointer into a table: the number of the table and the index in it. *)
Definition read_info (p : Z * Z) : PM Z :=
  let* m := get in
  let* t := deref (mjoin (nthZ (physMemExtra m) p.1)) "physMemExtra: null pointer" in
  deref (nthZ t p.2) "physMemExtra: out of the table".

Definition write_info (p : Z * Z) (v : Z) : PM unit :=
  let* m := get in
  let* t := deref (mjoin (nthZ (physMemExtra m) p.1)) "physMemExtra: null pointer" in
  put (set_extra (setZ (physMemExtra m) p.1 (Some (setZ t p.2 v))) m).

(** [if (!info->value) { info->present = 1; info->ref = 1; }] *)
Definition init_info (p : Z * Z) : PM unit :=
  let* v := read_info p in
  when (v =? 0) (write_info p (ei_set_ref 1 (ei_set_present 1 v))).

Definition mark_info (p : Z * Z) : PM unit :=
  init_info p ;; let* v := read_info p in write_info p (ei_set_unpageable 1 v).

Section Extra.
Context `{KernelPages}.

(** A new table is marked itself, which may need another new table. *)
Fixpoint __getPhysMemExtraInfo (fuel : nat) (index : Z) (alloc : bool) : PM (option (Z * Z)) :=
  match fuel with
  | O => no_fuel
  | S fuel =>
      let i := Z.shiftr index PHYSMEMEXTRA_BITS in
      let* m := get in
      assert (pagingEnabled m) "__getCR0() & 0x80000000" ;;
      assert (i <? PHYSMEMEXTRA_COUNT) "i < PHYSMEMEXTRA_COUNT" ;;
      let* t := deref (nthZ (physMemExtra m) i) "physMemExtra: out of the array" in
      let p := (i, Z.land index PHYSMEMEXTRA_MASK) in
      match t with
      | Some _ => mret (Some p)
      | None =>
          if negb alloc then mret None
          else
            let* frame := newKernelPage in
            modify (λ m, set_extra (setZ (physMemExtra m) i (Some (replicate 1024 0))) m) ;;
            let* q := __getPhysMemExtraInfo fuel frame true in
            let* q := match q with Some q => mret q | None => panic "assert: info" end in
            mark_info q ;;
            mret (Some p)
      end
  end.

Definition get_info (fuel : nat) (index : Z) : PM (Z * Z) :=
  let* p := __getPhysMemExtraInfo fuel index true in
  match p with Some p => mret p | None => panic "assert: info" end.

Definition physMemMarkUnpageable (fuel : nat) (index : Z) : PM Z :=
  let* p := get_info fuel index in mark_info p ;; mret index.

Definition physMemAddRefPage (fuel : nat) (index : Z) : PM Z :=
  let* p := get_info fuel index in
  init_info p ;;
  let* v := read_info p in
  let v := ei_set_ref (ei_ref v + 1) v in
  write_info p v ;;
  assert (negb (ei_ref v =? 0)) "info->ref" ;;
  mret index.

Definition physMemReleasePage (index : Z) : PM Z :=
  let longIndex := Z.shiftr index 5 in
  let longOffset := Z.land index 31 in
  let* w := read_word longIndex in
  assert (Z.testbit w longOffset) "(physMemMap[longIndex] >> longOffset) & 1" ;;
  let* p := __getPhysMemExtraInfo 1 index false in
  let* v := match p with Some p => read_info p | None => mret 0 end in
  let* remaining :=
    match p with
    | Some p =>
        if v =? 0 then mret 0
        else
          assert (negb (ei_present v =? 0)) "info->present" ;;
          let v := ei_set_ref (ei_ref v - 1) v in
          write_info p (if ei_ref v =? 0 then 0 else v) ;;
          mret (ei_ref v)
    | None => mret 0
    end in
  if remaining =? 0 then
    update_word longIndex false (u32 (Z.shiftl 1 longOffset)) ;; mret 0
  else mret remaining.

Definition physMemIsLastRef (index : Z) : PM bool :=
  let* p := __getPhysMemExtraInfo 1 index false in
  match p with
  | None => mret true
  | Some p => let* v := read_info p in mret ((v =? 0) || (ei_ref v =? 1))
  end.
End Extra.

Definition physMemRAMSize : PM Z := gets ramSize.
Definition physMemUsableMemory : PM Z := panic "NOTIMPLEMENTED: physMemUsableMemory".

(** ** Initialization

    GRUB leaves its information in physical memory, given by its bytes [mem];
    the kernel is at the addresses the linker chose. *)

Definition MULTIBOOT_INFO_CMDLINE := 0x4.
Definition MULTIBOOT_INFO_MODS := 0x8.
Definition MULTIBOOT_INFO_MEM_MAP := 0x40.
Definition MULTIBOOT_MEMORY_INFO := 0x2.
Definition MULTIBOOT_MEMORY_AVAILABLE := 1.

Section Init.
Context (mem : Z → Z) (kernelBegin kernelEnd : Z).

Fixpoint mem_le (n : nat) (a : Z) : Z :=
  match n with O => 0 | S n => u8 (mem (u32 a)) + 256 * mem_le n (a + 1) end.

Definition read32 (a : Z) : Z := mem_le 4 a.
Definition read64 (a : Z) : Z := mem_le 8 a.

(** [multiboot_info_t] *)
Definition mb_flags (p : Z) := read32 p.
Definition mb_mem_upper (p : Z) := read32 (p + 8).
Definition mb_cmdline (p : Z) := read32 (p + 16).
Definition mb_mods_count (p : Z) := read32 (p + 20).
Definition mb_mods_addr (p : Z) := read32 (p + 24).
Definition mb_mmap_length (p : Z) := read32 (p + 44).
Definition mb_mmap_addr (p : Z) := read32 (p + 48).
Definition sizeof_multiboot_info := 120.

(** [multiboot_memory_map_t] *)
Definition mm_size (p : Z) := read32 p.
Definition mm_addr (p : Z) := read64 (p + 4).
Definition mm_len (p : Z) := read64 (p + 12).
Definition mm_type (p : Z) := read32 (p + 20).

(** [multiboot_module_t] *)
Definition mod_start (p : Z) := read32 p.
Definition mod_end (p : Z) := read32 (p + 4).
Definition sizeof_multiboot_module := 16.

(** The pages one entry of the memory map makes available: the first one and
    the one behind the last. *)
Definition free_range (memMap : Z) : option (Z * Z) :=
  if Z.land (mm_type memMap) MULTIBOOT_MEMORY_AVAILABLE =? 0 then None
  else
    let start := Z.shiftr (u64 (mm_addr memMap + PAGE_MASK)) PAGE_BITS in
    let stop := Z.shiftr (u64 (mm_addr memMap + mm_len memMap)) PAGE_BITS in
    if stop <=? start then None
    else if PAGE_COUNT <=? start then None
    else Some (start, if PAGE_COUNT <=? stop then PAGE_COUNT - 1 else stop).

Definition free_entry (memMap : Z) : PM unit :=
  match free_range memMap with
  | Some (start, stop) => physMemSetMemoryBits start (stop - start) PHYSMEM_FREE
  | None => mret tt
  end.

Fixpoint free_entries (fuel : nat) (bootInfo offset : Z) : PM unit :=
  match fuel with
  | O => no_fuel
  | S fuel =>
      if offset <? mb_mmap_length bootInfo then
        let memMap := u32 (mb_mmap_addr bootInfo + offset) in
        free_entry memMap ;;
        free_entries fuel bootInfo (u32 (offset + u32 (4 + mm_size memMap)))
      else mret tt
  end.

(** [stringLength] of a string in memory. *)
Fixpoint mem_strlen (fuel : nat) (a len : Z) : PM Z :=
  match fuel with
  | O => no_fuel
  | S fuel => if u8 (mem (u32 a)) =? 0 then mret len else mem_strlen fuel (a + 1) (u32 (len + 1))
  end.

Definition protect_module (mods_addr i : Z) : PM unit :=
  let p := u32 (mods_addr + sizeof_multiboot_module * i) in
  if mod_end p <=? mod_start p then mret tt
  else physMemProtectBootEntry (mod_start p) (mod_end p - mod_start p).

Definition physMemInit (fuel : nat) (bootInfo : Z) : PM unit :=
  let* m := get in
  assert (negb (physMemInitialized m)) "!physMemInitialized" ;;
  assert (negb (bootInfo =? 0)) "bootInfo" ;;
  modify (set_extra (replicate 1024 None)) ;;
  assert (negb (Z.land (mb_flags bootInfo) MULTIBOOT_INFO_MEM_MAP =? 0)) "bootInfo->flags & MULTIBOOT_INFO_MEM_MAP" ;;
  modify (set_ramSize (mb_mem_upper bootInfo)) ;;
  physMemClearMemoryBits PHYSMEM_RESERVED ;;
  assert (negb (Z.land (mb_flags bootInfo) MULTIBOOT_MEMORY_INFO =? 0)) "bootInfo->flags & MULTIBOOT_MEMORY_INFO" ;;
  free_entries fuel bootInfo 0 ;;
  physMemProtectBootEntry kernelBegin (u32 (kernelEnd - kernelBegin)) ;;
  physMemProtectBootEntry bootInfo sizeof_multiboot_info ;;
  physMemProtectBootEntry (mb_mmap_addr bootInfo) (mb_mmap_length bootInfo) ;;
  when (negb (Z.land (mb_flags bootInfo) MULTIBOOT_INFO_CMDLINE =? 0))
    (let* length := (if mb_cmdline bootInfo =? 0 then mret 0 else mem_strlen fuel (mb_cmdline bootInfo) 0) in
     physMemProtectBootEntry (mb_cmdline bootInfo) length) ;;
  when (negb (Z.land (mb_flags bootInfo) MULTIBOOT_INFO_MODS =? 0))
    (physMemProtectBootEntry (mb_mods_addr bootInfo) (u32 (mb_mods_count bootInfo * sizeof_multiboot_module)) ;;
     for_loop (Z.to_nat (mb_mods_count bootInfo)) 0 (protect_module (mb_mods_addr bootInfo))) ;;
  modify (set_initialized true).
End Init.

End PhysMem.
Arguments KernelPages : clear implicits.

(** ** The memory map on the screen *)

(** [for (;;)] of [physMemDumpMemInfo], up to the end of the map; a step looks
    at a page, a full word, or ends a range. *)
Fixpoint dump_ranges (fuel : nat) (ws : list Z) (start index : Z) (reserved : bool) (usable : Z) : M console Z :=
  match fuel with
  | O => no_fuel
  | S fuel =>
      let* w := (if index <? PAGE_COUNT then
                   deref (nthZ ws (Z.shiftr index 5)) "physMemMap: out of the array"
                 else mret 0) in
      if (index <? PAGE_COUNT) && (w =? full_mask reserved) then
        dump_ranges fuel ws start (index + (32 - Z.land index 31)) reserved usable
      else if (index <? PAGE_COUNT) && eqb (Z.testbit w (Z.land index 31)) reserved then
        dump_ranges fuel ws start (index + 1) reserved usable
      else
        consoleWriteHex32 (u32 (Z.shiftl start PAGE_BITS)) ;;
        text " - " ;;
        consoleWriteHex32 (u32 (Z.shiftl index PAGE_BITS - 1)) ;;
        (if reserved then text " RESERVED" ;; consoleWriteString (nl 1)
         else text " FREE" ;; consoleWriteString (nl 1)) ;;
        let usable := if reserved then usable else u32 (usable + u32 (Z.shiftl (index - start) PAGE_BITS)) in
        if PAGE_COUNT <=? index then mret usable
        else dump_ranges fuel ws index (index + 1) (Z.testbit w (Z.land index 31)) usable
  end.

Definition physMemDumpMemInfo (ws : list Z) : M console unit :=
  let* w := deref (nthZ ws 0) "physMemMap: out of the array" in
  text "PHYSICAL MEMORY MAP:" ;; consoleWriteString (nl 2) ;;
  let* usable := dump_ranges (Z.to_nat (PAGE_COUNT + 1)) ws 0 0 (Z.testbit w 0) 0 in
  consoleWriteString (nl 1) ;; text "Usable Memory: " ;;
  consoleWriteHex32 usable ;;
  consoleWriteString (nl 2).

Fixpoint dump_entries (l : list bootMapEntry) : M console unit :=
  match l with
  | [] => mret tt
  | e :: l =>
      consoleWriteHex32 (u32 (Z.shiftl (startIndex e) PAGE_BITS)) ;;
      text " - " ;;
      consoleWriteHex32 (u32 (Z.shiftl (entry_end e) PAGE_BITS - 1)) ;;
      consoleWriteString (nl 1) ;;
      dump_entries l
  end.

Definition pagingDumpBootMap (b : bootMap) : M console unit :=
  text "PROTECTED BOOT ENTRIES:" ;; consoleWriteString (nl 2) ;;
  dump_entries (pagingBootMap b).
