(* ===== verification/PhysMemProofs.v ===== *)
(** * The physical pages: which are free, who refers to them

    The bitmap as a function from page numbers: setting a range changes exactly
    that range, allocation takes the lowest free page, initialization leaves
    free what the memory map offers and nothing protected overlaps, and the
    reference counter of a page. *)

From S2P Require Import Prelude Util BootMap Console PhysMem.
Open Scope Z_scope.

(** ** Bits of a word *)

Lemma u32_bits x : 0 ≤ x → (∀ k, 32 ≤ k → Z.testbit x k = false) → is_u32 x.
Proof.
  intros Hx Hb. assert (u32 x = x) as <-; [|apply u32_range].
  apply Z.bits_inj'. intros k Hk. unfold u32. change 4294967296 with (2 ^ 32).
  destruct (decide (k < 32)); [by rewrite Z.mod_pow2_bits_low by lia|].
  rewrite Z.mod_pow2_bits_high by lia. by rewrite Hb by lia.
Qed.

Lemma testbit_high x k : is_u32 x → 32 ≤ k → Z.testbit x k = false.
Proof.
  intros Hx Hk. rewrite <-(u32_small x Hx). unfold u32. change 4294967296 with (2 ^ 32).
  apply Z.mod_pow2_bits_high. lia.
Qed.

Lemma testbit_u32 x k : Z.testbit (u32 x) k = (k <? 32) && Z.testbit x k.
Proof.
  destruct (Z.ltb_spec k 32).
  - destruct (decide (0 ≤ k)); [|by rewrite !Z.testbit_neg_r by lia].
    unfold u32. change 4294967296 with (2 ^ 32). by rewrite Z.mod_pow2_bits_low by lia.
  - by rewrite testbit_high by (lia || apply u32_range).
Qed.

Lemma testbit_ones n k : 0 ≤ n → 0 ≤ k → Z.testbit (Z.ones n) k = (k <? n).
Proof.
  intros. destruct (Z.ltb_spec k n); [by apply Z.ones_spec_low|by apply Z.ones_spec_high].
Qed.

(** [(1 << n) - 1], and the masks that start at bit [off]. *)
Lemma testbit_low_mask n k : 0 ≤ n ≤ 32 → 0 ≤ k → Z.testbit (low_mask n) k = (k <? n).
Proof.
  intros. unfold low_mask. rewrite testbit_u32, Z.shiftl_1_l.
  replace (2 ^ n - 1) with (Z.ones n) by (rewrite Z.ones_equiv; lia). rewrite testbit_ones by lia.
  destruct (Z.ltb_spec k n), (Z.ltb_spec k 32); (done || lia).
Qed.

Lemma testbit_high_mask off k : 0 ≤ off < 32 → 0 ≤ k < 32 →
  Z.testbit (u32 (Z.shiftl ALL_ONES off)) k = (off <=? k).
Proof.
  intros. rewrite testbit_u32, Z.shiftl_spec by lia. change ALL_ONES with (Z.ones 32).
  destruct (Z.leb_spec off k), (Z.ltb_spec k 32); try lia; simpl.
  - apply Z.ones_spec_low. lia.
  - apply Z.testbit_neg_r. lia.
Qed.

Lemma testbit_mid_mask n off k : 0 ≤ n → 0 ≤ off → n + off ≤ 32 → 0 ≤ k < 32 →
  Z.testbit (u32 (Z.shiftl (low_mask n) off)) k = (off <=? k) && (k <? off + n).
Proof.
  intros. rewrite testbit_u32, Z.shiftl_spec by lia.
  destruct (Z.leb_spec off k), (Z.ltb_spec k 32); try lia; simpl.
  - rewrite testbit_low_mask by lia. destruct (Z.ltb_spec (k - off) n), (Z.ltb_spec k (off + n)); (done || lia).
  - apply Z.testbit_neg_r. lia.
Qed.

Lemma is_u32_masked r mask w : is_u32 mask → is_u32 w → is_u32 (masked r mask w).
Proof.
  intros Hm Hw. apply u32_bits.
  - destruct r; simpl; [apply Z.lor_nonneg|apply Z.land_nonneg; left]; unfold is_u32 in *; lia.
  - intros k Hk. destruct r; simpl; rewrite ?Z.lor_spec, ?Z.land_spec, (testbit_high w k) by done;
      [by rewrite testbit_high by done|done].
Qed.

Lemma testbit_masked r mask w k : 0 ≤ k < 32 →
  Z.testbit (masked r mask w) k = if Z.testbit mask k then r else Z.testbit w k.
Proof.
  intros Hk. destruct r; simpl; rewrite ?Z.lor_spec, ?Z.land_spec, ?testbit_u32, ?Z.lnot_spec by lia.
  - destruct (Z.testbit mask k); [apply orb_true_r|apply orb_false_r].
  - rewrite (proj2 (Z.ltb_lt k 32)) by lia. destruct (Z.testbit mask k); [apply andb_false_r|apply andb_true_r].
Qed.

(** ** Pages *)

Definition map_ok (ws : list Z) : Prop := lenZ ws = 32768 ∧ Forall is_u32 ws.

(** Whether page [i] is reserved. *)
Definition reserved (ws : list Z) (i : Z) : bool :=
  match nthZ ws (i / 32) with Some w => Z.testbit w (i mod 32) | None => false end.

Lemma map_word ws j : map_ok ws → 0 ≤ j < 32768 → ∃ w, nthZ ws j = Some w ∧ is_u32 w.
Proof.
  intros [Hl Hu] Hj. destruct (nthZ_is_Some ws j) as [w Hw]; [lia|]. exists w. split; [done|].
  unfold nthZ in Hw. case_match; [done|]. by eapply Forall_lookup_1.
Qed.

Lemma map_ok_set ws j w : map_ok ws → is_u32 w → map_ok (setZ ws j w).
Proof.
  intros [Hl Hu] Hw. split; [by rewrite length_setZ|].
  unfold setZ. case_match; [done|]. by apply Forall_insert.
Qed.

(** [ws'] is [ws] with the pages from [a] up to [b] set to [r]. *)
Definition sets (ws : list Z) (a b : Z) (r : bool) (ws' : list Z) : Prop :=
  ∀ i, reserved ws' i = if (a <=? i) && (i <? b) then r else reserved ws i.

Lemma sets_nil ws a r : sets ws a a r ws.
Proof. intros i. destruct (Z.leb_spec a i), (Z.ltb_spec i a); (done || lia). Qed.

Lemma sets_trans ws a b c r ws1 ws2 : a ≤ b ≤ c → sets ws a b r ws1 → sets ws1 b c r ws2 → sets ws a c r ws2.
Proof.
  intros ? H1 H2 i. rewrite H2, H1.
  destruct (Z.leb_spec b i), (Z.ltb_spec i c), (Z.leb_spec a i), (Z.ltb_spec i b); (done || lia).
Qed.

(** One word: the bits that [w'] changes are the pages from [a] to [b]. *)
Lemma sets_word ws j w w' a b r :
  map_ok ws → nthZ ws j = Some w → 32 * j ≤ a → b ≤ 32 * j + 32 →
  (∀ k, 0 ≤ k < 32 → Z.testbit w' k = if (a <=? 32 * j + k) && (32 * j + k <? b) then r else Z.testbit w k) →
  sets ws a b r (setZ ws j w').
Proof.
  intros Hok Hw Ha Hb Hbits i. unfold reserved.
  pose proof (nthZ_Some_lt _ _ _ Hw) as Hj. pose proof (Z.mod_pos_bound i 32 ltac:(lia)) as Hm.
  pose proof (Z.div_mod i 32 ltac:(lia)) as Hd.
  destruct (decide (j = i / 32)) as [->|Hne].
  - rewrite nthZ_setZ_eq, Hw, Hbits by done. by rewrite <-Hd.
  - rewrite nthZ_setZ_ne by done. destruct (Z.leb_spec a i), (Z.ltb_spec i b); (done || nia).
Qed.

Section Bitmap.
Context {Rest : Type}.
Implicit Types m : physmem Rest.

Lemma wp_update_word m j r mask a b (Q : unit → physmem Rest → Prop) :
  map_ok (physMemMap m) → 0 ≤ j < 32768 → is_u32 mask → 32 * j ≤ a → b ≤ 32 * j + 32 →
  (∀ k, 0 ≤ k < 32 → Z.testbit mask k = (a <=? 32 * j + k) && (32 * j + k <? b)) →
  (∀ ws, map_ok ws → sets (physMemMap m) a b r ws → Q tt (set_map ws m)) →
  wp (update_word j r mask) m Q.
Proof.
  intros Hok Hj Hmask Ha Hb Hbits HQ. destruct (map_word _ j Hok Hj) as (w & Hw & Hu).
  unfold update_word, read_word, write_word. wp_steps. eapply wp_deref; [done|]. wp_steps.
  rewrite (proj2 (Z.leb_le 0 j)), (proj2 (Z.ltb_lt j (lenZ (physMemMap m)))) by (destruct Hok; lia).
  simpl. apply wp_put, HQ; [by apply map_ok_set; [|apply is_u32_masked]|].
  eapply sets_word; [done..|]. intros k Hk. by rewrite testbit_masked, Hbits by done.
Qed.

Lemma fill_words_spec n : ∀ fuel j len r m,
  map_ok (physMemMap m) → 0 ≤ j → 0 ≤ len → 32 * j + len ≤ PAGE_COUNT →
  Z.to_nat (len / 32) = n → (n < fuel)%nat →
  wp (fill_words fuel j len (full_mask r)) m (λ p m', ∃ ws, m' = set_map ws m ∧ map_ok ws ∧
    p = (j + len / 32, len mod 32) ∧ sets (physMemMap m) (32 * j) (32 * (j + len / 32)) r ws).
Proof.
  induction n as [|n IH]; intros fuel j len r m Hok Hj Hlen Hb Hn Hf; (destruct fuel as [|fuel]; [lia|]); cbn [fill_words].
  - assert (len / 32 = 0) as Hz by (pose proof (Z.div_pos len 32); lia).
    assert (len < 32) by (apply Z.div_small_iff in Hz; lia).
    rewrite (proj2 (Z.leb_gt 32 len)) by lia. wp_step. rewrite Hz, Z.mod_small by lia.
    exists (physMemMap m). split_and!; [by destruct m|done|by rewrite Z.add_0_r|].
    rewrite Z.add_0_r. apply sets_nil.
  - assert (32 ≤ len) by (destruct (decide (32 ≤ len)); [done|]; rewrite Z.div_small in Hn by lia; done).
    rewrite (proj2 (Z.leb_le 32 len)) by lia. wp_step. unfold PAGE_COUNT in *.
    destruct (map_word _ j Hok ltac:(lia)) as (w & Hw & Hu).
    unfold write_word. wp_steps.
    rewrite (proj2 (Z.leb_le 0 j)), (proj2 (Z.ltb_lt j (lenZ (physMemMap m)))) by (destruct Hok; lia).
    simpl. apply wp_put.
    assert ((len - 32) / 32 = len / 32 - 1) as Hd.
    { replace (len - 32) with (len + (-1) * 32) by lia. rewrite Z.div_add by lia. lia. }
    assert ((len - 32) mod 32 = len mod 32) as Hm.
    { replace (len - 32) with (len + (-1) * 32) by lia. by rewrite Z.mod_add by lia. }
    eapply wp_mono.
    { apply (IH fuel (j + 1) (len - 32) r (set_map (setZ (physMemMap m) j (full_mask r)) m)); try lia.
      apply map_ok_set; [done|by destruct r]. }
    intros p m' (ws & -> & Hws & -> & Hs). exists ws. split_and!; [done|done| |].
    + f_equal; lia.
    + rewrite Hd in Hs. replace (j + 1 + (len / 32 - 1)) with (j + len / 32) in Hs by lia.
      pose proof (Z.div_le_lower_bound len 32 1 ltac:(lia)).
      apply (sets_trans _ _ (32 * (j + 1)) _ _ (setZ (physMemMap m) j (full_mask r))); [lia| |done].
      eapply sets_word; [done..|lia|lia|]. intros k Hk.
      rewrite (proj2 (Z.leb_le _ _)), (proj2 (Z.ltb_lt _ _)) by lia.
      destruct r; cbn [full_mask]; [|by rewrite Z.bits_0].
      change ALL_ONES with (Z.ones 32). by apply Z.ones_spec_low.
Qed.

Lemma wp_set_bits m start len r (Q : unit → physmem Rest → Prop) :
  map_ok (physMemMap m) → 0 ≤ start → 0 ≤ len < PAGE_COUNT → start + len < PAGE_COUNT →
  (∀ ws, map_ok ws → sets (physMemMap m) start (start + len) r ws → Q tt (set_map ws m)) →
  wp (physMemSetMemoryBits start len r) m Q.
Proof.
  intros Hok Hs Hl Hb HQ. unfold physMemSetMemoryBits. unfold PAGE_COUNT in *.
  wp_steps; [apply Z.ltb_lt; lia|apply Z.ltb_lt; lia|]. cbv zeta.
  rewrite Z.shiftr_div_pow2, (land_low start 5) by done. change (2 ^ 5) with 32.
  set (j := start / 32). set (off := start mod 32).
  assert (start = 32 * j + off ∧ 0 ≤ off < 32) as [Es Hoff].
  { pose proof (Z.div_mod start 32 ltac:(lia)). pose proof (Z.mod_pos_bound start 32). lia. }
  assert (0 ≤ j) as Hj by (apply Z.div_pos; lia). clearbody j off. subst start.
  (* the bits up to the next word *)
  set (P := λ (p : Z * Z) m', ∃ ws n, m' = set_map ws m ∧ map_ok ws ∧ 0 ≤ n ≤ len ∧
    sets (physMemMap m) (32 * j + off) (32 * j + off + n) r ws ∧
    p.2 = len - n ∧ 0 ≤ p.1 ∧ (0 < len - n → 32 * p.1 = 32 * j + off + n)).
  apply (wp_mono _ _ P).
  { destruct (Z.eqb_spec off 0) as [->|Hne].
    - wp_step. exists (physMemMap m), 0. rewrite !Z.add_0_r. simpl. split_and!; (done || apply sets_nil || (by destruct m) || lia).
    - wp_step. destruct (Z.ltb_spec (32 - off) len).
      + apply (wp_update_word _ _ _ _ (32 * j + off) (32 * j + 32)); [done|lia|apply u32_range|lia..| |].
        * intros k Hk. rewrite testbit_high_mask by done.
          destruct (Z.leb_spec off k), (Z.leb_spec (32 * j + off) (32 * j + k)), (Z.ltb_spec (32 * j + k) (32 * j + 32)); (done || lia).
        * intros ws Hws Hset. wp_step. exists ws, (32 - off). simpl. split_and!; (done || lia || idtac).
          by replace (32 * j + off + (32 - off)) with (32 * j + 32) by lia.
      + apply (wp_update_word _ _ _ _ (32 * j + off) (32 * j + off + len)); [done|lia|apply u32_range|lia..| |].
        * intros k Hk. rewrite testbit_mid_mask by lia.
          destruct (Z.leb_spec off k), (Z.leb_spec (32 * j + off) (32 * j + k)),
            (Z.ltb_spec k (off + len)), (Z.ltb_spec (32 * j + k) (32 * j + off + len)); (done || lia).
        * intros ws Hws Hset. wp_step. exists ws, len. simpl. split_and!; (done || lia). }
  intros [j1 len1] m1 (ws & n & -> & Hws & Hn & Hset & Hlen1 & Hj1 & Hnext). simpl in *. subst len1.
  (* full words *)
  wp_step. rewrite Z.shiftr_div_pow2 by done. change (2 ^ 5) with 32.
  apply (wp_mono _ _ (λ p m', P p m' ∧ p.2 < 32)).
  { destruct (decide (len - n = 0)) as [E|Hrest].
    - rewrite E. cbn [fill_words]. split; [|done]. exists ws, n. simpl. split_and!; (done || lia).
    - specialize (Hnext ltac:(lia)). eapply wp_mono.
      { apply (fill_words_spec (Z.to_nat ((len - n) / 32)) (S _) j1 (len - n) r (set_map ws m)); (done || unfold PAGE_COUNT; lia). }
      intros p m' (ws' & -> & Hws' & -> & Hset'). simpl in *.
      pose proof (Z.div_mod (len - n) 32 ltac:(lia)). pose proof (Z.mod_pos_bound (len - n) 32).
      pose proof (Z.div_pos (len - n) 32). split; [|simpl; lia].
      exists ws', (n + 32 * ((len - n) / 32)). simpl. split_and!; (done || lia || idtac).
      eapply sets_trans; [|exact Hset|]; [lia|]. rewrite <-Hnext.
      by replace (32 * j + off + _) with (32 * (j1 + (len - n) / 32)) by lia. }
  clear dependent ws n. intros [j2 len2] m' [(ws & n & -> & Hws & Hn & Hset & Hlen & Hj2 & Hnext) Hsmall]. simpl in *.
  (* the rest *)
  apply wp_when; intros H0.
  - apply Z.ltb_lt in H0. specialize (Hnext ltac:(lia)).
    apply (wp_update_word _ _ _ _ (32 * j2) (32 * j2 + len2)); [done|lia|apply u32_range|lia..| |].
    + intros k Hk. rewrite testbit_low_mask by lia.
      destruct (Z.ltb_spec k len2), (Z.leb_spec (32 * j2) (32 * j2 + k)), (Z.ltb_spec (32 * j2 + k) (32 * j2 + len2)); (done || lia).
    + intros ws' Hws' Hset'. apply HQ; [done|]. eapply sets_trans; [|exact Hset|]; [lia|]. rewrite <-Hnext.
      by replace (32 * j + off + len) with (32 * j2 + len2) by lia.
  - apply Z.ltb_ge in H0. apply HQ; [done|]. by replace len with n by lia.
Qed.

(** Marking a range of pages. A range that passes the two assertions is
    marked completely and no other page changes, however the range lies in the
    words of the bitmap; any other range stops the system. *)
Theorem physMemSetMemoryBits_correct m start len r :
  map_ok (physMemMap m) → is_u32 start → is_u32 len →
  (start + len < PAGE_COUNT →
    wp (physMemSetMemoryBits start len r) m (λ _ m', ∃ ws, m' = set_map ws m ∧ map_ok ws ∧
      ∀ i, reserved ws i = if (start <=? i) && (i <? start + len) then r else reserved (physMemMap m) i)) ∧
  (PAGE_COUNT ≤ start + len → ∃ why, physMemSetMemoryBits start len r m = Panic why).
Proof.
  intros Hok Hs Hl. unfold is_u32 in *. split; intros Hr.
  - apply wp_set_bits; [done|lia..|]. intros ws Hws Hset. by exists ws.
  - unfold physMemSetMemoryBits. destruct (Z.ltb_spec len PAGE_COUNT); [|by eexists].
    rewrite (proj2 (Z.ltb_ge start _)) by lia. by eexists.
Qed.

(** ** Allocation *)

Lemma find_word_spec ws : ∀ i,
  match find_word ws i with
  | Some (j, w) => ∃ k, j = i + Z.of_nat k ∧ ws !! k = Some w ∧ w ≠ ALL_ONES ∧
                   ∀ k', (k' < k)%nat → ws !! k' = Some ALL_ONES
  | None => ∀ k w, ws !! k = Some w → w = ALL_ONES
  end.
Proof.
  induction ws as [|w ws IH]; intros i; simpl; [done|].
  destruct (Z.eqb_spec w ALL_ONES) as [->|Hne]; simpl.
  - specialize (IH (i + 1)). destruct (find_word ws (i + 1)) as [[j w]|].
    + destruct IH as (k & -> & Hk & Hw & Hbefore). exists (S k). split_and!; [lia|done|done|].
      intros [|k'] Hk'; [done|]. apply Hbefore. lia.
    + intros [|k] w Hk; simpl in Hk; [congruence|by eapply IH].
  - exists 0%nat. split_and!; [lia|done|done|]. intros k' ?. lia.
Qed.

Lemma find_bit_spec w n : ∀ fuel off,
  is_u32 w → 0 ≤ off → Z.of_nat n = 32 - off → (n < fuel)%nat →
  ∃ k, find_bit fuel w off = Some k ∧ off ≤ k ≤ 32 ∧ Z.testbit w k = false ∧
       ∀ j, off ≤ j < k → Z.testbit w j = true.
Proof.
  induction n as [|n IH]; intros fuel off Hw Ho Hn Hf; (destruct fuel as [|fuel]; [lia|]); cbn [find_bit].
  - assert (off = 32) as -> by lia. rewrite (testbit_high w 32) by (done || lia).
    exists 32. split_and!; [done|lia|lia|by rewrite (testbit_high w 32) by (done || lia)|]. intros; lia.
  - destruct (Z.testbit w off) eqn:E.
    + destruct (IH fuel (off + 1)) as (k & Hk & Hr & Hb & Hbelow); [done|lia..|]. exists k. split_and!; [done|lia|lia|done|].
      intros j Hj. destruct (decide (j = off)) as [->|]; [done|]. apply Hbelow. lia.
    + exists off. split_and!; [done|lia|lia|done|]. intros; lia.
Qed.

Lemma all_ones_bit k : 0 ≤ k < 32 → Z.testbit ALL_ONES k = true.
Proof. intros. change ALL_ONES with (Z.ones 32). by apply Z.ones_spec_low. Qed.

Lemma not_all_ones w : is_u32 w → (∀ k, 0 ≤ k < 32 → Z.testbit w k = true) → w = ALL_ONES.
Proof.
  intros Hw Hb. apply Z.bits_inj'. intros k Hk. destruct (decide (k < 32)).
  - by rewrite Hb, all_ones_bit by lia.
  - by rewrite !testbit_high by (done || lia).
Qed.

(** The first page [physMemAllocPage] may return. *)
Definition first_page (lowmem : bool) : Z := if lowmem then 0 else 256.

Lemma reserved_word ws j w k : nthZ ws j = Some w → 0 ≤ k < 32 → reserved ws (32 * j + k) = Z.testbit w k.
Proof.
  intros Hw Hk. unfold reserved. rewrite (Z.mul_comm 32 j), Z.div_add_l, Z.div_small, Z.add_0_r by lia.
  rewrite Hw. f_equal. rewrite Z.add_comm, Z.mod_add by lia. by apply Z.mod_small.
Qed.

Lemma nthZ_drop_nat {A} (l : list A) n k : nthZ l (Z.of_nat (n + k)) = drop n l !! k.
Proof. rewrite lookup_drop. unfold nthZ. destruct (Z.ltb_spec (Z.of_nat (n + k)) 0); [lia|]. by rewrite Nat2Z.id. Qed.

(** The search of [physMemAllocPage]: the lowest free page, or that there is none. *)
Lemma alloc_search m lowmem : map_ok (physMemMap m) →
  match find_word (drop (Z.to_nat (first_word lowmem)) (physMemMap m)) (first_word lowmem) with
  | Some (j, w) => ∃ k, find_bit 33 w 0 = Some k ∧ 0 ≤ k < 32 ∧ 0 ≤ j < 32768 ∧ nthZ (physMemMap m) j = Some w ∧
      first_page lowmem ≤ 32 * j + k ∧ reserved (physMemMap m) (32 * j + k) = false ∧
      ∀ i, first_page lowmem ≤ i < 32 * j + k → reserved (physMemMap m) i = true
  | None => ∀ i, first_page lowmem ≤ i < PAGE_COUNT → reserved (physMemMap m) i = true
  end.
Proof.
  intros Hok. set (f := first_word lowmem). assert (0 ≤ f ∧ first_page lowmem = 32 * f) as [Hf Efp] by by destruct lowmem.
  assert (∀ i, 32 * f ≤ i → ∃ k, i / 32 = Z.of_nat (Z.to_nat f + k)) as Hidx.
  { intros i Hi. exists (Z.to_nat (i / 32 - f)). assert (f ≤ i / 32) by (apply Z.div_le_lower_bound; lia). lia. }
  assert (∀ i, reserved (physMemMap m) i = reserved (physMemMap m) (32 * (i / 32) + i mod 32)) as Hsplit.
  { intros i. by rewrite <-Z.div_mod by lia. }
  pose proof (find_word_spec (drop (Z.to_nat f) (physMemMap m)) f) as Hspec. clearbody f.
  destruct (find_word _ _) as [[j w]|].
  - destruct Hspec as (k & -> & Hk & Hne & Hbefore). rewrite <-nthZ_drop_nat in Hk.
    replace (Z.of_nat (Z.to_nat f + k)) with (f + Z.of_nat k) in Hk by lia.
    pose proof (nthZ_Some_lt _ _ _ Hk) as Hj. destruct (map_word _ (f + Z.of_nat k) Hok) as (w' & Hw' & Hu); [destruct Hok; lia|].
    assert (w' = w) as -> by congruence.
    destruct (find_bit_spec w 32 33 0) as (b & Eb & Hb & Hfree & Hbelow); [done|lia..|].
    assert (b ≠ 32). { intros ->. apply Hne. apply not_all_ones; [done|]. intros; by apply Hbelow. }
    exists b. split_and!; (done || lia || (destruct Hok; lia) || idtac).
    + rewrite (reserved_word _ _ _ _ Hk) by lia. done.
    + intros i Hi. rewrite Hsplit. pose proof (Z.mod_pos_bound i 32 ltac:(lia)) as Hm. pose proof (Z.div_mod i 32 ltac:(lia)) as Hd.
      destruct (Hidx i ltac:(lia)) as (k' & Ek'). destruct (decide (k' < k)%nat) as [Hlt|Hge].
      * specialize (Hbefore _ Hlt). rewrite <-nthZ_drop_nat, <-Ek' in Hbefore.
        rewrite (reserved_word _ _ _ _ Hbefore) by lia. by apply all_ones_bit.
      * assert (i / 32 = f + Z.of_nat k) as E by lia. rewrite E in *. rewrite (reserved_word _ _ _ _ Hk) by lia. apply Hbelow. lia.
  - intros i Hi. rewrite Hsplit. destruct (Hidx i ltac:(lia)) as (k & Ek). pose proof (Z.mod_pos_bound i 32 ltac:(lia)).
    assert (i / 32 < 32768) by (apply Z.div_lt_upper_bound; unfold PAGE_COUNT in *; lia).
    destruct (map_word _ (i / 32) Hok) as (w & Hw & _); [lia|]. rewrite (reserved_word _ _ _ _ Hw) by lia.
    rewrite Ek, nthZ_drop_nat in Hw. rewrite (Hspec _ _ Hw). by apply all_ones_bit.
Qed.

Lemma wp_alloc_page m lowmem (Q : Z → physmem Rest → Prop) :
  map_ok (physMemMap m) → (∃ i, first_page lowmem ≤ i < PAGE_COUNT ∧ reserved (physMemMap m) i = false) →
  (∀ p ws, map_ok ws → first_page lowmem ≤ p < PAGE_COUNT → reserved (physMemMap m) p = false →
     (∀ i, first_page lowmem ≤ i < p → reserved (physMemMap m) i = true) →
     (∀ i, reserved ws i = if decide (i = p) then true else reserved (physMemMap m) i) → Q p (set_map ws m)) →
  wp (physMemAllocPage lowmem) m Q.
Proof.
  intros Hok (i0 & Hi0 & Hfree0) HQ. pose proof (alloc_search m lowmem Hok) as Hs. unfold physMemAllocPage.
  change 16%nat with (S 15). cbn [alloc_tries]. wp_steps.
  destruct (find_word _ _) as [[j w]|] eqn:E; [|by rewrite Hs in Hfree0].
  destruct Hs as (k & Hk & Hkr & Hj & Hw & Hlow & Hfree & Hbelow). rewrite Hk.
  destruct (map_word _ j Hok Hj) as (w' & Hw' & Hu). assert (w' = w) as -> by congruence.
  unfold write_word. wp_steps.
  rewrite (proj2 (Z.leb_le 0 j)), (proj2 (Z.ltb_lt j (lenZ (physMemMap m)))) by (destruct Hok; lia).
  simpl. apply wp_put, wp_ret. rewrite lor_shiftl_low by lia. change (2 ^ 5) with 32. rewrite (Z.mul_comm j 32).
  apply HQ; [| |done|done|].
  - apply map_ok_set; [done|]. by apply (is_u32_masked true); [apply u32_range|].
  - unfold PAGE_COUNT. lia.
  - intros i. assert (sets (physMemMap m) (32 * j + k) (32 * j + k + 1) true
        (setZ (physMemMap m) j (Z.lor w (u32 (Z.shiftl 1 k))))) as Hset.
    { apply (sets_word _ _ w); [done|done|lia|lia|]. intros k' Hk'.
      change (Z.lor w (u32 (Z.shiftl 1 k))) with (masked true (u32 (Z.shiftl (low_mask 1) k)) w).
      rewrite testbit_masked, testbit_mid_mask by lia.
      destruct (Z.leb_spec k k'), (Z.leb_spec (32 * j + k) (32 * j + k')), (Z.ltb_spec k' (k + 1)),
        (Z.ltb_spec (32 * j + k') (32 * j + k + 1)); (done || lia). }
    rewrite Hset. case_decide as Hi.
    + subst. by rewrite (proj2 (Z.leb_le _ _)), (proj2 (Z.ltb_lt _ _)) by lia.
    + destruct (Z.leb_spec (32 * j + k) i), (Z.ltb_spec i (32 * j + k + 1)); (done || lia).
Qed.

(** C37: Allocating a page. The lowest free page is returned (above 1 MB
    unless low memory is asked for) and marked as reserved, and nothing else
    changes; without a free page the system stops, for paging out is not
    implemented. *)
Theorem physMemAllocPage_correct m lowmem :
  map_ok (physMemMap m) →
  (∃ p ws, physMemAllocPage lowmem m = Ok (p, set_map ws m) ∧ map_ok ws ∧
     first_page lowmem ≤ p < PAGE_COUNT ∧ reserved (physMemMap m) p = false ∧
     (∀ i, first_page lowmem ≤ i < p → reserved (physMemMap m) i = true) ∧
     ∀ i, reserved ws i = if decide (i = p) then true else reserved (physMemMap m) i) ∨
  (∃ why, physMemAllocPage lowmem m = Panic why) ∧
    ∀ i, first_page lowmem ≤ i < PAGE_COUNT → reserved (physMemMap m) i = true.
Proof.
  intros Hok. pose proof (alloc_search m lowmem Hok) as Hs.
  destruct (find_word _ _) as [[j w]|] eqn:E.
  - left. destruct Hs as (k & _ & Hkr & Hj & _ & Hlow & Hfree & _).
    assert (wp (physMemAllocPage lowmem) m (λ p m', ∃ ws, m' = set_map ws m ∧ map_ok ws ∧
     first_page lowmem ≤ p < PAGE_COUNT ∧ reserved (physMemMap m) p = false ∧
     (∀ i, first_page lowmem ≤ i < p → reserved (physMemMap m) i = true) ∧
     ∀ i, reserved ws i = if decide (i = p) then true else reserved (physMemMap m) i)) as Hwp.
    { apply wp_alloc_page; [done|exists (32 * j + k); unfold PAGE_COUNT; split; [lia|done]|].
      intros p ws ? ? ? ? ?. by exists ws. }
    apply wp_run in Hwp as (p & m' & Hr & ws & -> & ?). by exists p, ws.
  - right. split; [|done]. eexists. change (physMemAllocPage lowmem) with (alloc_tries (Rest := Rest) (S 15) lowmem).
    cbn [alloc_tries]. unfold mbind, M_bind, get. by rewrite E.
Qed.

End Bitmap.

(** ** How much memory is left *)

Lemma filter_ext_elem {A} (P P' : A → Prop) `{∀ x, Decision (P x)} `{∀ x, Decision (P' x)} (l : list A) :
  (∀ x, x ∈ l → P x ↔ P' x) → filter P l = filter P' l.
Proof.
  intros Heq. induction l as [|x l IH]; [done|]. rewrite !filter_cons.
  rewrite IH by set_solver. destruct (decide (P x)) as [Hx|Hx].
  - rewrite decide_True; [done|]. apply Heq; [left|done].
  - rewrite decide_False; [done|]. intros Hx'. apply Hx, Heq; [left|done].
Qed.

Lemma filter_count_remove {A} (P P' : A → Prop) `{∀ x, Decision (P x)} `{∀ x, Decision (P' x)} (l : list A) f :
  NoDup l → f ∈ l → P f → (∀ x, x ∈ l → P' x ↔ P x ∧ x ≠ f) →
  length (filter P l) = S (length (filter P' l)).
Proof.
  intros Hnd Hf Hp Heq. induction l as [|x l IH]; [by apply not_elem_of_nil in Hf|].
  apply NoDup_cons in Hnd as [Hx Hnd]. rewrite !filter_cons. pose proof (Heq x ltac:(left)) as Hxe.
  apply elem_of_cons in Hf as [->|Hf].
  - rewrite decide_True by done. rewrite decide_False by tauto. simpl. do 2 f_equal.
    apply filter_ext_elem. intros y Hy. rewrite Heq by by right. set_solver.
  - assert (x ≠ f) by set_solver. assert (length (filter P l) = S (length (filter P' l))) as IH'.
    { apply IH; [done|done|]. intros y Hy. apply Heq. by right. }
    destruct (decide (P x)); [rewrite decide_True by tauto; simpl; by f_equal|by rewrite decide_False by tauto].
Qed.

(** The free pages above 1 MB. *)
Definition free_pages (ws : list Z) : nat := length (filter (λ i, reserved ws i = false) (seqZ 256 (PAGE_COUNT - 256))).

Lemma free_pages_take ws ws' f :
  256 ≤ f < PAGE_COUNT → reserved ws f = false →
  (∀ i, reserved ws' i = if decide (i = f) then true else reserved ws i) → free_pages ws = S (free_pages ws').
Proof.
  intros Hf Hfree Hset. apply (filter_count_remove _ _ _ f); [apply NoDup_seqZ|apply elem_of_seqZ; lia|done|].
  intros x _. rewrite Hset. case_decide; naive_solver.
Qed.

Lemma free_pages_some ws : (0 < free_pages ws)%nat → ∃ i, 256 ≤ i < PAGE_COUNT ∧ reserved ws i = false.
Proof.
  unfold free_pages. destruct (filter _ _) as [|i l] eqn:E; simpl; [lia|]. intros _. exists i.
  assert (i ∈ filter (λ i, reserved ws i = false) (seqZ 256 (PAGE_COUNT - 256))) as Hi by (rewrite E; left).
  apply list_elem_of_filter in Hi as [? ?%elem_of_seqZ]. split; [lia|done].
Qed.

(** ** Initialization *)

Section Protect.
Context {Rest : Type}.
Implicit Types m : physmem Rest.

(** Page [i] holds a byte of the memory from [r.1] on of length [r.2]; the last
    page of the address space is never touched. *)
Definition touches (r : Z * Z) (i : Z) : Prop :=
  r.1 / PAGE_SIZE ≤ i ∧ PAGE_SIZE * i < r.1 + r.2 ∧ i < PAGE_COUNT - 1.

Definition touched (rs : list (Z * Z)) (i : Z) : Prop := ∃ r, r ∈ rs ∧ touches r i.

(** What has been done when the ranges [rs] are protected: [offered] are the
    pages the memory map offers, [m0] the state in which the protection began. *)
Record progress (offered : Z → Prop) (m0 m : physmem Rest) (rs : list (Z * Z)) : Prop := {
  pr_map : map_ok (physMemMap m);
  pr_init : pagingInitialized (boot m) = false;
  pr_boot : bootmap_ok (pagingBootMap (boot m));
  pr_count : lenZ (pagingBootMap (boot m)) ≤ lenZ rs;
  pr_covers i : covers (pagingBootMap (boot m)) i ↔ touched rs i;
  pr_free i : 0 ≤ i < PAGE_COUNT → reserved (physMemMap m) i = false ↔ offered i ∧ ¬ touched rs i;
  pr_rest : m = set_boot (boot m) (set_map (physMemMap m) m0);
}.

Lemma shiftr_page x : Z.shiftr x PAGE_BITS = x / 4096.
Proof. by rewrite Z.shiftr_div_pow2. Qed.

Lemma stop_index_spec x : 0 ≤ x < 2 ^ 44 → stop_index x = Z.min (x / 4096) (PAGE_COUNT - 1).
Proof.
  intros Hx. unfold stop_index. rewrite shiftr_page, u32_small.
  - unfold PAGE_COUNT in *. destruct (Z.leb_spec 0x100000 (x / 4096)); lia.
  - split; [apply Z.div_pos; lia|apply Z.div_lt_upper_bound; lia].
Qed.

Lemma touched_snoc rs r i : touched (rs ++ [r]) i ↔ touched rs i ∨ touches r i.
Proof. unfold touched. setoid_rewrite elem_of_app. setoid_rewrite list_elem_of_singleton. naive_solver. Qed.

(** The pages from the first of a block to the one behind its last. *)
Lemma block_pages addr len i : is_u32 addr → is_u32 len →
  touches (addr, len) i ↔ addr / 4096 ≤ i < Z.min ((addr + len + 4095) / 4096) (PAGE_COUNT - 1).
Proof.
  intros Ha Hl. unfold touches, PAGE_SIZE, PAGE_COUNT. simpl. Z.to_euclidean_division_equations; lia.
Qed.

Lemma progress_protect offered m0 m rs addr len :
  progress offered m0 m rs → lenZ rs < MAX_BOOT_ENTRIES → is_u32 addr → is_u32 len →
  wp (physMemProtectBootEntry addr len) m (λ _ m', progress offered m0 m' (rs ++ [(addr, len)])).
Proof.
  intros [Hm Hi Hb Hc Hcov Hfree Hrest] Hlen Ha Hl. unfold physMemProtectBootEntry. cbv zeta.
  assert (0 ≤ addr + len + 4095 < 2 ^ 44) by (unfold is_u32 in *; lia).
  unfold PAGE_MASK. rewrite u64_small, stop_index_spec, shiftr_page by (unfold is_u64; lia).
  pose proof (block_pages addr len) as Hpages. set (stop := Z.min _ _) in *. set (start := addr / 4096) in *.
  assert (0 ≤ start ≤ stop ∧ stop ≤ PAGE_COUNT - 1) as [Hs Hst].
  { subst start stop. unfold PAGE_COUNT, is_u32 in *. Z.to_euclidean_division_equations; lia. }
  clearbody stop start. wp_steps; [apply Z.leb_le; lia|].
  apply wp_zoom, wp_insert; [done|done|lia|done|lia|]. intros l Hlok Hll Hlc.
  unfold PAGE_COUNT in *. rewrite u32_small by (unfold is_u32; lia).
  apply wp_set_bits; [done|unfold PAGE_COUNT; lia..|]. intros ws Hws Hset.
  replace (start + (stop - start)) with stop in Hset by lia. split; simpl; try done.
  - rewrite length_app. simpl. lia.
  - intros i. by rewrite Hlc, Hcov, touched_snoc, Hpages.
  - intros i Hir. rewrite Hset, touched_snoc, Hpages by done. specialize (Hfree i Hir). simpl.
    destruct (Z.leb_spec start i), (Z.ltb_spec i stop); simpl; rewrite ?Hfree; intuition (done || lia).
  - by rewrite Hrest.
Qed.
End Protect.

Section Init.
Context {Rest : Type} (mem : Z → Z) (kernelBegin kernelEnd bootInfo : Z).
Implicit Types m : physmem Rest.

Lemma mem_le_range n a : 0 ≤ mem_le mem n a < 256 ^ Z.of_nat n.
Proof.
  revert a. induction n as [|n IH]; intros a; [done|]. cbn [mem_le].
  rewrite Nat2Z.inj_succ, Z.pow_succ_r by lia. specialize (IH (a + 1)). pose proof (u8_range (mem (u32 a))).
  unfold is_u8 in *. lia.
Qed.

Lemma read32_range a : is_u32 (read32 mem a).
Proof. pose proof (mem_le_range 4 a). unfold is_u32, read32. lia. Qed.

Lemma read64_range a : is_u64 (read64 mem a).
Proof. pose proof (mem_le_range 8 a). unfold is_u64, read64. lia. Qed.

(** The entry of the memory map at an offset, and the entries from an offset on. *)
Definition memMap_at (off : Z) : Z := u32 (mb_mmap_addr mem bootInfo + off).

Inductive entry_from : Z → Z → Prop :=
  | entry_here off : off < mb_mmap_length mem bootInfo → entry_from off off
  | entry_next off off' :
      off < mb_mmap_length mem bootInfo →
      entry_from (off + 4 + mm_size mem (memMap_at off)) off' → entry_from off off'.

(** The firmware's map does not wrap around, neither its entries nor the memory
    they describe. *)
Definition entry_ok (off : Z) : Prop :=
  off + 4 + mm_size mem (memMap_at off) < 4294967296 ∧
  mm_addr mem (memMap_at off) + mm_len mem (memMap_at off) + PAGE_MASK < 18446744073709551616.

(** The entry describes all of a page. *)
Definition whole_page (p i : Z) : Prop :=
  mm_addr mem p ≤ PAGE_SIZE * i ∧ PAGE_SIZE * (i + 1) ≤ mm_addr mem p + mm_len mem p.

(** What the memory map of the boot loader means: a page is available if all of it
    lies in an entry of available memory. *)
Definition available (i : Z) : Prop :=
  ∃ off, entry_from 0 off ∧ mm_type mem (memMap_at off) = MULTIBOOT_MEMORY_AVAILABLE ∧ whole_page (memMap_at off) i.

(** What [physMemInit] makes of an entry: it takes every odd type as available
    ([type & MULTIBOOT_MEMORY_AVAILABLE]), and the last page of the address space
    is out of its reach ([stopIndex = PAGE_COUNT - 1]). *)
Definition offers (p i : Z) : Prop :=
  Z.odd (mm_type mem p) = true ∧ mm_addr mem p ≤ PAGE_SIZE * i ∧
  PAGE_SIZE * (i + 1) ≤ mm_addr mem p + mm_len mem p ∧ i < PAGE_COUNT - 1.

Definition offered (i : Z) : Prop := ∃ off, entry_from 0 off ∧ offers (memMap_at off) i.

(** No entry has one of the odd types that mean something else, ACPI tables (3)
    and broken memory (5). *)
Definition plain_types : Prop :=
  ∀ off, entry_from 0 off → Z.odd (mm_type mem (memMap_at off)) = true →
    mm_type mem (memMap_at off) = MULTIBOOT_MEMORY_AVAILABLE.

Lemma offered_available i : plain_types → offered i ↔ i < PAGE_COUNT - 1 ∧ available i.
Proof.
  intros Ht. unfold offered, available, offers, whole_page. split.
  - intros (off & He & Ho & ? & ? & ?). split; [done|]. exists off. auto.
  - intros (? & off & He & E & ? & ?). exists off. rewrite E. by split_and!.
Qed.

Lemma land_1_odd x : (Z.land x 1 =? 0) = negb (Z.odd x).
Proof.
  rewrite (land_low x 1 1) by done. rewrite Zmod_odd. by destruct (Z.odd x).
Qed.

Lemma free_range_spec p :
  mm_addr mem p + mm_len mem p + PAGE_MASK < 18446744073709551616 →
  match free_range mem p with
  | Some (a, b) => 0 ≤ a ≤ b ∧ b < PAGE_COUNT ∧ ∀ i, 0 ≤ i → offers p i ↔ a ≤ i < b
  | None => ∀ i, 0 ≤ i → ¬ offers p i
  end.
Proof.
  intros Hno. unfold free_range, offers. change MULTIBOOT_MEMORY_AVAILABLE with 1. rewrite land_1_odd.
  destruct (Z.odd _); simpl; [|by intros i _ (? & _)].
  pose proof (read64_range (p + 4)) as Ha. pose proof (read64_range (p + 12)) as Hl.
  unfold mm_addr, mm_len, PAGE_MASK, is_u64 in *. set (a := read64 mem (p + 4)) in *. set (l := read64 mem (p + 12)) in *.
  rewrite !shiftr_page, !u64_small by (unfold is_u64; lia).
  set (b := (a + 4095) / 4096). set (e := (a + l) / 4096).
  assert (∀ i, a ≤ 4096 * i ↔ b ≤ i) as Hb by (intros i; subst b; Z.to_euclidean_division_equations; lia).
  assert (∀ i, 4096 * (i + 1) ≤ a + l ↔ i < e) as He by (intros i; subst e; Z.to_euclidean_division_equations; lia).
  assert (0 ≤ b) by (apply Z.div_pos; lia). clearbody b e. unfold PAGE_SIZE, PAGE_COUNT. change 0x1000 with 4096.
  destruct (Z.leb_spec e b); [intros i Hi (_ & Hx%Hb & Hy%He & _); lia|].
  destruct (Z.leb_spec 0x100000 b); [intros i Hi (_ & Hx%Hb & Hy%He & ?); lia|].
  destruct (Z.leb_spec 0x100000 e); (split_and!; [lia|lia|lia|]); intros i Hi; rewrite Hb, He; intuition lia.
Qed.

Lemma free_entries_spec (m : physmem Rest) n : ∀ fuel off ws,
  map_ok ws → 0 ≤ off → (∀ off', entry_from off off' → entry_ok off') →
  Z.to_nat (mb_mmap_length mem bootInfo - off) = n → (n < fuel)%nat →
  wp (free_entries mem fuel bootInfo off) (set_map ws m) (λ _ m', ∃ ws', m' = set_map ws' m ∧ map_ok ws' ∧
    ∀ i, 0 ≤ i → reserved ws' i = false ↔ reserved ws i = false ∨ ∃ off', entry_from off off' ∧ offers (memMap_at off') i).
Proof.
  induction (lt_wf n) as [n _ IH]. intros fuel off ws Hws Hoff Hall Hn Hf.
  destruct fuel as [|fuel]; [lia|]. cbn [free_entries].
  destruct (Z.ltb_spec off (mb_mmap_length mem bootInfo)) as [Hlt|Hge].
  2:{ wp_step. exists ws. split_and!; [done|done|]. intros i _. split; [by left|].
      intros [?|(off' & He & _)]; [done|]. inversion He; lia. }
  fold (memMap_at off). set (p := memMap_at off) in *.
  destruct (Hall off (entry_here _ Hlt)) as [Hsize Hno]. fold p in Hsize, Hno.
  pose proof (read32_range p : is_u32 (mm_size mem p)) as Hsz. unfold is_u32 in Hsz.
  wp_step. apply (wp_mono _ _ (λ _ m', ∃ ws', m' = set_map ws' m ∧ map_ok ws' ∧
    ∀ i, 0 ≤ i → reserved ws' i = false ↔ reserved ws i = false ∨ offers p i)).
  { pose proof (free_range_spec p Hno) as Hr. unfold free_entry. destruct (free_range mem p) as [[a b]|].
    - destruct Hr as (Hab & Hb & Hin). apply wp_set_bits; [done|lia..|]. simpl. intros ws' Hws' Hset.
      replace (a + (b - a)) with b in Hset by lia. exists ws'. split_and!; [done|done|].
      intros i Hi. rewrite Hset, (Hin i Hi).
      destruct (Z.leb_spec a i), (Z.ltb_spec i b); simpl; intuition (done || lia).
    - wp_step. exists ws. split_and!; [done|done|]. intros i Hi. specialize (Hr i Hi). tauto. }
  intros [] m' (ws1 & -> & Hws1 & Hfree1).
  rewrite !u32_small by (unfold is_u32; rewrite ?u32_small; unfold is_u32; lia).
  replace (off + (4 + mm_size mem p)) with (off + 4 + mm_size mem p) by lia.
  eapply wp_mono; [apply (IH (Z.to_nat (mb_mmap_length mem bootInfo - (off + 4 + mm_size mem p)))); [lia|done|lia| |done|lia]|].
  - intros off' He. apply Hall. by apply entry_next.
  - intros [] m' (ws2 & -> & Hws2 & Hfree2). exists ws2. split_and!; [done|done|].
    intros i Hi. rewrite (Hfree2 i Hi), (Hfree1 i Hi). split.
    + intros [[?|?]|(off' & He & ?)]; [by left| |].
      * right. exists off. split; [by apply entry_here|done].
      * right. exists off'. split; [by apply entry_next|done].
    + intros [?|(off' & He & ?)]; [by do 2 left|]. inversion He; subst; [by left; right|].
      right. by exists off'.
Qed.

(** The memory [physMemInit] protects: the kernel, the boot information, its
    memory map, and if they are there the command line of length [n] and the modules. *)
Fixpoint module_ranges (k : nat) (i : Z) : list (Z * Z) :=
  match k with
  | O => []
  | S k =>
      let p := u32 (mb_mods_addr mem bootInfo + sizeof_multiboot_module * i) in
      (if mod_start mem p <? mod_end mem p then [(mod_start mem p, mod_end mem p - mod_start mem p)] else []) ++
      module_ranges k (i + 1)
  end.

Definition has_flag (f : Z) : bool := negb (Z.land (mb_flags mem bootInfo) f =? 0).

Definition protected (n : Z) : list (Z * Z) :=
  [(kernelBegin, u32 (kernelEnd - kernelBegin)); (bootInfo, sizeof_multiboot_info);
   (mb_mmap_addr mem bootInfo, mb_mmap_length mem bootInfo)] ++
  (if has_flag MULTIBOOT_INFO_CMDLINE then [(mb_cmdline mem bootInfo, n)] else []) ++
  (if has_flag MULTIBOOT_INFO_MODS then
     (mb_mods_addr mem bootInfo, u32 (mb_mods_count mem bootInfo * sizeof_multiboot_module)) ::
     module_ranges (Z.to_nat (mb_mods_count mem bootInfo)) 0
   else []).

(** The length of the command line. *)
Definition cmdline_length (n : Z) : Prop :=
  0 ≤ n < 4294967296 ∧ (mb_cmdline mem bootInfo = 0 → n = 0) ∧
  (mb_cmdline mem bootInfo ≠ 0 →
   u8 (mem (u32 (mb_cmdline mem bootInfo + n))) = 0 ∧
   ∀ k, 0 ≤ k < n → u8 (mem (u32 (mb_cmdline mem bootInfo + k))) ≠ 0).

Lemma mem_strlen_spec (m : physmem Rest) k : ∀ fuel a len,
  (k < fuel)%nat → 0 ≤ len → len + Z.of_nat k < 4294967296 → u8 (mem (u32 (a + Z.of_nat k))) = 0 →
  (∀ j, 0 ≤ j < Z.of_nat k → u8 (mem (u32 (a + j))) ≠ 0) →
  mem_strlen mem fuel a len m = Ok (len + Z.of_nat k, m).
Proof.
  induction k as [|k IH]; intros fuel a len Hf Hl Hr Hz Hnz; (destruct fuel as [|fuel]; [lia|]); cbn [mem_strlen].
  - rewrite Z.add_0_r in Hz. rewrite Hz, Z.add_0_r. done.
  - pose proof (Hnz 0 ltac:(lia)) as H0. rewrite Z.add_0_r in H0. rewrite (proj2 (Z.eqb_neq _ 0)) by done.
    rewrite u32_small by (unfold is_u32; lia).
    rewrite IH; [do 2 f_equal; lia|lia|lia|lia| |].
    + by replace (a + 1 + Z.of_nat k) with (a + Z.of_nat (S k)) by lia.
    + intros j Hj. replace (a + 1 + j) with (a + (j + 1)) by lia. apply Hnz. lia.
Qed.

Lemma module_ranges_length k i : (length (module_ranges k i) ≤ k)%nat.
Proof.
  revert i. induction k as [|k IH]; intros i; simpl; [lia|]. rewrite length_app. specialize (IH (i + 1)).
  destruct (_ <? _); simpl; lia.
Qed.

Lemma protect_modules off m0 k : ∀ i m rs,
  progress off m0 m rs → lenZ rs + Z.of_nat k < MAX_BOOT_ENTRIES →
  wp (for_loop k i (protect_module mem (mb_mods_addr mem bootInfo))) m (λ _ m', progress off m0 m' (rs ++ module_ranges k i)).
Proof.
  induction k as [|k IH]; intros i m rs Hp Hl; cbn [for_loop module_ranges]; cbv zeta.
  { wp_step. by rewrite app_nil_r. }
  set (p := u32 (mb_mods_addr mem bootInfo + sizeof_multiboot_module * i)).
  pose proof (read32_range p : is_u32 (mod_start mem p)) as Hs.
  pose proof (read32_range (p + 4) : is_u32 (mod_end mem p)) as He. unfold is_u32 in Hs, He.
  wp_step. apply (wp_mono _ _ (λ _ m', progress off m0 m'
    (rs ++ if mod_start mem p <? mod_end mem p then [(mod_start mem p, mod_end mem p - mod_start mem p)] else []))).
  { unfold protect_module. fold p. cbv zeta. destruct (Z.ltb_spec (mod_start mem p) (mod_end mem p)).
    - rewrite (proj2 (Z.leb_gt _ _)) by done. apply progress_protect; [done|lia|unfold is_u32; lia..].
    - rewrite (proj2 (Z.leb_le _ _)) by done. wp_step. by rewrite app_nil_r. }
  intros [] m' Hp'. rewrite app_assoc. apply IH; [done|]. rewrite length_app.
  destruct (Z.ltb_spec (mod_start mem p) (mod_end mem p)); simpl; lia.
Qed.

Lemma progress_start m0 m ws :
  map_ok ws → m = set_map ws m0 → pagingBootMap (boot m0) = [] → pagingInitialized (boot m0) = false →
  (∀ i, 0 ≤ i < PAGE_COUNT → reserved ws i = false ↔ offered i) → progress offered m0 m [].
Proof.
  intros Hws -> Hb Hi Hf. assert (∀ i, ¬ touched [] i) as Ht by by intros i (? & ?%not_elem_of_nil & _).
  split; simpl; try done.
  - by rewrite Hb.
  - by rewrite Hb.
  - intros i. rewrite Hb. pose proof (covers_nil i). specialize (Ht i). tauto.
  - intros i Hr. specialize (Ht i). rewrite Hf by done. tauto.
Qed.

Lemma reserved_all k i : 0 ≤ i < PAGE_COUNT → Z.of_nat k = 32768 → reserved (replicate k ALL_ONES) i = true.
Proof.
  intros Hi Hk. unfold reserved. pose proof (Z.div_pos i 32). pose proof (Z.div_lt_upper_bound i 32 32768).
  unfold PAGE_COUNT in *. rewrite nthZ_replicate by lia. apply all_ones_bit, Z.mod_pos_bound. lia.
Qed.

Lemma wp_cmdline n fuel off m0 m rs :
  cmdline_length n → n < Z.of_nat fuel → progress off m0 m rs → lenZ rs < MAX_BOOT_ENTRIES →
  wp (when (has_flag MULTIBOOT_INFO_CMDLINE)
    (let* length := (if mb_cmdline mem bootInfo =? 0 then mret 0 else mem_strlen mem fuel (mb_cmdline mem bootInfo) 0) in
     physMemProtectBootEntry (mb_cmdline mem bootInfo) length)) m
    (λ _ m', progress off m0 m' (rs ++ if has_flag MULTIBOOT_INFO_CMDLINE then [(mb_cmdline mem bootInfo, n)] else [])).
Proof.
  intros (Hn & Hn0 & Hnz) Hf Hp Hl. apply wp_when; intros ->; [|by rewrite app_nil_r].
  wp_step. apply (wp_mono _ _ (λ l m', l = n ∧ m' = m)).
  - destruct (Z.eqb_spec (mb_cmdline mem bootInfo) 0) as [E|E].
    + wp_step. by rewrite Hn0.
    + destruct (Hnz E) as [Hz Hnb]. unfold wp. rewrite (mem_strlen_spec m (Z.to_nat n)); rewrite ?Z2Nat.id by lia; (done || lia).
  - intros l m' [-> ->]. apply progress_protect; [done|done|apply read32_range|done].
Qed.

Lemma wp_modules off m0 m rs :
  mb_mods_count mem bootInfo < 1000 → progress off m0 m rs → lenZ rs < 10 →
  wp (when (has_flag MULTIBOOT_INFO_MODS)
    (physMemProtectBootEntry (mb_mods_addr mem bootInfo) (u32 (mb_mods_count mem bootInfo * sizeof_multiboot_module)) ;;
     for_loop (Z.to_nat (mb_mods_count mem bootInfo)) 0 (protect_module mem (mb_mods_addr mem bootInfo)))) m
    (λ _ m', progress off m0 m' (rs ++ if has_flag MULTIBOOT_INFO_MODS then
       (mb_mods_addr mem bootInfo, u32 (mb_mods_count mem bootInfo * sizeof_multiboot_module)) ::
       module_ranges (Z.to_nat (mb_mods_count mem bootInfo)) 0 else [])).
Proof.
  intros Hc Hp Hl. apply wp_when; intros ->; [|by rewrite app_nil_r]. wp_step. unfold MAX_BOOT_ENTRIES in *.
  eapply wp_mono; [apply progress_protect; [done|unfold MAX_BOOT_ENTRIES; lia|apply read32_range|apply u32_range]|].
  intros [] m' Hp'. rewrite cons_middle, app_assoc. apply protect_modules; [done|].
  pose proof (read32_range (bootInfo + 20) : is_u32 (mb_mods_count mem bootInfo)). unfold is_u32, MAX_BOOT_ENTRIES in *.
  rewrite length_app. simpl. lia.
Qed.

(** C8: Setting up the physical memory from the information of the boot
    loader, whose map does not wrap around. Afterwards a page is free exactly
    if it is not the last one of the address space, an entry of the memory map with
    an odd type describes all of it, and it holds nothing that is protected: the
    kernel, the boot information, the memory map, the command line and the modules
    with their table. In a map without the types 3 and 5 (ACPI tables and broken
    memory, which the code takes for available) these are exactly the unprotected
    pages, the last one excepted, that the map declares available. The boot map
    covers exactly the protected pages. *)
Theorem physMemInit_correct m fuel n :
  lenZ (physMemMap m) = 32768 → physMemInitialized m = false →
  pagingBootMap (boot m) = [] → pagingInitialized (boot m) = false →
  is_u32 bootInfo → bootInfo ≠ 0 → is_u32 kernelBegin →
  has_flag MULTIBOOT_INFO_MEM_MAP = true → has_flag MULTIBOOT_MEMORY_INFO = true →
  (∀ off, entry_from 0 off → entry_ok off) → cmdline_length n → mb_mods_count mem bootInfo < 1000 →
  mb_mmap_length mem bootInfo < Z.of_nat fuel → n < Z.of_nat fuel →
  wp (physMemInit mem kernelBegin kernelEnd fuel bootInfo) m (λ _ m',
    physMemInitialized m' = true ∧ ramSize m' = mb_mem_upper mem bootInfo ∧ physMemExtra m' = replicate 1024 None ∧
    map_ok (physMemMap m') ∧ bootmap_ok (pagingBootMap (boot m')) ∧
    (∀ i, covers (pagingBootMap (boot m')) i ↔ touched (protected n) i) ∧
    (∀ i, 0 ≤ i < PAGE_COUNT → reserved (physMemMap m') i = false ↔ offered i ∧ ¬ touched (protected n) i) ∧
    (plain_types → ∀ i, 0 ≤ i < PAGE_COUNT → reserved (physMemMap m') i = false ↔
       i < PAGE_COUNT - 1 ∧ available i ∧ ¬ touched (protected n) i)).
Proof.
  intros Hlen Hni Hb0 Hpi Hbi Hb1 Hkb Hf1 Hf2 Hentries (Hn & Hn0 & Hnz) Hmods Hfuel Hfuel'.
  assert (∀ a, is_u32 (read32 mem a)) as Hread by apply read32_range.
  set (m0 := set_map (replicate (length (physMemMap m)) ALL_ONES)
    (set_ramSize (mb_mem_upper mem bootInfo) (set_extra (replicate 1024 None) m))).
  assert (map_ok (physMemMap m0)) as Hm0.
  { split; simpl; [by rewrite length_replicate|]. by apply Forall_replicate. }
  unfold physMemInit. wp_step. wp_step. wp_steps; [by rewrite Hni|by rewrite (proj2 (Z.eqb_neq _ _))|exact Hf1|].
  unfold physMemClearMemoryBits. wp_steps; [exact Hf2|].
  eapply wp_mono.
  { apply (free_entries_spec m0 (Z.to_nat (mb_mmap_length mem bootInfo)) fuel 0 (physMemMap m0)); try done; try lia. }
  intros [] m1 (ws & -> & Hws & Hfree).
  assert (progress offered m0 (set_map ws m0) []) as Hp.
  { apply (progress_start _ _ ws); try done. intros i Hi. rewrite Hfree by lia. simpl.
    rewrite reserved_all by (done || lia). unfold offered. intuition done. }
  wp_step. eapply wp_mono; [apply progress_protect; [exact Hp|done|done|apply u32_range]|]. clear Hp. intros [] m2 Hp.
  wp_step. eapply wp_mono; [apply progress_protect; [exact Hp|done|done|done]|]. clear Hp. intros [] m3 Hp.
  wp_step. eapply wp_mono; [apply progress_protect; [exact Hp|done|apply read32_range|apply read32_range]|]. clear Hp. intros [] m4 Hp.
  wp_step. eapply wp_mono; [apply (wp_cmdline n); [done|done|exact Hp|done]|]. clear Hp. intros [] m5 Hp.
  wp_step. eapply wp_mono; [apply wp_modules; [done|exact Hp|]|].
  { by destruct (has_flag MULTIBOOT_INFO_CMDLINE). }
  clear Hp. intros [] m6 Hp. rewrite <-app_assoc in Hp.
  change (progress offered m0 m6 (protected n)) in Hp. wp_step.
  destruct Hp as [Hm Hi Hb _ Hcov Hfr Hrest]. rewrite Hrest. split_and!; try done.
  intros Ht i Hir. rewrite Hfr, offered_available by done. tauto.
Qed.
End Init.

(** ** Witnesses *)

Definition full_memory : physmem unit :=
  PhysMem (replicate (Z.to_nat 32768) ALL_ONES) (replicate 1024 None) 0 false false (BootMap [] false) tt.

Lemma full_memory_ok : map_ok (physMemMap full_memory).
Proof. unfold full_memory. cbn [physMemMap]. split; [by rewrite length_replicate|by apply Forall_replicate]. Qed.

Lemma physMemSetMemoryBits_correct_witness :
  wp (physMemSetMemoryBits 5 100 false) full_memory (λ _ m', ∃ ws, m' = set_map ws full_memory ∧ map_ok ws ∧
    ∀ i, reserved ws i = if (5 <=? i) && (i <? 5 + 100) then false else reserved (physMemMap full_memory) i).
Proof.
  apply (physMemSetMemoryBits_correct full_memory 5 100 false full_memory_ok ltac:(done) ltac:(done)). done.
Defined.

Lemma physMemAllocPage_correct_witness :
  (∃ p ws, physMemAllocPage false full_memory = Ok (p, set_map ws full_memory) ∧ map_ok ws ∧
     first_page false ≤ p < PAGE_COUNT ∧ reserved (physMemMap full_memory) p = false ∧
     (∀ i, first_page false ≤ i < p → reserved (physMemMap full_memory) i = true) ∧
     ∀ i, reserved ws i = if decide (i = p) then true else reserved (physMemMap full_memory) i) ∨
  (∃ why, physMemAllocPage false full_memory = Panic why) ∧
    ∀ i, first_page false ≤ i < PAGE_COUNT → reserved (physMemMap full_memory) i = true.
Proof. exact (physMemAllocPage_correct full_memory false full_memory_ok). Defined.

(** What a boot loader may leave behind: 640 KB and 127 MB of memory, a command
    line and a module. *)
Definition boot_fields : list (Z * Z) := [
  (0x9000, 0x4E); (0x9008, 0x1FC00); (0x9010, 0x9200); (0x9014, 1); (0x9018, 0x9300); (0x902C, 48); (0x9030, 0x9400);
  (0x9200, 0x626F6F74);
  (0x9300, 0x200000); (0x9304, 0x280123);
  (0x9400, 20); (0x940C, 0x9FC00); (0x9414, 1);
  (0x9418, 20); (0x941C, 0x100000); (0x9424, 0x7F00000); (0x942C, 1)].

Definition boot_memory (a : Z) : Z :=
  match list_find (λ f, f.1 ≤ a < f.1 + 4) boot_fields with
  | Some (_, (b, v)) => Z.land (Z.shiftr v (8 * (a - b))) 255
  | None => 0
  end.

Lemma boot_entries off off' : entry_from boot_memory 0x9000 off off' →
  off = 0 ∨ off = 24 ∨ 48 ≤ off → off' = 0 ∨ off' = 24.
Proof.
  induction 1 as [off Hlt|off off' Hlt _ IH]; change (mb_mmap_length boot_memory 0x9000) with 48 in *; intros H.
  - lia.
  - apply IH. destruct H as [->|[-> |?]]; [|right; right|lia].
    + right; left. by vm_compute.
    + by vm_compute.
Qed.

(** Both entries are of available memory. *)
Lemma boot_plain : plain_types boot_memory 0x9000.
Proof. intros off Ho _. destruct (boot_entries _ _ Ho ltac:(lia)) as [-> | ->]; by vm_compute. Qed.

Lemma physMemInit_correct_witness :
  wp (physMemInit boot_memory 0x100000 0x140000 100 0x9000) full_memory (λ _ m',
    physMemInitialized m' = true ∧ ramSize m' = mb_mem_upper boot_memory 0x9000 ∧ physMemExtra m' = replicate 1024 None ∧
    map_ok (physMemMap m') ∧ bootmap_ok (pagingBootMap (boot m')) ∧
    (∀ i, covers (pagingBootMap (boot m')) i ↔ touched (protected boot_memory 0x100000 0x140000 0x9000 4) i) ∧
    (∀ i, 0 ≤ i < PAGE_COUNT → reserved (physMemMap m') i = false ↔
      offered boot_memory 0x9000 i ∧ ¬ touched (protected boot_memory 0x100000 0x140000 0x9000 4) i) ∧
    (plain_types boot_memory 0x9000 ∧ ∀ i, 0 ≤ i < PAGE_COUNT → reserved (physMemMap m') i = false ↔
      i < PAGE_COUNT - 1 ∧ available boot_memory 0x9000 i ∧
      ¬ touched (protected boot_memory 0x100000 0x140000 0x9000 4) i)).
Proof.
  eapply wp_mono.
  { refine (physMemInit_correct boot_memory 0x100000 0x140000 0x9000 full_memory 100 4
      (proj1 full_memory_ok) eq_refl eq_refl eq_refl ltac:(done) ltac:(done) ltac:(done) eq_refl eq_refl
      (λ off Ho, _) _ ltac:(vm_compute; done) ltac:(vm_compute; done) ltac:(done)).
    - destruct (boot_entries _ _ Ho ltac:(lia)) as [-> | ->]; split; by vm_compute.
    - split_and!; [by vm_compute|by vm_compute|by vm_compute|]. intros _. split; [by vm_compute|]. intros k Hk.
      assert (k = 0 ∨ k = 1 ∨ k = 2 ∨ k = 3) as [-> |[-> |[-> | ->]]] by lia; by vm_compute. }
  intros [] m' (? & ? & ? & ? & ? & ? & ? & Hp). specialize (Hp boot_plain). pose proof boot_plain. by split_and!.
Defined.
