(* ===== verification/PhysMemRefs.v ===== *)
(** * The reference counters of the physical pages

    A page that is reserved has one reference, or as many as its word of extra
    information says. Adding and releasing references, and the creation of the
    tables of extra information, which may need tables for themselves. *)

From S2P Require Import Prelude Util BootMap Console PhysMem PhysMemProofs.
Open Scope Z_scope.

(** ** The fields of a word *)

Lemma testbit_set_field off n v x k :
  is_u32 v → 0 ≤ off → 0 ≤ n → 0 ≤ k < 32 →
  Z.testbit (set_field off (Z.ones n) v x) k =
  if (off <=? k) && (k <? off + n) then Z.testbit x (k - off) else Z.testbit v k.
Proof.
  intros Hv Ho Hn Hk. unfold set_field.
  rewrite Z.lor_spec, Z.land_spec, testbit_u32, Z.lnot_spec, !Z.shiftl_spec, Z.land_spec by lia.
  rewrite (proj2 (Z.ltb_lt k 32)) by lia. simpl.
  destruct (Z.leb_spec off k); simpl.
  - rewrite testbit_ones by lia.
    destruct (Z.ltb_spec (k - off) n), (Z.ltb_spec k (off + n)); try lia; simpl.
    + by rewrite andb_false_r, andb_true_r.
    + by rewrite andb_false_r, andb_true_r, orb_false_r.
  - rewrite !(Z.testbit_neg_r _ (k - off)) by lia. simpl. by rewrite andb_true_r, orb_false_r.
Qed.

(** The field of [n] bits at [off]. *)
Definition get_field (off n v : Z) : Z := Z.land (Z.shiftr v off) (Z.ones n).

Lemma get_field_set_eq off n v x :
  is_u32 v → 0 ≤ off → 0 ≤ n → off + n ≤ 32 → get_field off n (set_field off (Z.ones n) v x) = Z.land x (Z.ones n).
Proof.
  intros. apply Z.bits_inj'. intros k Hk. unfold get_field. rewrite !Z.land_spec, testbit_ones, Z.shiftr_spec by lia.
  destruct (Z.ltb_spec k n); [|by rewrite !andb_false_r].
  rewrite testbit_set_field by (done || lia).
  rewrite (proj2 (Z.leb_le _ _)), (proj2 (Z.ltb_lt _ _)) by lia. simpl. do 2 f_equal. lia.
Qed.

Lemma get_field_set_ne off n off' n' v x :
  is_u32 v → 0 ≤ off → 0 ≤ n → 0 ≤ off' → 0 ≤ n' → off' + n' ≤ 32 → off + n ≤ off' ∨ off' + n' ≤ off →
  get_field off' n' (set_field off (Z.ones n) v x) = get_field off' n' v.
Proof.
  intros. apply Z.bits_inj'. intros k Hk. unfold get_field. rewrite !Z.land_spec, testbit_ones, !Z.shiftr_spec by lia.
  destruct (Z.ltb_spec k n'); [|by rewrite !andb_false_r]. rewrite testbit_set_field by (done || lia).
  destruct (Z.leb_spec off (k + off')), (Z.ltb_spec (k + off') (off + n)); (done || lia).
Qed.

Lemma is_u32_set_field off n v x : is_u32 v → 0 ≤ off → 0 ≤ n → off + n ≤ 32 → is_u32 (set_field off (Z.ones n) v x).
Proof.
  intros Hv Ho Hn Hon. apply u32_bits.
  - unfold set_field. apply Z.lor_nonneg. split; [apply Z.land_nonneg; left; unfold is_u32 in Hv; lia|].
    apply Z.shiftl_nonneg, Z.land_nonneg. right. rewrite Z.ones_equiv. pose proof (Z.pow_pos_nonneg 2 n). lia.
  - intros k Hk. unfold set_field. rewrite Z.lor_spec, Z.land_spec, (testbit_high v) by done.
    rewrite Z.shiftl_spec, Z.land_spec, testbit_ones by lia. rewrite (proj2 (Z.ltb_ge _ _)) by lia. by rewrite andb_false_r.
Qed.

(** [present], [ref] and [unpageable] as fields. *)
Lemma ei_fields v : ei_present v = get_field 0 1 v ∧ ei_ref v = get_field 1 7 v ∧ ei_unpageable v = get_field 8 1 v.
Proof. done. Qed.

Lemma ei_set_fields x v :
  ei_set_present x v = set_field 0 (Z.ones 1) v x ∧ ei_set_ref x v = set_field 1 (Z.ones 7) v x ∧
  ei_set_unpageable x v = set_field 8 (Z.ones 1) v x.
Proof. done. Qed.

Ltac fields :=
  repeat match goal with |- context [ei_present ?v] => rewrite (proj1 (ei_fields v)) end;
  repeat match goal with |- context [ei_ref ?v] => rewrite (proj1 (proj2 (ei_fields v))) end;
  repeat match goal with |- context [ei_set_present ?x ?v] => rewrite (proj1 (ei_set_fields x v)) end;
  repeat match goal with |- context [ei_set_ref ?x ?v] => rewrite (proj1 (proj2 (ei_set_fields x v))) end;
  repeat match goal with |- context [ei_set_unpageable ?x ?v] => rewrite (proj2 (proj2 (ei_set_fields x v))) end.

Lemma ref_set_ref x v : is_u32 v → ei_ref (ei_set_ref x v) = x mod 128.
Proof. intros. fields. rewrite get_field_set_eq by (done || lia). by apply (land_low _ 7). Qed.

Lemma present_set_ref x v : is_u32 v → ei_present (ei_set_ref x v) = ei_present v.
Proof. intros. fields. apply get_field_set_ne; (done || lia). Qed.

Lemma ref_range v : 0 ≤ ei_ref v < 128.
Proof. unfold ei_ref. rewrite (land_low _ 7 127) by done. apply Z.mod_pos_bound. lia. Qed.

Lemma is_u32_set_ref x v : is_u32 v → is_u32 (ei_set_ref x v).
Proof. intros. fields. apply is_u32_set_field; (done || lia). Qed.

(** ** The words of the pages *)

(** A word is unused, or present with at least one reference. *)
Definition info_ok (v : Z) : Prop := is_u32 v ∧ (v = 0 ∨ ei_present v = 1 ∧ 1 ≤ ei_ref v).

Lemma info_ok_nonzero v : ei_present v = 1 → v ≠ 0.
Proof. by intros H ->. Qed.

Section Refs.
Context {Rest : Type}.
Implicit Types m : physmem Rest.

(** The word of a page, if there is a table for it. *)
Definition info_at (m : physmem Rest) (i : Z) : option Z :=
  mjoin (nthZ (physMemExtra m) (Z.shiftr i PHYSMEMEXTRA_BITS)) ≫= λ t, nthZ t (Z.land i PHYSMEMEXTRA_MASK).

Record extra_ok (m : physmem Rest) : Prop := {
  eo_map : map_ok (physMemMap m);
  eo_tables : lenZ (physMemExtra m) = PHYSMEMEXTRA_COUNT;
  eo_table i t : nthZ (physMemExtra m) i = Some (Some t) → lenZ t = 1024;
  eo_info i v : info_at m i = Some v → info_ok v;
  eo_unused i : 0 ≤ i < PAGE_COUNT → reserved (physMemMap m) i = false → default 0 (info_at m i) = 0;
  eo_paging : pagingEnabled m = true;
}.

(** The number of references to a page. *)
Definition refs (m : physmem Rest) (i : Z) : Z :=
  if reserved (physMemMap m) i then
    match info_at m i with Some v => if v =? 0 then 1 else ei_ref v | None => 1 end
  else 0.

Definition page_ptr (i : Z) : Z * Z := (Z.shiftr i PHYSMEMEXTRA_BITS, Z.land i PHYSMEMEXTRA_MASK).

Lemma page_ptr_spec i : 0 ≤ i → page_ptr i = (i / 1024, i mod 1024).
Proof.
  intros. unfold page_ptr, PHYSMEMEXTRA_BITS, PHYSMEMEXTRA_MASK.
  by rewrite Z.shiftr_div_pow2, (land_low i 10) by done.
Qed.

Lemma info_at_ptr m i : info_at m i = mjoin (nthZ (physMemExtra m) (page_ptr i).1) ≫= λ t, nthZ t (page_ptr i).2.
Proof. done. Qed.

Lemma wp_read_info m i v (Q : Z → physmem Rest → Prop) : info_at m i = Some v → Q v m → wp (read_info (page_ptr i)) m Q.
Proof.
  intros Hi HQ. rewrite info_at_ptr in Hi. apply bind_Some in Hi as (t & Ht & Hv). unfold read_info. wp_steps.
  eapply wp_deref; [done|]. by eapply wp_deref.
Qed.

(** A write to the word of a page. *)
Definition set_info (m : physmem Rest) (i v : Z) (m' : physmem Rest) : Prop :=
  physMemMap m' = physMemMap m ∧ ramSize m' = ramSize m ∧ physMemInitialized m' = physMemInitialized m ∧ boot m' = boot m ∧ rest m' = rest m ∧
  ∀ j, 0 ≤ j → info_at m' j = if decide (j = i) then Some v else info_at m j.

Lemma wp_write_info m i w v (Q : unit → physmem Rest → Prop) :
  extra_ok m → 0 ≤ i → info_at m i = Some w → info_ok v → v = 0 ∨ reserved (physMemMap m) i = true →
  (∀ m', extra_ok m' → set_info m i v m' → Q tt m') → wp (write_info (page_ptr i) v) m Q.
Proof.
  intros Hok Hi Hw Hv Hvr HQ. pose proof Hw as Hw'. rewrite info_at_ptr in Hw. apply bind_Some in Hw as (t & Ht & Hw).
  unfold write_info. wp_steps. eapply wp_deref; [done|]. apply wp_put.
  set (m' := set_extra _ _).
  assert (nthZ (physMemExtra m) (page_ptr i).1 = Some (Some t)) as Ht'.
  { destruct (nthZ _ _) as [[t'|]|]; simpl in Ht; congruence. }
  pose proof (nthZ_Some_lt _ _ _ Ht') as Hr1. pose proof (nthZ_Some_lt _ _ _ Hw) as Hr2.
  assert (∀ j, 0 ≤ j → info_at m' j = if decide (j = i) then Some v else info_at m j) as Hset.
  { intros j Hj. rewrite !info_at_ptr. subst m'. cbn [physMemExtra set_extra]. rewrite (page_ptr_spec i Hi) in *. rewrite (page_ptr_spec j Hj). cbn [fst snd] in *.
    destruct (decide (j / 1024 = i / 1024)) as [E|E].
    - rewrite E, nthZ_setZ_eq, Ht' by done. simpl. case_decide as Hji; [subst; by rewrite nthZ_setZ_eq|].
      apply nthZ_setZ_ne. intros E'. apply Hji. rewrite (Z.div_mod i 1024), (Z.div_mod j 1024) by lia. lia.
    - rewrite nthZ_setZ_ne by done. case_decide as Hji; [by subst|done]. }
  apply HQ; [|by split_and!]. destruct Hok as [H H' H'' Hinfo Hun Hp]. split; try done.
  - simpl. by rewrite length_setZ.
  - simpl. intros k t'. destruct (decide (k = (page_ptr i).1)) as [->|].
    + rewrite nthZ_setZ_eq by done. intros [= <-]. rewrite length_setZ. by eapply H''.
    + rewrite nthZ_setZ_ne by done. apply H''.
  - intros k u Hu. destruct (decide (0 ≤ k)) as [Hk|Hk].
    + rewrite Hset in Hu by done. case_decide; [congruence|by eapply Hinfo].
    + unfold info_at in Hu. unfold nthZ at 2 in Hu. rewrite (proj2 (Z.ltb_lt _ 0)) in Hu; [done|].
      apply Z.shiftr_neg. lia.
  - intros k Hk Hr. rewrite Hset by lia. case_decide; [|by apply Hun]. subst. simpl.
    destruct Hvr; [done|]. change (physMemMap m') with (physMemMap m) in Hr. congruence.
Qed.

Context {HK : KernelPages Rest}.

Lemma page_index i : 0 ≤ i < PAGE_COUNT → 0 ≤ (page_ptr i).1 < PHYSMEMEXTRA_COUNT ∧ 0 ≤ (page_ptr i).2 < 1024.
Proof.
  intros [Hi Hc]. rewrite page_ptr_spec by done. simpl. unfold PAGE_COUNT, PHYSMEMEXTRA_COUNT in *.
  split; [|by apply Z.mod_pos_bound]. split; [apply Z.div_pos; lia|apply Z.div_lt_upper_bound; lia].
Qed.

(** The table of a page is there, or it is not. *)
Lemma table_of m i : extra_ok m → 0 ≤ i < PAGE_COUNT →
  (∃ t v, nthZ (physMemExtra m) (page_ptr i).1 = Some (Some t) ∧ info_at m i = Some v) ∨
  nthZ (physMemExtra m) (page_ptr i).1 = Some None ∧ info_at m i = None.
Proof.
  intros Hok Hi. destruct (page_index i Hi) as [H1 H2].
  destruct (nthZ_is_Some (physMemExtra m) (page_ptr i).1) as [[t|] Ht].
  - rewrite (eo_tables _ Hok). done.
  - left. destruct (nthZ_is_Some t (page_ptr i).2) as [v Hv]; [by rewrite (eo_table _ Hok _ _ Ht)|].
    exists t, v. split; [done|]. by rewrite info_at_ptr, Ht.
  - right. split; [done|]. by rewrite info_at_ptr, Ht.
Qed.

Lemma wp_get_present fuel i alloc t m (Q : option (Z * Z) → physmem Rest → Prop) :
  extra_ok m → 0 ≤ i < PAGE_COUNT → nthZ (physMemExtra m) (page_ptr i).1 = Some t → alloc = false ∨ is_Some t →
  Q (match t with Some _ => Some (page_ptr i) | None => None end) m →
  wp (__getPhysMemExtraInfo (S fuel) i alloc) m Q.
Proof.
  intros Hok Hi Ht Ha HQ. cbn [__getPhysMemExtraInfo]. cbv zeta.
  wp_steps; [apply (eo_paging _ Hok)|apply Z.ltb_lt, (page_index i Hi)|]. eapply wp_deref; [exact Ht|].
  destruct t; [done|]. destruct Ha as [->|[? ?]]; [done|done].
Qed.

Lemma wp_get_info fuel i v m (Q : Z * Z → physmem Rest → Prop) :
  extra_ok m → 0 ≤ i < PAGE_COUNT → info_at m i = Some v → Q (page_ptr i) m → wp (get_info (S fuel) i) m Q.
Proof.
  intros Hok Hi Hv HQ. destruct (table_of m i Hok Hi) as [(t & v' & Ht & _)|[_ E]]; [|congruence].
  unfold get_info. wp_step. by apply (wp_get_present _ _ _ (Some t)); [..|right|].
Qed.

Lemma ok_init : info_ok (ei_set_ref 1 (ei_set_present 1 0)).
Proof. split; [split; [done|by vm_compute]|right; by vm_compute]. Qed.

(** The word of a page after [if (!info->value) ...]. *)
Definition started (v : Z) : Z := if v =? 0 then ei_set_ref 1 (ei_set_present 1 0) else v.

Lemma started_ok v : info_ok v → info_ok (started v) ∧ ei_present (started v) = 1.
Proof.
  intros [Hv Hz]. unfold started. destruct (Z.eqb_spec v 0); [split; [apply ok_init|by vm_compute]|].
  split; [by split|]. naive_solver.
Qed.

Lemma wp_init_info m i v (Q : unit → physmem Rest → Prop) :
  extra_ok m → 0 ≤ i → info_at m i = Some v → reserved (physMemMap m) i = true →
  (∀ m', extra_ok m' → set_info m i (started v) m' → Q tt m') → wp (init_info (page_ptr i)) m Q.
Proof.
  intros Hok Hi Hv Hr HQ. unfold init_info. wp_step. eapply wp_read_info; [done|].
  unfold started in HQ. apply wp_when; intros Hz; rewrite Hz in HQ.
  - apply Z.eqb_eq in Hz. subst. eapply wp_write_info; try done; [apply ok_init|by right].
  - apply HQ; [done|]. split_and!; try done. intros j Hj. case_decide; [by subst|done].
Qed.

Lemma set_info_trans m i v m1 w m2 : set_info m i v m1 → set_info m1 i w m2 → set_info m i w m2.
Proof.
  intros (A1 & A2 & A3 & A4 & A6 & A5) (B1 & B2 & B3 & B4 & B6 & B5). split_and!; try congruence.
  intros j Hj. rewrite B5, A5 by done. by case_decide.
Qed.

(** The counters after a write to a reserved page's word. *)
Lemma refs_set_info m i v m' j : 0 ≤ i → 0 ≤ j → set_info m i v m' → reserved (physMemMap m) i = true →
  refs m' j = if decide (j = i) then (if v =? 0 then 1 else ei_ref v) else refs m j.
Proof.
  intros Hi Hj (Hm & _ & _ & _ & _ & Hinfo) Hres. unfold refs. rewrite Hm, Hinfo by done.
  case_decide; [subst; by rewrite Hres|done].
Qed.

Lemma refs_started m i v : extra_ok m → info_at m i = Some v → reserved (physMemMap m) i = true →
  refs m i = ei_ref (started v) ∧ 1 ≤ refs m i ≤ 127.
Proof.
  intros Hok Hv Hres. unfold refs, started. rewrite Hres, Hv. pose proof (ref_range v).
  destruct (eo_info _ Hok _ _ Hv) as [_ [->|[_ ?]]].
  - split; [done|]. simpl. lia.
  - destruct (v =? 0); split; (done || lia).
Qed.

(** C39: Adding a reference to a reserved page whose table of extra
    information exists. The counter of this page, which is one at first, grows
    by one, no other counter changes, and no page is freed or allocated; the
    reference with number 128 stops the system before the counter wraps. *)
Theorem physMemAddRefPage_correct m i fuel :
  extra_ok m → 0 ≤ i < PAGE_COUNT → is_Some (info_at m i) → reserved (physMemMap m) i = true → (0 < fuel)%nat →
  (refs m i < 127 →
    wp (physMemAddRefPage fuel i) m (λ r m', r = i ∧ extra_ok m' ∧ physMemMap m' = physMemMap m ∧
      ∀ j, 0 ≤ j → refs m' j = if decide (j = i) then refs m i + 1 else refs m j)) ∧
  (refs m i = 127 → ∃ why, physMemAddRefPage fuel i m = Panic why).
Proof.
  intros Hok Hi [v Hv] Hres Hf. destruct fuel as [|fuel]; [lia|].
  destruct (refs_started m i v Hok Hv Hres) as [Hrefs Hrange].
  destruct (started_ok v) as [[Hsu _] Hsp]; [by eapply eo_info|].
  assert (leads (physMemAddRefPage (S fuel) i) m
    (write_info (page_ptr i) (ei_set_ref (refs m i + 1) (started v)) ;;
     assert (negb ((refs m i + 1) mod 128 =? 0)) "info->ref" ;; mret i)
    (λ m1, extra_ok m1 ∧ set_info m i (started v) m1)) as (m1 & [Hok1 Hset1] & E).
  { unfold physMemAddRefPage. apply leads_bind. eapply wp_get_info; [done..|]. apply leads_bind.
    eapply wp_init_info; [done|lia|done|done|]. intros m1 Hok1 Hset1. apply leads_bind.
    eapply wp_read_info. { destruct Hset1 as (_ & _ & _ & _ & _ & ->); [|lia]. by rewrite decide_True. }
    cbv zeta. rewrite ref_set_ref by done. rewrite <-Hrefs. by apply leads_here. }
  assert (info_at m1 i = Some (started v)) as Hv1.
  { destruct Hset1 as (_ & _ & _ & _ & _ & ->); [|lia]. by rewrite decide_True. }
  split; intros Hn.
  - assert (info_ok (ei_set_ref (refs m i + 1) (started v))) as Hnew.
    { split; [by apply is_u32_set_ref|]. right. rewrite present_set_ref, ref_set_ref by done.
      rewrite Z.mod_small by lia. split; [done|lia]. }
    eapply wp_same; [exact E|]. wp_step. eapply wp_write_info; [done|lia|done|done| |].
    { right. by destruct Hset1 as (-> & _). }
    intros m2 Hok2 Hset2.
    wp_steps; [by rewrite Z.mod_small, (proj2 (Z.eqb_neq _ _)) by lia|].
    pose proof (set_info_trans _ _ _ _ _ _ Hset1 Hset2) as Hset. split_and!; [done|done|apply Hset|].
    intros j Hj. rewrite (refs_set_info _ _ _ _ _ (proj1 Hi) Hj Hset Hres). case_decide; [|done].
    rewrite (proj2 (Z.eqb_neq _ _)) by (apply info_ok_nonzero; by rewrite present_set_ref).
    rewrite ref_set_ref by done. apply Z.mod_small. lia.
  - rewrite E, Hn. unfold mbind, M_bind at 1.
    destruct (write_info _ _ m1) as [[[] m2]| | |] eqn:E'; [by eexists|by eexists|..];
    exfalso; unfold write_info in E'; rewrite info_at_ptr in Hv1; apply bind_Some in Hv1 as (t & Ht & _);
    unfold mbind, M_bind, get in E'; rewrite Ht in E'; done.
Qed.

Lemma wp_get_quiet m i t (Q : option (Z * Z) → physmem Rest → Prop) :
  extra_ok m → 0 ≤ i < PAGE_COUNT → nthZ (physMemExtra m) (page_ptr i).1 = Some t →
  Q (match t with Some _ => Some (page_ptr i) | None => None end) m → wp (__getPhysMemExtraInfo 1 i false) m Q.
Proof. intros. eapply (wp_get_present 0); try done. by left. Qed.

(** Clearing the bit of a page. *)
Lemma wp_free_page m i (Q : unit → physmem Rest → Prop) :
  map_ok (physMemMap m) → 0 ≤ i < PAGE_COUNT →
  (∀ ws, map_ok ws → (∀ j, reserved ws j = if decide (j = i) then false else reserved (physMemMap m) j) → Q tt (set_map ws m)) →
  wp (update_word (Z.shiftr i 5) false (u32 (Z.shiftl 1 (Z.land i 31)))) m Q.
Proof.
  intros Hok Hi HQ. rewrite Z.shiftr_div_pow2, (land_low i 5) by done. change (2 ^ 5) with 32.
  pose proof (Z.div_mod i 32 ltac:(lia)) as Hd. pose proof (Z.mod_pos_bound i 32 ltac:(lia)) as Hm.
  unfold PAGE_COUNT in *. set (k := i mod 32) in *. set (j := i / 32) in *. clearbody j k.
  change 1 with (low_mask 1) at 1. apply (wp_update_word _ _ _ _ i (i + 1)); [done|lia|apply u32_range|lia|lia| |].
  - intros k' Hk'. rewrite testbit_mid_mask by lia.
    destruct (Z.leb_spec k k'), (Z.leb_spec i (32 * j + k')), (Z.ltb_spec k' (k + 1)), (Z.ltb_spec (32 * j + k') (i + 1)); (done || lia).
  - intros ws Hws Hset. apply HQ; [done|]. intros x. rewrite Hset.
    destruct (Z.leb_spec i x), (Z.ltb_spec x (i + 1)); case_decide; (done || lia).
Qed.

Lemma reserved_read m i (Q : Z → physmem Rest → Prop) :
  map_ok (physMemMap m) → 0 ≤ i < PAGE_COUNT →
  (∀ w, Z.testbit w (Z.land i 31) = reserved (physMemMap m) i → Q w m) → wp (read_word (Z.shiftr i 5)) m Q.
Proof.
  intros Hok Hi HQ. unfold reserved in HQ. rewrite (land_low i 5) in HQ by done.
  rewrite Z.shiftr_div_pow2 by done. change (2 ^ 5) with 32 in *.
  destruct (map_word _ (i / 32) Hok) as (w & Hw & _).
  { unfold PAGE_COUNT in *. split; [apply Z.div_pos; lia|apply Z.div_lt_upper_bound; lia]. }
  rewrite Hw in HQ. unfold read_word. wp_steps. eapply wp_deref; [done|]. by apply HQ.
Qed.

Lemma extra_ok_set_map m ws :
  extra_ok m → map_ok ws →
  (∀ i, 0 ≤ i < PAGE_COUNT → reserved ws i = false → reserved (physMemMap m) i = false ∨ default 0 (info_at m i) = 0) →
  extra_ok (set_map ws m).
Proof.
  intros [H1' H2' H3 H4 H5 H6] Hws Hr. split; try done. intros i Hi Hf.
  change (info_at (set_map ws m) i) with (info_at m i). destruct (Hr i Hi Hf); [by apply H5|done].
Qed.

Lemma wp_release_page m i :
  extra_ok m → 0 ≤ i < PAGE_COUNT → reserved (physMemMap m) i = true →
  wp (physMemReleasePage i) m (λ r m', r = refs m i - 1 ∧ extra_ok m' ∧
      (∀ j, 0 ≤ j → refs m' j = if decide (j = i) then refs m i - 1 else refs m j) ∧
      (∀ j, 0 ≤ j → reserved (physMemMap m') j = false ↔ reserved (physMemMap m) j = false ∨ j = i ∧ refs m i = 1) ∧
      boot m' = boot m ∧ rest m' = rest m).
Proof.
  intros Hok Hi Hres.
  unfold physMemReleasePage. cbv zeta. wp_step. apply reserved_read; [apply Hok|done|]. intros w Hw.
  wp_steps; [by rewrite Hw, Hres|].
  (* the page is freed: its counter was one *)
  assert (∀ m1, extra_ok m1 → physMemMap m1 = physMemMap m → boot m1 = boot m → rest m1 = rest m → refs m i = 1 →
    (info_at m1 i = Some 0 ∨ info_at m1 i = None) → (∀ j, 0 ≤ j → j ≠ i → info_at m1 j = info_at m j) →
    wp (update_word (Z.shiftr i 5) false (u32 (Z.shiftl 1 (Z.land i 31))) ;; mret 0) m1 (λ r m', r = refs m i - 1 ∧ extra_ok m' ∧
    (∀ j, 0 ≤ j → refs m' j = if decide (j = i) then refs m i - 1 else refs m j) ∧
    (∀ j, 0 ≤ j → reserved (physMemMap m') j = false ↔ reserved (physMemMap m) j = false ∨ j = i ∧ refs m i = 1) ∧
    boot m' = boot m ∧ rest m' = rest m)) as Hfree.
  { intros m1 Hok1 Em Eb Er H1r Hi1 Hother. wp_step. apply wp_free_page; [by rewrite Em; apply Hok|done|].
    intros ws Hws Hset. rewrite Em in Hset. wp_step. rewrite H1r. split_and!; [done| | | |done|done].
    - apply extra_ok_set_map; [done|done|]. intros j Hj. rewrite Hset, Em. case_decide; [|by left].
      intros _. right. subst. by destruct Hi1 as [-> | ->].
    - intros j Hj. unfold refs. change (info_at (set_map ws m1) j) with (info_at m1 j). simpl. rewrite Hset.
      case_decide as Hji; [done|]. by rewrite Hother.
    - intros j Hj. simpl. rewrite Hset. case_decide; intuition congruence. }
  destruct (table_of m i Hok Hi) as [(t & v & Ht & Hv)|[Ht Hv]].
  2:{ eapply wp_get_quiet; [done|done|exact Ht|]. wp_steps. apply Hfree; try done; [|by right].
      unfold refs. by rewrite Hres, Hv. }
  eapply wp_get_quiet; [done|done|exact Ht|]. wp_step. eapply wp_read_info; [done|]. wp_step.
  destruct (eo_info _ Hok _ _ Hv) as [Hu Hvok].
  destruct (Z.eqb_spec v 0) as [->|Hnz].
  { wp_step. apply Hfree; try done; [|by left]. unfold refs. by rewrite Hres, Hv. }
  destruct Hvok as [?|[Hp Hr]]; [done|].
  assert (refs m i = ei_ref v) as Hrefs.
  { unfold refs. rewrite Hres, Hv. by rewrite (proj2 (Z.eqb_neq _ _)). }
  pose proof (ref_range v). wp_steps; [by rewrite Hp|].
  rewrite ref_set_ref, Z.mod_small by (done || lia).
  destruct (Z.eqb_spec (ei_ref v - 1) 0) as [Hz|Hz].
  + eapply wp_write_info; [done|lia|done|split; [done|by left]|by left|]. intros m1 Hok1 Hset1. wp_step. rewrite Hz.
    destruct Hset1 as (Em & _ & _ & Eb & Er & Hinfo). apply Hfree; [done|done|done|done|lia| |].
    * left. rewrite Hinfo by lia. by rewrite decide_True.
    * intros j Hj Hji. rewrite Hinfo by done. by rewrite decide_False.
  + eapply wp_write_info; [done|lia|done| |by right|].
    { split; [by apply is_u32_set_ref|]. right. rewrite present_set_ref, ref_set_ref, Z.mod_small by (done || lia). lia. }
    intros m1 Hok1 Hset1. wp_step. rewrite (proj2 (Z.eqb_neq _ _)) by done. wp_step.
    split_and!; [lia|done| | |apply Hset1|apply Hset1].
    * intros j Hj. rewrite (refs_set_info _ _ _ _ _ (proj1 Hi) Hj Hset1 Hres). case_decide; [|done].
      rewrite (proj2 (Z.eqb_neq _ _)) by (apply info_ok_nonzero; by rewrite present_set_ref).
      rewrite ref_set_ref, Z.mod_small by (done || lia). lia.
    * intros j Hj. destruct Hset1 as (-> & _). split; [by left|]. intros [?|[_ ?]]; [done|lia].
Qed.

(** C38: Releasing a reference to a page. The counter of this page falls by
    one and no other counter changes; the page becomes free exactly when its
    last reference is released, and what is returned is the number of
    references left. Releasing a free page stops the system. *)
Theorem physMemReleasePage_correct m i :
  extra_ok m → 0 ≤ i < PAGE_COUNT →
  (reserved (physMemMap m) i = true →
    wp (physMemReleasePage i) m (λ r m', r = refs m i - 1 ∧ extra_ok m' ∧
      (∀ j, 0 ≤ j → refs m' j = if decide (j = i) then refs m i - 1 else refs m j) ∧
      ∀ j, 0 ≤ j → reserved (physMemMap m') j = false ↔ reserved (physMemMap m) j = false ∨ j = i ∧ refs m i = 1)) ∧
  (reserved (physMemMap m) i = false → ∃ why, physMemReleasePage i m = Panic why).
Proof.
  intros Hok Hi. split; intros Hres.
  - eapply wp_mono; [by apply wp_release_page|]. intros r m' (? & ? & ? & ? & _). done.
  - eexists. unfold physMemReleasePage. cbv zeta.
    assert (∃ w, read_word (Z.shiftr i 5) m = Ok (w, m) ∧ Z.testbit w (Z.land i 31) = false) as (w & E & Hw).
    { assert (wp (read_word (Z.shiftr i 5)) m (λ w m', m' = m ∧ Z.testbit w (Z.land i 31) = false)) as Hr.
      { apply reserved_read; [apply Hok|done|]. intros w ->. by rewrite Hres. }
      apply wp_run in Hr as (w & m' & E & -> & ?). by exists w. }
    unfold mbind, M_bind. rewrite E. rewrite Hw. done.
Qed.

Lemma wp_is_last_ref m i : extra_ok m → 0 ≤ i < PAGE_COUNT → reserved (physMemMap m) i = true →
  wp (physMemIsLastRef i) m (λ b m', m' = m ∧ (b = true ↔ refs m i = 1)).
Proof.
  intros Hok Hi Hres. unfold physMemIsLastRef. wp_step. unfold refs. rewrite Hres.
  destruct (table_of m i Hok Hi) as [(t & v & Ht & Hv)|[Ht Hv]]; (eapply wp_get_quiet; [done|done|exact Ht|]); cbv beta iota.
  - wp_step. eapply wp_read_info; [done|]. wp_step. rewrite Hv. split; [done|].
    destruct (v =? 0); simpl; [done|]. apply Z.eqb_eq.
  - wp_step. by rewrite Hv.
Qed.

(** ** New tables *)

(** What the tables rely on: while there is memory left, a number of pages
    [budget], a new page of the kernel is found, takes one page of it and does
    not touch the tables; it keeps an invariant [I] of the memory of the kernel,
    and neither depends on the tables. *)
Definition kernel_pages_ok (I : physmem Rest → Prop) (budget : physmem Rest → nat) : Prop :=
  (∀ m e, budget (set_extra e m) = budget m ∧ (I m → I (set_extra e m))) ∧
  ∀ m, extra_ok m → I m → (0 < budget m)%nat →
    wp newKernelPage m (λ f m', extra_ok m' ∧ I m' ∧ 0 ≤ f < PAGE_COUNT ∧ reserved (physMemMap m') f = true ∧
      (∀ j, reserved (physMemMap m) j = true → reserved (physMemMap m') j = true) ∧
      physMemExtra m' = physMemExtra m ∧
      (budget m ≤ S (budget m'))%nat).

(** The tables that are missing. *)
Definition missing (m : physmem Rest) : nat := length (filter (λ t, t = None) (physMemExtra m)).

Lemma missing_set (l : list (option (list Z))) i t : nthZ l i = Some None →
  length (filter (λ t, t = None) l) = S (length (filter (λ t, t = None) (setZ l i (Some t)))).
Proof.
  unfold nthZ, setZ. case_match; [done|]. generalize (Z.to_nat i). clear. intros n. revert n.
  induction l as [|[x|] l IH]; intros [|n] Hn; simpl in *; try done.
  - by apply IH.
  - f_equal. by apply IH.
Qed.

Lemma info_at_new m i k t :
  extra_ok m → 0 ≤ i → 0 ≤ k → nthZ (physMemExtra m) (page_ptr i).1 = Some None →
  info_at (set_extra (setZ (physMemExtra m) (page_ptr i).1 (Some t)) m) k =
  if decide (k / 1024 = i / 1024) then nthZ t (k mod 1024) else info_at m k.
Proof.
  intros Hok Hi Hk Ht. rewrite !info_at_ptr. cbn [physMemExtra set_extra]. rewrite (page_ptr_spec i Hi) in *.
  rewrite (page_ptr_spec k Hk). cbn [fst snd] in *. pose proof (nthZ_Some_lt _ _ _ Ht). case_decide as E.
  - by rewrite E, nthZ_setZ_eq.
  - by rewrite nthZ_setZ_ne by done.
Qed.

Lemma new_table_ok m i t :
  lenZ t = 1024 → (∀ k v, nthZ t k = Some v → v = 0) →
  extra_ok m → 0 ≤ i → nthZ (physMemExtra m) (page_ptr i).1 = Some None →
  extra_ok (set_extra (setZ (physMemExtra m) (page_ptr i).1 (Some t)) m).
Proof.
  intros Hlt Hz Hok Hi Ht. pose proof (info_at_new m i) as Hinfo. destruct Hok as [Hm Hl Htab Hin Hun Hp] eqn:Hd. split; try done.
  - simpl. by rewrite length_setZ.
  - simpl. intros j t'. destruct (decide (j = (page_ptr i).1)) as [->|].
    + rewrite nthZ_setZ_eq by by eapply nthZ_Some_lt. by intros [= <-].
    + rewrite nthZ_setZ_ne by done. apply Htab.
  - intros k v Hv. destruct (decide (0 ≤ k)) as [Hk|Hk].
    + rewrite Hinfo in Hv by done. case_decide; [|by eapply Hin]. apply Hz in Hv as ->. split; [done|by left].
    + unfold info_at in Hv. unfold nthZ at 2 in Hv. rewrite (proj2 (Z.ltb_lt _ 0)) in Hv; [done|].
      apply Z.shiftr_neg. lia.
  - intros k Hk Hr. rewrite Hinfo by (done || lia). case_decide; [|by apply Hun].
    destruct (nthZ t (k mod 1024)) as [v|] eqn:E; [|done]. by apply Hz in E.
Qed.

Lemma new_table_zero k v : nthZ (replicate 1024 0) k = Some v → v = 0.
Proof.
  intros H. pose proof (nthZ_Some_lt _ _ _ H) as Hr. rewrite length_replicate in Hr.
  rewrite nthZ_replicate in H by done. congruence.
Qed.

Lemma wp_mark_info m i v (Q : unit → physmem Rest → Prop) :
  extra_ok m → 0 ≤ i → info_at m i = Some v → reserved (physMemMap m) i = true →
  (∀ m', extra_ok m' → set_info m i (ei_set_unpageable 1 (started v)) m' → Q tt m') → wp (mark_info (page_ptr i)) m Q.
Proof.
  intros Hok Hi Hv Hr HQ. destruct (started_ok v) as [[Hu Hs] Hp]; [by eapply eo_info|].
  unfold mark_info. wp_step. eapply wp_init_info; [done..|]. intros m1 Hok1 Hset1.
  assert (info_at m1 i = Some (started v)) as Hv1.
  { destruct Hset1 as (_ & _ & _ & _ & _ & ->); [|lia]. by rewrite decide_True. }
  wp_step. eapply wp_read_info; [done|]. eapply wp_write_info; [done|done|done| | |].
  - split; [fields; apply is_u32_set_field; (done || lia)|]. right.
    destruct Hs as [E|[_ Hrr]]; [by rewrite E in Hp|]. revert Hp Hrr. fields. intros.
    by rewrite !get_field_set_ne by (done || lia).
  - right. by destruct Hset1 as (-> & _).
  - intros m2 Hok2 Hset2. apply HQ; [done|]. by eapply set_info_trans.
Qed.

(** Marking a page as not to be paged out keeps its counter. *)
Lemma marked_ref v : is_u32 v → ei_ref (ei_set_unpageable 1 v) = ei_ref v.
Proof. intros. fields. apply get_field_set_ne; (done || lia). Qed.

(** Getting the word of extra information of a page ends: with more fuel than
    tables are missing, and memory for them, the word is found, no table is
    lost, and the page's word is there. *)
Lemma wp_get_extra_info I budget n : ∀ fuel m i,
  kernel_pages_ok I budget → extra_ok m → I m → 0 ≤ i < PAGE_COUNT → missing m = n → (n ≤ budget m)%nat → (n < fuel)%nat →
  wp (__getPhysMemExtraInfo fuel i true) m (λ p m', p = Some (page_ptr i) ∧ extra_ok m' ∧
    is_Some (info_at m' i) ∧ (∀ j, 0 ≤ j → is_Some (info_at m j) → is_Some (info_at m' j)) ∧
    ∀ j, reserved (physMemMap m) j = true → reserved (physMemMap m') j = true).
Proof.
  induction (lt_wf n) as [n _ IH]. intros fuel m i Hk Hok HI Hi Hn Hb Hf. pose proof Hk as [Hbe Hkp]. destruct fuel as [|fuel]; [lia|].
  destruct (table_of m i Hok Hi) as [(t & v & Ht & Hv)|[Ht Hv]].
  { apply (wp_get_present fuel i true (Some t)); [done|done|done|by right|]. cbv beta iota. split_and!; [done|done|by eexists|done|done]. }
  cbn [__getPhysMemExtraInfo]. cbv zeta. wp_steps; [apply (eo_paging _ Hok)|apply Z.ltb_lt, (page_index i Hi)|].
  eapply wp_deref; [exact Ht|]. cbv iota. simpl negb. cbv iota. wp_step.
  assert (0 < n)%nat as Hpos by (rewrite <-Hn; unfold missing; rewrite (missing_set _ _ [] Ht); lia).
  eapply wp_mono; [apply Hkp; (done || lia)|]. intros f m1 (Hok1 & HI1 & Hfr & Hres1 & Hkr1 & Hex & Hb1). cbv beta. wp_steps.
  fold (page_ptr i). change (Z.shiftr i PHYSMEMEXTRA_BITS) with (page_ptr i).1.
  rewrite <-Hex in Ht. set (m2 := set_extra _ m1).
  assert (budget m2 = budget m1 ∧ I m2) as [Hb2 HI2] by (split; by apply Hbe).
  assert (missing m1 = n) as Hn1 by (unfold missing; by rewrite Hex).
  assert (missing m1 = S (missing m2)) as Hmis by by apply missing_set.
  assert (extra_ok m2) as Hok2 by (apply new_table_ok; [by rewrite length_replicate|apply new_table_zero|done|lia|done]).
  assert (∀ j, 0 ≤ j → info_at m2 j = if decide (j / 1024 = i / 1024) then nthZ (replicate 1024 0) (j mod 1024) else info_at m1 j) as Hnew.
  { intros j Hj. apply info_at_new; (done || lia). }
  assert (∀ j, info_at m1 j = info_at m j) as Hsame by (intros j; unfold info_at; by rewrite Hex).
  assert (physMemMap m2 = physMemMap m1) as Em2 by done.
  clearbody m2. eapply wp_mono; [apply (IH (missing m2)); (done || lia)|].
  intros q m3 (-> & Hok3 & [vf Hvf] & Hkeep & Hkr3). cbv beta iota. wp_steps.
  eapply wp_mark_info; [done|lia|done| |].
  { apply Hkr3. by rewrite Em2. }
  intros m4 Hok4 (Em4 & _ & _ & _ & _ & Hset4). wp_step.
  assert (∀ j, 0 ≤ j → is_Some (info_at m2 j) → is_Some (info_at m4 j)) as Hkeep4.
  { intros j Hj Hs. rewrite Hset4 by done. case_decide; [by eexists|by apply Hkeep]. }
  assert (∀ j, 0 ≤ j → j / 1024 = i / 1024 → is_Some (info_at m2 j)) as Hthere.
  { intros j Hj E. rewrite Hnew, decide_True by done. pose proof (Z.mod_pos_bound j 1024).
    rewrite nthZ_replicate by lia. by eexists. }
  split_and!; [done|done|by apply Hkeep4, Hthere; [lia..|]| |].
  2:{ intros j Hj. rewrite Em4. apply Hkr3. rewrite Em2. by apply Hkr1. }
  intros j Hj Hs. apply Hkeep4; [done|]. destruct (decide (j / 1024 = i / 1024)); [by apply Hthere|].
  by rewrite Hnew, decide_False, Hsame by done.
Qed.
End Refs.

(** ** Witnesses: page 300 has three references *)

Definition counted_memory : physmem unit :=
  PhysMem (replicate (Z.to_nat 32768) ALL_ONES)
    (Some (<[300%nat := ei_set_ref 3 (ei_set_present 1 0)]> (replicate 1024 0)) :: replicate 1023 None)
    0 true true (BootMap [] false) tt.

Definition sample_pages : KernelPages unit := mret 2000.

Lemma counted_memory_ok : extra_ok counted_memory.
Proof.
  split; [|done| |  | |done].
  - split; unfold counted_memory; cbn [physMemMap]; [by rewrite length_replicate|by apply Forall_replicate].
  - intros i t. unfold counted_memory, nthZ. cbn [physMemExtra]. case_match; [done|].
    destruct (Z.to_nat i) as [|n]; cbn [lookup list_lookup].
    + intros [= <-]. by vm_compute.
    + intros E%list_elem_of_lookup_2. by apply elem_of_replicate in E as [? _].
  - intros i v. rewrite info_at_ptr. intros (t & Ht & Hv)%bind_Some.
    assert (t = <[300%nat := ei_set_ref 3 (ei_set_present 1 0)]> (replicate 1024 0)) as ->.
    { unfold counted_memory, nthZ in Ht. cbn [physMemExtra] in Ht. case_match; [done|].
      destruct (Z.to_nat _) as [|n]; [cbn [lookup list_lookup mjoin option_join] in Ht; congruence|]. cbn [lookup list_lookup] in Ht.
      destruct (replicate 1023 None !! n) as [o|] eqn:E; [|done]. apply list_elem_of_lookup_2 in E.
      apply elem_of_replicate in E as [-> _]. done. }
    unfold nthZ in Hv. case_match; [done|]. apply list_lookup_insert_Some in Hv as [(_ & <- & _)|[_ Hv]].
    + split; [by vm_compute|right; by vm_compute].
    + apply list_elem_of_lookup_2, elem_of_replicate in Hv as [-> _]. split; [done|by left].
  - intros i Hi. unfold counted_memory. cbn [physMemMap].
    by rewrite (reserved_all _ _ Hi) by by rewrite Z2Nat.id.
Qed.

Lemma physMemAddRefPage_correct_witness :
  wp (physMemAddRefPage (H := sample_pages) 5 300) counted_memory (λ r m', r = 300 ∧ extra_ok m' ∧
    physMemMap m' = physMemMap counted_memory ∧
    ∀ j, 0 ≤ j → refs m' j = if decide (j = 300) then refs counted_memory 300 + 1 else refs counted_memory j).
Proof.
  refine (proj1 (physMemAddRefPage_correct (HK := sample_pages) counted_memory 300 5 counted_memory_ok _ _ _ _) _);
    [done|by eexists|by vm_compute|lia|by vm_compute].
Defined.

Lemma physMemReleasePage_correct_witness :
  wp (physMemReleasePage (H := sample_pages) 300) counted_memory (λ r m', r = refs counted_memory 300 - 1 ∧ extra_ok m' ∧
    (∀ j, 0 ≤ j → refs m' j = if decide (j = 300) then refs counted_memory 300 - 1 else refs counted_memory j) ∧
    ∀ j, 0 ≤ j → reserved (physMemMap m') j = false ↔
      reserved (physMemMap counted_memory) j = false ∨ j = 300 ∧ refs counted_memory 300 = 1).
Proof.
  refine (proj1 (physMemReleasePage_correct (HK := sample_pages) counted_memory 300 counted_memory_ok _) _); by vm_compute.
Defined.
