(* ===== verification/Paging.v ===== *)
(** * paging.c: page tables

    Models src/kernelmode/kernel/memory/paging.c and the access macros of
    include/memory/paging.h. Page directories and page tables are words of the
    physical memory, and the kernel reaches them as the code does, through the
    addresses that the memory management unit translates: [load] and [store]
    walk the tables that CR3 points to. A process is known by its directory
    and the addresses where its page tables are mapped into the kernel.

    The accessed and dirty bits that the processor sets, the write protection of
    user mode accesses and the buffers that [invlpg] flushes are not part of the
    model: a translation always walks the tables. *)

From S2P Require Import Prelude Util BootMap Console PhysMem.
Open Scope Z_scope.

Definition PAGETABLE_MASK := 0x3FF.
Definition PAGETABLE_BITS := 10.
Definition PAGETABLE_COUNT := 0x400.

Definition KERNEL_DIR_ENTRY := PAGETABLE_COUNT - 1.
Definition KERNEL_DIR_ADDR := u32 (Z.shiftl (Z.lor (Z.shiftl KERNEL_DIR_ENTRY PAGETABLE_BITS) KERNEL_DIR_ENTRY) PAGE_BITS).
Definition KERNEL_PAGE_ADDR := u32 (Z.shiftl KERNEL_DIR_ENTRY (PAGETABLE_BITS + PAGE_BITS)).

Definition PAGING_AVAIL_NOTPRESENT_RESERVED := 1.
Definition PAGING_AVAIL_NOTPRESENT_ON_ACCESS_CREATE := 2.
Definition PAGING_AVAIL_NOTPRESENT_OUTPAGED := 3.
Definition PAGING_AVAIL_PRESENT_SHARED := 1.
Definition PAGING_AVAIL_PRESENT_NO_FORK := 2.
Definition PAGING_AVAIL_PRESENT_ON_WRITE_DUPLICATE := 3.

(** [struct pagingEntry] *)
Definition e_present (v : Z) : bool := Z.testbit v 0.
Definition e_rw (v : Z) : bool := Z.testbit v 1.
Definition e_user (v : Z) : bool := Z.testbit v 2.
Definition e_avail (v : Z) : Z := Z.land (Z.shiftr v 9) 7.
Definition e_frame (v : Z) : Z := Z.land (Z.shiftr v 12) 0xFFFFF.
Definition set_rw (b : bool) (v : Z) : Z := set_field 1 1 v (Z.b2z b).
Definition set_user (b : bool) (v : Z) : Z := set_field 2 1 v (Z.b2z b).
Definition set_avail (x v : Z) : Z := set_field 9 7 v x.
Definition set_frame (x v : Z) : Z := set_field 12 0xFFFFF v x.

(** An entry whose other fields are reset. *)
Definition new_entry (present rw user : bool) (avail frame : Z) : Z :=
  Z.b2z present + 2 * Z.b2z rw + 4 * Z.b2z user + 512 * Z.land avail 7 + 4096 * Z.land frame 0xFFFFF.

Record pgProcess := PgProcess {
  pageDirectory : Z;
  pageTables : list Z;      (* 1024 addresses, 0 for a null pointer *)
}.

(** The memory, by the numbers of its words, the page table register and the processes. *)
Record paging := Paging {
  words : gmap Z Z;
  cr3 : Z;
  procs : gmap Z pgProcess;
}.

Abbreviation machine := (physmem paging).
Abbreviation PG := (M machine).

Definition word (s : machine) (a : Z) : Z := default 0 (words (rest s) !! a).
Definition set_word (a v : Z) (s : machine) : machine :=
  set_rest (Paging (<[a := v]> (words (rest s))) (cr3 (rest s)) (procs (rest s))) s.
Definition set_cr3 (v : Z) (s : machine) : machine :=
  set_rest (Paging (words (rest s)) v (procs (rest s))) s.
Definition set_proc (p : Z) (x : pgProcess) (s : machine) : machine :=
  set_rest (Paging (words (rest s)) (cr3 (rest s)) (<[p := x]> (procs (rest s)))) s.

(** ** The memory management unit *)

(** The entry for an address in the tables below a directory. *)
Definition walk (s : machine) (dir va : Z) : option Z :=
  let d := word s (dir * 1024 + Z.shiftr va 22) in
  if e_present d then Some (word s (e_frame d * 1024 + Z.land (Z.shiftr va 12) PAGETABLE_MASK)) else None.

Definition translate (s : machine) (va : Z) : option Z :=
  if pagingEnabled s then
    match walk s (e_frame (cr3 (rest s))) va with
    | Some v => if e_present v then Some (e_frame v * PAGE_SIZE + Z.land va PAGE_MASK) else None
    | None => None
    end
  else Some va.

Definition load (va : Z) : PG Z :=
  let* s := get in
  let* pa := deref (translate s va) "page fault" in
  if pa mod 4 =? 0 then mret (word s (pa / 4)) else undef "unaligned access".

Definition store (va v : Z) : PG unit :=
  let* s := get in
  let* pa := deref (translate s va) "page fault" in
  if pa mod 4 =? 0 then put (set_word (pa / 4) v s) else undef "unaligned access".

(** [memset(addr, 0, PAGE_SIZE)] and [memcpy(destination, source, PAGE_SIZE)], a word at a time. *)
Definition clear_page (addr : Z) : PG unit := for_loop 1024 0 (λ k, store (addr + 4 * k) 0).
Definition copy_page (destination source : Z) : PG unit :=
  for_loop 1024 0 (λ k, let* v := load (source + 4 * k) in store (destination + 4 * k) v).

Definition get_proc (p : Z) : PG pgProcess :=
  let* s := get in deref (procs (rest s) !! p) "process: dangling pointer".

(** ** Looking up an entry *)

(** [switch (avail)] where only a page on the hard drive is no error. *)
Definition page_in (v : Z) : PG unit :=
  when (negb (e_present v))
    (if e_avail v =? PAGING_AVAIL_NOTPRESENT_OUTPAGED then
       physMemPageIn (e_frame v) ;; panic "assert: present"
     else panic "assert(0)").

(** [__getPagingEntry]; [map_table frame] is its call of [__pagingMapPhysMem]
    for the page table of a process. The result is the address of the entry. *)
Section Entry.
Context (map_table : Z → PG Z).

Definition paging_entry (p : option Z) (addr : Z) (alloc : bool) : PG (option Z) :=
  let* s := get in
  let* dir :=
    (if pagingEnabled s then
       match p with
       | Some p => let* q := get_proc p in mret (pageDirectory q)
       | None => mret KERNEL_DIR_ADDR
       end
     else
       assert (bool_decide (p = None)) "p == NULL" ;;
       mret (cr3 (rest s))) in
  let i := Z.shiftr addr 22 in
  let dir := u32 (dir + 4 * i) in
  let* v := load dir in
  if (v =? 0) && negb alloc then mret None
  else
    let alloc := v =? 0 in
    when alloc
      (let* frame := physMemAllocPage false in
       store dir (new_entry true true true 0 frame)) ;;
    let* v := load dir in
    page_in v ;;
    assert (e_avail v =? 0) "!dir->avail" ;;
    let* table :=
      (if pagingEnabled s then
         match p with
         | Some p =>
             let* q := get_proc p in
             let* t := deref (nthZ (pageTables q) i) "pageTables: out of the array" in
             when (t =? 0)
               (let* a := map_table (e_frame v) in
                let* q := get_proc p in
                modify (set_proc p (PgProcess (pageDirectory q) (setZ (pageTables q) i a)))) ;;
             let* q := get_proc p in
             let* t := deref (nthZ (pageTables q) i) "pageTables: out of the array" in
             mret (u32 (t + 4 * Z.land (Z.shiftr addr 12) PAGETABLE_MASK))
         | None => mret (u32 (KERNEL_PAGE_ADDR + 4 * Z.shiftr addr 12))
         end
       else mret (u32 (Z.shiftl (e_frame v) 12 + 4 * Z.land (Z.shiftr addr 12) PAGETABLE_MASK))) in
    when alloc (clear_page (table - table mod PAGE_SIZE)) ;;
    mret (Some table).

(** The entry that must be there. *)
Definition entry_ptr (p : option Z) (addr : Z) : PG Z :=
  let* t := paging_entry p addr true in deref t "__getPagingEntry: null pointer".

(** The search for a free address of [__pagingMapPhysMem]. *)
Fixpoint map_search (fuel : nat) (p : option Z) (i : Z) : PG (Z * Z) :=
  match fuel with
  | O => panic "error_virtualAddressSpaceFull"
  | S fuel =>
      let* table := entry_ptr p (Z.shiftl i PAGE_BITS) in
      let* v := load table in
      if v =? 0 then mret (table, Z.shiftl i PAGE_BITS) else map_search fuel p (i + 1)
  end.

Definition map_page (p : option Z) (index addr : Z) (rw user : bool) : PG Z :=
  let* ' (table, addr) :=
    (if negb (addr =? 0) then
       assert (negb (Z.shiftr addr 12 =? 0)) "(uint32_t)addr & ~PAGE_MASK" ;;
       let* table := entry_ptr p addr in
       let* v := load table in
       if v =? 0 then mret (table, addr) else panic "error_virtualAddressInUse"
     else map_search (Z.to_nat (KERNEL_DIR_ENTRY * PAGETABLE_COUNT - 1)) p 1) in
  store table (new_entry true rw user 0 index) ;;
  mret addr.
End Entry.

(** *** The kernel's own address space

    Nothing is mapped into the kernel to look up its own entries. *)

Definition kernel_entry : Z → bool → PG (option Z) := paging_entry (λ _, panic "not reached") None.
Definition kernel_map : Z → Z → bool → bool → PG Z := map_page (λ _, panic "not reached") None.

Definition is_entry (t : option Z) : PG (option (Z * Z)) :=
  match t with
  | None => mret None
  | Some t => let* v := load t in mret (Some (t, v))
  end.

(** [pagingTrySearchArea] over a given way to look up entries; 0: no area. *)
Section Search.
Context (entry : Z → bool → PG (option Z)).

Fixpoint search_area (fuel : nat) (i start length : Z) : PG Z :=
  match fuel with
  | O => no_fuel
  | S fuel =>
      if i <? KERNEL_DIR_ENTRY * PAGETABLE_COUNT then
        let* t := entry (Z.shiftl i PAGE_BITS) false in
        let* e := is_entry t in
        match e with
        | Some (_, v) =>
            if negb (v =? 0) then search_area fuel (i + 1) (i + 1) length
            else if u32 (start + length - 1) <=? i then mret (Z.shiftl start PAGE_BITS)
            else search_area fuel (i + 1) start length
        | None =>
            let i := Z.lor i PAGETABLE_MASK in
            if u32 (start + length - 1) <=? i then mret (Z.shiftl start PAGE_BITS)
            else search_area fuel (i + 1) start length
        end
      else mret 0
  end.

Definition try_search_area (length : Z) : PG Z :=
  if length =? 0 then mret 0 else search_area (Z.to_nat (KERNEL_DIR_ENTRY * PAGETABLE_COUNT)) 1 1 length.

(** [pagingTryAllocatePhysMem] *)
Fixpoint allocate_pages (length : nat) (cur : Z) (rw user : bool) : PG unit :=
  match length with
  | O => mret tt
  | S length =>
      let* index := physMemAllocPage false in
      let* t := entry cur true in
      let* table := deref t "__getPagingEntry: null pointer" in
      let* v := load table in
      assert (v =? 0) "!table->value" ;;
      store table (new_entry true rw user 0 index) ;;
      allocate_pages length (u32 (cur + PAGE_SIZE)) rw user
  end.

Definition try_allocate (length : Z) (rw user : bool) : PG Z :=
  let* addr := try_search_area length in
  if addr =? 0 then mret 0
  else allocate_pages (Z.to_nat length) addr rw user ;; mret addr.

Definition allocate (length : Z) (rw user : bool) : PG Z :=
  let* addr := try_allocate length rw user in
  if addr =? 0 then panic "error_virtualAddressSpaceFull" else mret addr.

Definition get_phys_mem (addr : Z) : PG Z :=
  let* t := entry addr false in
  let* e := is_entry t in
  match e with
  | Some (t, v) =>
      assert (negb (v =? 0)) "table && table->value" ;;
      page_in v ;; let* v := load t in mret (e_frame v)
  | None => panic "table && table->value"
  end.
End Search.

(** The tables of page information are kernel pages. *)
#[export] Instance kernel_pages : KernelPages paging :=
  let* addr := allocate kernel_entry 1 true false in get_phys_mem kernel_entry addr.

(** ** The functions of the file, for the kernel ([None]) and for processes *)

(** One table of page information after the other: there are 1024. *)
Definition EXTRA_FUEL : nat := 1025.

Definition map_table (frame : Z) : PG Z :=
  let* frame := physMemAddRefPage EXTRA_FUEL frame in kernel_map frame 0 true false.

Definition __getPagingEntry (p : option Z) (addr : Z) (alloc : bool) : PG (option Z) :=
  paging_entry map_table p addr alloc.

Definition get_entry_alloc (p : option Z) (addr : Z) : PG Z := entry_ptr map_table p addr.

Definition __pagingMapPhysMem (p : option Z) (index addr : Z) (rw user : bool) : PG Z :=
  map_page map_table p index addr rw user.

(** The entry for an address and its value; [None] if it is not in use. *)
Definition used_entry (p : option Z) (addr : Z) : PG (option (Z * Z)) :=
  let* t := __getPagingEntry p addr false in
  let* e := is_entry t in
  match e with
  | Some (t, v) => mret (if v =? 0 then None else Some (t, v))
  | None => mret None
  end.

(** [assert(x && x->value)] *)
Definition need {A} (o : option A) (why : string) : PG A :=
  match o with Some a => mret a | None => panic why end.

Definition __isReserved (v : Z) : bool :=
  negb (e_present v) && (e_avail v =? PAGING_AVAIL_NOTPRESENT_RESERVED).

Fixpoint reserve_pages (length : nat) (p : option Z) (cur : Z) (user : bool) : PG unit :=
  match length with
  | O => mret tt
  | S length =>
      let* table := get_entry_alloc p cur in
      let* v := load table in
      assert (v =? 0) "!table->value" ;;
      store table (new_entry false false user PAGING_AVAIL_NOTPRESENT_RESERVED 0) ;;
      reserve_pages length p (u32 (cur + PAGE_SIZE)) user
  end.

Definition pagingReserveArea (p : option Z) (addr length : Z) (user : bool) : PG unit :=
  reserve_pages (Z.to_nat length) p addr user.

Definition pagingTrySearchArea (p : option Z) (length : Z) : PG Z := try_search_area (__getPagingEntry p) length.

Definition pagingSearchArea (p : option Z) (length : Z) : PG Z :=
  let* addr := pagingTrySearchArea p length in
  if addr =? 0 then panic "error_virtualAddressSpaceFull" else mret addr.

Definition pagingTryAllocatePhysMem (p : option Z) (length : Z) (rw user : bool) : PG Z :=
  try_allocate (__getPagingEntry p) length rw user.

Definition pagingAllocatePhysMem (p : option Z) (length : Z) (rw user : bool) : PG Z :=
  allocate (__getPagingEntry p) length rw user.

Fixpoint fill_reserved (length : nat) (p : option Z) (cur : Z) (rw user : bool) : PG unit :=
  match length with
  | O => mret tt
  | S length =>
      let* index := physMemAllocPage false in
      let* index := physMemMarkUnpageable EXTRA_FUEL index in
      let* table := get_entry_alloc p cur in
      let* v := load table in
      assert (__isReserved v) "__isReserved(table)" ;;
      store table (new_entry true rw user 0 index) ;;
      fill_reserved length p (u32 (cur + PAGE_SIZE)) rw user
  end.

Definition pagingAllocatePhysMemUnpageable (p : option Z) (length : Z) (rw user : bool) : PG Z :=
  let* addr := pagingTrySearchArea p length in
  if addr =? 0 then panic "error_virtualAddressSpaceFull"
  else
    pagingReserveArea p addr length user ;;
    fill_reserved (Z.to_nat length) p addr rw user ;;
    mret addr.

Definition pagingAllocatePhysMemFixedUnpageable (p : option Z) (addr length : Z) (rw user : bool) : PG Z :=
  assert (negb (Z.shiftr addr 12 =? 0)) "(uint32_t)addr & ~PAGE_MASK" ;;
  pagingReserveArea p addr length user ;;
  fill_reserved (Z.to_nat length) p addr rw user ;;
  mret addr.

(** *** Releasing *)

(** One page; [users]: only a page the user has access to. *)
Definition release_one (users : bool) (p : option Z) (cur : Z) : PG bool :=
  let* e := used_entry p cur in
  match e with
  | None => mret false
  | Some (table, v) =>
      if users && negb (e_user v) then mret false
      else if negb (e_present v) &&
              ((e_avail v =? PAGING_AVAIL_NOTPRESENT_RESERVED) || (e_avail v =? PAGING_AVAIL_NOTPRESENT_ON_ACCESS_CREATE))
      then store table 0 ;; mret true
      else
        page_in v ;;
        let* v := load table in
        store table 0 ;;
        physMemReleasePage (e_frame v) ;;
        mret true
  end.

Fixpoint release_pages (users : bool) (length : nat) (p : option Z) (cur : Z) (success : bool) : PG bool :=
  match length with
  | O => mret success
  | S length =>
      let* ok := release_one users p cur in
      release_pages users length p (u32 (cur + PAGE_SIZE)) (success && ok)
  end.

Definition pagingTryReleasePhysMem (p : option Z) (addr length : Z) : PG bool :=
  release_pages false (Z.to_nat length) p addr true.

Definition pagingTryReleaseUserMem (p : option Z) (addr length : Z) : PG bool :=
  release_pages true (Z.to_nat length) p addr true.

Definition pagingReleasePhysMem (p : option Z) (addr length : Z) : PG unit :=
  let* ok := pagingTryReleasePhysMem p addr length in
  assert ok "pagingTryReleasePhysMem(p, addr, length)".

(** *** Allocating at a fixed address *)

Fixpoint allocate_fixed (n : nat) (p : option Z) (addr cur : Z) (rw user : bool) : PG bool :=
  match n with
  | O => mret true
  | S n =>
      let* index := physMemAllocPage false in
      let* table := get_entry_alloc p cur in
      let* v := load table in
      if negb (v =? 0) then
        physMemReleasePage index ;;
        pagingReleasePhysMem None addr (Z.shiftr (u32 (cur - addr)) PAGE_BITS) ;;
        mret false
      else
        store table (new_entry true rw user 0 index) ;;
        allocate_fixed n p addr (u32 (cur + PAGE_SIZE)) rw user
  end.

Definition pagingTryAllocatePhysMemFixed (p : option Z) (addr length : Z) (rw user : bool) : PG Z :=
  if Z.shiftr addr 12 =? 0 then mret 0
  else
    let* (ok : bool) := allocate_fixed (Z.to_nat length) p addr addr rw user in
    mret (if ok then addr else 0).

Definition pagingAllocatePhysMemFixed (p : option Z) (addr length : Z) (rw user : bool) : PG Z :=
  let* addr := pagingTryAllocatePhysMemFixed p addr length rw user in
  if addr =? 0 then panic "error_virtualAddressInUse" else mret addr.

(** *** Moving and resizing *)

Fixpoint move_pages (length : nat) (p : option Z) (dst_cur src_cur : Z) : PG unit :=
  match length with
  | O => mret tt
  | S length =>
      let* e := used_entry p src_cur in
      let* ' (src, _) := need e "src && src->value" in
      let* dst := get_entry_alloc p dst_cur in
      let* d := load dst in
      assert (d =? 0) "!dst->value" ;;
      let* v := load src in
      store dst v ;; store src 0 ;;
      move_pages length p (u32 (dst_cur + PAGE_SIZE)) (u32 (src_cur + PAGE_SIZE))
  end.

(** [length] counts pages, but the assertion adds it to the addresses. *)
Definition __pagingMove (p : option Z) (dst_addr src_addr length : Z) : PG Z :=
  assert ((u32 (dst_addr + length) <=? src_addr) || (u32 (src_addr + length) <=? dst_addr)) "dst_cur + length <= src_cur" ;;
  move_pages (Z.to_nat length) p dst_addr src_addr ;;
  mret (Z.lor dst_addr (Z.land src_addr PAGE_MASK)).

Fixpoint grow_pages (n : nat) (p : option Z) (addr cur old_length new_length : Z) (rw user : bool) : PG Z :=
  match n with
  | O => mret addr
  | S n =>
      let* index := physMemAllocPage false in
      let* table := get_entry_alloc p cur in
      let* v := load table in
      let* ' (addr, cur, table) :=
        (if negb (v =? 0) then
           let* new_addr := pagingSearchArea p new_length in
           let* addr := __pagingMove p new_addr addr old_length in
           let cur := u32 (addr + Z.shiftl old_length PAGE_BITS) in
           let* table := get_entry_alloc p cur in
           let* v := load table in
           assert (v =? 0) "!table->value" ;;
           mret (addr, cur, table)
         else mret (addr, cur, table)) in
      store table (new_entry true rw user 0 index) ;;
      grow_pages n p addr (u32 (cur + PAGE_SIZE)) (old_length + 1) new_length rw user
  end.

Fixpoint shrink_pages (n : nat) (p : option Z) (cur : Z) : PG unit :=
  match n with
  | O => mret tt
  | S n =>
      let* e := used_entry p cur in
      let* ' (table, v) := need e "table && table->value" in
      (if negb (e_present v) && (e_avail v =? PAGING_AVAIL_NOTPRESENT_ON_ACCESS_CREATE) then store table 0
       else
         page_in v ;;
         let* v := load table in
         store table 0 ;;
         physMemReleasePage (e_frame v) ;;
         mret tt) ;;
      shrink_pages n p (u32 (cur + PAGE_SIZE))
  end.

Definition pagingReAllocatePhysMem (p : option Z) (addr old_length new_length : Z) (rw user : bool) : PG Z :=
  if old_length <? new_length then
    let* addr := (if addr =? 0 then pagingSearchArea p new_length else mret addr) in
    grow_pages (Z.to_nat (new_length - old_length)) p addr
      (u32 (addr + u32 (Z.shiftl old_length PAGE_BITS))) old_length new_length rw user
  else
    shrink_pages (Z.to_nat (old_length - new_length)) p (u32 (addr + u32 (Z.shiftl new_length PAGE_BITS))) ;;
    mret (if new_length =? 0 then 0 else addr).

(** *** Physical pages and sharing *)

Definition pagingGetPhysMem (p : option Z) (addr : Z) : PG Z := get_phys_mem (__getPagingEntry p) addr.

(** The three places that duplicate a page that is written for the first time. *)
Definition duplicate_page (table : Z) : PG unit :=
  let* v := load table in
  store table (set_avail 0 (set_rw true v)) ;;
  let* last := physMemIsLastRef (e_frame v) in
  when (negb last)
    (let old_index := e_frame v in
     let* frame := physMemAllocPage false in
     let* v := load table in
     store table (set_frame frame v) ;;
     let* frame := physMemAddRefPage EXTRA_FUEL frame in
     let* destination := __pagingMapPhysMem None frame 0 true false in
     let* old := physMemAddRefPage EXTRA_FUEL old_index in
     let* source := __pagingMapPhysMem None old 0 true false in
     copy_page destination source ;;
     pagingReleasePhysMem None destination 1 ;;
     pagingReleasePhysMem None source 1 ;;
     physMemReleasePage old_index ;;
     mret tt).

(** The copy of an entry with other permissions, which is one more reference to its page. *)
Definition share_entry (src dst : Z) (rw user : bool) : PG unit :=
  let* v := load src in
  store dst (set_user user (set_rw rw v)) ;;
  physMemAddRefPage EXTRA_FUEL (e_frame v) ;;
  mret tt.

Fixpoint map_remote (length : nat) (dst_p src_p : option Z) (dst_cur src_cur : Z) (rw user : bool) : PG unit :=
  match length with
  | O => mret tt
  | S length =>
      let* e := used_entry src_p src_cur in
      let* ' (src, v) := need e "src && src->value" in
      let* dst := get_entry_alloc dst_p dst_cur in
      let* d := load dst in
      assert (__isReserved d) "__isReserved(dst)" ;;
      page_in v ;;
      let* v := load src in
      when (rw && negb (e_rw v) && (e_avail v =? PAGING_AVAIL_PRESENT_ON_WRITE_DUPLICATE)) (duplicate_page src) ;;
      share_entry src dst rw user ;;
      map_remote length dst_p src_p (u32 (dst_cur + PAGE_SIZE)) (u32 (src_cur + PAGE_SIZE)) rw user
  end.

Definition pagingMapRemoteMemory (dst_p src_p : option Z) (dst_addr src_addr length : Z) (rw user : bool) : PG Z :=
  let* dst_addr := (if dst_addr =? 0 then pagingSearchArea dst_p length else mret dst_addr) in
  if Z.shiftr dst_addr 12 =? 0 then mret 0
  else
    pagingReserveArea dst_p dst_addr length user ;;
    map_remote (Z.to_nat length) dst_p src_p dst_addr src_addr rw user ;;
    mret (Z.lor dst_addr (Z.land src_addr PAGE_MASK)).

(** *** Memory of a process in the kernel *)

(** [None]: the memory of the process is not accessible; the offset of the
    page where it failed, which is unmapped up to the end with the others. *)
Fixpoint map_user (length : nat) (src_p : option Z) (dst_cur src_cur : Z) (rw : bool) : PG (option (Z * nat)) :=
  match length with
  | O => mret None
  | S n =>
      let* e := used_entry src_p src_cur in
      match e with
      | None => mret (Some (dst_cur, length))
      | Some (src, v) =>
          if negb (e_user v) then mret (Some (dst_cur, length))
          else
            let* dst := get_entry_alloc None dst_cur in
            let* d := load dst in
            assert (__isReserved d) "__isReserved(dst)" ;;
            if negb (e_present v) && (e_avail v =? PAGING_AVAIL_NOTPRESENT_RESERVED) then mret (Some (dst_cur, length))
            else
              page_in v ;;
              let* v := load src in
              if rw && negb (e_rw v) && negb (e_avail v =? PAGING_AVAIL_PRESENT_ON_WRITE_DUPLICATE)
              then mret (Some (dst_cur, length))
              else
                when (rw && negb (e_rw v)) (duplicate_page src) ;;
                share_entry src dst rw false ;;
                map_user n src_p (u32 (dst_cur + PAGE_SIZE)) (u32 (src_cur + PAGE_SIZE)) rw
      end
  end.

Definition pagingTryMapUserMem (src_p : option Z) (src_addr length : Z) (rw : bool) : PG Z :=
  let* dst_addr := pagingSearchArea None length in
  pagingReserveArea None dst_addr length false ;;
  let* failed := map_user (Z.to_nat length) src_p dst_addr src_addr rw in
  match failed with
  | None => mret (Z.lor dst_addr (Z.land src_addr PAGE_MASK))
  | Some (dst_cur, length) =>
      pagingReleasePhysMem None dst_addr (u32 (Z.shiftr (u32 (dst_cur - dst_addr)) PAGE_BITS + Z.of_nat length)) ;;
      mret 0
  end.

(** [struct userMemory] and the macros around it. *)
Record userMemory := UserMemory { um_addr : Z; um_length : Z }.

Definition ACCESS_USER_MEMORY (p : option Z) (src_addr byte_length : Z) (rw : bool) : PG (bool * userMemory) :=
  if byte_length =? 0 then mret (true, UserMemory 0 0)
  else
    let length := Z.shiftr (u32 (Z.land src_addr PAGE_MASK + byte_length + PAGE_MASK)) PAGE_BITS in
    let* addr := pagingTryMapUserMem p src_addr length rw in
    mret (negb (addr =? 0), UserMemory addr length).

Definition ACCESS_USER_MEMORY_STRUCT (p : option Z) (src_addr count struct_length : Z) (rw : bool) : PG (option (bool * userMemory)) :=
  let byte_length := u64 (count * struct_length) in
  if negb (Z.shiftr byte_length 32 =? 0) then mret None
  else let* r := ACCESS_USER_MEMORY p src_addr byte_length rw in mret (Some r).

Definition RELEASE_USER_MEMORY (k : userMemory) : PG unit :=
  when (negb (um_addr k =? 0)) (pagingReleasePhysMem None (um_addr k) (um_length k)).

(** *** Page faults *)

Definition INTERRUPT_UNHANDLED := 0.
Definition INTERRUPT_CONTINUE_EXECUTION := 1.

(** [p] is the process of the interrupted thread, [cr2] the address of the fault. *)
Definition interrupt_0x0E (error : Z) (p : option Z) (cr2 : Z) : PG Z :=
  let user := Z.testbit error 2 in
  let write := Z.testbit error 1 in
  assert (eqb (bool_decide (p ≠ None)) user) "(p != NULL) == user" ;;
  let* e := used_entry p cr2 in
  match e with
  | None => mret INTERRUPT_UNHANDLED
  | Some (table, v) =>
      if negb (e_user v) && user then mret INTERRUPT_UNHANDLED
      else if negb (e_present v) && (e_avail v =? PAGING_AVAIL_NOTPRESENT_RESERVED) then mret INTERRUPT_UNHANDLED
      else
        page_in v ;;
        let* v := load table in
        if negb (e_rw v) && write then
          if negb (e_avail v =? PAGING_AVAIL_PRESENT_ON_WRITE_DUPLICATE) then mret INTERRUPT_UNHANDLED
          else duplicate_page table ;; mret INTERRUPT_CONTINUE_EXECUTION
        else mret INTERRUPT_CONTINUE_EXECUTION
  end.

(** *** The page tables of a process *)

(** The loop over all pages [i] from [i] on: [body] gets the page and its entry
    if it is in use, and missing tables are skipped. *)
Fixpoint scan_tables (fuel : nat) (p : option Z) (i : Z) (body : Z → Z → Z → PG unit) : PG unit :=
  match fuel with
  | O => no_fuel
  | S fuel =>
      if i <? PAGETABLE_COUNT * PAGETABLE_COUNT then
        let* t := __getPagingEntry p (Z.shiftl i PAGE_BITS) false in
        let* e := is_entry t in
        match e with
        | None => scan_tables fuel p (Z.lor i PAGETABLE_MASK + 1) body
        | Some (table, v) =>
            when (negb (v =? 0)) (body i table v) ;;
            scan_tables fuel p (i + 1) body
        end
      else mret tt
  end.

Definition all_pages (p : option Z) (body : Z → Z → Z → PG unit) : PG unit :=
  scan_tables (S (Z.to_nat (PAGETABLE_COUNT * PAGETABLE_COUNT))) p 0 body.

Definition assert_paging : PG unit := let* s := get in assert (pagingEnabled s) "pagingEnabled".

Definition new_directory (p : Z) : PG unit :=
  let* dir := pagingAllocatePhysMem None 1 true false in
  clear_page dir ;;
  modify (set_proc p (PgProcess dir (replicate 1024 0))).

Definition pagingAllocProcessPageTable (p : Z) : PG unit :=
  assert_paging ;;
  let* q := get_proc p in
  assert (pageDirectory q =? 0) "p->pageDirectory == NULL" ;;
  new_directory p.

(** One page of the parent: an entry that is not present ends in the assertion
    on [present]. *)
Definition fork_page (destination i src v : Z) : PG unit :=
  let* dst := get_entry_alloc (Some destination) (Z.shiftl i PAGE_BITS) in
  let* d := load dst in
  assert (d =? 0) "!dst->value" ;;
  when (negb (e_present v))
    ((if (e_avail v =? PAGING_AVAIL_NOTPRESENT_RESERVED) || (e_avail v =? PAGING_AVAIL_NOTPRESENT_ON_ACCESS_CREATE)
      then store dst v
      else if e_avail v =? PAGING_AVAIL_NOTPRESENT_OUTPAGED then physMemPageIn (e_frame v) ;; mret tt
      else panic "assert(0)") ;;
     panic "src->present") ;;
  let share v := store dst v ;; physMemAddRefPage EXTRA_FUEL (e_frame v) ;; mret tt in
  if e_avail v =? 0 then
    let v' := if e_rw v then set_avail PAGING_AVAIL_PRESENT_ON_WRITE_DUPLICATE (set_rw false v) else v in
    store src v' ;; share v'
  else if (e_avail v =? PAGING_AVAIL_PRESENT_SHARED) || (e_avail v =? PAGING_AVAIL_PRESENT_ON_WRITE_DUPLICATE) then
    share v
  else if e_avail v =? PAGING_AVAIL_PRESENT_NO_FORK then mret tt
  else panic "assert(0)".

Definition pagingForkProcessPageTable (destination source : Z) : PG unit :=
  assert_paging ;;
  let* q := get_proc source in
  assert (negb (pageDirectory q =? 0)) "source->pageDirectory != NULL" ;;
  let* q := get_proc destination in
  assert (pageDirectory q =? 0) "destination->pageDirectory == NULL" ;;
  new_directory destination ;;
  all_pages (Some source) (fork_page destination).

Definition free_page (i table v : Z) : PG unit :=
  if negb (e_present v) &&
     ((e_avail v =? PAGING_AVAIL_NOTPRESENT_RESERVED) || (e_avail v =? PAGING_AVAIL_NOTPRESENT_ON_ACCESS_CREATE))
  then mret tt
  else
    page_in v ;;
    let* v := load table in
    store table 0 ;;
    physMemReleasePage (e_frame v) ;;
    mret tt.

Definition free_table (p i : Z) : PG unit :=
  let* q := get_proc p in
  let* t := deref (nthZ (pageTables q) i) "pageTables: out of the array" in
  when (negb (t =? 0))
    (pagingReleasePhysMem None t 1 ;;
     let* q := get_proc p in
     modify (set_proc p (PgProcess (pageDirectory q) (setZ (pageTables q) i 0)))) ;;
  let* q := get_proc p in
  let dir := u32 (pageDirectory q + 4 * i) in
  let* v := load dir in
  when (negb (v =? 0))
    (page_in v ;;
     store dir 0 ;;
     physMemReleasePage (e_frame v) ;;
     mret tt).

Definition pagingReleaseProcessPageTable (p : Z) : PG unit :=
  assert_paging ;;
  let* q := get_proc p in
  assert (negb (pageDirectory q =? 0)) "p->pageDirectory" ;;
  all_pages (Some p) free_page ;;
  for_loop 1024 0 (free_table p) ;;
  let* q := get_proc p in
  pagingReleasePhysMem None (pageDirectory q) 1 ;;
  let* q := get_proc p in
  modify (set_proc p (PgProcess 0 (pageTables q))).

(** [pagesPhysical], [pagesShared], [pagesNoFork], [pagesReserved], [pagesOutpaged] *)
Record pageCounts := PageCounts {
  pagesPhysical : Z; pagesShared : Z; pagesNoFork : Z; pagesReserved : Z; pagesOutpaged : Z;
}.

(** The count of one entry; [None]: a failed assertion. *)
Definition count_page (v : Z) (c : pageCounts) : option pageCounts :=
  let '(PageCounts a b n r o) := c in
  if e_present v then
    Some (if e_avail v =? 0 then PageCounts (u32 (a + 1)) b n r o
          else if (e_avail v =? PAGING_AVAIL_PRESENT_SHARED) || (e_avail v =? PAGING_AVAIL_PRESENT_ON_WRITE_DUPLICATE)
          then PageCounts a (u32 (b + 1)) n r o
          else if e_avail v =? PAGING_AVAIL_PRESENT_NO_FORK then PageCounts a b (u32 (n + 1)) r o
          else c)
  else if (e_avail v =? PAGING_AVAIL_NOTPRESENT_RESERVED) || (e_avail v =? PAGING_AVAIL_NOTPRESENT_ON_ACCESS_CREATE)
  then Some (PageCounts a b n (u32 (r + 1)) o)
  else if e_avail v =? PAGING_AVAIL_NOTPRESENT_OUTPAGED then Some (PageCounts a b n r (u32 (o + 1)))
  else None.

Fixpoint count_tables (fuel : nat) (p : option Z) (i : Z) (c : pageCounts) : PG pageCounts :=
  match fuel with
  | O => no_fuel
  | S fuel =>
      if i <? PAGETABLE_COUNT * PAGETABLE_COUNT then
        let* t := __getPagingEntry p (Z.shiftl i PAGE_BITS) false in
        let* e := is_entry t in
        match e with
        | None => count_tables fuel p (Z.lor i PAGETABLE_MASK + 1) c
        | Some (_, v) =>
            if v =? 0 then count_tables fuel p (i + 1) c
            else let* c := need (count_page v c) "assert(0)" in count_tables fuel p (i + 1) c
        end
      else mret c
  end.

Definition pagingFillProcessInfo (p : option Z) : PG pageCounts :=
  assert_paging ;;
  let* (none : bool) :=
    (match p with
     | Some p => let* q := get_proc p in mret (pageDirectory q =? 0)
     | None => mret false
     end) in
  let zero := PageCounts 0 0 0 0 0 in
  if none then mret zero
  else count_tables (S (Z.to_nat (PAGETABLE_COUNT * PAGETABLE_COUNT))) p 0 zero.

(** ** Initialization *)

Definition boot_pages (b : bootMap) : list (Z * Z) := (λ e, (startIndex e, length_ e)) <$> pagingBootMap b.

(** [for (i...) for (index = start; index < start + length; index++) body(index);] *)
Fixpoint for_boot_pages (rs : list (Z * Z)) (body : Z → PG unit) : PG unit :=
  match rs with
  | [] => mret tt
  | (start, length) :: rs => for_loop (Z.to_nat (u32 (start + length) - start)) start body ;; for_boot_pages rs body
  end.

Definition pagingInit : PG unit :=
  let* s := get in
  assert (negb (pagingInitialized (boot s))) "!pagingInitialized" ;;
  let* low := zoom boot set_boot (__pagingBootMapCheck 0 1) in
  assert (negb low) "!__pagingBootMapCheck(0, 1)" ;;
  let* high := zoom boot set_boot (__pagingBootMapCheck (Z.shiftr KERNEL_PAGE_ADDR PAGE_BITS) (PAGE_COUNT - 1)) in
  assert (negb high) "!__pagingBootMapCheck(KERNEL_PAGE_ADDR >> PAGE_BITS, PAGE_COUNT - 1)" ;;
  let* pageDirectoryIndex := physMemAllocPage false in
  let dir := u32 (Z.shiftl pageDirectoryIndex PAGE_BITS) in
  clear_page dir ;;
  store (u32 (dir + 4 * KERNEL_DIR_ENTRY)) (new_entry true true false 0 pageDirectoryIndex) ;;
  modify (set_cr3 dir) ;;
  for_boot_pages (boot_pages (boot s)) (λ index,
    __pagingMapPhysMem None index (u32 (Z.shiftl index PAGE_BITS)) true false ;; mret tt) ;;
  modify (set_paging true) ;;
  for_boot_pages (boot_pages (boot s)) (λ index, physMemMarkUnpageable EXTRA_FUEL index ;; mret tt) ;;
  modify (λ s, set_boot (BootMap (pagingBootMap (boot s)) true) s).

(** ** The page tables on the screen *)

Definition show_page (i frame : Z) : M (machine * console) unit :=
  zoom snd (λ c s, (s.1, c))
    (consoleWriteHex32 (u32 (Z.shiftl i PAGE_BITS)) ;; text " -> " ;;
     consoleWriteHex32 (u32 (Z.shiftl frame PAGE_BITS)) ;; text ", ").

Fixpoint dump_tables (fuel : nat) (p : option Z) (i : Z) : M (machine * console) unit :=
  match fuel with
  | O => no_fuel
  | S fuel =>
      if i <? PAGETABLE_COUNT * PAGETABLE_COUNT then
        let* e := zoom fst (λ m s, (m, s.2)) (let* t := __getPagingEntry p (Z.shiftl i PAGE_BITS) false in is_entry t) in
        match e with
        | None => dump_tables fuel p (Z.lor i PAGETABLE_MASK + 1)
        | Some (_, v) =>
            when (negb (v =? 0)) (assert (e_present v) "table->present" ;; show_page i (e_frame v)) ;;
            dump_tables fuel p (i + 1)
        end
      else mret tt
  end.

Definition pagingDumpPageTable (p : option Z) : M (machine * console) unit :=
  zoom snd (λ c s, (s.1, c)) (text "PAGE TABLE MAP:" ;; consoleWriteString (nl 2)) ;;
  dump_tables (S (Z.to_nat (PAGETABLE_COUNT * PAGETABLE_COUNT))) p 0.
