(* ===== verification/PagingProofs.v ===== *)
(** * The address space of the kernel

    The page directory of the kernel maps itself, so that its entries and those
    of its page tables have addresses. From this follow what looking up,
    mapping, searching, allocating and releasing pages of the kernel do to the
    translation of addresses. *)

From S2P Require Import Prelude Util BootMap Console PhysMem PhysMemProofs PhysMemRefs Paging.
Open Scope Z_scope.

(** ** Entries *)

Lemma testbit_as_mod v k : 0 ≤ k → Z.testbit v k = ((v / 2 ^ k) mod 2 =? 1).
Proof. intros. rewrite Z.testbit_eqb by done. done. Qed.

Section NewEntry.
Context (present rw user : bool) (avail frame : Z) (Ha : 0 ≤ avail < 8) (Hf : 0 ≤ frame < PAGE_COUNT).

Lemma new_entry_eq :
  new_entry present rw user avail frame = Z.b2z present + 2 * Z.b2z rw + 4 * Z.b2z user + 512 * avail + 4096 * frame.
Proof.
  unfold new_entry. rewrite (land_low avail 3), (land_low frame 20) by done.
  rewrite !Z.mod_small by (unfold PAGE_COUNT in *; lia). done.
Qed.

Lemma e_present_new : e_present (new_entry present rw user avail frame) = present.
Proof.
  unfold e_present. rewrite new_entry_eq, testbit_as_mod by done. change (2 ^ 0) with 1. rewrite Z.div_1_r.
  destruct present; simpl; [apply Z.eqb_eq|apply Z.eqb_neq]; Z.to_euclidean_division_equations; lia.
Qed.

Lemma e_rw_new : e_rw (new_entry present rw user avail frame) = rw.
Proof.
  unfold e_rw. rewrite new_entry_eq, testbit_as_mod by done. change (2 ^ 1) with 2.
  destruct present, rw; simpl; [apply Z.eqb_eq|apply Z.eqb_neq|apply Z.eqb_eq|apply Z.eqb_neq];
    Z.to_euclidean_division_equations; lia.
Qed.

Lemma e_user_new : e_user (new_entry present rw user avail frame) = user.
Proof.
  unfold e_user. rewrite new_entry_eq, testbit_as_mod by done. change (2 ^ 2) with 4.
  destruct present, rw, user; simpl; [apply Z.eqb_eq|apply Z.eqb_neq|apply Z.eqb_eq|apply Z.eqb_neq|
    apply Z.eqb_eq|apply Z.eqb_neq|apply Z.eqb_eq|apply Z.eqb_neq]; Z.to_euclidean_division_equations; lia.
Qed.

Lemma e_avail_new : e_avail (new_entry present rw user avail frame) = avail.
Proof.
  unfold e_avail. rewrite (land_low _ 3), Z.shiftr_div_pow2, new_entry_eq by done.
  destruct present, rw, user; simpl; Z.to_euclidean_division_equations; lia.
Qed.

Lemma e_frame_new : e_frame (new_entry present rw user avail frame) = frame.
Proof.
  unfold e_frame. rewrite (land_low _ 20), Z.shiftr_div_pow2, new_entry_eq by done. unfold PAGE_COUNT in *.
  destruct present, rw, user; simpl; Z.to_euclidean_division_equations; lia.
Qed.

Lemma new_entry_nonzero : present = true ∨ avail ≠ 0 → new_entry present rw user avail frame ≠ 0.
Proof. rewrite new_entry_eq. destruct present, rw, user; simpl; intros [?|?]; (done || lia). Qed.
End NewEntry.

Lemma e_frame_range v : 0 ≤ e_frame v < PAGE_COUNT.
Proof. unfold e_frame. rewrite (land_low _ 20) by done. by apply Z.mod_pos_bound. Qed.

Lemma zero_not_present v : v = 0 → e_present v = false.
Proof. by intros ->. Qed.

(** ** The directory that maps itself *)

Definition dir_frame (s : machine) : Z := e_frame (cr3 (rest s)).
Definition pde (s : machine) (i : Z) : Z := word s (dir_frame s * 1024 + i).

(** The entry of page [n], 0 if there is no table for it. *)
Definition pte (s : machine) (n : Z) : Z :=
  if pde s (n / 1024) =? 0 then 0 else word s (e_frame (pde s (n / 1024)) * 1024 + n mod 1024).

Definition KERNEL_PAGES := 1047552.  (* KERNEL_DIR_ENTRY * PAGETABLE_COUNT *)

Record kernel_ok (s : machine) : Prop := {
  ko_paging : pagingEnabled s = true;
  ko_map : map_ok (physMemMap s);
  ko_self : e_present (pde s 1023) = true ∧ e_frame (pde s 1023) = dir_frame s;
  ko_dir i : 0 ≤ i < 1024 → pde s i ≠ 0 →
    e_present (pde s i) = true ∧ e_avail (pde s i) = 0 ∧ reserved (physMemMap s) (e_frame (pde s i)) = true;
  ko_inj i j : 0 ≤ i < 1024 → 0 ≤ j < 1024 → pde s i ≠ 0 → pde s j ≠ 0 → e_frame (pde s i) = e_frame (pde s j) → i = j;
}.

(** The address of the entry of page [n]. *)
Definition entry_addr (n : Z) : Z := 0xFFC00000 + 4 * n.

Lemma self_nonzero s : kernel_ok s → pde s 1023 ≠ 0.
Proof. intros Hk E. destruct (ko_self _ Hk) as [Hp _]. by rewrite E in Hp. Qed.

Lemma shiftr_div a n k : k = 2 ^ n → 0 ≤ n → Z.shiftr a n = a / k.
Proof. intros ->. apply Z.shiftr_div_pow2. Qed.

(** An address in the last 4 MB is translated through the directory twice. *)
Lemma translate_last s i x :
  kernel_ok s → 0 ≤ i < 1024 → 0 ≤ x < 4096 → pde s i ≠ 0 →
  translate s (0xFFC00000 + 4096 * i + x) = Some (e_frame (pde s i) * 4096 + x).
Proof.
  intros Hk Hi Hx Hnz. unfold translate, walk. rewrite (ko_paging _ Hk). fold (dir_frame s).
  set (va := 0xFFC00000 + 4096 * i + x).
  rewrite (shiftr_div va 22 4194304), (shiftr_div va 12 4096) by done.
  unfold PAGETABLE_MASK, PAGE_MASK, PAGE_SIZE. rewrite (land_low _ 10), (land_low _ 12) by done.
  assert (va / 4194304 = 1023 ∧ (va / 4096) mod 2 ^ 10 = i ∧ va mod 2 ^ 12 = x) as (-> & -> & ->).
  { subst va. Z.to_euclidean_division_equations. lia. }
  fold (pde s 1023). destruct (ko_self _ Hk) as [-> ->]. fold (pde s i).
  destruct (ko_dir _ Hk i Hi Hnz) as (-> & _). done.
Qed.

Lemma entry_addr_split n : 0 ≤ n → entry_addr n = 0xFFC00000 + 4096 * (n / 1024) + 4 * (n mod 1024).
Proof. intros. unfold entry_addr. pose proof (Z.div_mod n 1024). lia. Qed.

Section Access.
Context (s : machine) (Hk : kernel_ok s) (n : Z) (Hn : 0 ≤ n < PAGE_COUNT) (Hnz : pde s (n / 1024) ≠ 0).

Let cell := e_frame (pde s (n / 1024)) * 1024 + n mod 1024.

Lemma translate_entry : translate s (entry_addr n) = Some (4 * cell).
Proof.
  pose proof (Z.mod_pos_bound n 1024). rewrite entry_addr_split by lia. unfold PAGE_COUNT in *.
  rewrite translate_last; [f_equal; subst cell; lia|done| |lia|done].
  split; [apply Z.div_pos; lia|apply Z.div_lt_upper_bound; lia].
Qed.

Lemma wp_load_entry Q : Q (pte s n) s → wp (load (entry_addr n)) s Q.
Proof.
  intros HQ. unfold load. wp_steps. eapply wp_deref; [apply translate_entry|].
  assert ((4 * cell) mod 4 = 0) as -> by (rewrite Z.mul_comm; by apply Z.mod_mul).
  assert (4 * cell / 4 = cell) as -> by (rewrite Z.mul_comm; by apply Z.div_mul). simpl. apply wp_ret.
  unfold pte in HQ. by rewrite (proj2 (Z.eqb_neq _ _)) in HQ.
Qed.

Lemma wp_store_entry v Q : Q tt (set_word cell v s) → wp (store (entry_addr n) v) s Q.
Proof.
  intros HQ. unfold store. wp_steps. eapply wp_deref; [apply translate_entry|].
  assert ((4 * cell) mod 4 = 0) as -> by (rewrite Z.mul_comm; by apply Z.mod_mul).
  assert (4 * cell / 4 = cell) as -> by (rewrite Z.mul_comm; by apply Z.div_mul). simpl. by apply wp_put.
Qed.
End Access.

(** The entries of the directory are those of the last 1024 pages. *)
Lemma dir_addr i : 0 ≤ i < 1024 → u32 (KERNEL_DIR_ADDR + 4 * i) = entry_addr (1047552 + i).
Proof.
  intros. change KERNEL_DIR_ADDR with 0xFFFFF000. rewrite u32_small by (unfold is_u32; lia).
  unfold entry_addr. lia.
Qed.

Lemma last_index i : 0 ≤ i < 1024 → (1047552 + i) / 1024 = 1023 ∧ (1047552 + i) mod 1024 = i.
Proof. intros. Z.to_euclidean_division_equations. lia. Qed.

Lemma wp_load_dir s i Q : kernel_ok s → 0 ≤ i < 1024 → Q (pde s i) s → wp (load (u32 (KERNEL_DIR_ADDR + 4 * i))) s Q.
Proof.
  intros Hk Hi HQ. rewrite dir_addr by done. destruct (last_index i Hi) as [Hd Hm].
  apply wp_load_entry; [done|unfold PAGE_COUNT; lia|rewrite Hd; by apply self_nonzero|].
  unfold pte. rewrite Hd, Hm, (proj2 (Z.eqb_neq _ _)) by by apply self_nonzero.
  by destruct (ko_self _ Hk) as [_ ->].
Qed.

Lemma wp_store_dir s i v Q : kernel_ok s → 0 ≤ i < 1024 →
  Q tt (set_word (dir_frame s * 1024 + i) v s) → wp (store (u32 (KERNEL_DIR_ADDR + 4 * i)) v) s Q.
Proof.
  intros Hk Hi HQ. rewrite dir_addr by done. destruct (last_index i Hi) as [Hd Hm].
  apply wp_store_entry; [done|unfold PAGE_COUNT; lia|rewrite Hd; by apply self_nonzero|].
  rewrite Hd, Hm. by destruct (ko_self _ Hk) as [_ ->].
Qed.

(** ** How the kernel's memory evolves *)

(** The frames that hold the directory and its tables. *)
Definition table (s : machine) (f : Z) : Prop := ∃ i, 0 ≤ i < 1024 ∧ pde s i ≠ 0 ∧ e_frame (pde s i) = f.

(** [s'] is reached from [s] by changing entries of page tables and taking the
    pages [ks]: memory that was in use and is not a table keeps its contents. *)
Record evolves (ks : list Z) (s s' : machine) : Prop := {
  ev_ok : kernel_ok s';
  ev_free : free_pages (physMemMap s) = (free_pages (physMemMap s') + length ks)%nat;
  ev_new i : reserved (physMemMap s') i = true → reserved (physMemMap s) i = true ∨ i ∈ ks;
  ev_reserved i : reserved (physMemMap s) i = true → reserved (physMemMap s') i = true;
  ev_extra : physMemExtra s' = physMemExtra s;
  ev_boot : boot s' = boot s;
  ev_procs : procs (rest s') = procs (rest s);
  ev_dir : dir_frame s' = dir_frame s;
  ev_tables f : table s' f → table s f ∨ reserved (physMemMap s) f = false;
  ev_keep f : table s f → table s' f;
  ev_words a : reserved (physMemMap s) (a / 1024) = true → ¬ table s (a / 1024) → word s' a = word s a;
}.

Lemma evolves_refl s : kernel_ok s → evolves [] s s.
Proof. intros. split; (done || (simpl; lia) || tauto). Qed.

Lemma table_reserved s f : kernel_ok s → table s f → reserved (physMemMap s) f = true.
Proof. intros Hk (i & Hi & Hnz & <-). by apply (ko_dir _ Hk). Qed.

Lemma evolves_trans k1 k2 s s1 s2 : evolves k1 s s1 → evolves k2 s1 s2 → evolves (k1 ++ k2) s s2.
Proof.
  intros A B. split.
  - apply B.
  - rewrite (ev_free _ _ _ A), (ev_free _ _ _ B), length_app. lia.
  - intros i [[?|?]%(ev_new _ _ _ A)|?]%(ev_new _ _ _ B); set_solver.
  - intros i Hi. by apply (ev_reserved _ _ _ B), (ev_reserved _ _ _ A).
  - by rewrite (ev_extra _ _ _ B), (ev_extra _ _ _ A).
  - by rewrite (ev_boot _ _ _ B), (ev_boot _ _ _ A).
  - by rewrite (ev_procs _ _ _ B), (ev_procs _ _ _ A).
  - by rewrite (ev_dir _ _ _ B), (ev_dir _ _ _ A).
  - intros f [Hf|Hf]%(ev_tables _ _ _ B); [by apply (ev_tables _ _ _ A)|]. right.
    destruct (reserved (physMemMap s) f) eqn:E; [|done]. by rewrite (ev_reserved _ _ _ A _ E) in Hf.
  - intros f Hf. by apply (ev_keep _ _ _ B), (ev_keep _ _ _ A).
  - intros a Hr Ht. rewrite (ev_words _ _ _ B), (ev_words _ _ _ A); [done|done|done| |].
    + by apply (ev_reserved _ _ _ A).
    + intros [?|?]%(ev_tables _ _ _ A); congruence.
Qed.

Lemma word_set s a v b : word (set_word a v s) b = if decide (b = a) then v else word s b.
Proof.
  unfold word, set_word. simpl. case_decide as E; [by subst; rewrite lookup_insert_eq|by rewrite lookup_insert_ne].
Qed.

Lemma cell_inj F G x y : 0 ≤ x < 1024 → 0 ≤ y < 1024 → F * 1024 + x = G * 1024 + y → F = G ∧ x = y.
Proof. lia. Qed.

Lemma cell_frame F x : 0 ≤ x < 1024 → (F * 1024 + x) / 1024 = F.
Proof. intros. rewrite Z.div_add_l by lia. by rewrite Z.div_small, Z.add_0_r by lia. Qed.

Lemma page_bounds n : 0 ≤ n < PAGE_COUNT → 0 ≤ n / 1024 < 1024 ∧ 0 ≤ n mod 1024 < 1024.
Proof.
  intros. unfold PAGE_COUNT in *. split; [|by apply Z.mod_pos_bound].
  split; [apply Z.div_pos; lia|apply Z.div_lt_upper_bound; lia].
Qed.

Lemma page_bounds' n : 0 ≤ n < KERNEL_PAGES → 0 ≤ n < PAGE_COUNT ∧ 0 ≤ n / 1024 < 1023 ∧ 0 ≤ n mod 1024 < 1024.
Proof.
  intros. unfold PAGE_COUNT, KERNEL_PAGES in *. split; [lia|]. split; [|by apply Z.mod_pos_bound].
  split; [apply Z.div_pos; lia|apply Z.div_lt_upper_bound; lia].
Qed.

(** Changing words of one table that is not the directory. *)
Lemma change_table s s' t :
  kernel_ok s → 0 ≤ t < 1023 → pde s t ≠ 0 →
  physMemMap s' = physMemMap s → physMemExtra s' = physMemExtra s → boot s' = boot s → pagingEnabled s' = pagingEnabled s →
  procs (rest s') = procs (rest s) → cr3 (rest s') = cr3 (rest s) →
  (∀ a, a / 1024 ≠ e_frame (pde s t) → word s' a = word s a) →
  evolves [] s s' ∧ ∀ i, 0 ≤ i < 1024 → pde s' i = pde s i.
Proof.
  intros Hk Ht Hnz Em Ee Eb Ep Epr Ec Hw.
  assert (dir_frame s' = dir_frame s) as Ed by (unfold dir_frame; by rewrite Ec).
  assert (∀ i, 0 ≤ i < 1024 → pde s' i = pde s i) as Hpde.
  { intros i Hi. unfold pde. rewrite Ed. apply Hw. rewrite cell_frame by done. intros E.
    destruct (ko_self _ Hk) as [_ E']. rewrite <-E' in E.
    pose proof (ko_inj _ Hk 1023 t ltac:(lia) ltac:(lia) (self_nonzero _ Hk) Hnz E). lia. }
  assert (∀ f, table s' f ↔ table s f) as Htab.
  { intros f. unfold table. split; intros (i & Hi & ? & ?); exists i; rewrite Hpde in * by done; done. }
  split; [|done]. split; try done.
  - split.
    + by rewrite Ep; apply Hk.
    + by rewrite Em; apply Hk.
    + rewrite Hpde, Ed by lia. apply Hk.
    + intros i Hi. rewrite Hpde, Em by done. by apply Hk.
    + intros i j Hi Hj. rewrite !Hpde by done. by apply Hk.
  - rewrite Em. simpl. lia.
  - rewrite Em. by left.
  - by rewrite Em.
  - intros f Hf. left. by apply Htab.
  - intros f Hf. by apply Htab.
  - intros a Hr Hnt. apply Hw. intros E. apply Hnt. exists t. split_and!; (done || lia).
Qed.

(** Changing the entry of one page. *)
Lemma set_pte s n v :
  kernel_ok s → 0 ≤ n < KERNEL_PAGES → pde s (n / 1024) ≠ 0 →
  let s' := set_word (e_frame (pde s (n / 1024)) * 1024 + n mod 1024) v s in
  evolves [] s s' ∧ ∀ m, 0 ≤ m < KERNEL_PAGES → pte s' m = if decide (m = n) then v else pte s m.
Proof.
  intros Hk Hn Hnz s'. destruct (page_bounds' n Hn) as (_ & Ht & Hx).
  destruct (change_table s s' (n / 1024)) as [Hev Hpde]; try done.
  { intros a Ha. subst s'. rewrite word_set. case_decide; [|done]. subst. by rewrite cell_frame in Ha. }
  split; [done|]. intros m Hm. destruct (page_bounds' m Hm) as (_ & Htm & Hxm).
  unfold pte. rewrite Hpde by lia. subst s'. rewrite word_set.
  destruct (decide (m = n)) as [->|Hne].
  - rewrite decide_True by done. by rewrite (proj2 (Z.eqb_neq _ _)).
  - destruct (Z.eqb_spec (pde s (m / 1024)) 0); [done|]. rewrite decide_False; [done|].
    intros [E1 E2]%cell_inj; [|done|done]. apply Hne.
    apply (ko_inj _ Hk) in E1; [|lia|lia|done|done].
    rewrite (Z.div_mod m 1024), (Z.div_mod n 1024) by lia. lia.
Qed.

(** ** A new page table *)

(** Only the words of frame [f] differ. *)
Definition differs_in (f : Z) (s s' : machine) : Prop :=
  physMemMap s' = physMemMap s ∧ physMemExtra s' = physMemExtra s ∧ boot s' = boot s ∧ pagingEnabled s' = pagingEnabled s ∧
  procs (rest s') = procs (rest s) ∧ cr3 (rest s') = cr3 (rest s) ∧ ∀ a, a / 1024 ≠ f → word s' a = word s a.

Lemma entry_page n : 0 ≤ n < PAGE_COUNT → entry_addr n - entry_addr n mod PAGE_SIZE = entry_addr (1024 * (n / 1024)).
Proof. intros. unfold entry_addr, PAGE_SIZE, PAGE_COUNT in *. Z.to_euclidean_division_equations. lia. Qed.

Lemma wp_clear_table s t (Q : unit → machine → Prop) :
  kernel_ok s → 0 ≤ t < 1023 → pde s t ≠ 0 →
  (∀ s', differs_in (e_frame (pde s t)) s s' → (∀ x, 0 ≤ x < 1024 → word s' (e_frame (pde s t) * 1024 + x) = 0) → Q tt s') →
  wp (clear_page (entry_addr (1024 * t))) s Q.
Proof.
  intros Hk Ht Hnz HQ. set (f := e_frame (pde s t)) in *. unfold clear_page.
  apply (wp_for_loop (λ k s', differs_in f s s' ∧ ∀ x, 0 ≤ x < k → word s' (f * 1024 + x) = 0)).
  - split; [done|]. intros; lia.
  - intros k s1 Hkr [Hd Hz]. pose proof Hd as (Em & Ee & Eb & Ep & Epr & Ec & Hw).
    destruct (change_table s s1 t) as [Hev Hpde]; try done.
    assert ((1024 * t + k) / 1024 = t ∧ (1024 * t + k) mod 1024 = k) as [E1 E2] by (Z.to_euclidean_division_equations; lia).
    replace (entry_addr (1024 * t) + 4 * k) with (entry_addr (1024 * t + k)) by (unfold entry_addr; lia).
    apply wp_store_entry; [apply Hev|unfold PAGE_COUNT; lia|rewrite E1, Hpde by lia; done|].
    rewrite E1, E2, Hpde by lia. fold f. split.
    + split_and!; try done. intros a Ha. rewrite word_set. case_decide; [|by apply Hw].
      subst a. by rewrite cell_frame in Ha by lia.
    + intros x Hx. rewrite word_set. case_decide as E; [done|]. apply Hz. destruct (decide (x = k)); [by subst|lia].
  - intros s' [Hd Hz]. by apply HQ.
Qed.

(** The directory entry of a table in a fresh frame. *)
Lemma fresh_table s t f ws :
  kernel_ok s → 0 ≤ t < 1023 → pde s t = 0 → 0 ≤ f < PAGE_COUNT → reserved (physMemMap s) f = false → map_ok ws →
  (∀ i, reserved ws i = if decide (i = f) then true else reserved (physMemMap s) i) →
  let s' := set_word (dir_frame s * 1024 + t) (new_entry true true true 0 f) (set_map ws s) in
  kernel_ok s' ∧ dir_frame s' = dir_frame s ∧
  ∀ i, 0 ≤ i < 1024 → pde s' i = if decide (i = t) then new_entry true true true 0 f else pde s i.
Proof.
  intros Hk Ht Hz Hf Hfree Hws Hset s'.
  assert (∀ i, 0 ≤ i < 1024 → pde s' i = if decide (i = t) then new_entry true true true 0 f else pde s i) as Hpde.
  { intros i Hi. unfold pde at 1. subst s'. rewrite word_set.
    change (dir_frame (set_word _ _ (set_map ws s))) with (dir_frame s).
    destruct (decide (i = t)) as [->|]; [by rewrite decide_True|]. rewrite decide_False; [done|]. lia. }
  assert (dir_frame s ≠ f) as Hdf.
  { intros E. destruct (ko_self _ Hk) as [_ E']. pose proof (ko_dir _ Hk 1023 ltac:(lia) (self_nonzero _ Hk)) as (_ & _ & Hr).
    rewrite E', E in Hr. congruence. }
  assert (new_entry true true true 0 f ≠ 0) as Hne by (apply new_entry_nonzero; [done..|by left]).
  split_and!; [|done|done]. split.
  - apply Hk.
  - done.
  - rewrite Hpde, decide_False by lia. apply Hk.
  - intros i Hi. rewrite Hpde by done. change (physMemMap s') with ws. rewrite Hset. case_decide as Hit.
    + intros _. by rewrite e_present_new, e_avail_new, e_frame_new, decide_True.
    + intros Hnz. destruct (ko_dir _ Hk i Hi Hnz) as (? & ? & ->). by case_decide.
  - intros i j Hi Hj. rewrite !Hpde by done.
    assert (∀ k, 0 ≤ k < 1024 → pde s k ≠ 0 → e_frame (pde s k) ≠ f) as Hold.
    { intros k Hkr Hnz E. destruct (ko_dir _ Hk k Hkr Hnz) as (_ & _ & Hr). rewrite E in Hr. congruence. }
    destruct (decide (i = t)), (decide (j = t)); subst; rewrite ?e_frame_new by done; intros Hni Hnj E; try done.
    + exfalso. by apply (Hold j).
    + exfalso. by apply (Hold i).
    + by apply (ko_inj _ Hk).
Qed.

Lemma table_after s t f ws s' :
  kernel_ok s → 0 ≤ t < 1023 → pde s t = 0 → 0 ≤ f < PAGE_COUNT → 256 ≤ f → reserved (physMemMap s) f = false → map_ok ws →
  (∀ i, reserved ws i = if decide (i = f) then true else reserved (physMemMap s) i) →
  differs_in f (set_word (dir_frame s * 1024 + t) (new_entry true true true 0 f) (set_map ws s)) s' →
  (∀ x, 0 ≤ x < 1024 → word s' (f * 1024 + x) = 0) →
  evolves [f] s s' ∧ pde s' t ≠ 0 ∧ table s' f ∧ ∀ m, 0 ≤ m < KERNEL_PAGES → pte s' m = pte s m.
Proof.
  intros Hk Ht Hz Hf Hf' Hfree Hws Hset Hd Hzero.
  destruct (fresh_table s t f ws) as (Hk1 & Hd1 & Hpde1); try done. set (s1 := set_word _ _ _) in *.
  assert (pde s1 t ≠ 0 ∧ e_frame (pde s1 t) = f) as [Hnz1 Ef].
  { rewrite Hpde1, decide_True by (done || lia). split; [apply new_entry_nonzero; [done..|by left]|by apply e_frame_new]. }
  destruct Hd as (Em & Ee & Eb & Ep & Epr & Ec & Hw).
  destruct (change_table s1 s' t) as [Hev Hpde]; try done; [by rewrite Ef|].
  assert (∀ g, table s' g → table s g ∨ g = f) as Htab.
  { intros g (i & Hi & Hnz & <-). rewrite Hpde, Hpde1 in * by done. case_decide; [right; by apply e_frame_new|left].
    exists i. done. }
  assert (table s (dir_frame s)) as Htd.
  { exists 1023. split_and!; [lia|lia|by apply self_nonzero|by apply ko_self]. }
  assert (∀ a, reserved (physMemMap s) (a / 1024) = true → a / 1024 ≠ dir_frame s → word s' a = word s a) as Hsame.
  { intros a Hr Ha. rewrite Hw by congruence. subst s1. rewrite word_set, decide_False; [done|].
    intros ->. apply Ha. apply cell_frame. lia. }
  split_and!.
  - split.
    + apply Hev.
    + rewrite (free_pages_take (physMemMap s) ws f) by (done || lia).
      rewrite Em. subst s1. simpl. lia.
    + intros i. rewrite Em. change (physMemMap s1) with ws. rewrite Hset.
      case_decide as E; [right; rewrite E; by left|by left].
    + intros i Hi. rewrite Em. change (physMemMap s1) with ws. rewrite Hset. by case_decide.
    + by rewrite Ee.
    + by rewrite Eb.
    + by rewrite Epr.
    + by rewrite (ev_dir _ _ _ Hev).
    + intros g [?| ->]%Htab; [by left|by right].
    + intros g (i & Hi & Hnz & <-). exists i. rewrite Hpde, Hpde1 by done.
      rewrite decide_False by (intros ->; congruence). done.
    + intros a Hr Hnt. apply Hsame; [done|]. congruence.
  - by rewrite Hpde by lia.
  - exists t. rewrite Hpde by lia. split_and!; (done || lia).
  - intros m Hm. destruct (page_bounds' m Hm) as (_ & Htm & Hxm). unfold pte.
    rewrite Hpde, Hpde1 by lia. destruct (decide (m / 1024 = t)) as [->|Hne].
    + rewrite Hz. simpl. rewrite (proj2 (Z.eqb_neq _ _)) by (apply new_entry_nonzero; [done..|by left]).
      rewrite e_frame_new by done. by apply Hzero.
    + destruct (Z.eqb_spec (pde s (m / 1024)) 0) as [|Hnz]; [done|]. apply Hsame; rewrite cell_frame by done.
      * apply (ko_dir _ Hk); [lia|done].
      * intros E. destruct (ko_self _ Hk) as [_ E']. rewrite <-E' in E.
        pose proof (ko_inj _ Hk (m / 1024) 1023 ltac:(lia) ltac:(lia) Hnz (self_nonzero _ Hk) E). lia.
Qed.

Definition free_memory (s : machine) : nat := free_pages (physMemMap s).

(** Looking up an entry of the kernel: it has an address unless there is no
    table for it, and then a new table is made if that is asked for. *)
Lemma wp_kernel_entry s n va alloc (Q : option Z → machine → Prop) :
  kernel_ok s → 0 ≤ n < KERNEL_PAGES → n * 4096 ≤ va < n * 4096 + 4096 →
  (pde s (n / 1024) ≠ 0 → Q (Some (entry_addr n)) s) →
  (pde s (n / 1024) = 0 → alloc = false → Q None s) →
  (pde s (n / 1024) = 0 → alloc = true → (0 < free_memory s)%nat ∧
     ∀ s' f, evolves [f] s s' → table s' f → pde s' (n / 1024) ≠ 0 → (∀ m, 0 ≤ m < KERNEL_PAGES → pte s' m = pte s m) →
       Q (Some (entry_addr n)) s') →
  wp (kernel_entry va alloc) s Q.
Proof.
  intros Hk Hn Hva Q1 Q2 Q3. destruct (page_bounds' n Hn) as (Hn' & Ht & Hx).
  unfold kernel_entry, paging_entry. wp_step. wp_step. rewrite (ko_paging _ Hk). wp_steps. cbv zeta.
  assert (Z.shiftr va 22 = n / 1024) as ->.
  { rewrite (shiftr_div va 22 4194304) by done. Z.to_euclidean_division_equations. lia. }
  assert (Z.shiftr va 12 = n) as ->.
  { rewrite (shiftr_div va 12 4096) by done. Z.to_euclidean_division_equations. lia. }
  apply wp_load_dir; [done|lia|]. destruct (Z.eqb_spec (pde s (n / 1024)) 0) as [Hz|Hnz].
  - destruct alloc; simpl; [|by apply wp_ret, Q2].
    destruct (Q3 Hz eq_refl) as [Hfree HQ]. clear Q1 Q2 Q3. wp_step. wp_step.
    apply wp_alloc_page; [apply Hk|by apply free_pages_some|]. intros f ws Hws Hf Hff _ Hset.
    change (first_page false) with 256 in Hf.
    destruct (fresh_table s (n / 1024) f ws) as (Hk1 & Hd1 & Hpde1); try done; [lia|].
    apply (wp_store_dir (set_map ws s)); [|lia|].
    { destruct Hk as [H H' H'' Hdir Hinj]. split; try done. intros i Hi Hnz. simpl. rewrite Hset.
      destruct (Hdir i Hi Hnz) as (? & ? & ?). by case_decide. }
    change (dir_frame (set_map ws s)) with (dir_frame s). set (s1 := set_word _ _ _) in *.
    wp_step. apply wp_load_dir; [done|lia|]. rewrite Hpde1, decide_True by (done || lia).
    unfold page_in. rewrite e_present_new by (done || lia). simpl. wp_steps.
    { rewrite e_avail_new by (done || lia). done. }
    change KERNEL_PAGE_ADDR with 0xFFC00000. fold (entry_addr n).
    assert (u32 (entry_addr n) = entry_addr n) as ->.
    { apply u32_small. unfold is_u32, entry_addr, PAGE_COUNT in *. lia. }
    rewrite entry_page by done.
    assert (pde s1 (n / 1024) ≠ 0 ∧ e_frame (pde s1 (n / 1024)) = f) as [Hnz1 Ef].
    { rewrite Hpde1, decide_True by (done || lia). split; [apply new_entry_nonzero; [done|lia|by left]|apply e_frame_new; lia]. }
    apply wp_clear_table; [done|lia|done|]. rewrite Ef. intros s' Hd Hzero. wp_step.
    destruct (table_after s (n / 1024) f ws s') as (Hev & Hnz & Htf & Hpte); try done; try lia. by apply (HQ s' f).
  - simpl. wp_steps. apply wp_load_dir; [done|lia|]. destruct (ko_dir _ Hk (n / 1024) ltac:(lia) Hnz) as (Hp & Ha & _).
    unfold page_in. rewrite Hp. simpl. wp_steps; [by rewrite Ha|].
    change KERNEL_PAGE_ADDR with 0xFFC00000. fold (entry_addr n).
    assert (u32 (entry_addr n) = entry_addr n) as ->.
    { apply u32_small. unfold is_u32, entry_addr, PAGE_COUNT in *. lia. }
    by apply Q1.
Qed.
