(* ===== verification/PagingArea.v ===== *)
(** * Mapping, searching, allocating and releasing pages of the kernel

    The functions of paging.c for the kernel ([None]), in terms of the entries
    [pte] of its pages and of what the memory management unit makes of them. *)

From S2P Require Import Prelude Util BootMap Console PhysMem PhysMemProofs PhysMemRefs Paging PagingProofs.
Open Scope Z_scope.

(** ** Entries and translation *)

Lemma translate_pte s m x : kernel_ok s → 0 ≤ m < KERNEL_PAGES → 0 ≤ x < 4096 →
  translate s (m * 4096 + x) = if e_present (pte s m) then Some (e_frame (pte s m) * 4096 + x) else None.
Proof.
  intros Hk Hm Hx. destruct (page_bounds' m Hm) as (Hm' & Ht & Ho). unfold translate, walk. rewrite (ko_paging _ Hk).
  fold (dir_frame s). rewrite (shiftr_div _ 22 4194304), (shiftr_div _ 12 4096) by done.
  unfold PAGETABLE_MASK, PAGE_MASK, PAGE_SIZE. rewrite (land_low _ 10), (land_low _ 12) by done.
  assert ((m * 4096 + x) / 4194304 = m / 1024 ∧ (m * 4096 + x) / 4096 = m ∧ (m * 4096 + x) mod 2 ^ 12 = x) as (-> & -> & ->).
  { Z.to_euclidean_division_equations. lia. }
  fold (pde s (m / 1024)). unfold pte. destruct (Z.eqb_spec (pde s (m / 1024)) 0) as [Hz|Hnz].
  - by rewrite Hz.
  - destruct (ko_dir _ Hk (m / 1024)) as (-> & _); [lia|done|]. done.
Qed.

Lemma wp_entry_true s n va (Q : option Z → machine → Prop) :
  kernel_ok s → 0 ≤ n < KERNEL_PAGES → n * 4096 ≤ va < n * 4096 + 4096 → (0 < free_memory s)%nat →
  (∀ ks s', (length ks ≤ 1)%nat → evolves ks s s' → (∀ f, f ∈ ks → table s' f) → pde s' (n / 1024) ≠ 0 → (∀ m, 0 ≤ m < KERNEL_PAGES → pte s' m = pte s m) →
     Q (Some (entry_addr n)) s') →
  wp (kernel_entry va true) s Q.
Proof.
  intros Hk Hn Hva Hf HQ. apply (wp_kernel_entry s n); try done.
  - intros Hnz. apply (HQ []); [simpl; lia|by apply evolves_refl|by intros f ?%not_elem_of_nil|done|done].
  - intros Hz _. split; [done|]. intros s' f Hev Ht Hnz Hpte.
    apply (HQ [f]); [simpl; lia|done|by intros g ->%list_elem_of_singleton|done|done].
Qed.

Lemma wp_entry_false s n va (Q : option Z → machine → Prop) :
  kernel_ok s → 0 ≤ n < KERNEL_PAGES → n * 4096 ≤ va < n * 4096 + 4096 →
  Q (if pde s (n / 1024) =? 0 then None else Some (entry_addr n)) s →
  wp (kernel_entry va false) s Q.
Proof.
  intros Hk Hn Hva HQ. apply (wp_kernel_entry s n); try done.
  - intros Hnz. by rewrite (proj2 (Z.eqb_neq _ _)) in HQ.
  - intros Hz _. by rewrite Hz in HQ.
Qed.

(** Taking a page of memory. *)
Lemma evolves_alloc s f ws :
  kernel_ok s → map_ok ws → 256 ≤ f < PAGE_COUNT → reserved (physMemMap s) f = false →
  (∀ i, reserved ws i = if decide (i = f) then true else reserved (physMemMap s) i) → evolves [f] s (set_map ws s).
Proof.
  intros Hk Hws Hf Hfree Hset. split; try done; try tauto.
  - destruct Hk as [H H' H'' Hdir Hinj]. split; try done. intros i Hi Hnz. simpl. rewrite Hset.
    destruct (Hdir i Hi Hnz) as (? & ? & ?). by case_decide.
  - simpl. rewrite (free_pages_take _ ws f); (done || lia).
  - intros i. simpl. rewrite Hset. case_decide as E; [right; rewrite E; by left|by left].
  - intros i Hi. simpl. rewrite Hset. by case_decide.
Qed.

(** An entry is written. *)
Lemma wp_set_entry s n v (Q : unit → machine → Prop) :
  kernel_ok s → 0 ≤ n < KERNEL_PAGES → pde s (n / 1024) ≠ 0 →
  (∀ s', evolves [] s s' → (∀ m, 0 ≤ m < KERNEL_PAGES → pte s' m = if decide (m = n) then v else pte s m) →
     (∀ i, 0 ≤ i < 1024 → pde s' i = pde s i) → physMemMap s' = physMemMap s → Q tt s') →
  wp (store (entry_addr n) v) s Q.
Proof.
  intros Hk Hn Hnz HQ. destruct (page_bounds' n Hn) as (Hn' & Ht & Hx). apply wp_store_entry; [done|done|done|].
  destruct (set_pte s n v Hk Hn Hnz) as [Hev Hpte]. apply HQ; [done|done| |done].
  destruct (change_table s (set_word (e_frame (pde s (n / 1024)) * 1024 + n mod 1024) v s) (n / 1024)) as [_ Hpde]; try done.
  intros a Ha. rewrite word_set. case_decide; [|done]. subst. by rewrite cell_frame in Ha.
Qed.

Lemma pte_pde s n : pte s n ≠ 0 → pde s (n / 1024) ≠ 0.
Proof. unfold pte. destruct (Z.eqb_spec (pde s (n / 1024)) 0); done. Qed.

Lemma wp_load_pte s n (Q : Z → machine → Prop) :
  kernel_ok s → 0 ≤ n < KERNEL_PAGES → pde s (n / 1024) ≠ 0 → Q (pte s n) s → wp (load (entry_addr n)) s Q.
Proof. intros Hk Hn Hnz HQ. apply wp_load_entry; [done|by apply page_bounds'|done|done]. Qed.

(** For the kernel, no table is mapped. *)
Lemma paging_entry_none f g : paging_entry f None = paging_entry g None.
Proof. done. Qed.

Lemma kernel_entry_eq : __getPagingEntry None = kernel_entry.
Proof. apply paging_entry_none. Qed.

Lemma entry_ptr_eq f addr : entry_ptr f None addr = let* t := kernel_entry addr true in deref t "__getPagingEntry: null pointer".
Proof. unfold entry_ptr. by rewrite (paging_entry_none f (λ _, panic "not reached")). Qed.

(** ** Mapping *)

(** C5: Mapping a physical page at an address of the kernel where nothing is
    mapped. The memory management unit then translates the page's addresses to
    the physical page and all other addresses below its own tables as before;
    no memory in use other than the page tables changes. Where something is
    mapped already, the system stops. *)
Theorem pagingMapPhysMem_correct s index n rw user :
  kernel_ok s → 1 ≤ n < KERNEL_PAGES → 0 ≤ index < PAGE_COUNT → (0 < free_memory s)%nat →
  (pte s n = 0 →
    wp (__pagingMapPhysMem None index (n * PAGE_SIZE) rw user) s (λ addr s', addr = n * PAGE_SIZE ∧
      (∃ ks, (length ks ≤ 1)%nat ∧ evolves ks s s') ∧
      (∀ x, 0 ≤ x < PAGE_SIZE → translate s' (addr + x) = Some (index * PAGE_SIZE + x)) ∧
      (∀ m x, 0 ≤ m < KERNEL_PAGES → m ≠ n → 0 ≤ x < PAGE_SIZE →
         translate s' (m * PAGE_SIZE + x) = translate s (m * PAGE_SIZE + x)))) ∧
  (pte s n ≠ 0 → ∃ why, __pagingMapPhysMem None index (n * PAGE_SIZE) rw user s = Panic why).
Proof.
  intros Hk Hn Hi Hf. change PAGE_SIZE with 4096.
  assert (Z.shiftr (n * 4096) 12 = n) as Hs by (rewrite (shiftr_div _ 12 4096) by done; by apply Z.div_mul).
  unfold __pagingMapPhysMem, map_page. rewrite entry_ptr_eq.
  rewrite (proj2 (Z.eqb_neq (n * 4096) 0)), Hs, (proj2 (Z.eqb_neq n 0)) by lia. simpl.
  split; intros Hp.
  - wp_steps. apply (wp_entry_true s n); [done|lia|lia|done|]. intros ks s1 Hk1 Hev1 _ Hnz Hpte1.
    eapply wp_deref; [done|]. wp_steps. apply wp_load_pte; [apply Hev1|lia|done|].
    rewrite Hpte1, Hp by lia. simpl. wp_steps. apply wp_set_entry; [apply Hev1|lia|done|].
    intros s2 Hev2 Hpte2 _ _. wp_step. split_and!; [done| | |].
    + exists (ks ++ []). split; [by rewrite app_nil_r|]. by eapply evolves_trans.
    + intros x Hx. rewrite translate_pte, Hpte2, decide_True by (done || lia || by apply (ev_ok _ _ _ Hev2)).
      by rewrite e_present_new, e_frame_new by (done || lia).
    + intros m x Hm Hmn Hx. rewrite !translate_pte, Hpte2, decide_False, Hpte1 by (done || lia || by apply (ev_ok _ _ _ Hev2)). done.
  - eexists. assert (∃ s1, kernel_entry (n * 4096) true s = Ok (Some (entry_addr n), s1) ∧ load (entry_addr n) s1 = Ok (pte s n, s1)) as (s1 & E1 & E2).
    { assert (wp (kernel_entry (n * 4096) true) s (λ r s1, r = Some (entry_addr n) ∧ load (entry_addr n) s1 = Ok (pte s n, s1))) as Hwp.
      { apply (wp_entry_true s n); [done|lia|lia|done|]. intros ks s1 Hk1 Hev1 _ Hnz Hpte1. split; [done|].
        assert (wp (load (entry_addr n)) s1 (λ v s2, v = pte s n ∧ s2 = s1)) as Hl.
        { apply wp_load_pte; [apply Hev1|lia|done|]. split; [apply Hpte1; lia|done]. }
        apply wp_run in Hl as (v & s2 & E & -> & ->). done. }
      apply wp_run in Hwp as (r & s1 & E & -> & ?). by exists s1. }
    unfold mbind, M_bind, assert. simpl. unfold mret, M_ret. rewrite E1. simpl. rewrite E2.
    by rewrite (proj2 (Z.eqb_neq (pte s n) 0)).
Qed.

(** ** Searching *)

(** [length] pages from [a] on are not in use. *)
Definition free_area (s : machine) (a length : Z) : Prop :=
  1 ≤ a ∧ a + length ≤ KERNEL_PAGES ∧ ∀ m, a ≤ m < a + length → pte s m = 0.

Lemma lor_mask i : 0 ≤ i → Z.lor i PAGETABLE_MASK = i / 1024 * 1024 + 1023.
Proof.
  intros Hi. change 1024 with (2 ^ 10) at 2. rewrite <-(lor_shiftl_low (i / 1024) 1023 10) by done.
  apply Z.bits_inj'. intros k Hk. rewrite !Z.lor_spec. change PAGETABLE_MASK with (Z.ones 10). change 1023 with (Z.ones 10).
  rewrite testbit_ones by lia. destruct (Z.ltb_spec k 10); [by rewrite !orb_true_r|].
  rewrite !orb_false_r, Z.shiftl_spec by lia. change 1024 with (2 ^ 10). rewrite Z.div_pow2_bits by lia. f_equal. lia.
Qed.

(** The first fit for [length] pages, or that there is none. *)
Definition first_fit (s : machine) (length r : Z) : Prop :=
  r = 0 ∧ (∀ a, ¬ free_area s a length) ∨
  ∃ a, r = a * PAGE_SIZE ∧ free_area s a length ∧ ∀ b, b < a → ¬ free_area s b length.

Lemma first_fit_here s start length :
  1 ≤ start → start + length ≤ KERNEL_PAGES → (∀ m, start ≤ m < start + length → pte s m = 0) →
  (∀ a, a < start → ¬ free_area s a length) → first_fit s length (Z.shiftl start PAGE_BITS).
Proof.
  intros. right. exists start. rewrite Z.shiftl_mul_pow2 by done. split_and!; done.
Qed.

Lemma wp_is_entry s n Q : kernel_ok s → 0 ≤ n < KERNEL_PAGES →
  Q (if pde s (n / 1024) =? 0 then None else Some (entry_addr n, pte s n)) s →
  wp (is_entry (if pde s (n / 1024) =? 0 then None else Some (entry_addr n))) s Q.
Proof.
  intros Hk Hn HQ. destruct (Z.eqb_spec (pde s (n / 1024)) 0); [done|].
  unfold is_entry. wp_step. apply wp_load_pte; [done..|]. by wp_step.
Qed.

Lemma search_area_spec s length fuel : ∀ i start,
  kernel_ok s → 1 ≤ length ≤ 2147483648 → 1 ≤ start ≤ i → i ≤ KERNEL_PAGES → i - start < length →
  (∀ m, start ≤ m < i → pte s m = 0) → (∀ a, a < start → ¬ free_area s a length) → KERNEL_PAGES - i < Z.of_nat fuel →
  wp (search_area kernel_entry fuel i start length) s (λ r s', s' = s ∧ first_fit s length r).
Proof.
  induction fuel as [|fuel IH]; intros i start Hk Hl Hs Hi His Hfree Hno Hf; [lia|]. cbn [search_area].
  change (KERNEL_DIR_ENTRY * PAGETABLE_COUNT) with KERNEL_PAGES.
  destruct (Z.ltb_spec i KERNEL_PAGES) as [Hlt|Hge].
  2:{ wp_step. split; [done|]. left. split; [done|]. intros a. destruct (decide (a < start)); [by apply Hno|].
      intros (_ & ? & _). lia. }
  assert (Z.shiftl i PAGE_BITS = i * 4096) as -> by by rewrite Z.shiftl_mul_pow2.
  wp_step. apply (wp_entry_false s i); [done|lia|lia|]. wp_step. apply wp_is_entry; [done|lia|].
  rewrite u32_small by (unfold is_u32, KERNEL_PAGES in *; lia).
  destruct (Z.eqb_spec (pde s (i / 1024)) 0) as [Hz|Hnz]; cbv zeta.
  - rewrite lor_mask by lia. set (j := i / 1024 * 1024 + 1023).
    assert (i ≤ j ∧ j < KERNEL_PAGES ∧ ∀ m, i ≤ m ≤ j → pte s m = 0) as (Hij & Hj & Hrow).
    { subst j. unfold KERNEL_PAGES in *. pose proof (Z.div_mod i 1024). pose proof (Z.mod_pos_bound i 1024).
      assert (i / 1024 < 1023) by (apply Z.div_lt_upper_bound; lia). split_and!; [lia|lia|].
      intros m Hm. unfold pte. replace (m / 1024) with (i / 1024); [by rewrite Hz|].
      Z.to_euclidean_division_equations. lia. }
    clearbody j. assert (∀ m, start ≤ m ≤ j → pte s m = 0) as Hall.
    { intros m Hm. destruct (decide (m < i)); [apply Hfree|apply Hrow]; lia. }
    destruct (Z.leb_spec (start + length - 1) j) as [Hfit|Hnofit].
    + wp_step. split; [done|]. apply first_fit_here; [lia|lia| |done]. intros m Hm. apply Hall. lia.
    + apply IH; (done || lia || idtac). intros m Hm. apply Hall. lia.
  - destruct (Z.eqb_spec (pte s i) 0) as [Hp|Hp]; simpl.
    + destruct (Z.leb_spec (start + length - 1) i) as [Hfit|Hnofit].
      * wp_step. split; [done|]. apply first_fit_here; [lia|lia| |done]. intros m Hm.
        destruct (decide (m = i)) as [->|]; [done|]. apply Hfree. lia.
      * apply IH; (done || lia || idtac). intros m Hm. destruct (decide (m = i)) as [->|]; [done|]. apply Hfree. lia.
    + apply IH; (done || lia || idtac). intros a Ha. destruct (decide (a < start)); [by apply Hno|].
      intros (_ & _ & Hz). apply Hp, Hz. lia.
Qed.

Lemma wp_try_search s length (Q : Z → machine → Prop) :
  kernel_ok s → 1 ≤ length ≤ 2147483648 → (∀ r, first_fit s length r → Q r s) → wp (try_search_area kernel_entry length) s Q.
Proof.
  intros Hk Hl HQ. unfold try_search_area. rewrite (proj2 (Z.eqb_neq _ _)) by lia.
  set (fuel := Z.to_nat _). assert (KERNEL_PAGES - 1 < Z.of_nat fuel) as Hf.
  { subst fuel. rewrite Z2Nat.id by done. change (KERNEL_DIR_ENTRY * PAGETABLE_COUNT) with KERNEL_PAGES. lia. }
  clearbody fuel. eapply wp_mono.
  { apply (search_area_spec s length fuel 1 1); try done; try lia. intros a Ha (? & _). lia. }
  intros r s' [-> Hr]. by apply HQ.
Qed.

(** C25: Searching for an area of pages in the kernel. The search ends, changes
    nothing, and returns the lowest area of this many pages that are not in use
    (pages without a page table included), or 0 if there is none. *)
Theorem pagingTrySearchArea_correct s length :
  kernel_ok s → 1 ≤ length ≤ 2147483648 →
  wp (pagingTrySearchArea None length) s (λ r s', s' = s ∧
    (r = 0 ∧ (∀ a, ¬ free_area s a length) ∨
     ∃ a, r = a * PAGE_SIZE ∧ free_area s a length ∧ ∀ b, b < a → ¬ free_area s b length)).
Proof.
  intros Hk Hl. unfold pagingTrySearchArea. rewrite kernel_entry_eq. by apply wp_try_search.
Qed.

(** ** Allocating *)

(** From [s] to [s'] the pages from [a] on were mapped to the frames [fs]. *)
Definition mapped (s : machine) (a : Z) (rw user : bool) (fs : list Z) (s' : machine) : Prop :=
  ∀ m, 0 ≤ m < KERNEL_PAGES →
    pte s' m = match nthZ fs (m - a) with Some f => new_entry true rw user 0 f | None => pte s m end.

(** Frames that were free and are in use now, once each, and hold no table. *)
Definition taken (s s' : machine) (fs : list Z) : Prop :=
  NoDup fs ∧ ∀ f, f ∈ fs → 256 ≤ f < PAGE_COUNT ∧ reserved (physMemMap s) f = false ∧
    reserved (physMemMap s') f = true ∧ ¬ table s' f.

Lemma mapped_cons s s1 s2 a rw user f fs :
  0 ≤ a → (∀ m, 0 ≤ m < KERNEL_PAGES → pte s1 m = if decide (m = a) then new_entry true rw user 0 f else pte s m) →
  mapped s1 (a + 1) rw user fs s2 → mapped s a rw user (f :: fs) s2.
Proof.
  intros Ha H1' H2' m Hm. rewrite H2', H1' by done.
  destruct (decide (m = a)) as [->|Hne].
  - replace (a - (a + 1)) with (-1) by lia. rewrite Z.sub_diag. done.
  - unfold nthZ. destruct (Z.ltb_spec (m - a) 0); [rewrite (proj2 (Z.ltb_lt _ _)) by lia; done|].
    rewrite (proj2 (Z.ltb_ge _ _)) by lia. replace (Z.to_nat (m - a)) with (S (Z.to_nat (m - (a + 1)))) by lia. done.
Qed.

Lemma wp_allocate_pages rw user n : ∀ s a,
  kernel_ok s → 1 ≤ a → a + Z.of_nat n ≤ KERNEL_PAGES → (∀ m, a ≤ m < a + Z.of_nat n → pte s m = 0) →
  (2 * n ≤ free_memory s)%nat →
  wp (allocate_pages kernel_entry n (a * 4096) rw user) s (λ _ s', ∃ ks fs, (length ks ≤ 2 * n)%nat ∧ evolves ks s s' ∧
    (∀ f, f ∈ ks → f ∈ fs ∨ table s' f) ∧ length fs = n ∧ mapped s a rw user fs s' ∧ taken s s' fs).
Proof.
  induction n as [|n IH]; intros s a Hk Ha Hr Hfree Hmem; cbn [allocate_pages].
  { wp_step. exists [], []. split_and!; [simpl; lia|by apply evolves_refl|by left|done| |].
    - intros m Hm. unfold nthZ. by destruct (_ <? _).
    - split; [constructor|]. by intros f ?%not_elem_of_nil. }
  wp_step. apply wp_alloc_page; [apply Hk|apply free_pages_some; unfold free_memory in Hmem; lia|].
  intros f ws Hws Hf Hff _ Hset. change (first_page false) with 256 in Hf.
  pose proof (evolves_alloc s f ws Hk Hws Hf Hff Hset) as Hev0. set (s0 := set_map ws s) in *.
  assert (free_memory s = S (free_memory s0)) as Hmem0.
  { unfold free_memory. rewrite (ev_free _ _ _ Hev0). simpl. lia. }
  wp_step. apply (wp_entry_true s0 a); [apply Hev0|lia|lia|lia|]. intros k1 s1 Hk1 Hev1 Htab1 Hnz Hpte1.
  assert (pte s1 a = 0) as Hz by (rewrite Hpte1 by lia; apply (Hfree a); lia).
  wp_step. eapply wp_deref; [done|]. wp_step. apply wp_load_pte; [apply Hev1|lia|done|]. rewrite Hz.
  wp_steps; [done|]. apply wp_set_entry; [apply Hev1|lia|done|]. intros s2 Hev2 Hpte2 _ Em2.
  assert (free_memory s0 = free_memory s2 + length k1)%nat as Hmem2.
  { unfold free_memory. rewrite (ev_free _ _ _ Hev1), Em2. done. }
  assert (evolves ([f] ++ (k1 ++ [])) s s2) as Hev by (do 2 (eapply evolves_trans; [done|]); done).
  rewrite u32_small by (unfold is_u32, PAGE_SIZE, KERNEL_PAGES in *; lia).
  replace (a * 4096 + PAGE_SIZE) with ((a + 1) * 4096) by (unfold PAGE_SIZE; lia).
  eapply wp_mono; [apply IH; [apply Hev|lia|lia| |lia]|].
  { intros m Hm. rewrite Hpte2, decide_False, Hpte1 by lia. apply (Hfree m). lia. }
  intros [] s3 (k & fs & Hk' & Hev3 & Hks & Hlen & Hmap & Hnd & Htaken).
  assert (reserved (physMemMap s0) f = true) as Hres0.
  { subst s0. simpl. rewrite Hset. by rewrite decide_True. }
  exists (([f] ++ (k1 ++ [])) ++ k), (f :: fs). split_and!.
  - rewrite !length_app. simpl. lia.
  - by eapply evolves_trans.
  - intros g. rewrite app_nil_r. intros [[->%list_elem_of_singleton|Hg]%elem_of_app|Hg]%elem_of_app; [left; left| |].
    + right. by apply (ev_keep _ _ _ Hev3), (ev_keep _ _ _ Hev2), Htab1.
    + destruct (Hks g Hg); [left; by right|by right].
  - simpl. lia.
  - eapply (mapped_cons s s2); [lia| |done]. intros m Hm. rewrite Hpte2 by done. case_decide; [done|]. by apply Hpte1.
  - split.
    + apply NoDup_cons. split; [|done]. intros Hin. destruct (Htaken f Hin) as (_ & Hfr & _).
      rewrite Em2, (ev_reserved _ _ _ Hev1 f Hres0) in Hfr. done.
    + intros g [->|Hg]%elem_of_cons.
      * split_and!; [lia|lia|done| |].
        -- apply (ev_reserved _ _ _ Hev3). rewrite Em2. by apply (ev_reserved _ _ _ Hev1).
        -- intros Ht%(ev_tables _ _ _ Hev3). rewrite Em2, (ev_reserved _ _ _ Hev1 f Hres0) in Ht.
           destruct Ht as [Ht|]; [|done]. apply (ev_tables _ _ _ Hev2) in Ht as [Ht|Ht].
           ++ apply (ev_tables _ _ _ Hev1) in Ht as [Ht|Ht]; [|congruence].
              pose proof (table_reserved s f Hk Ht). congruence.
           ++ rewrite (ev_reserved _ _ _ Hev1 f Hres0) in Ht. done.
      * destruct (Htaken g Hg) as (Hg1 & Hg2 & Hg3 & Hg4). split_and!; try done; try lia.
        destruct (reserved (physMemMap s) g) eqn:E; [|done]. by rewrite (ev_reserved _ _ _ Hev g E) in Hg2.
Qed.

(** C6: Allocating memory of the kernel, with enough free memory for the
    pages and for new page tables. If the search finds an area, the lowest that
    fits is mapped to as many different physical pages, which were free and
    are used for nothing else; all other entries and the contents of the memory
    in use stay as they are. Otherwise nothing changes and 0 is returned. *)
Theorem pagingTryAllocatePhysMem_correct s length rw user :
  kernel_ok s → 1 ≤ length ≤ KERNEL_PAGES → 2 * length ≤ Z.of_nat (free_memory s) →
  wp (pagingTryAllocatePhysMem None length rw user) s (λ addr s',
    addr = 0 ∧ s' = s ∧ (∀ a, ¬ free_area s a length) ∨
    ∃ a ks fs, addr = a * PAGE_SIZE ∧ free_area s a length ∧ (∀ b, b < a → ¬ free_area s b length) ∧
      lenZ fs = length ∧ mapped s a rw user fs s' ∧ taken s s' fs ∧ evolves ks s s' ∧ (∀ f, f ∈ ks → f ∈ fs ∨ table s' f)).
Proof.
  intros Hk Hl Hmem. unfold pagingTryAllocatePhysMem, try_allocate. rewrite kernel_entry_eq.
  wp_step. apply wp_try_search; [done|unfold KERNEL_PAGES in *; lia|]. intros r [[-> Hno]|(a & -> & Harea & Hlow)].
  - simpl. wp_step. by left.
  - pose proof Harea as (Ha & Hr & Hz). rewrite (proj2 (Z.eqb_neq _ _)) by (unfold PAGE_SIZE; lia). wp_step.
    change PAGE_SIZE with 4096. eapply wp_mono; [apply wp_allocate_pages; try done; try lia|].
    { intros m Hm. apply Hz. lia. }
    intros [] s' (ks & fs & _ & Hev & Hks & Hlen & Hmap & Htaken). wp_step. right.
    exists a, ks, fs. split_and!; (done || lia).
Qed.

(** ** Releasing *)

Lemma evolves_extra_ok ks s s' : extra_ok s → evolves ks s s' → extra_ok s'.
Proof.
  intros Hx Hev. pose proof (ev_extra _ _ _ Hev) as Ee. destruct Hx as [Hm Hl Ht Hi Hu Hp]. split.
  - apply (ev_ok _ _ _ Hev).
  - by rewrite Ee.
  - intros i t. rewrite Ee. apply Ht.
  - intros i v. unfold info_at. rewrite Ee. apply Hi.
  - intros i Hr Hf. unfold info_at. rewrite Ee. apply Hu; [done|].
    destruct (reserved (physMemMap s) i) eqn:E; [|done]. by rewrite (ev_reserved _ _ _ Hev i E) in Hf.
  - apply (ev_ok _ _ _ Hev).
Qed.

Lemma wp_used_entry s n va (Q : option (Z * Z) → machine → Prop) :
  kernel_ok s → 0 ≤ n < KERNEL_PAGES → n * 4096 ≤ va < n * 4096 + 4096 →
  Q (if pte s n =? 0 then None else Some (entry_addr n, pte s n)) s → wp (used_entry None va) s Q.
Proof.
  intros Hk Hn Hva HQ. unfold used_entry. rewrite kernel_entry_eq. wp_step. apply (wp_entry_false s n); [done..|].
  wp_step. apply wp_is_entry; [done|done|]. destruct (Z.eqb_spec (pde s (n / 1024)) 0) as [Hz|Hnz].
  - wp_step. unfold pte in HQ. by rewrite Hz in HQ.
  - by wp_step.
Qed.

(** A page whose physical page is used for nothing else is given back. *)
Lemma wp_release_one s n f (Q : bool → machine → Prop) :
  kernel_ok s → extra_ok s → 0 ≤ n < KERNEL_PAGES → e_present (pte s n) = true → e_frame (pte s n) = f →
  reserved (physMemMap s) f = true → refs s f = 1 → ¬ table s f →
  (∀ s', kernel_ok s' → extra_ok s' →
     (∀ m, 0 ≤ m < KERNEL_PAGES → pte s' m = if decide (m = n) then 0 else pte s m) →
     (∀ g, 0 ≤ g → refs s' g = if decide (g = f) then 0 else refs s g) →
     (∀ g, 0 ≤ g → reserved (physMemMap s') g = if decide (g = f) then false else reserved (physMemMap s) g) →
     (∀ g, table s' g ↔ table s g) → Q true s') →
  wp (release_one false None (n * 4096)) s Q.
Proof.
  intros Hk Hx Hn Hp Hf Hres Hrefs Hnt HQ. pose proof (e_frame_range (pte s n)) as Hfr. rewrite Hf in Hfr.
  assert (pte s n ≠ 0) as Hnz by (intros E; by rewrite E in Hp).
  unfold release_one. wp_step. apply (wp_used_entry s n); [done|done|lia|]. rewrite (proj2 (Z.eqb_neq _ _)) by done.
  rewrite Hp. unfold page_in. rewrite Hp. simpl. wp_steps. apply wp_load_pte; [done|done|by apply pte_pde|].
  wp_step. apply wp_set_entry; [done|done|by apply pte_pde|]. intros s1 Hev1 Hpte1 Hpde1 Em1.
  pose proof (evolves_extra_ok _ _ _ Hx Hev1) as Hx1.
  assert (∀ g, refs s1 g = refs s g) as Hrefs1.
  { intros g. unfold refs, info_at. by rewrite Em1, (ev_extra _ _ _ Hev1). }
  wp_step. rewrite Hf. eapply wp_mono; [apply wp_release_page; [done|done|by rewrite Em1]|].
  intros r s2 (-> & Hx2 & Hrefs2 & Hres2 & Eb2 & Er2). rewrite Hrefs1, Hrefs in *. wp_step.
  assert (∀ a, word s2 a = word s1 a) as Hw by (intros a; unfold word; by rewrite Er2).
  assert (∀ i, pde s2 i = pde s1 i) as Hpde2 by (intros i; unfold pde, dir_frame; by rewrite Er2, Hw).
  assert (∀ m, pte s2 m = pte s1 m) as Hpte2 by (intros m; unfold pte; by rewrite Hpde2, Hw).
  assert (∀ g, table s2 g ↔ table s g) as Htab2.
  { intros g. split; intros (i & Hi & ? & ?); exists i; rewrite Hpde2, Hpde1 in * by done; done. }
  assert (∀ g, 0 ≤ g → reserved (physMemMap s2) g = if decide (g = f) then false else reserved (physMemMap s) g) as Hres2'.
  { intros g Hg. specialize (Hres2 g Hg). rewrite Em1 in Hres2. case_decide as E.
    - apply Hres2. by right.
    - destruct (reserved (physMemMap s) g), (reserved (physMemMap s2) g); naive_solver. }
  apply HQ; [|done| | |done|done].
  - pose proof (ev_ok _ _ _ Hev1) as Hk1. split.
    + apply Hx2.
    + apply Hx2.
    + unfold dir_frame. rewrite Hpde2, Er2. apply Hk1.
    + intros i Hi. rewrite Hpde2. intros Hd. destruct (ko_dir _ Hk1 i Hi Hd) as (? & ? & Hr). split_and!; try done.
      rewrite Hres2' by apply e_frame_range. rewrite Em1 in Hr. rewrite decide_False; [done|].
      intros E. apply Hnt. rewrite <-E. exists i. rewrite Hpde1 in * by done. done.
    + intros i j. rewrite !Hpde2. apply Hk1.
  - intros m Hm. rewrite Hpte2. by apply Hpte1.
  - intros g Hg. rewrite Hrefs2 by done. case_decide; [lia|]. apply Hrefs1.
Qed.

Lemma wp_release_pages rw user fs : ∀ s a,
  kernel_ok s → extra_ok s → 1 ≤ a → a + lenZ fs ≤ KERNEL_PAGES → NoDup fs →
  (∀ j f, fs !! j = Some f → pte s (a + Z.of_nat j) = new_entry true rw user 0 f) →
  (∀ f, f ∈ fs → 0 ≤ f < PAGE_COUNT ∧ reserved (physMemMap s) f = true ∧ refs s f = 1 ∧ ¬ table s f) →
  wp (release_pages false (length fs) None (a * 4096) true) s (λ r s', r = true ∧ kernel_ok s' ∧ extra_ok s' ∧
    (∀ m, 0 ≤ m < KERNEL_PAGES → pte s' m = if decide (a ≤ m < a + lenZ fs) then 0 else pte s m) ∧
    (∀ g, 0 ≤ g → refs s' g = if decide (g ∈ fs) then 0 else refs s g) ∧ ∀ g, table s' g ↔ table s g).
Proof.
  induction fs as [|f fs IH]; intros s a Hk Hx Ha Hr Hnd Hpte Hfs; cbn [release_pages length].
  { wp_step. split_and!; try done. intros m Hm. rewrite decide_False; [done|]. lia. }
  apply NoDup_cons in Hnd as [Hnin Hnd]. simpl in Hr.
  destruct (Hfs f ltac:(left)) as (Hf & Hres & Hrefs & Hnt).
  assert (pte s a = new_entry true rw user 0 f) as Hpa by (rewrite <-(Hpte 0%nat f) by done; f_equal; lia).
  wp_step. apply (wp_release_one s a f); try done; try lia.
  { by rewrite Hpa, e_present_new. } { by rewrite Hpa, e_frame_new. }
  intros s1 Hk1 Hx1 Hpte1 Hrefs1 Hres1 Htab1. simpl.
  rewrite u32_small by (unfold is_u32, PAGE_SIZE, KERNEL_PAGES in *; lia).
  replace (a * 4096 + PAGE_SIZE) with ((a + 1) * 4096) by (unfold PAGE_SIZE; lia).
  eapply wp_mono; [apply (IH s1 (a + 1)); try done; try lia|].
  - intros j g Hj. rewrite Hpte1 by (apply lookup_lt_Some in Hj; unfold KERNEL_PAGES in *; lia).
    rewrite decide_False by lia. rewrite <-(Hpte (S j) g) by done. f_equal. lia.
  - intros g Hg. destruct (Hfs g ltac:(by right)) as (Hgr & Hg1 & Hg2 & Hg3).
    assert (g ≠ f) by (intros ->; done). rewrite Hres1, Hrefs1, !decide_False by (done || lia).
    split_and!; [lia|lia|done|done|]. intros ?%Htab1. done.
  - intros r s' (-> & Hk' & Hx' & Hpte' & Hrefs' & Htab'). split_and!; try done.
    + intros m Hm. rewrite Hpte', Hpte1 by done. simpl. repeat case_decide; (done || lia).
    + intros g Hg. rewrite Hrefs', Hrefs1 by done.
      destruct (decide (g ∈ fs)) as [Hin|Hin]; [by rewrite decide_True by by right|].
      destruct (decide (g = f)) as [->|Hne]; [by rewrite decide_True by left|].
      rewrite decide_False; [done|]. by intros [?|?]%elem_of_cons.
    + intros g. by rewrite Htab', Htab1.
Qed.

(** The counters after taking pages. *)
Lemma refs_taken ks s s' g : extra_ok s → evolves ks s s' → 0 ≤ g < PAGE_COUNT →
  refs s' g = refs s g ∧ (reserved (physMemMap s) g = true ∨ reserved (physMemMap s') g = false) ∨
  refs s g = 0 ∧ refs s' g = 1 ∧ reserved (physMemMap s) g = false ∧ g ∈ ks.
Proof.
  intros Hx Hev Hg. unfold refs. assert (info_at s' g = info_at s g) as ->.
  { unfold info_at. by rewrite (ev_extra _ _ _ Hev). }
  pose proof (eo_unused _ Hx g Hg) as Hu. destruct (reserved (physMemMap s) g) eqn:E.
  - rewrite (ev_reserved _ _ _ Hev g E). left. split; [done|by left].
  - destruct (reserved (physMemMap s') g) eqn:E'; [|left; split; [done|by right]]. right. split_and!; [done| |done|].
    + specialize (Hu eq_refl). destruct (info_at s g) as [v|]; [|done]. simpl in Hu. by subst.
    + destruct (ev_new _ _ _ Hev g E'); [congruence|done].
Qed.

(** C7: Allocating memory of the kernel and releasing it again. The release
    succeeds, every entry is what it was, and so is every reference counter:
    the only memory that is not given back is that of new page tables, which
    stay for later. *)
Theorem allocate_release_roundtrip s length rw user :
  kernel_ok s → extra_ok s → 1 ≤ length ≤ KERNEL_PAGES → 2 * length ≤ Z.of_nat (free_memory s) →
  (∃ a, free_area s a length) →
  wp (let* addr := pagingTryAllocatePhysMem None length rw user in pagingReleasePhysMem None addr length) s (λ _ s',
    kernel_ok s' ∧ extra_ok s' ∧ (∀ m, 0 ≤ m < KERNEL_PAGES → pte s' m = pte s m) ∧
    ∀ f, 0 ≤ f < PAGE_COUNT → refs s' f = refs s f ∨ refs s f = 0 ∧ refs s' f = 1 ∧ table s' f).
Proof.
  intros Hk Hx Hl Hmem [a0 Harea0]. wp_step. unfold pagingTryAllocatePhysMem, try_allocate. rewrite kernel_entry_eq.
  wp_step. apply wp_try_search; [done|unfold KERNEL_PAGES in *; lia|].
  intros r [[-> Hno]|(a & -> & Harea & _)]; [by destruct (Hno a0)|]. pose proof Harea as (Ha & Hr & Hz).
  rewrite (proj2 (Z.eqb_neq _ _)) by (unfold PAGE_SIZE; lia). wp_step. change PAGE_SIZE with 4096.
  eapply wp_mono; [apply wp_allocate_pages; try done; try lia|]; [intros m Hm; apply Hz; lia|].
  intros [] s1 (ks & fs & _ & Hev & Hks & Hlen & Hmap & Hnd & Htaken). wp_step.
  assert (extra_ok s1) as Hx1 by by eapply evolves_extra_ok.
  unfold pagingReleasePhysMem, pagingTryReleasePhysMem. wp_step. rewrite <-Hlen.
  eapply wp_mono; [apply (wp_release_pages rw user fs s1 a)|]; try done; try (apply (ev_ok _ _ _ Hev)); try lia.
  - intros j f Hj. pose proof (lookup_lt_Some _ _ _ Hj). rewrite (Hmap (a + Z.of_nat j)) by lia.
    unfold nthZ. rewrite (proj2 (Z.ltb_ge _ _)) by lia. replace (Z.to_nat (a + Z.of_nat j - a)) with j by lia. by rewrite Hj.
  - intros f Hf. destruct (Htaken f Hf) as (Hfr & Hf0 & Hf1 & Hnt). split_and!; [lia|lia|done| |done].
    destruct (refs_taken _ _ _ f Hx Hev ltac:(lia)) as [[_ [?|?]]|(_ & ? & _)]; [congruence|congruence|done].
  - intros r s2 (-> & Hk2 & Hx2 & Hpte2 & Hrefs2 & Htab2). wp_step; [done|]. split_and!; [done|done| |].
    + intros m Hm. rewrite Hpte2 by done. case_decide as Hin; [by rewrite (Hz m) by lia|].
      rewrite Hmap by done. replace (nthZ fs (m - a)) with (@None Z); [done|]. symmetry. apply nthZ_None. lia.
    + intros f Hf. rewrite Hrefs2 by lia. case_decide as Hin.
      * left. destruct (Htaken f Hin) as (_ & Hf0 & _). unfold refs. by rewrite Hf0.
      * destruct (refs_taken _ _ _ f Hx Hev Hf) as [[-> _]|(-> & -> & _ & Hfk)]; [by left|]. right.
        split_and!; [done|done|]. apply Htab2. by destruct (Hks f Hfk).
Qed.

(** ** The pages behind the tables of page information *)

(** The free pages of the kernel's address space, and how many pages of the
    kernel can be allocated: each may need a page table besides its own page. *)
Definition free_virtual (s : machine) : nat := length (filter (λ m, pte s m = 0) (seqZ 1 (KERNEL_PAGES - 1))).
Definition page_budget (s : machine) : nat := Nat.min (free_memory s / 2) (free_virtual s).

Lemma free_virtual_some s : (0 < free_virtual s)%nat → ∃ a, free_area s a 1.
Proof.
  unfold free_virtual. destruct (filter _ _) as [|a l] eqn:E; simpl; [lia|]. intros _. exists a.
  assert (a ∈ filter (λ m, pte s m = 0) (seqZ 1 (KERNEL_PAGES - 1))) as Ha by (rewrite E; left).
  apply list_elem_of_filter in Ha as [Hz ?%elem_of_seqZ]. split_and!; [lia|lia|].
  intros m Hm. by replace m with a by lia.
Qed.

(** What physmem.c relies on holds of the paging code. *)
Lemma kernel_pages_law : kernel_pages_ok (HK := kernel_pages) kernel_ok page_budget.
Proof.
  split.
  { intros s e. split; [done|]. intros [H H' H'' Hdir Hinj]. by split. }
  intros s Hx Hk Hb. unfold page_budget in Hb.
  assert (2 ≤ free_memory s)%nat as Hmem.
  { destruct (decide (2 ≤ free_memory s)%nat); [done|]. rewrite (Nat.div_small (free_memory s)) in Hb by lia. lia. }
  destruct (free_virtual_some s) as [a0 Harea0]; [lia|].
  unfold newKernelPage, kernel_pages, allocate, try_allocate. wp_step. wp_step. wp_step.
  apply wp_try_search; [done|done|]. intros r [[-> Hno]|(a & -> & (Ha & Hr & Hz) & _)]; [by destruct (Hno a0)|].
  rewrite (proj2 (Z.eqb_neq _ _)) by (unfold PAGE_SIZE; lia). wp_step. change PAGE_SIZE with 4096.
  change (Z.to_nat 1) with 1%nat. eapply wp_mono; [apply wp_allocate_pages; try done; lia|].
  intros [] s1 (ks & fs & Hlk & Hev & _ & Hlen & Hmap & Hnd & Htaken). destruct fs as [|f [|]]; try done.
  destruct (Htaken f ltac:(left)) as (Hf & Hf0 & Hf1 & _). pose proof (ev_ok _ _ _ Hev) as Hk1.
  assert (pte s1 a = new_entry true true false 0 f) as Hpa by (rewrite Hmap, Z.sub_diag by lia; done).
  assert (pte s1 a ≠ 0) as Hnz by (rewrite Hpa; apply new_entry_nonzero; (lia || by left)).
  wp_steps. rewrite (proj2 (Z.eqb_neq _ _)) by lia. wp_step. unfold get_phys_mem. wp_step.
  apply (wp_entry_false s1 a); [done|lia|lia|]. wp_step. apply wp_is_entry; [done|lia|].
  rewrite (proj2 (Z.eqb_neq (pde _ _) 0)) by by apply pte_pde. wp_steps; [by rewrite (proj2 (Z.eqb_neq _ _))|].
  rewrite Hpa. unfold page_in. rewrite e_present_new by lia. simpl. wp_steps.
  apply wp_load_pte; [done|lia|by apply pte_pde|]. wp_step. rewrite Hpa, e_frame_new by lia.
  split_and!; [by eapply evolves_extra_ok|done|lia|lia|done|by apply (ev_reserved _ _ _ Hev)|apply (ev_extra _ _ _ Hev)|].
  assert (free_virtual s = S (free_virtual s1)) as Hv.
  { apply (filter_count_remove _ _ _ a); [apply NoDup_seqZ|apply elem_of_seqZ; lia|apply Hz; lia|].
    intros m Hm%elem_of_seqZ. rewrite Hmap by lia. destruct (decide (m = a)) as [->|Hne].
    - rewrite Z.sub_diag. simpl. split; [|by intros []]. intros E. rewrite Hpa in Hnz. done.
    - replace (nthZ [f] (m - a)) with (@None Z); [naive_solver|]. symmetry. apply nthZ_None. simpl. lia. }
  assert (free_memory s ≤ 2 + free_memory s1)%nat as Hm1.
  { unfold free_memory. rewrite (ev_free _ _ _ Hev). lia. }
  unfold page_budget. rewrite Hv.
  assert (free_memory s / 2 ≤ S (free_memory s1 / 2))%nat; [|lia].
  change (S (free_memory s1 / 2)) with (1 + free_memory s1 / 2)%nat. rewrite <-Nat.div_add_l by lia.
  apply Nat.Div0.div_le_mono. lia.
Qed.

(** C26: Getting the word of extra information of a page ends, although
    physmem.c and paging.c call each other for it: a new table is a page of the
    kernel, whose own word may need another new table. While the kernel has
    memory and addresses for the tables that are missing, the word is found,
    and neither a table nor the reservation of a page is lost. *)
Theorem getPhysMemExtraInfo_terminates s i :
  kernel_ok s → extra_ok s → 0 ≤ i < PAGE_COUNT → (missing s ≤ page_budget s)%nat →
  wp (__getPhysMemExtraInfo EXTRA_FUEL i true) s (λ p s', p = Some (page_ptr i) ∧ extra_ok s' ∧
    is_Some (info_at s' i) ∧ (∀ j, 0 ≤ j → is_Some (info_at s j) → is_Some (info_at s' j)) ∧
    ∀ j, reserved (physMemMap s) j = true → reserved (physMemMap s') j = true).
Proof.
  intros Hk Hx Hi Hb. apply (wp_get_extra_info kernel_ok page_budget (missing s)); try done.
  - apply kernel_pages_law.
  - unfold EXTRA_FUEL, missing. pose proof (length_filter (λ t, t = None) (physMemExtra s)).
    pose proof (eo_tables _ Hx) as Ht. unfold PHYSMEMEXTRA_COUNT in Ht. lia.
Qed.

(** ** Witnesses: a kernel with one page table and one page, at 1 MB *)

Definition sample_space : machine :=
  PhysMem (replicate 16 ALL_ONES ++ replicate (Z.to_nat 32752) 0) (replicate 1024 None) 0 true true (BootMap [] true)
    (Paging {[ 308223 := new_entry true true false 0 300; 307200 := new_entry true true true 0 301;
               308480 := new_entry true true false 0 256 ]} (300 * 4096) ∅).

Lemma sample_word a : word sample_space a =
  if decide (a = 308223) then new_entry true true false 0 300 else
  if decide (a = 307200) then new_entry true true true 0 301 else
  if decide (a = 308480) then new_entry true true false 0 256 else 0.
Proof.
  unfold word, sample_space. cbn [rest words].
  do 2 (case_decide as E; [subst; by vm_compute|rewrite lookup_insert_ne by done; clear E]).
  case_decide as E; [subst; by vm_compute|by rewrite lookup_singleton_ne].
Qed.

Lemma sample_map_ok : map_ok (physMemMap sample_space).
Proof.
  unfold sample_space. cbn [physMemMap]. split.
  - rewrite length_app, !length_replicate. done.
  - apply Forall_app. split; by apply Forall_replicate.
Qed.

Lemma sample_reserved i : 0 ≤ i < PAGE_COUNT → reserved (physMemMap sample_space) i = (i <? 512).
Proof.
  intros Hi. unfold reserved, sample_space, PAGE_COUNT in *. cbn [physMemMap].
  pose proof (Z.mod_pos_bound i 32 ltac:(lia)). destruct (Z.ltb_spec i 512).
  - assert (i / 32 < 16) by (apply Z.div_lt_upper_bound; lia). pose proof (Z.div_pos i 32).
    rewrite nthZ_app_l, nthZ_replicate by (rewrite ?length_replicate; lia). by apply all_ones_bit.
  - assert (i / 32 < 32768) by (apply Z.div_lt_upper_bound; lia). pose proof (Z.div_le_lower_bound i 32 16).
    rewrite nthZ_app_r, nthZ_replicate by (rewrite ?length_replicate; lia). apply Z.bits_0.
Qed.

Lemma sample_pde i : 0 ≤ i < 1024 → pde sample_space i =
  if decide (i = 1023) then new_entry true true false 0 300 else if decide (i = 0) then new_entry true true true 0 301 else 0.
Proof.
  intros Hi. unfold pde. change (dir_frame sample_space) with 300. rewrite sample_word.
  repeat case_decide; (done || lia).
Qed.

Lemma sample_space_ok : kernel_ok sample_space.
Proof.
  split; [done|apply sample_map_ok|by rewrite sample_pde by done|..].
  - intros i Hi. rewrite sample_pde by done. repeat case_decide; intros Hnz; [..|done];
      (split_and!; [by vm_compute|by vm_compute|by rewrite sample_reserved by by vm_compute]).
  - intros i j Hi Hj. rewrite !sample_pde by done.
    repeat case_decide; intros Hni Hnj E; (done || congruence || by vm_compute in E).
Qed.

Lemma sample_pte m : 0 ≤ m < KERNEL_PAGES → m ≠ 256 → pte sample_space m = 0.
Proof.
  intros Hm Hne. destruct (page_bounds' m Hm) as (_ & Ht & Ho). unfold pte. rewrite sample_pde by lia.
  rewrite decide_False by lia. case_decide as E; [|done].
  change (new_entry true true true 0 301 =? 0) with false. cbv iota.
  rewrite e_frame_new, sample_word by done. rewrite !decide_False; [done|..]; Z.to_euclidean_division_equations; lia.
Qed.

Lemma count_at_least (P : Z → Prop) `{∀ x, Decision (P x)} l a n :
  (∀ i, a ≤ i < a + n → P i ∧ i ∈ l) → n ≤ lenZ (filter P l).
Proof.
  intros Hin. destruct (decide (0 ≤ n)); [|lia]. rewrite <-(Z2Nat.id n) by done. rewrite <-(length_seqZ a n). apply inj_le.
  apply submseteq_length, NoDup_submseteq; [apply NoDup_seqZ|]. intros i Hi%elem_of_seqZ.
  apply list_elem_of_filter, Hin. lia.
Qed.

Lemma sample_free : 3000 ≤ Z.of_nat (free_memory sample_space).
Proof.
  apply (count_at_least _ _ 600). intros i Hi. unfold PAGE_COUNT. split; [|apply elem_of_seqZ; lia].
  rewrite sample_reserved by (unfold PAGE_COUNT; lia). apply Z.ltb_ge. lia.
Qed.

Lemma sample_budget : 1024 ≤ Z.of_nat (page_budget sample_space).
Proof.
  assert (1024 ≤ Z.of_nat (free_virtual sample_space)) as Hv.
  { apply (count_at_least _ _ 600). intros i Hi. unfold KERNEL_PAGES. split; [|apply elem_of_seqZ; lia].
    apply sample_pte; [unfold KERNEL_PAGES; lia|lia]. }
  pose proof sample_free. unfold page_budget.
  assert (1500 ≤ free_memory sample_space / 2)%nat; [|lia]. apply Nat.div_le_lower_bound; lia.
Qed.

Lemma sample_extra_ok : extra_ok sample_space.
Proof.
  assert (∀ i, info_at sample_space i = None) as Hinfo.
  { intros i. rewrite info_at_ptr. unfold sample_space. cbn [physMemExtra].
    destruct (nthZ (replicate 1024 None) (page_ptr i).1) as [[t|]|] eqn:E; [|done..].
    unfold nthZ in E. case_match; [done|]. apply list_elem_of_lookup_2, elem_of_replicate in E as [? _]. done. }
  split; [apply sample_map_ok|done| | | |done].
  - intros i t. unfold sample_space, nthZ. cbn [physMemExtra]. case_match; [done|].
    intros [? _]%list_elem_of_lookup_2%elem_of_replicate. done.
  - intros i v. by rewrite Hinfo.
  - intros i _ _. by rewrite Hinfo.
Qed.

Lemma sample_area : free_area sample_space 300 3.
Proof.
  split_and!; [done|done|]. intros m Hm. apply sample_pte; unfold KERNEL_PAGES in *; lia.
Qed.

Lemma pagingMapPhysMem_correct_witness :
  wp (__pagingMapPhysMem None 700 (5000 * PAGE_SIZE) true false) sample_space (λ addr s', addr = 5000 * PAGE_SIZE ∧
    (∃ ks, (length ks ≤ 1)%nat ∧ evolves ks sample_space s') ∧
    (∀ x, 0 ≤ x < PAGE_SIZE → translate s' (addr + x) = Some (700 * PAGE_SIZE + x)) ∧
    (∀ m x, 0 ≤ m < KERNEL_PAGES → m ≠ 5000 → 0 ≤ x < PAGE_SIZE →
       translate s' (m * PAGE_SIZE + x) = translate sample_space (m * PAGE_SIZE + x))).
Proof.
  refine (proj1 (pagingMapPhysMem_correct sample_space 700 5000 true false sample_space_ok _ _ _) _); [done|done| |].
  - pose proof sample_free. lia.
  - by apply sample_pte.
Defined.

Lemma pagingTrySearchArea_correct_witness :
  wp (pagingTrySearchArea None 3) sample_space (λ r s', s' = sample_space ∧
    (r = 0 ∧ (∀ a, ¬ free_area sample_space a 3) ∨
     ∃ a, r = a * PAGE_SIZE ∧ free_area sample_space a 3 ∧ ∀ b, b < a → ¬ free_area sample_space b 3)).
Proof. exact (pagingTrySearchArea_correct sample_space 3 sample_space_ok ltac:(done)). Defined.

Lemma pagingTryAllocatePhysMem_correct_witness :
  wp (pagingTryAllocatePhysMem None 3 true false) sample_space (λ addr s',
    addr = 0 ∧ s' = sample_space ∧ (∀ a, ¬ free_area sample_space a 3) ∨
    ∃ a ks fs, addr = a * PAGE_SIZE ∧ free_area sample_space a 3 ∧ (∀ b, b < a → ¬ free_area sample_space b 3) ∧
      lenZ fs = 3 ∧ mapped sample_space a true false fs s' ∧ taken sample_space s' fs ∧ evolves ks sample_space s' ∧
      (∀ f, f ∈ ks → f ∈ fs ∨ table s' f)).
Proof.
  refine (pagingTryAllocatePhysMem_correct sample_space 3 true false sample_space_ok ltac:(done) _).
  pose proof sample_free. lia.
Defined.

Lemma allocate_release_roundtrip_witness :
  wp (let* addr := pagingTryAllocatePhysMem None 3 true false in pagingReleasePhysMem None addr 3) sample_space (λ _ s',
    kernel_ok s' ∧ extra_ok s' ∧ (∀ m, 0 ≤ m < KERNEL_PAGES → pte s' m = pte sample_space m) ∧
    ∀ f, 0 ≤ f < PAGE_COUNT → refs s' f = refs sample_space f ∨ refs sample_space f = 0 ∧ refs s' f = 1 ∧ table s' f).
Proof.
  refine (allocate_release_roundtrip sample_space 3 true false sample_space_ok sample_extra_ok ltac:(done) _ _).
  - pose proof sample_free. lia.
  - exists 300. apply sample_area.
Defined.

Lemma getPhysMemExtraInfo_terminates_witness :
  wp (__getPhysMemExtraInfo EXTRA_FUEL 5000 true) sample_space (λ p s', p = Some (page_ptr 5000) ∧ extra_ok s' ∧
    is_Some (info_at s' 5000) ∧ (∀ j, 0 ≤ j → is_Some (info_at sample_space j) → is_Some (info_at s' j)) ∧
    ∀ j, reserved (physMemMap sample_space) j = true → reserved (physMemMap s') j = true).
Proof.
  refine (getPhysMemExtraInfo_terminates sample_space 5000 sample_space_ok sample_extra_ok ltac:(done) _).
  assert (missing sample_space ≤ 1024)%nat by (apply (length_filter (λ t, t = None) (physMemExtra sample_space))).
  pose proof sample_budget. lia.
Defined.
