(* ===== verification/Allocator.v ===== *)
(** * allocator.c: the heap of the kernel

    Models src/kernelmode/kernel/memory/allocator.c. Blocks up to 1024 bytes are
    cut out of single pages, larger ones are whole pages; each has a header of
    16 bytes in front. The headers in memory are a map from addresses, the lists
    that are linked through them are queues (LinkedList.v), and the bytes that
    the blocks hold are a map of their own. The pages come from paging.c through
    the interface [Pages]. *)

From S2P Require Import Prelude.
Open Scope Z_scope.

Definition HEAP_ALIGN_MASK := 15.
Definition SMALL_HEAP_MAGIC := 0xFEEFABB1.
Definition LARGE_HEAP_MAGIC := 0xFEEFABB2.
Definition sizeof_heapEntry := 16.

(** [struct heapEntry] without its links; the length has 31 bits. *)
Record heapEntry := HeapEntry { heapMagic : Z; h_length : Z; h_reserved : bool }.

(** The static lists of the file; [Unused] by the size of its class. *)
Inductive heapList := SmallHeap | Unused (size : Z) | LargeHeap.

#[export] Instance heapList_eq_dec : EqDecision heapList.
Proof. solve_decision. Defined.

(** What the heap needs of paging.c: [pagingAllocatePhysMem], [pagingReleasePhysMem]
    and [pagingReAllocatePhysMem] for the kernel, with a number of pages. The
    last may move the pages and what they hold. *)
Class Pages (P : Type) := {
  page_alloc : Z → M P Z;
  page_release : Z → Z → M P unit;
  page_realloc : Z → Z → Z → M P Z;
}.

Section Heap.
Context {P : Type} `{Pages P}.

Record heap := Heap {
  headers : gmap Z heapEntry;
  lists : heapList → list Z;
  contents : gmap Z Z;
  pages : P;
}.

Abbreviation HM := (M heap).

Definition set_headers (x : gmap Z heapEntry) (h : heap) : heap := Heap x (lists h) (contents h) (pages h).
Definition set_list (l : heapList) (x : list Z) (h : heap) : heap :=
  Heap (headers h) (λ l', if decide (l' = l) then x else lists h l') (contents h) (pages h).
Definition set_contents (x : gmap Z Z) (h : heap) : heap := Heap (headers h) (lists h) x (pages h).
Definition set_pages (x : P) (h : heap) : heap := Heap (headers h) (lists h) (contents h) x.
Definition with_pages {A} (m : M P A) : HM A := zoom pages set_pages m.

(** ** Headers and lists *)

Definition read_header (a : Z) : HM heapEntry :=
  let* h := get in deref (headers h !! a) "heapEntry: no header at this address".
Definition write_header (a magic length : Z) (reserved : bool) : HM unit :=
  modify (λ h, set_headers (<[a := HeapEntry magic (length mod 2147483648) reserved]> (headers h)) h).

(** [ll_add_after(list, &heap->entry)] *)
Definition list_add (l : heapList) (a : Z) : HM unit := modify (λ h, set_list l (a :: lists h l) h).

Definition all_lists : list heapList :=
  [SmallHeap; Unused 32; Unused 64; Unused 128; Unused 256; Unused 512; Unused 1024; LargeHeap].

(** [ll_remove(&heap->entry)], from the list the entry is in. *)
Definition list_remove (a : Z) : HM unit :=
  let* h := get in
  match list_find (λ l, a ∈ lists h l) all_lists with
  | Some (_, l) => put (set_list l (filter (λ b, b ≠ a) (lists h l)) h)
  | None => undef "ll_remove: entry in no list"
  end.

Definition is_small (e : heapEntry) : bool := heapMagic e =? SMALL_HEAP_MAGIC.
Definition is_large (e : heapEntry) : bool := heapMagic e =? LARGE_HEAP_MAGIC.
Definition aligned_16 (x : Z) : bool := Z.land x HEAP_ALIGN_MASK =? 0.
Definition page_aligned (x : Z) : bool := Z.land x PAGE_MASK =? 0.
Definition page_of (a : Z) : Z := a - Z.land a PAGE_MASK.
Definition round_16 (x : Z) : Z := u32 (x + HEAP_ALIGN_MASK) - Z.land (u32 (x + HEAP_ALIGN_MASK)) HEAP_ALIGN_MASK.
Definition round_page (x : Z) : Z := u32 (x + PAGE_MASK) - Z.land (u32 (x + PAGE_MASK)) PAGE_MASK.

(** ** Small blocks *)

(** The first entry of the first class that is large enough and not empty. *)
Fixpoint find_class (sizes : list Z) (length : Z) : HM (option Z) :=
  match sizes with
  | [] => mret None
  | size :: sizes =>
      let* h := get in
      match lists h (Unused size) with
      | a :: l =>
          if length <=? size then put (set_list (Unused size) l h) ;; mret (Some a)
          else find_class sizes length
      | [] => find_class sizes length
      end
  end.

Definition __smallFindUnusedHeapEntry (length : Z) : HM (option Z) := find_class [32; 64; 128; 256; 512; 1024] length.

(** The class of an unused block; [None]: the assertion at the end of the chain. *)
Definition class_of (length : Z) : option Z :=
  if 1024 <=? length then Some 1024
  else if 512 <=? length then Some 512
  else if 256 <=? length then Some 256
  else if 128 <=? length then Some 128
  else if 64 <=? length then Some 64
  else if 32 <=? length then Some 32
  else None.

Definition __smallQueueUnusedHeap (a length : Z) : HM unit :=
  if page_aligned a && (length =? PAGE_SIZE) then with_pages (page_release a 1)
  else
    match class_of length with
    | Some size => list_add (Unused size) a ;; write_header a SMALL_HEAP_MAGIC length false
    | None => panic "assert(0)"
    end.

(** The walk over the blocks of the page, up to [a]. *)
Fixpoint previous_heap (fuel : nat) (prev a : Z) : HM Z :=
  match fuel with
  | O => no_fuel
  | S fuel =>
      if prev <? a then
        let* e := read_header prev in
        assert (is_small e) "prev_heap->heapMagic == SMALL_HEAP_MAGIC" ;;
        assert (aligned_16 (h_length e)) "(prev_heap->length & HEAP_ALIGN_MASK) == 0" ;;
        if a <=? u32 (prev + h_length e) then mret prev
        else previous_heap fuel (u32 (prev + h_length e)) a
      else
        assert (prev =? a) "prev_heap == heap" ;; mret prev
  end.

Definition __smallGetPreviousHeap (a : Z) : HM Z := previous_heap 257 (page_of a) a.

Definition __smallGetNextHeap (a length : Z) : HM (option Z) :=
  let next := u32 (a + length) in
  if u32 (page_of a + PAGE_SIZE) <=? next then mret None
  else
    let* e := read_header next in
    assert (is_small e) "next_heap->heapMagic == SMALL_HEAP_MAGIC" ;;
    assert (aligned_16 (h_length e)) "(next_heap->length & HEAP_ALIGN_MASK) == 0" ;;
    mret (Some next).

Definition __smallInternalFree (deleted length : Z) : HM unit :=
  assert (aligned_16 deleted) "((uint32_t)deleted_heap & HEAP_ALIGN_MASK) == 0" ;;
  assert (aligned_16 length && (0 <? length)) "(length & HEAP_ALIGN_MASK) == 0 && length > 0" ;;
  let* prev := __smallGetPreviousHeap deleted in
  let* e := read_header prev in
  let* ' (deleted, length) :=
    (if negb (h_reserved e) then
       list_remove prev ;; mret (prev, u32 (deleted + length - prev))
     else mret (deleted, length)) in
  let* next := __smallGetNextHeap deleted length in
  let* length :=
    (match next with
     | Some next =>
         let* e := read_header next in
         if negb (h_reserved e) then
           list_remove next ;; mret (u32 (next + h_length e - deleted))
         else mret length
     | None => mret length
     end) in
  __smallQueueUnusedHeap deleted length.

Definition __smallAlloc (length : Z) : HM Z :=
  let length := round_16 (u32 (length + sizeof_heapEntry)) in
  let* found := __smallFindUnusedHeapEntry length in
  let* ' (a, orig) :=
    (match found with
     | Some a =>
         let* e := read_header a in
         assert (is_small e) "heap->heapMagic == SMALL_HEAP_MAGIC" ;;
         assert (aligned_16 (h_length e)) "(heap->length & HEAP_ALIGN_MASK) == 0" ;;
         assert (length <=? h_length e) "heap->length >= length" ;;
         assert (negb (h_reserved e)) "!heap->reserved" ;;
         mret (a, h_length e)
     | None => let* a := with_pages (page_alloc 1) in mret (a, PAGE_SIZE)
     end) in
  let length := if orig <? u32 (length + sizeof_heapEntry + 16) then orig else length in
  list_add SmallHeap a ;;
  write_header a SMALL_HEAP_MAGIC length true ;;
  when (length <? orig) (__smallInternalFree (u32 (a + length)) (orig - length)) ;;
  mret a.

Definition __smallFree (a : Z) : HM unit :=
  let* e := read_header a in
  assert (is_small e) "heap->heapMagic == SMALL_HEAP_MAGIC" ;;
  assert (aligned_16 (h_length e)) "(heap->length & HEAP_ALIGN_MASK) == 0" ;;
  assert (h_reserved e) "heap->reserved" ;;
  list_remove a ;;
  __smallInternalFree a (h_length e).

(** [None]: the block cannot be resized in its place. *)
Definition __smallReAlloc (a length : Z) : HM (option Z) :=
  let* e := read_header a in
  assert (is_small e) "heap->heapMagic == SMALL_HEAP_MAGIC" ;;
  assert (aligned_16 (h_length e)) "(heap->length & HEAP_ALIGN_MASK) == 0" ;;
  assert (h_reserved e) "heap->reserved" ;;
  if 1024 - sizeof_heapEntry <? length then mret None
  else
    let length := round_16 (u32 (length + sizeof_heapEntry)) in
    let* orig :=
      (if h_length e <? length then
         let* next := __smallGetNextHeap a (h_length e) in
         match next with
         | None => mret None
         | Some next =>
             let* n := read_header next in
             if h_reserved n then mret None
             else if u32 (next + h_length n - a) <? length then mret None
             else list_remove next ;; mret (Some (u32 (next + h_length n - a)))
         end
       else mret (Some (h_length e))) in
    match orig with
    | None => mret None
    | Some orig =>
        assert (length <=? orig) "origHeapLength >= length" ;;
        let length := if orig <? u32 (length + sizeof_heapEntry + 16) then orig else length in
        write_header a SMALL_HEAP_MAGIC length true ;;
        when (length <? orig) (__smallInternalFree (u32 (a + length)) (orig - length)) ;;
        mret (Some a)
    end.

(** ** Large blocks *)

Definition __largeAlloc (length : Z) : HM Z :=
  let length := round_page (u32 (length + sizeof_heapEntry)) in
  let* a := with_pages (page_alloc (Z.shiftr length PAGE_BITS)) in
  list_add LargeHeap a ;;
  write_header a LARGE_HEAP_MAGIC length true ;;
  mret a.

Definition __largeFree (a : Z) : HM unit :=
  assert (page_aligned a) "((uint32_t)heap & PAGE_MASK) == 0" ;;
  let* e := read_header a in
  assert (is_large e) "heap->heapMagic == LARGE_HEAP_MAGIC" ;;
  assert (page_aligned (h_length e)) "(heap->length & PAGE_MASK) == 0" ;;
  assert (h_reserved e) "heap->reserved" ;;
  list_remove a ;;
  with_pages (page_release a (Z.shiftr (h_length e) PAGE_BITS)).

(** The header and the bytes of a block move with its pages. *)
Definition move_block (a b length : Z) (h : heap) : heap :=
  if a =? b then h
  else
    let hs := match headers h !! a with Some e => <[b := e]> (delete a (headers h)) | None => headers h end in
    let cs := foldr (λ k c, match contents h !! (a + k) with Some v => <[b + k := v]> c | None => delete (b + k) c end)
                (contents h) (seqZ 0 length) in
    set_contents cs (set_headers hs h).

Definition __largeReAlloc (a length : Z) : HM (option Z) :=
  assert (page_aligned a) "((uint32_t)heap & PAGE_MASK) == 0" ;;
  let* e := read_header a in
  assert (is_large e) "heap->heapMagic == LARGE_HEAP_MAGIC" ;;
  assert (page_aligned (h_length e)) "(heap->length & PAGE_MASK) == 0" ;;
  if length <=? 1024 - sizeof_heapEntry then mret None
  else
    let length := round_page (u32 (length + sizeof_heapEntry)) in
    if length =? h_length e then mret (Some a)
    else
      list_remove a ;;
      let* b := with_pages (page_realloc a (Z.shiftr (h_length e) PAGE_BITS) (Z.shiftr length PAGE_BITS)) in
      modify (move_block a b (Z.min length (h_length e))) ;;
      let* e := read_header b in
      assert (is_large e) "heap->heapMagic == LARGE_HEAP_MAGIC" ;;
      list_add LargeHeap b ;;
      write_header b LARGE_HEAP_MAGIC length true ;;
      mret (Some b).

(** ** The functions of the heap; the address 0 is the null pointer *)

Definition heapAlloc (length : Z) : HM Z :=
  if length =? 0 then mret 0
  else
    let* a := (if length <=? 1024 - sizeof_heapEntry then __smallAlloc length else __largeAlloc length) in
    mret (if a =? 0 then 0 else u32 (a + sizeof_heapEntry)).

(** The header in front of a block. *)
Definition block_header (addr : Z) : HM (Z * heapEntry) :=
  assert (sizeof_heapEntry <=? Z.land addr PAGE_MASK) "((uint32_t)addr & PAGE_MASK) >= sizeof(struct heapEntry)" ;;
  let a := addr - sizeof_heapEntry in
  let* e := read_header a in
  assert (is_small e || is_large e) "heap->heapMagic == SMALL_HEAP_MAGIC || heap->heapMagic == LARGE_HEAP_MAGIC" ;;
  assert (h_reserved e) "heap->reserved" ;;
  mret (a, e).

Definition heapFree (addr : Z) : HM unit :=
  if addr =? 0 then mret tt
  else
    let* ' (a, e) := block_header addr in
    if is_small e then __smallFree a else __largeFree a.

Definition heapSize (addr : Z) : HM Z :=
  if addr =? 0 then mret 0
  else let* ' (_, e) := block_header addr in mret (u32 (h_length e - sizeof_heapEntry)).

(** [memcpy(new_addr, addr, length)] *)
Definition copy_bytes (dst src length : Z) (h : heap) : heap :=
  set_contents (foldr (λ k c, match contents h !! (src + k) with Some v => <[dst + k := v]> c | None => delete (dst + k) c end)
    (contents h) (seqZ 0 length)) h.

Definition heapReAlloc (addr length : Z) : HM Z :=
  if addr =? 0 then heapAlloc length
  else if length =? 0 then heapFree addr ;; mret 0
  else
    let* ' (a, e) := block_header addr in
    let* new_heap := (if is_small e then __smallReAlloc a length else __largeReAlloc a length) in
    match new_heap with
    | Some b => mret (u32 (b + sizeof_heapEntry))
    | None =>
        let* new_addr := heapAlloc length in
        if new_addr =? 0 then mret 0
        else
          let* e := read_header a in
          let size := u32 (h_length e - sizeof_heapEntry) in
          modify (copy_bytes new_addr addr (if size <? length then size else length)) ;;
          heapFree addr ;;
          mret new_addr
    end.

(** [LL_FOR_EACH] with the assertions of [heapVerify] on each entry of a list. *)
Fixpoint verify_list (l : list Z) (ok : Z → heapEntry → bool) : HM unit :=
  match l with
  | [] => mret tt
  | a :: l => let* e := read_header a in assert (ok a e) "heapVerify" ;; verify_list l ok
  end.

Definition small_entry (reserved : bool) (a : Z) (e : heapEntry) : bool :=
  aligned_16 a && is_small e && (sizeof_heapEntry + 16 <=? h_length e) && eqb (h_reserved e) reserved.
Definition large_entry (a : Z) (e : heapEntry) : bool :=
  page_aligned a && is_large e && ((0 <? h_length e) && page_aligned (h_length e)) && h_reserved e.

Fixpoint verify_unused (sizes : list Z) : HM unit :=
  match sizes with
  | [] => mret tt
  | size :: sizes =>
      let* h := get in
      verify_list (lists h (Unused size)) (small_entry false) ;; verify_unused sizes
  end.

Definition heapVerify : HM unit :=
  let* h := get in
  verify_list (lists h SmallHeap) (small_entry true) ;;
  verify_list (lists h LargeHeap) large_entry ;;
  verify_unused [32; 64; 128; 256; 512; 1024].
End Heap.
Arguments heap : clear implicits.
