(* ===== verification/HeapBlocks.v ===== *)
(** * The blocks of the heap

    The heap of Allocator.v as a map from the addresses of its blocks to their
    lengths and what they are used for. The blocks of a page cover it without
    gaps ([tiled]), and splitting, joining, adding and removing blocks keeps it
    so; [own] are the pages that the blocks cover. *)

From S2P Require Import Prelude Allocator.
Open Scope Z_scope.

(** A [Hole] is a block that is in no list: it is being split or merged. *)
Inductive use := Used | Free | Hole | Big.

#[export] Instance use_eq_dec : EqDecision use.
Proof. solve_decision. Defined.

Abbreviation blocks := (gmap Z (Z * use)).

Lemma aligned_16_mod x : aligned_16 x = (x mod 16 =? 0).
Proof. unfold aligned_16. by rewrite (land_low x 4). Qed.
Lemma page_aligned_mod x : page_aligned x = (x mod 4096 =? 0).
Proof. unfold page_aligned. by rewrite (land_low x 12). Qed.
Lemma page_of_mod x : page_of x = x - x mod 4096.
Proof. unfold page_of. by rewrite (land_low x 12). Qed.

(** ** The blocks and the pages they cover *)

Record tiled (B : blocks) : Prop := {
  ti_small a len st : B !! a = Some (len, st) → st ≠ Big →
    a mod 16 = 0 ∧ 32 ≤ len ∧ len mod 16 = 0 ∧ a mod 4096 + len ≤ 4096;
  ti_big a len : B !! a = Some (len, Big) → a mod 4096 = 0 ∧ 0 < len < 2147483648 ∧ len mod 4096 = 0;
  ti_range a len st : B !! a = Some (len, st) → 4096 ≤ a ∧ a + len ≤ 4294963200;
  ti_apart a b la sa lb sb : B !! a = Some (la, sa) → B !! b = Some (lb, sb) → a < b → a + la ≤ b;
  ti_first a len st : B !! a = Some (len, st) → st ≠ Big → ∃ l' s', B !! (a - a mod 4096) = Some (l', s') ∧ s' ≠ Big;
  ti_next a len st : B !! a = Some (len, st) → st ≠ Big → a mod 4096 + len < 4096 →
    ∃ l' s', B !! (a + len) = Some (l', s') ∧ s' ≠ Big;
}.

(** The pages of the heap, by their addresses. *)
Definition own (B : blocks) (x : Z) : Prop :=
  x mod 4096 = 0 ∧ ∃ a len st, B !! a = Some (len, st) ∧ a ≤ x < a + len.

(** Blocks that follow each other in a page are never both free. *)
Definition coalesced (B : blocks) : Prop :=
  ∀ a la lb, B !! a = Some (la, Free) → B !! (a + la) = Some (lb, Free) → (a + la) mod 4096 = 0.

(** No page is free as a whole. *)
Definition trimmed (B : blocks) : Prop := ∀ a, B !! a ≠ Some (4096, Free).

Ltac mod_lia := Z.to_euclidean_division_equations; lia.

Lemma tiled_pos B a len st : tiled B → B !! a = Some (len, st) → 0 < len.
Proof.
  intros Ht Ha. destruct (decide (st = Big)) as [->|].
  - pose proof (ti_big _ Ht _ _ Ha). lia.
  - pose proof (ti_small _ Ht _ _ _ Ha). naive_solver lia.
Qed.

(** Two blocks that overlap are the same. *)
Lemma tiled_unique B a b la sa lb sb x : tiled B →
  B !! a = Some (la, sa) → B !! b = Some (lb, sb) → a ≤ x < a + la → b ≤ x < b + lb → a = b.
Proof.
  intros Ht Ha Hb ??. destruct (Z.lt_trichotomy a b) as [Hlt|[Heq|Hlt]]; [|done|].
  - pose proof (ti_apart _ Ht _ _ _ _ _ _ Ha Hb Hlt). lia.
  - pose proof (ti_apart _ Ht _ _ _ _ _ _ Hb Ha Hlt). lia.
Qed.

(** The kind of use of a small block does not matter for the tiling. *)
Lemma tiled_retag B a len st st' : tiled B → B !! a = Some (len, st) → st ≠ Big → st' ≠ Big → tiled (<[a := (len, st')]> B).
Proof.
  intros Ht Ha Hs Hs'.
  assert (∀ x l s, <[a := (len, st')]> B !! x = Some (l, s) →
    ∃ s0, B !! x = Some (l, s0) ∧ (s = Big ↔ s0 = Big)) as Hback.
  { intros x l s. rewrite lookup_insert_Some. intros [[<- [= <- <-]]|[_ ?]]; [exists st; naive_solver|by exists s]. }
  assert (∀ x l s, B !! x = Some (l, s) → s ≠ Big → ∃ l' s', <[a := (len, st')]> B !! x = Some (l', s') ∧ s' ≠ Big) as Hfwd.
  { intros x l s Hx Hb. destruct (decide (x = a)) as [->|]; [rewrite lookup_insert_eq|rewrite lookup_insert_ne by done]; eauto. }
  split.
  - intros x l s (s0 & Hx & Hb)%Hback ?. apply (ti_small _ Ht x l s0); naive_solver.
  - intros x l (s0 & Hx & Hb)%Hback. assert (s0 = Big) as -> by by apply Hb. by apply (ti_big _ Ht).
  - intros x l s (s0 & Hx & _)%Hback. by apply (ti_range _ Ht x l s0).
  - intros x y lx sx ly sy (s0 & Hx & _)%Hback (s1 & Hy & _)%Hback. by apply (ti_apart _ Ht _ _ _ _ _ _ Hx Hy).
  - intros x l s (s0 & Hx & Hb)%Hback ?. destruct (ti_first _ Ht x l s0) as (? & ? & ? & ?); [done|naive_solver|]. eauto.
  - intros x l s (s0 & Hx & Hb)%Hback ??. destruct (ti_next _ Ht x l s0) as (? & ? & ? & ?); [done|naive_solver|done|]. eauto.
Qed.

(** A small block can be cut in two. *)
Lemma tiled_split B a len st x s1 s2 : tiled B → B !! a = Some (len, st) → st ≠ Big → s1 ≠ Big → s2 ≠ Big →
  32 ≤ x → 32 ≤ len - x → x mod 16 = 0 → tiled (<[a := (x, s1)]> (<[a + x := (len - x, s2)]> B)).
Proof.
  intros Ht Ha Hs Hs1 Hs2 Hx1 Hx2 Hx3.
  pose proof (ti_small _ Ht _ _ _ Ha Hs) as (? & ? & ? & ?). pose proof (ti_range _ Ht _ _ _ Ha).
  set (B' := <[a := _]> _).
  assert (B !! (a + x) = None) as Hnone.
  { destruct (B !! (a + x)) as [[l s]|] eqn:E; [|done]. pose proof (tiled_pos _ _ _ _ Ht E).
    assert (a = a + x) by (apply (tiled_unique B a (a + x) len st l s (a + x)); (done || lia)). lia. }
  assert (∀ y l s, B' !! y = Some (l, s) → y = a ∧ l = x ∧ s ≠ Big ∨ y = a + x ∧ l = len - x ∧ s ≠ Big ∨
    y ≠ a ∧ y ≠ a + x ∧ B !! y = Some (l, s)) as Hback.
  { intros y l s. subst B'. rewrite !lookup_insert_Some. naive_solver. }
  assert (B' !! a = Some (x, s1)) as Hfa by (subst B'; by rewrite lookup_insert_eq).
  assert (B' !! (a + x) = Some (len - x, s2)) as Hfb by (subst B'; rewrite lookup_insert_ne, lookup_insert_eq by lia; done).
  assert (∀ y l s, B !! y = Some (l, s) → s ≠ Big → ∃ l' s', B' !! y = Some (l', s') ∧ s' ≠ Big) as Hfwd.
  { intros y l s Hy ?. destruct (decide (y = a)) as [->|]; [eauto|]. exists l, s. split; [|done].
    subst B'. rewrite !lookup_insert_ne by (try done; intros <-; congruence). done. }
  assert (∀ y l s, B !! y = Some (l, s) → y ≠ a → y + l ≤ a ∨ a + len ≤ y) as Hout.
  { intros y l s Hy ?. destruct (decide (y < a)); [left; by apply (ti_apart _ Ht _ _ _ _ _ _ Hy Ha)|].
    right. apply (ti_apart _ Ht _ _ _ _ _ _ Ha Hy). lia. }
  split.
  - intros y l s [(-> & -> & _)|[(-> & -> & _)|(_ & _ & Hy)]]%Hback ?; [split_and!; (done || mod_lia)..|by apply (ti_small _ Ht y l s)].
  - intros y l [(_ & _ & ?)|[(_ & _ & ?)|(_ & _ & Hy)]]%Hback; [done..|by apply (ti_big _ Ht)].
  - intros y l s [(-> & -> & _)|[(-> & -> & _)|(_ & _ & Hy)]]%Hback; [lia..|by apply (ti_range _ Ht y l s)].
  - intros y z ly sy lz sz Hy%Hback Hz%Hback Hlt.
    destruct Hy as [(-> & -> & _)|[(-> & -> & _)|(? & _ & Hy)]], Hz as [(-> & -> & _)|[(-> & -> & _)|(? & _ & Hz)]]; try lia.
    + destruct (Hout _ _ _ Hz); [done| |lia]. pose proof (tiled_pos _ _ _ _ Ht Hz). lia.
    + destruct (Hout _ _ _ Hz); [done| |lia]. pose proof (tiled_pos _ _ _ _ Ht Hz). lia.
    + destruct (Hout _ _ _ Hy); [done|lia|lia].
    + destruct (Hout _ _ _ Hy); [done|lia|lia].
    + by apply (ti_apart _ Ht _ _ _ _ _ _ Hy Hz).
  - assert ((a + x) - (a + x) mod 4096 = a - a mod 4096) as Hpage by mod_lia.
    destruct (ti_first _ Ht _ _ _ Ha Hs) as (? & ? & ? & ?).
    intros y l s [(-> & -> & _)|[(-> & -> & _)|(_ & _ & Hy)]]%Hback ?.
    + eauto.
    + rewrite Hpage. eauto.
    + destruct (ti_first _ Ht _ _ _ Hy) as (? & ? & ? & ?); [done|]. eauto.
  - intros y l s [(-> & -> & _)|[(-> & -> & _)|(_ & _ & Hy)]]%Hback ??.
    + eauto.
    + replace (a + x + (len - x)) with (a + len) by lia.
      destruct (ti_next _ Ht _ _ _ Ha Hs) as (? & ? & ? & ?); [mod_lia|]. eauto.
    + destruct (ti_next _ Ht _ _ _ Hy) as (? & ? & ? & ?); [done..|]. eauto.
Qed.

(** Two neighbours in a page can be joined. *)
Lemma tiled_merge B a la sa lb sb st : tiled B → B !! a = Some (la, sa) → B !! (a + la) = Some (lb, sb) →
  sa ≠ Big → sb ≠ Big → st ≠ Big → (a + la) mod 4096 ≠ 0 → tiled (<[a := (la + lb, st)]> (delete (a + la) B)).
Proof.
  intros Ht Ha Hb Hsa Hsb Hst Hmod.
  pose proof (ti_small _ Ht _ _ _ Ha Hsa) as (? & ? & ? & ?). pose proof (ti_range _ Ht _ _ _ Ha).
  pose proof (ti_small _ Ht _ _ _ Hb Hsb) as (? & ? & ? & ?). pose proof (ti_range _ Ht _ _ _ Hb).
  assert (a mod 4096 + la < 4096 ∧ (a + la) mod 4096 = a mod 4096 + la) as [Hin Hm] by mod_lia.
  set (B' := <[a := _]> _).
  assert (∀ y l s, B' !! y = Some (l, s) → y = a ∧ l = la + lb ∧ s ≠ Big ∨ y ≠ a ∧ y ≠ a + la ∧ B !! y = Some (l, s)) as Hback.
  { intros y l s. subst B'. rewrite lookup_insert_Some, lookup_delete_Some. naive_solver. }
  assert (∀ y l s, B !! y = Some (l, s) → s ≠ Big → y ≠ a + la → ∃ l' s', B' !! y = Some (l', s') ∧ s' ≠ Big) as Hfwd.
  { intros y l s Hy ??. subst B'. destruct (decide (y = a)) as [->|]; [rewrite lookup_insert_eq|rewrite lookup_insert_ne, lookup_delete_ne by done]; eauto. }
  split.
  - intros y l s [(-> & -> & _)|(_ & _ & Hy)]%Hback ?; [split_and!; (done || mod_lia)|by apply (ti_small _ Ht y l s)].
  - intros y l [(_ & _ & ?)|(_ & _ & Hy)]%Hback; [done|by apply (ti_big _ Ht)].
  - intros y l s [(-> & -> & _)|(_ & _ & Hy)]%Hback; [lia|by apply (ti_range _ Ht y l s)].
  - intros y z ly sy lz sz Hy%Hback Hz%Hback Hlt.
    destruct Hy as [(-> & -> & _)|(? & ? & Hy)], Hz as [(-> & -> & _)|(? & ? & Hz)]; try lia.
    + pose proof (ti_apart _ Ht _ _ _ _ _ _ Ha Hz Hlt). pose proof (ti_apart _ Ht _ _ _ _ _ _ Hb Hz). lia.
    + by apply (ti_apart _ Ht _ _ _ _ _ _ Hy Ha).
    + by apply (ti_apart _ Ht _ _ _ _ _ _ Hy Hz).
  - intros y l s [(-> & -> & _)|(_ & _ & Hy)]%Hback ?.
    + destruct (ti_first _ Ht _ _ _ Ha Hsa) as (? & ? & ? & ?). eapply Hfwd; [done|done|]. mod_lia.
    + destruct (ti_first _ Ht _ _ _ Hy) as (? & ? & ? & ?); [done|]. eapply Hfwd; [done|done|]. mod_lia.
  - intros y l s [(-> & -> & _)|(? & _ & Hy)]%Hback ??.
    + destruct (ti_next _ Ht _ _ _ Hb Hsb) as (? & ? & He & ?); [lia|]. rewrite Z.add_assoc. eapply Hfwd; [done|done|lia].
    + destruct (ti_next _ Ht _ _ _ Hy) as (? & ? & ? & ?); [done..|]. eapply Hfwd; [done|done|]. intros E.
      destruct (ti_small _ Ht _ _ _ Hy) as (? & ? & _); [done|]. assert (y = a); [|done].
      apply (tiled_unique B y a l s la sa (a + la - 1)); (done || lia).
Qed.

(** Whole pages come and go. *)
Lemma tiled_remove B a len st : tiled B → B !! a = Some (len, st) → a mod 4096 = 0 → len mod 4096 = 0 → tiled (delete a B).
Proof.
  intros Ht Ha Hm Hl. pose proof (tiled_pos _ _ _ _ Ht Ha).
  assert (∀ y l s, delete a B !! y = Some (l, s) → y ≠ a ∧ B !! y = Some (l, s)) as Hback.
  { intros y l s. rewrite lookup_delete_Some. naive_solver. }
  split.
  - intros y l s [_ Hy]%Hback ?. by apply (ti_small _ Ht y l s).
  - intros y l [_ Hy]%Hback. by apply (ti_big _ Ht).
  - intros y l s [_ Hy]%Hback. by apply (ti_range _ Ht y l s).
  - intros y z ly sy lz sz [_ Hy]%Hback [_ Hz]%Hback. by apply (ti_apart _ Ht _ _ _ _ _ _ Hy Hz).
  - intros y l s [? Hy]%Hback ?. destruct (ti_first _ Ht _ _ _ Hy) as (l' & s' & Hp & ?); [done|]. exists l', s'.
    split; [|done]. apply lookup_delete_Some. split; [|done]. intros Heq. rewrite <-Heq, Ha in Hp. injection Hp as -> ->.
    pose proof (tiled_pos _ _ _ _ Ht Hy). assert (a = y); [|congruence]. apply (tiled_unique B a y l' s' l s y); (done || mod_lia).
  - intros y l s [? Hy]%Hback ??. destruct (ti_next _ Ht _ _ _ Hy) as (l' & s' & Hp & ?); [done..|]. exists l', s'.
    split; [|done]. apply lookup_delete_Some. split; [|done]. intros ->.
    destruct (ti_small _ Ht _ _ _ Hy) as (? & ? & _); [done|]. mod_lia.
Qed.

Lemma own_page B y l s : tiled B → B !! y = Some (l, s) → own B (y - y mod 4096).
Proof.
  intros Ht Hy. split; [mod_lia|]. destruct (decide (s = Big)) as [->|].
  - pose proof (ti_big _ Ht _ _ Hy) as (? & ? & ?). exists y, l, Big. split; [done|lia].
  - destruct (ti_first _ Ht _ _ _ Hy) as (l' & s' & Hp & ?); [done|]. exists (y - y mod 4096), l', s'.
    split; [done|]. pose proof (tiled_pos _ _ _ _ Ht Hp). lia.
Qed.

Definition fresh_pages (B : blocks) (a len : Z) : Prop :=
  a mod 4096 = 0 ∧ 4096 ≤ a ∧ a + len ≤ 4294963200 ∧ ∀ x, a ≤ x < a + len → ¬ own B x.

Lemma tiled_add B a len st : tiled B → fresh_pages B a len → 0 < len →
  (if decide (st = Big) then len < 2147483648 ∧ len mod 4096 = 0 else len = 4096) → tiled (<[a := (len, st)]> B).
Proof.
  intros Ht (Hm & Ha & Hr & Hf) Hpos Hlen.
  assert (B !! a = None) as Hnone.
  { destruct (B !! a) as [[l s]|] eqn:E; [|done]. destruct (Hf a); [lia|]. split; [done|].
    exists a, l, s. pose proof (tiled_pos _ _ _ _ Ht E). split; [done|lia]. }
  assert (∀ y l s, <[a := (len, st)]> B !! y = Some (l, s) → y = a ∧ l = len ∧ s = st ∨ y ≠ a ∧ B !! y = Some (l, s)) as Hback.
  { intros y l s. rewrite lookup_insert_Some. naive_solver. }
  assert (∀ y l s, B !! y = Some (l, s) → <[a := (len, st)]> B !! y = Some (l, s)) as Hfwd.
  { intros y l s Hy. rewrite lookup_insert_ne; [done|]. intros <-. congruence. }
  split.
  - intros y l s [(-> & -> & ->)|(_ & Hy)]%Hback ?; [|by apply (ti_small _ Ht y l s)].
    rewrite decide_False in Hlen by done. split_and!; mod_lia.
  - intros y l [(-> & -> & <-)|(_ & Hy)]%Hback; [|by apply (ti_big _ Ht)]. simpl in Hlen. naive_solver.
  - intros y l s [(-> & -> & ->)|(_ & Hy)]%Hback; [lia|by apply (ti_range _ Ht y l s)].
  - intros y z ly sy lz sz Hy%Hback Hz%Hback Hlt.
    destruct Hy as [(-> & -> & ->)|(? & Hy)], Hz as [(-> & -> & ->)|(? & Hz)]; [lia|..].
    + destruct (decide (a + len ≤ z)); [done|]. destruct (Hf (z - z mod 4096)); [|by eapply own_page]. mod_lia.
    + destruct (decide (y + ly ≤ a)); [done|]. destruct (Hf a); [lia|]. split; [done|]. exists y, ly, sy. split; [done|lia].
    + by apply (ti_apart _ Ht _ _ _ _ _ _ Hy Hz).
  - intros y l s [(-> & -> & ->)|(_ & Hy)]%Hback ?.
    + rewrite Hm, Z.sub_0_r, lookup_insert_eq. eauto.
    + destruct (ti_first _ Ht _ _ _ Hy) as (l' & s' & ? & ?); [done|]. eauto.
  - intros y l s [(-> & -> & ->)|(_ & Hy)]%Hback ??.
    + rewrite decide_False in Hlen by done. lia.
    + destruct (ti_next _ Ht _ _ _ Hy) as (l' & s' & ? & ?); [done..|]. eauto.
Qed.

Lemma own_add B a len st x : B !! a = None →
  own (<[a := (len, st)]> B) x ↔ own B x ∨ x mod 4096 = 0 ∧ a ≤ x < a + len.
Proof.
  intros Ha. unfold own. split.
  - intros (Hx & y & l & s & [[<- [= <- <-]]|[_ Hy]]%lookup_insert_Some & Hr); [by right|left; eauto 10].
  - intros [(Hx & y & l & s & Hy & Hr)|[Hx Hr]]; (split; [done|]).
    + exists y, l, s. split; [|done]. rewrite lookup_insert_ne; [done|]. intros <-. congruence.
    + exists a, len, st. by rewrite lookup_insert_eq.
Qed.

Lemma own_delete B a len st x : tiled B → B !! a = Some (len, st) →
  own (delete a B) x ↔ own B x ∧ ¬ a ≤ x < a + len.
Proof.
  intros Ht Ha. unfold own. split.
  - intros (Hx & y & l & s & [Hne Hy]%lookup_delete_Some & Hr). split; [split; [done|]; by exists y, l, s|].
    intros Hin. destruct Hne. by apply (tiled_unique B a y len st l s x).
  - intros [(Hx & y & l & s & Hy & Hr) Hout]. split; [done|]. exists y, l, s. split; [|done].
    apply lookup_delete_Some. split; [|done]. intros <-. rewrite Ha in Hy. simplify_eq. lia.
Qed.

(** ** Splitting and joining as changes of the map of blocks *)

Definition settled (B : blocks) : Prop := ∀ x len, B !! x ≠ Some (len, Hole).

(** [a] and its right neighbour as one hole. *)
Definition joined (a la lb : Z) (B : blocks) : blocks := <[a := (la + lb, Hole)]> (delete (a + la) B).

Section Joined.
Context B a la sa lb sb (Ht : tiled B) (Ha : B !! a = Some (la, sa)) (Hb : B !! (a + la) = Some (lb, sb)).

Lemma joined_ne : a ≠ a + la.
Proof. pose proof (tiled_pos _ _ _ _ Ht Ha). lia. Qed.

Lemma lookup_joined x : joined a la lb B !! x =
  if decide (x = a) then Some (la + lb, Hole) else if decide (x = a + la) then None else B !! x.
Proof.
  unfold joined. case_decide as E; [by rewrite E, lookup_insert_eq|]. rewrite lookup_insert_ne by done.
  case_decide as E'; [by rewrite E', lookup_delete_eq|by rewrite lookup_delete_ne].
Qed.

Lemma own_joined x : own (joined a la lb B) x ↔ own B x.
Proof.
  pose proof joined_ne. pose proof (tiled_pos _ _ _ _ Ht Ha). pose proof (tiled_pos _ _ _ _ Ht Hb).
  unfold own. apply and_iff_compat_l. split.
  - intros (y & l & s & Hy & Hr). rewrite lookup_joined in Hy. repeat case_decide; simplify_eq; eauto.
    destruct (decide (x < a + la)); [exists a, la, sa|exists (a + la), lb, sb]; (split; [done|lia]).
  - intros (y & l & s & Hy & Hr). destruct (decide (y = a ∨ y = a + la)) as [Hin|Hout].
    + exists a, (la + lb), Hole. rewrite lookup_joined, decide_True by done. split; [done|]. naive_solver lia.
    + exists y, l, s. rewrite lookup_joined, !decide_False by naive_solver. done.
Qed.

Lemma coalesced_joined : coalesced B → coalesced (joined a la lb B).
Proof. intros Hc y l l' Hy Hy'. rewrite lookup_joined in Hy, Hy'. repeat case_decide; simplify_eq. by eapply Hc. Qed.
End Joined.

Lemma own_retag B a len st st' x : B !! a = Some (len, st) → own (<[a := (len, st')]> B) x ↔ own B x.
Proof.
  intros Ha. unfold own. apply and_iff_compat_l. split; intros (y & l & s & Hy & Hr).
  - apply lookup_insert_Some in Hy as [[<- [= <- <-]]|[_ Hy]]; eauto.
  - destruct (decide (y = a)) as [->|].
    + rewrite Ha in Hy. simplify_eq. exists a, l, st'. by rewrite lookup_insert_eq.
    + exists y, l, s. by rewrite lookup_insert_ne.
Qed.

Lemma own_split B a len st x s1 s2 y : B !! a = Some (len, st) → 0 < x < len → B !! (a + x) = None →
  own (<[a := (x, s1)]> (<[a + x := (len - x, s2)]> B)) y ↔ own B y.
Proof.
  intros Ha Hx Hn. unfold own. apply and_iff_compat_l. split.
  - intros (z & l & s & [[<- [= <- <-]]|[_ [[<- [= <- <-]]|[_ Hz]]%lookup_insert_Some]]%lookup_insert_Some & Hr); [exists a, len, st; split; [done|lia]..|eauto].
  - intros (z & l & s & Hz & Hr). destruct (decide (z = a)) as [->|].
    + rewrite Ha in Hz. simplify_eq. destruct (decide (y < a + x)).
      * exists a, x, s1. rewrite lookup_insert_eq. split; [done|lia].
      * exists (a + x), (l - x), s2. rewrite lookup_insert_ne, lookup_insert_eq by lia. split; [done|lia].
    + exists z, l, s. rewrite !lookup_insert_ne by (try done; intros <-; congruence). done.
Qed.

(** The blocks in use are the same. *)
Definition same_used (B B' : blocks) : Prop :=
  ∀ x len st, st = Used ∨ st = Big → B' !! x = Some (len, st) ↔ B !! x = Some (len, st).
