(* ===== verification/AllocatorProofs.v ===== *)
(** * The heap: its invariant

    The state of the heap agrees with a map of blocks (HeapBlocks.v): each
    header with its block, each list with the blocks of its kind, and the pages
    with those that the blocks cover ([inv]). [heap_ok] is what the users of the
    heap see of this: the addresses and sizes of the blocks in use. [PagesLaws]
    is what the heap relies on. *)

From S2P Require Import Prelude Allocator HeapBlocks.
Open Scope Z_scope.

(** ** What the heap relies on: the pages

    [pg_ok A s]: the heap has the pages [A] of the state [s] of paging.c, and
    [pg_room n s]: it will get [n] more pages in a row. *)
Class PagesLaws (P : Type) {HP : Pages P} := {
  pg_ok : (Z → Prop) → P → Prop;
  pg_room : Z → P → Prop;
  pg_proper :: Proper (pointwise_relation Z iff ==> eq ==> iff) pg_ok;
  pg_alloc A s n : pg_ok A s → pg_room n s → 0 < n →
    wp (page_alloc n) s (λ a s', a mod 4096 = 0 ∧ 4096 ≤ a ∧ a + n * 4096 ≤ 4294963200 ∧
      (∀ x, a ≤ x < a + n * 4096 → ¬ A x) ∧ pg_ok (λ x, A x ∨ x mod 4096 = 0 ∧ a ≤ x < a + n * 4096) s');
  pg_release A s a n : pg_ok A s → 0 < n → a mod 4096 = 0 → 4096 ≤ a → a + n * 4096 ≤ 4294963200 →
    (∀ x, x mod 4096 = 0 → a ≤ x < a + n * 4096 → A x) →
    wp (page_release a n) s (λ _ s', pg_ok (λ x, A x ∧ ¬ a ≤ x < a + n * 4096) s');
}.

Definition upd {A} (f : Z → A) (a : Z) (v : A) (x : Z) : A := if decide (x = a) then v else f x.

(** The list a block is in, and its header. *)
Definition place (B : blocks) (x : Z) : option heapList :=
  match B !! x with
  | Some (_, Used) => Some SmallHeap
  | Some (len, Free) => Unused <$> class_of len
  | Some (_, Big) => Some LargeHeap
  | _ => None
  end.

Definition entry (B : blocks) (x : Z) : option heapEntry :=
  match B !! x with
  | Some (len, Used) => Some (HeapEntry SMALL_HEAP_MAGIC len true)
  | Some (len, Free) => Some (HeapEntry SMALL_HEAP_MAGIC len false)
  | Some (len, Big) => Some (HeapEntry LARGE_HEAP_MAGIC len true)
  | _ => None
  end.

Lemma class_of_le len size : class_of len = Some size → size ≤ len.
Proof. unfold class_of. repeat case_match; intros; simplify_eq; lia. Qed.

Lemma class_of_listed len size : class_of len = Some size → Unused size ∈ all_lists.
Proof. unfold class_of, all_lists. repeat case_match; intros; simplify_eq; set_solver. Qed.

Lemma class_of_Some len : 32 ≤ len → is_Some (class_of len).
Proof. unfold class_of. intros. repeat case_match; eauto. lia. Qed.

Lemma filter_ne_notin (a : Z) (l : list Z) : a ∉ l → filter (λ b, b ≠ a) l = l.
Proof.
  induction l as [|x l IH]; intros Hni; [done|]. apply not_elem_of_cons in Hni as [? ?].
  rewrite filter_cons_True by congruence. f_equal. auto.
Qed.

Section Laws.
Context {P : Type} `{PagesLaws P}.

Record st_ok (f : Z → option heapList) (g : Z → option heapEntry) (A : Z → Prop) (c : gmap Z Z) (h : heap P) : Prop := {
  so_in l a : a ∈ lists h l ↔ f a = Some l;
  so_nodup l : NoDup (lists h l);
  so_listed a l : f a = Some l → l ∈ all_lists;
  so_headers a e : g a = Some e → headers h !! a = Some e;
  so_pages : pg_ok A (pages h);
  so_contents : contents h = c;
}.

Lemma st_ok_mono f g A f' g' A' c h : st_ok f g A c h →
  (∀ x, f' x = f x) → (∀ x e, g' x = Some e → g x = Some e) → (∀ x, A' x ↔ A x) → st_ok f' g' A' c h.
Proof.
  intros [H1 H2 H3 H4 H5 H6] Hf Hg HA. split; [intros ??; by rewrite Hf|done|intros ??; rewrite Hf; apply H3|eauto| |done].
  by rewrite (HA : pointwise_relation Z iff A' A).
Qed.

Section Steps.
Context f g A c h (Hst : st_ok f g A c h).

Lemma wp_read_header a e (Q : heapEntry → heap P → Prop) : g a = Some e → Q e h → wp (read_header a) h Q.
Proof. intros Ha HQ. unfold read_header. wp_step. wp_step. by eapply wp_deref; [apply (so_headers _ _ _ _ _ Hst)|]. Qed.

Lemma wp_write_header a magic len r (Q : unit → heap P → Prop) : 0 ≤ len < 2147483648 →
  (∀ h', st_ok f (upd g a (Some (HeapEntry magic len r))) A c h' → Q tt h') → wp (write_header a magic len r) h Q.
Proof.
  intros Hl HQ. unfold write_header. wp_step. apply HQ. destruct Hst. split; simpl; try done.
  intros x e. unfold upd. rewrite Z.mod_small by lia. case_decide as E.
  - intros [= <-]. by rewrite E, lookup_insert_eq.
  - rewrite lookup_insert_ne by done. auto.
Qed.

Lemma wp_list_add l a (Q : unit → heap P → Prop) : f a = None → l ∈ all_lists →
  (∀ h', st_ok (upd f a (Some l)) g A c h' → Q tt h') → wp (list_add l a) h Q.
Proof.
  intros Ha Hl HQ. unfold list_add. wp_step. apply HQ. destruct Hst as [Hin Hnd Hall ? ? ?]. split; simpl; try done.
  - intros l' x. unfold upd. destruct (decide (l' = l)) as [->|], (decide (x = a)) as [->|].
    + split; [done|]. intros _. left.
    + rewrite elem_of_cons, Hin. naive_solver.
    + rewrite Hin, Ha. naive_solver.
    + apply Hin.
  - intros l'. case_decide as E; [|done]. apply NoDup_cons. split; [|done]. rewrite Hin. congruence.
  - intros x l'. unfold upd. case_decide; [|apply Hall]. by intros [= <-].
Qed.

Lemma st_ok_unlink l a :
  f a = Some l → st_ok (upd f a None) g A c (set_list l (filter (λ b, b ≠ a) (lists h l)) h).
Proof.
  intros Ha. destruct Hst as [Hin Hnd Hall ? ? ?]. split; simpl; try done.
  - intros l' x. unfold upd. destruct (decide (l' = l)) as [->|], (decide (x = a)) as [->|].
    + rewrite list_elem_of_filter. naive_solver.
    + rewrite list_elem_of_filter, Hin. naive_solver.
    + rewrite Hin, Ha. naive_solver.
    + apply Hin.
  - intros l'. case_decide; [|done]. by apply NoDup_filter.
  - intros x l'. unfold upd. case_decide; [done|apply Hall].
Qed.

Lemma wp_list_remove l a (Q : unit → heap P → Prop) : f a = Some l →
  (∀ h', st_ok (upd f a None) g A c h' → Q tt h') → wp (list_remove a) h Q.
Proof.
  intros Ha HQ. unfold list_remove. wp_step. wp_step.
  destruct (list_find (λ l, a ∈ lists h l) all_lists) as [[i l']|] eqn:E.
  - apply list_find_Some in E as (_ & Hl%(so_in _ _ _ _ _ Hst) & _). rewrite Ha in Hl. injection Hl as <-.
    wp_step. by apply HQ, st_ok_unlink.
  - apply list_find_None in E. rewrite Forall_forall in E. destruct (E l).
    + by apply (so_listed _ _ _ _ _ Hst a).
    + by apply (so_in _ _ _ _ _ Hst).
Qed.

Lemma wp_find_class length sizes : wp (find_class sizes length) h (λ r h',
  r = None ∧ h' = h ∨ ∃ a size, r = Some a ∧ f a = Some (Unused size) ∧ length ≤ size ∧ st_ok (upd f a None) g A c h').
Proof.
  induction sizes as [|size sizes IH]; simpl; [wp_step; by left|]. wp_step. wp_step.
  destruct (lists h (Unused size)) as [|a l] eqn:E; [done|]. destruct (Z.leb_spec length size); [|done].
  wp_steps. right. exists a, size.
  assert (f a = Some (Unused size)) as Ha by (apply (so_in _ _ _ _ _ Hst); rewrite E; left).
  split_and!; try done. pose proof (st_ok_unlink (Unused size) a Ha) as Hu. rewrite E in Hu.
  rewrite filter_cons_False in Hu by tauto. pose proof (so_nodup _ _ _ _ _ Hst (Unused size)) as Hnd. rewrite E in Hnd. apply NoDup_cons in Hnd as [Hni _].
  by rewrite filter_ne_notin in Hu.
Qed.

Lemma wp_pages_alloc n (Q : Z → heap P → Prop) : pg_room n (pages h) → 0 < n →
  (∀ a h', a mod 4096 = 0 → 4096 ≤ a → a + n * 4096 ≤ 4294963200 → (∀ x, a ≤ x < a + n * 4096 → ¬ A x) →
    st_ok f g (λ x, A x ∨ x mod 4096 = 0 ∧ a ≤ x < a + n * 4096) c h' → Q a h') →
  wp (with_pages (page_alloc n)) h Q.
Proof.
  intros Hroom Hn HQ. unfold with_pages. apply wp_zoom. eapply wp_mono; [by apply (pg_alloc A); [apply Hst|..]|].
  intros a s' (? & ? & ? & ? & ?). apply HQ; try done. destruct Hst. by split.
Qed.

Lemma wp_pages_release a n (Q : unit → heap P → Prop) : 0 < n → a mod 4096 = 0 → 4096 ≤ a → a + n * 4096 ≤ 4294963200 →
  (∀ x, x mod 4096 = 0 → a ≤ x < a + n * 4096 → A x) →
  (∀ h', st_ok f g (λ x, A x ∧ ¬ a ≤ x < a + n * 4096) c h' → Q tt h') → wp (with_pages (page_release a n)) h Q.
Proof.
  intros ? ? ? ? HA HQ. unfold with_pages. apply wp_zoom. eapply wp_mono; [by apply (pg_release A); [apply Hst|..]|].
  intros [] s' ?. apply HQ. destruct Hst. by split.
Qed.
End Steps.

(** The invariant of the heap between its calls. *)
Record inv (B : blocks) (c : gmap Z Z) (h : heap P) : Prop := {
  inv_tiled : tiled B;
  inv_coalesced : coalesced B;
  inv_trimmed : trimmed B;
  inv_settled : settled B;
  inv_state : st_ok (place B) (entry B) (own B) c h;
}.

(** ** Freeing the rest of a block, or a block *)

(** What is known while the block at [d] is in no list. *)
Record hole_at (B : blocks) (d len : Z) (g : Z → option heapEntry) (c : gmap Z Z) (h : heap P) : Prop := {
  ho_tiled : tiled B;
  ho_coalesced : coalesced B;
  ho_trimmed : trimmed B;
  ho_hole : B !! d = Some (len, Hole);
  ho_only x l : B !! x = Some (l, Hole) → x = d;
  ho_entry x e : entry B x = Some e → g x = Some e;
  ho_state : st_ok (place B) g (own B) c h;
}.

Lemma small_entry_header B x len st : B !! x = Some (len, st) → st ≠ Big → st ≠ Hole →
  entry B x = Some (HeapEntry SMALL_HEAP_MAGIC len (if decide (st = Free) then false else true)).
Proof. unfold entry. intros ->. by destruct st. Qed.

Lemma wp_previous_heap B d len g c h fuel : ∀ prev lp sp, hole_at B d len g c h →
  B !! prev = Some (lp, sp) → sp ≠ Big → d - d mod 4096 ≤ prev ≤ d → d - prev < 32 * Z.of_nat fuel →
  wp (previous_heap fuel prev d) h (λ r h', h' = h ∧ (r = d ∧ prev = d ∨
    ∃ la sa, B !! r = Some (la, sa) ∧ sa ≠ Big ∧ sa ≠ Hole ∧ r + la = d ∧ d mod 4096 ≠ 0)).
Proof.
  induction fuel as [|fuel IH]; intros prev lp sp Hh Hp Hs Hr Hf; [lia|]. cbn [previous_heap].
  destruct (Z.ltb_spec prev d) as [Hlt|Hge].
  - assert (sp ≠ Hole) as Hhole by (intros ->; pose proof (ho_only _ _ _ _ _ _ Hh _ _ Hp); lia).
    pose proof (ti_small _ (ho_tiled _ _ _ _ _ _ Hh) _ _ _ Hp Hs) as (? & ? & ? & ?).
    pose proof (ti_range _ (ho_tiled _ _ _ _ _ _ Hh) _ _ _ Hp).
    pose proof (ti_apart _ (ho_tiled _ _ _ _ _ _ Hh) _ _ _ _ _ _ Hp (ho_hole _ _ _ _ _ _ Hh) Hlt).
    wp_step. eapply wp_read_header; [apply Hh|by eapply (ho_entry _ _ _ _ _ _ Hh), small_entry_header|].
    wp_steps; [done|rewrite aligned_16_mod; simpl; lia|]. simpl. rewrite u32_small by (unfold is_u32; lia).
    destruct (Z.leb_spec d (prev + lp)).
    + wp_step. split; [done|]. right. exists lp, sp. split_and!; (done || mod_lia).
    + destruct (ti_next _ (ho_tiled _ _ _ _ _ _ Hh) _ _ _ Hp Hs) as (l' & s' & Hn & ?); [mod_lia|].
      eapply wp_mono; [apply (IH _ l' s'); (done || lia)|]. intros r h' (-> & [(-> & ?)|?]); [lia|].
      split; [done|by right].
  - assert (prev = d) as -> by lia. wp_steps; [lia|]. split; [done|by left].
Qed.

Lemma wp_previous_block B d len g c h : hole_at B d len g c h →
  wp (__smallGetPreviousHeap d) h (λ r h', h' = h ∧ (r = d ∧ d mod 4096 = 0 ∨
    ∃ la sa, B !! r = Some (la, sa) ∧ sa ≠ Big ∧ sa ≠ Hole ∧ r + la = d ∧ d mod 4096 ≠ 0)).
Proof.
  intros Hh. destruct (ti_first _ (ho_tiled _ _ _ _ _ _ Hh) d len Hole) as (l & s & Hp & Hs); [apply Hh|done|].
  unfold __smallGetPreviousHeap. rewrite page_of_mod. eapply wp_mono; [apply (wp_previous_heap B d len g c h 257 _ l s); (done || mod_lia)|].
  intros r h' (-> & [(-> & ?)|?]); (split; [done|]); [left; split; [done|mod_lia]|by right].
Qed.

(** The right neighbour of a block or hole, if there is one in its page. *)
Lemma wp_next_heap B a len st g c h (Q : option Z → heap P → Prop) : tiled B → B !! a = Some (len, st) → st ≠ Big →
  st_ok (place B) g (own B) c h →
  (∀ l s, B !! (a + len) = Some (l, s) → s ≠ Big → a mod 4096 + len < 4096 →
    ∃ r, g (a + len) = Some (HeapEntry SMALL_HEAP_MAGIC l r)) →
  ((a + len) mod 4096 = 0 → Q None h) →
  (∀ l s, B !! (a + len) = Some (l, s) → s ≠ Big → (a + len) mod 4096 ≠ 0 → Q (Some (a + len)) h) →
  wp (__smallGetNextHeap a len) h Q.
Proof.
  intros Ht Ha Hs Hst Hg Hnone Hsome. unfold __smallGetNextHeap.
  pose proof (ti_small _ Ht _ _ _ Ha Hs) as (? & ? & ? & ?). pose proof (ti_range _ Ht _ _ _ Ha).
  rewrite page_of_mod, !u32_small by (unfold is_u32, PAGE_SIZE; mod_lia). unfold PAGE_SIZE.
  destruct (Z.leb_spec (a - a mod 4096 + 0x1000) (a + len)).
  - wp_step. apply Hnone. mod_lia.
  - destruct (ti_next _ Ht _ _ _ Ha Hs) as (l & s & Hn & Hsb); [mod_lia|].
    destruct (Hg l s) as [r Hr]; [done|done|mod_lia|]. pose proof (ti_small _ Ht _ _ _ Hn Hsb) as (? & ? & ? & ?).
    wp_step. eapply wp_read_header; [done..|]. wp_steps; [done|rewrite aligned_16_mod; simpl; lia|].
    apply (Hsome l s); (done || mod_lia).
Qed.
(** The hole and a free neighbour [y], taken out of its list, are a larger hole. *)
Lemma hole_at_joined B d len g c h h' a la sa lb sb y : hole_at B d len g c h →
  B !! a = Some (la, sa) → B !! (a + la) = Some (lb, sb) → (a + la) mod 4096 ≠ 0 →
  d = a ∧ y = a + la ∧ sb = Free ∨ d = a + la ∧ y = a ∧ sa = Free →
  st_ok (upd (place B) y None) g (own B) c h' → hole_at (joined a la lb B) a (la + lb) g c h'.
Proof.
  intros [Ht Hc Htr Hd Honly Hg _] Ha Hb Hm Hcase Hst.
  assert (sa ≠ Big ∧ sb ≠ Big) as [Hsa Hsb].
  { destruct Hcase as [(-> & -> & ->)|(-> & -> & ->)]; split; intros ?; congruence. }
  assert (place B d = None) as Hpd by (unfold place; by rewrite Hd).
  split.
  - by eapply tiled_merge.
  - by apply coalesced_joined.
  - intros x. rewrite lookup_joined. repeat case_decide; (done || apply Htr).
  - by rewrite lookup_joined, decide_True.
  - intros x l. rewrite lookup_joined. repeat case_decide; try done. intros Hx%Honly. naive_solver.
  - intros x e. unfold entry. rewrite lookup_joined. repeat case_decide; try done. apply Hg.
  - eapply st_ok_mono; [done| |done|by apply own_joined with sa sb].
    intros x. unfold upd, place. rewrite lookup_joined.
    destruct Hcase as [(-> & -> & ->)|(-> & -> & ->)]; repeat case_decide; try done; simplify_eq; by rewrite ?Hd.
Qed.

Lemma same_used_joined B a la sa lb sb : tiled B → B !! a = Some (la, sa) → B !! (a + la) = Some (lb, sb) →
  sa = Free ∨ sa = Hole → sb = Free ∨ sb = Hole → same_used B (joined a la lb B).
Proof. intros Ht Ha Hb Hsa Hsb x l st Hst. rewrite lookup_joined. repeat case_decide; naive_solver. Qed.

(** What freeing must achieve, from [B] on. *)
Definition freed (B : blocks) (c : gmap Z Z) (h' : heap P) : Prop :=
  ∃ B', inv B' c h' ∧ same_used B B'.

(** Step 3: the hole has no free neighbour any more. *)
Lemma wp_queue_unused B d len g c h : hole_at B d len g c h →
  (∀ a la, B !! a = Some (la, Free) → a + la = d → d mod 4096 = 0) →
  (∀ lb, B !! (d + len) = Some (lb, Free) → (d + len) mod 4096 = 0) →
  wp (__smallQueueUnusedHeap d len) h (λ _ h', freed B c h').
Proof.
  intros [Ht Hc Htr Hd Honly Hg Hst] Hleft Hright. unfold __smallQueueUnusedHeap. rewrite page_aligned_mod.
  pose proof (ti_small _ Ht _ _ _ Hd) as (? & ? & ? & ?); [done|]. pose proof (ti_range _ Ht _ _ _ Hd).
  destruct (decide (d mod 4096 = 0 ∧ len = PAGE_SIZE)) as [[Hm ->]|Hpart].
  - rewrite (proj2 (Z.eqb_eq _ _) Hm), Z.eqb_refl. unfold PAGE_SIZE in *. simpl. eapply wp_pages_release; [done|lia|done|lia|lia| |].
    { intros x Hx Hr. split; [done|]. exists d, 4096, Hole. split; [done|lia]. }
    intros h' Hst'. exists (delete d B). split; [split|].
    + by eapply tiled_remove.
    + intros a la lb [_ Ha]%lookup_delete_Some [_ Hb]%lookup_delete_Some. by eapply Hc.
    + intros x [_ Hx]%lookup_delete_Some. by apply (Htr x).
    + intros x l [? Hx]%lookup_delete_Some. by destruct (Honly _ _ Hx).
    + eapply st_ok_mono; [done|..].
      * intros x. unfold place. destruct (decide (x = d)) as [->|]; [by rewrite lookup_delete_eq, Hd|by rewrite lookup_delete_ne].
      * intros x e. unfold entry. destruct (decide (x = d)) as [->|]; [by rewrite lookup_delete_eq|rewrite lookup_delete_ne by done]. apply Hg.
      * intros x. by eapply own_delete.
    + intros x l st Hu. rewrite lookup_delete_Some. naive_solver.
  - replace (_ && _) with false by (symmetry; apply andb_false_iff; rewrite !Z.eqb_neq; lia).
    destruct (class_of_Some len) as [size Hsize]; [lia|]. rewrite Hsize.
    wp_step. eapply wp_list_add; [done|by unfold place; rewrite Hd|by eapply class_of_listed|]. intros h1 Hst1.
    eapply wp_write_header; [done|mod_lia|]. intros h2 Hst2. exists (<[d := (len, Free)]> B). split; [split|].
    + by eapply tiled_retag.
    + intros a la lb [[<- [= <-]]|[? Ha]]%lookup_insert_Some [[Heq [= ->]]|[? Hb]]%lookup_insert_Some.
      * lia.
      * by eapply Hright.
      * rewrite <-Heq. by eapply Hleft.
      * by eapply Hc.
    + intros x [[<- [= ->]]|[_ Hx]]%lookup_insert_Some; [unfold PAGE_SIZE in Hpart; mod_lia|by apply (Htr x)].
    + intros x l [[<- ?]|[? Hx]]%lookup_insert_Some; [done|]. by destruct (Honly _ _ Hx).
    + eapply st_ok_mono; [done|..].
      * intros x. unfold place, upd. case_decide as E; [by rewrite E, lookup_insert_eq, Hsize|by rewrite lookup_insert_ne].
      * intros x e. unfold entry, upd. case_decide as E; [by rewrite E, lookup_insert_eq|rewrite lookup_insert_ne by done; apply Hg].
      * intros x. by eapply own_retag.
    + intros x l st Hu. rewrite lookup_insert_Some. naive_solver.
Qed.
Lemma place_free B x len : tiled B → B !! x = Some (len, Free) → ∃ l, place B x = Some l.
Proof.
  intros Ht Hx. unfold place. rewrite Hx. pose proof (ti_small _ Ht _ _ _ Hx) as (_ & ? & _); [done|].
  destruct (class_of_Some len) as [size ->]; [lia|]. simpl. eauto.
Qed.

Lemma same_used_trans B1 B2 B3 : same_used B1 B2 → same_used B2 B3 → same_used B1 B3.
Proof. intros H12 H23 x len st Hu. rewrite (H23 x len st Hu). by apply H12. Qed.

Lemma freed_trans B B' c h : same_used B B' → freed B' c h → freed B c h.
Proof. intros Hs (B2 & Hi & Hs2). exists B2. split; [done|by eapply same_used_trans]. Qed.

(** Step 2: join the hole with its right neighbour if that is free. *)
Lemma wp_free_right B d len g c h : hole_at B d len g c h →
  (∀ a la, B !! a = Some (la, Free) → a + la = d → d mod 4096 = 0) →
  wp (let* next := __smallGetNextHeap d len in
      let* length :=
        (match next with
         | Some next =>
             let* e := read_header next in
             if negb (h_reserved e) then list_remove next ;; mret (u32 (next + h_length e - d)) else mret len
         | None => mret len
         end) in
      __smallQueueUnusedHeap d length) h (λ _ h', freed B c h').
Proof.
  intros Hh Hleft. pose proof Hh as [Ht Hc Htr Hd Honly Hg Hst].
  assert (∀ l s, B !! (d + len) = Some (l, s) → s ≠ Big →
    s ≠ Hole ∧ g (d + len) = Some (HeapEntry SMALL_HEAP_MAGIC l (if decide (s = Free) then false else true))) as Hnb.
  { intros l s Hn Hs. pose proof (tiled_pos _ _ _ _ Ht Hd).
    assert (s ≠ Hole) by (intros ->; apply Honly in Hn; lia). split; [done|]. by apply Hg, small_entry_header. }
  wp_step. eapply (wp_next_heap B d len Hole); [done..| | |].
  - intros l s Hn Hs _. destruct (Hnb l s) as [_ ->]; [done..|]. eauto.
  - intros Hm. wp_steps. by apply (wp_queue_unused B d len g).
  - intros l s Hn Hs Hm. destruct (Hnb l s) as [Hs' Hgn]; [done..|].
    wp_step. wp_step. eapply wp_read_header; [done..|]. simpl. case_decide as E; simpl.
    + subst s. destruct (place_free _ _ _ Ht Hn) as [pl Hpl]. wp_step. eapply wp_list_remove; [done..|].
      intros h1 Hst1. wp_step. pose proof (ti_range _ Ht _ _ _ Hn). pose proof (tiled_pos _ _ _ _ Ht Hd).
      pose proof (tiled_pos _ _ _ _ Ht Hn). pose proof (ti_range _ Ht _ _ _ Hd).
      replace (u32 (d + len + l - d)) with (len + l) by (rewrite u32_small; [lia|unfold is_u32; lia]).
      assert (hole_at (joined d len l B) d (len + l) g c h1) as Hh1.
      { eapply hole_at_joined; [done..| |done]. left. done. }
      eapply wp_mono; [apply (wp_queue_unused _ _ _ _ _ _ Hh1)|].
      * intros a la. rewrite lookup_joined. repeat case_decide; try done. apply Hleft.
      * intros lb. rewrite lookup_joined. repeat case_decide; try done. intros Hf. rewrite Z.add_assoc in *. by eapply Hc.
      * intros [] h2. apply freed_trans. eapply same_used_joined; eauto.
    + wp_step. apply (wp_queue_unused B d len g); [done..|]. intros lb Hf. rewrite Hn in Hf. by simplify_eq.
Qed.

(** [__smallInternalFree] makes the hole free and joins it with its neighbours. *)
Lemma wp_internal_free B d len g c h : hole_at B d len g c h →
  (d mod 4096 = 0 → ∃ m l, g d = Some (HeapEntry m l true)) →
  wp (__smallInternalFree d len) h (λ _ h', freed B c h').
Proof.
  intros Hh Hfirst. pose proof Hh as [Ht Hc Htr Hd Honly Hg Hst].
  pose proof (ti_small _ Ht _ _ _ Hd) as (? & ? & ? & ?); [done|]. pose proof (ti_range _ Ht _ _ _ Hd).
  unfold __smallInternalFree. rewrite !aligned_16_mod. wp_step. wp_step; [lia|]. wp_step. wp_step; [apply andb_true_iff; lia|].
  wp_step. eapply wp_mono; [by eapply wp_previous_block|].
  intros r h' (-> & [(-> & Hm)|(la & sa & Hr & Hsb & Hsh & <- & Hm)]).
  - destruct (Hfirst Hm) as (m & l & Hgd). wp_step. eapply wp_read_header; [done..|]. simpl. wp_step. by apply (wp_free_right B d len g).
  - wp_step. eapply wp_read_header; [done|by apply Hg, small_entry_header|]. simpl. case_decide as E; simpl.
    + subst sa. destruct (place_free _ _ _ Ht Hr) as [pl Hpl]. wp_steps. eapply wp_list_remove; [done..|].
      intros h1 Hst1. wp_step. pose proof (tiled_pos _ _ _ _ Ht Hr). pose proof (ti_range _ Ht _ _ _ Hr).
      replace (u32 (r + la + len - r)) with (la + len) by (rewrite u32_small; [lia|unfold is_u32; lia]).
      assert (hole_at (joined r la len B) r (la + len) g c h1) as Hh1.
      { eapply hole_at_joined; [done..| |done]. right. done. }
      eapply wp_mono; [apply (wp_free_right _ _ _ _ _ _ Hh1)|].
      * intros a l. rewrite lookup_joined. repeat case_decide; try done. intros Ha <-. by eapply Hc.
      * intros [] h2. apply freed_trans. eapply same_used_joined; eauto.
    + wp_step. wp_step. apply (wp_free_right B (r + la) len g); [done|]. intros a l Ha Heq.
      assert (a = r) as ->; [|congruence]. pose proof (tiled_pos _ _ _ _ Ht Ha). pose proof (tiled_pos _ _ _ _ Ht Hr).
      apply (tiled_unique B a r l Free la sa (r + la - 1)); (done || lia).
Qed.
(** ** Allocating *)

(** A small block, taken out of its list, is a hole. *)
Lemma hole_at_retag B a len st g c h : tiled B → coalesced B → trimmed B → settled B → B !! a = Some (len, st) → st ≠ Big →
  (∀ x e, x ≠ a → entry B x = Some e → g x = Some e) →
  st_ok (upd (place B) a None) g (own B) c h → hole_at (<[a := (len, Hole)]> B) a len g c h.
Proof.
  intros Ht Hc Htr Hs Ha Hb Hg Hst. split.
  - by eapply tiled_retag.
  - intros x l l' [[_ ?]|[_ Hx]]%lookup_insert_Some [[_ ?]|[_ Hy]]%lookup_insert_Some; try done. by eapply Hc.
  - intros x [[_ ?]|[_ Hx]]%lookup_insert_Some; [done|by apply (Htr x)].
  - by rewrite lookup_insert_eq.
  - intros x l [[-> _]|[_ Hx]]%lookup_insert_Some; [done|]. by destruct (Hs x l).
  - intros x e. unfold entry. destruct (decide (x = a)) as [->|]; [by rewrite lookup_insert_eq|].
    rewrite lookup_insert_ne by done. by apply Hg.
  - eapply st_ok_mono; [done| |done|by intros; eapply own_retag].
    intros x. unfold place, upd. case_decide as E; [by rewrite E, lookup_insert_eq|by rewrite lookup_insert_ne].
Qed.

(** A new page is a hole. *)
Lemma hole_at_page B a g c h : tiled B → coalesced B → trimmed B → settled B → fresh_pages B a 4096 →
  (∀ x e, entry B x = Some e → g x = Some e) →
  st_ok (place B) g (λ x, own B x ∨ x mod 4096 = 0 ∧ a ≤ x < a + 4096) c h →
  B !! a = None ∧ hole_at (<[a := (4096, Hole)]> B) a 4096 g c h.
Proof.
  intros Ht Hc Htr Hs Hf Hg Hst. assert (B !! a = None) as Hnone.
  { destruct (B !! a) as [[l s]|] eqn:E; [|done]. destruct Hf as (Hm & _ & _ & Hf). destruct (Hf a); [lia|].
    split; [done|]. exists a, l, s. pose proof (tiled_pos _ _ _ _ Ht E). split; [done|lia]. }
  split; [done|]. split.
  - by apply tiled_add.
  - intros x l l' [[_ ?]|[_ Hx]]%lookup_insert_Some [[_ ?]|[_ Hy]]%lookup_insert_Some; try done. by eapply Hc.
  - intros x [[_ ?]|[_ Hx]]%lookup_insert_Some; [done|by apply (Htr x)].
  - by rewrite lookup_insert_eq.
  - intros x l [[-> _]|[_ Hx]]%lookup_insert_Some; [done|]. by destruct (Hs x l).
  - intros x e. unfold entry. destruct (decide (x = a)) as [->|]; [by rewrite lookup_insert_eq|].
    rewrite lookup_insert_ne by done. by apply Hg.
  - eapply st_ok_mono; [done| |done|].
    + intros x. unfold place. destruct (decide (x = a)) as [->|]; [by rewrite lookup_insert_eq, Hnone|by rewrite lookup_insert_ne].
    + intros x. by apply own_add.
Qed.
(** From [B] to [B'] the block at [a] was taken. *)
Definition allocated (B : blocks) (a len : Z) (st : use) (B' : blocks) : Prop :=
  ∀ x l s, s = Used ∨ s = Big → B' !! x = Some (l, s) ↔ x = a ∧ l = len ∧ s = st ∨ x ≠ a ∧ B !! x = Some (l, s).

(** A hole is put in use, up to a rest that becomes free. *)
Lemma wp_reserve {A} B a orig len g c h (k : M (heap P) A) Q : hole_at B a orig g c h →
  32 ≤ len → len mod 16 = 0 → len = orig ∨ len + 32 ≤ orig →
  (∀ B' h', inv B' c h' → allocated B a len Used B' → wp k h' Q) →
  ∀ h1, st_ok (upd (place B) a (Some SmallHeap)) g (own B) c h1 →
  wp (write_header a SMALL_HEAP_MAGIC len true ;;
      when (len <? orig) (__smallInternalFree (u32 (a + len)) (orig - len)) ;; k) h1 Q.
Proof.
  intros [Ht Hc Htr Hd Honly Hg _] Hl Hm Hcase HQ h1 Hst.
  pose proof (ti_small _ Ht _ _ _ Hd) as (? & ? & ? & ?); [done|]. pose proof (ti_range _ Ht _ _ _ Hd).
  wp_step. eapply wp_write_header; [done|mod_lia|]. intros h2 Hst2. wp_step. destruct Hcase as [->|Hrest].
  - rewrite Z.ltb_irrefl. apply wp_ret, (HQ (<[a := (orig, Used)]> B)); [split|].
    + by eapply tiled_retag.
    + intros x l l' [[_ ?]|[_ Hx]]%lookup_insert_Some [[_ ?]|[_ Hy]]%lookup_insert_Some; try done. by eapply Hc.
    + intros x [[_ ?]|[_ Hx]]%lookup_insert_Some; [done|by apply (Htr x)].
    + intros x l [[_ ?]|[? Hx]]%lookup_insert_Some; [done|]. by destruct (Honly _ _ Hx).
    + eapply st_ok_mono; [done|..].
      * intros x. unfold place, upd. case_decide as E; [by rewrite E, lookup_insert_eq|by rewrite lookup_insert_ne].
      * intros x e. unfold entry, upd. case_decide as E; [by rewrite E, lookup_insert_eq|rewrite lookup_insert_ne by done; apply Hg].
      * intros x. by eapply own_retag.
    + intros x l s Hs. rewrite lookup_insert_Some. naive_solver.
  - rewrite (proj2 (Z.ltb_lt _ _)), u32_small by (unfold is_u32; lia).
    assert (B !! (a + len) = None) as Hnone.
    { destruct (B !! (a + len)) as [[l s]|] eqn:E; [|done]. pose proof (tiled_pos _ _ _ _ Ht E).
      assert (a = a + len) by (apply (tiled_unique B a (a + len) orig Hole l s (a + len)); (done || lia)). lia. }
    set (B1 := <[a := (len, Used)]> (<[a + len := (orig - len, Hole)]> B)).
    assert (∀ x, B1 !! x = if decide (x = a) then Some (len, Used) else if decide (x = a + len) then Some (orig - len, Hole) else B !! x) as HB1.
    { intros x. unfold B1. case_decide as E; [by rewrite E, lookup_insert_eq|]. rewrite lookup_insert_ne by done.
      case_decide as E'; [by rewrite E', lookup_insert_eq|by rewrite lookup_insert_ne]. }
    eapply wp_mono; [apply (wp_internal_free B1 (a + len) (orig - len) (upd g a (Some (HeapEntry SMALL_HEAP_MAGIC len true))) c h2)|].
    + split.
      * eapply tiled_split; (done || lia).
      * intros x l l'. rewrite !HB1. repeat case_decide; try done. apply Hc.
      * intros x. rewrite HB1. repeat case_decide; (done || apply Htr).
      * rewrite HB1. rewrite decide_False, decide_True by lia. done.
      * intros x l. rewrite HB1. repeat case_decide; try done. intros Hx. by destruct (Honly _ _ Hx).
      * intros x e. unfold entry, upd. rewrite HB1. repeat case_decide; try done. apply Hg.
      * eapply st_ok_mono; [done| |done|].
        -- intros x. unfold place, upd. rewrite HB1. repeat case_decide; try done. subst x. by rewrite Hnone.
        -- intros x. eapply own_split; [done|lia|done].
    + intros Hz. exfalso. mod_lia.
    + intros [] h3 (B' & Hi & Hs). apply (HQ B'); [done|]. intros x l s Hu. rewrite (Hs x l s Hu), HB1.
      case_decide; [naive_solver|]. case_decide; [|naive_solver]. subst x. rewrite Hnone. naive_solver.
Qed.

Lemma round_16_mod x : 0 ≤ x < 2147483648 → round_16 x mod 16 = 0 ∧ x ≤ round_16 x < x + 16.
Proof.
  intros. unfold round_16. rewrite u32_small by (unfold is_u32, HEAP_ALIGN_MASK; lia). rewrite (land_low _ 4) by done.
  unfold HEAP_ALIGN_MASK. mod_lia.
Qed.

Lemma round_page_mod x : 0 ≤ x < 2147483648 → round_page x mod 4096 = 0 ∧ x ≤ round_page x < x + 4096.
Proof.
  intros. unfold round_page. rewrite u32_small by (unfold is_u32, PAGE_MASK; lia). rewrite (land_low _ 12) by done.
  unfold PAGE_MASK. mod_lia.
Qed.

(** The length that is reserved of a block of [orig] bytes. *)
Lemma use_full len orig : 0 ≤ len < 4096 → len ≤ orig →
  let len' := if orig <? u32 (len + sizeof_heapEntry + 16) then orig else len in
  len ≤ len' ∧ (len' = orig ∨ len' = len ∧ len' + 32 ≤ orig).
Proof.
  intros ? ?. rewrite u32_small by (unfold is_u32, sizeof_heapEntry; lia). unfold sizeof_heapEntry.
  destruct (Z.ltb_spec orig (len + 16 + 16)); simpl; lia.
Qed.
Lemma inv_not_hole B c h a len : inv B c h → B !! a = Some (len, Hole) → False.
Proof. intros Hi Ha. by destruct (inv_settled _ _ _ Hi a len). Qed.

Lemma allocated_retag B a orig len st B' : allocated (<[a := (orig, Hole)]> B) a len st B' → allocated B a len st B'.
Proof. intros Ha x l s Hs. rewrite (Ha x l s Hs), lookup_insert_Some. naive_solver. Qed.

(** Both ways to find room leave it as a hole of sufficient length. *)
Lemma wp_find_room B c h len : inv B c h → pg_room 1 (pages h) → 32 ≤ len ≤ 1024 →
  wp (let* found := __smallFindUnusedHeapEntry len in
      match found with
      | Some a =>
          let* e := read_header a in
          assert (is_small e) "heap->heapMagic == SMALL_HEAP_MAGIC" ;;
          assert (aligned_16 (h_length e)) "(heap->length & HEAP_ALIGN_MASK) == 0" ;;
          assert (len <=? h_length e) "heap->length >= length" ;;
          assert (negb (h_reserved e)) "!heap->reserved" ;;
          mret (a, h_length e)
      | None => let* a := with_pages (page_alloc 1) in mret (a, PAGE_SIZE)
      end) h (λ r h', let ' (a, orig) := r in len ≤ orig ∧ (∀ l s, s = Used ∨ s = Big → B !! a ≠ Some (l, s)) ∧
        ∃ g, hole_at (<[a := (orig, Hole)]> B) a orig g c h').
Proof.
  intros Hi Hroom Hl. destruct Hi as [Ht Hc Htr Hs Hst]. wp_step. unfold __smallFindUnusedHeapEntry.
  eapply wp_mono; [by apply (wp_find_class _ _ _ _ _ Hst)|].
  intros r h' [[-> ->]|(a & size & -> & Hpl & Hsize & Hst')].
  - wp_step. eapply wp_pages_alloc; [done..|lia|]. intros a h' Hm Ha Hr Hf Hst'. rewrite Z.mul_1_l in *. wp_step.
    destruct (hole_at_page B a (entry B) c h') as [Hn Hh]; try done.
    split_and!; [unfold PAGE_SIZE; lia|by rewrite Hn|by exists (entry B)].
  - assert (∃ orig, B !! a = Some (orig, Free) ∧ size ≤ orig) as (orig & Ha & Ho).
    { unfold place in Hpl. destruct (B !! a) as [[orig []]|]; try done. exists orig. split; [done|].
      destruct (class_of orig) eqn:E; simplify_eq/=. by apply class_of_le. }
    pose proof (ti_small _ Ht _ _ _ Ha) as (? & ? & ? & ?); [done|].
    wp_step. eapply wp_read_header; [done|by unfold entry; rewrite Ha|]. rewrite aligned_16_mod. simpl.
    wp_steps; [lia|lia|]. split_and!; [lia|by rewrite Ha; intros l s [-> | ->]|].
    exists (entry B). by eapply hole_at_retag.
Qed.

Lemma wp_small_alloc B c h n : inv B c h → pg_room 1 (pages h) → 1 ≤ n ≤ 1008 →
  wp (__smallAlloc n) h (λ a h', ∃ B' len, inv B' c h' ∧ allocated B a len Used B' ∧ n + 16 ≤ len ∧
    (∀ l s, s = Used ∨ s = Big → B !! a ≠ Some (l, s))).
Proof.
  intros Hi Hroom Hn. unfold __smallAlloc. destruct (round_16_mod (n + 16)) as [Hm Hr]; [lia|].
  replace (round_16 (u32 (n + sizeof_heapEntry))) with (round_16 (n + 16)) by (rewrite u32_small by (unfold is_u32, sizeof_heapEntry; lia); done).
  set (len := round_16 (n + 16)) in *. clearbody len. cbv zeta.
  assert (32 ≤ len ≤ 1024) as Hlen by mod_lia. pose proof (wp_bind_inv _ _ _ _ (wp_find_room B c h len Hi Hroom Hlen)) as Hf.
  wp_step. eapply wp_mono; [exact Hf|]. clear Hf. intros found h0 Hf. wp_step. eapply wp_mono; [exact Hf|]. clear Hf.
  intros [a orig] h1 (Ho & Hnot & g & Hh). pose proof (ho_hole _ _ _ _ _ _ Hh) as Hd.
  pose proof (ti_small _ (ho_tiled _ _ _ _ _ _ Hh) _ _ _ Hd) as (? & ? & ? & ?); [done|].
  destruct (use_full len orig) as [Hge Hfull]; [mod_lia|lia|]. cbv zeta in Hge, Hfull |- *.
  set (len' := if orig <? _ then orig else len) in *. clearbody len'.
  wp_step. eapply wp_list_add; [apply Hh|by unfold place; rewrite Hd|by left|]. intros h2 Hst2.
  eapply wp_reserve; [done|lia|naive_solver|tauto| |done]. intros B' h3 Hi' Hal. wp_step.
  exists B', len'. split_and!; [done|by eapply allocated_retag|lia|done].
Qed.
Lemma wp_large_alloc_len B c h n len : inv B c h → round_page (u32 (n + sizeof_heapEntry)) = len →
  0 < len < 2147483648 → len mod 4096 = 0 → pg_room (len / 4096) (pages h) →
  wp (__largeAlloc n) h (λ a h', ∃ B', inv B' c h' ∧ allocated B a len Big B' ∧ (∀ l s, s = Used ∨ s = Big → B !! a ≠ Some (l, s))).
Proof.
  intros [Ht Hc Htr Hs Hst] Heq Hr Hm Hroom. unfold __largeAlloc. rewrite Heq. cbv zeta.
  assert (Z.shiftr len PAGE_BITS = len / 4096) as Hpages by (unfold PAGE_BITS; by rewrite Z.shiftr_div_pow2).
  assert (len / 4096 * 4096 = len) as Hlen by mod_lia.
  rewrite Hpages. wp_step. eapply wp_pages_alloc; [done..|mod_lia|]. rewrite Hlen. intros a h1 Ha1 Ha2 Ha3 Hf Hst1.
  assert (B !! a = None) as Hnone.
  { destruct (B !! a) as [[l s]|] eqn:E; [|done]. destruct (Hf a); [lia|].
    split; [done|]. exists a, l, s. pose proof (tiled_pos _ _ _ _ Ht E). split; [done|lia]. }
  wp_step. eapply wp_list_add; [done|by unfold place; rewrite Hnone|unfold all_lists; set_solver|]. intros h2 Hst2.
  wp_step. eapply wp_write_header; [done|lia|]. intros h3 Hst3. wp_step.
  exists (<[a := (len, Big)]> B). split_and!; [split| |by rewrite Hnone].
  - apply tiled_add; [done|done|lia|]. simpl. lia.
  - intros x l l' [[_ ?]|[_ Hx]]%lookup_insert_Some [[_ ?]|[_ Hy]]%lookup_insert_Some; try done. by eapply Hc.
  - intros x [[_ ?]|[_ Hx]]%lookup_insert_Some; [done|by apply (Htr x)].
  - intros x l [[_ ?]|[_ Hx]]%lookup_insert_Some; [done|]. by apply (Hs x l).
  - eapply st_ok_mono; [done|..].
    + intros x. unfold place, upd. case_decide as E; [by rewrite E, lookup_insert_eq|by rewrite lookup_insert_ne].
    + intros x e. unfold entry, upd. case_decide as E; [by rewrite E, lookup_insert_eq|by rewrite lookup_insert_ne].
    + intros x. by apply own_add.
  - intros x l s Hs'. rewrite lookup_insert_Some. naive_solver.
Qed.

Lemma wp_large_alloc B c h n : inv B c h → 1008 < n ≤ 2147479536 → pg_room ((n + 4111) / 4096) (pages h) →
  wp (__largeAlloc n) h (λ a h', ∃ B' len, inv B' c h' ∧ allocated B a len Big B' ∧ n + 16 ≤ len ∧
    (∀ l s, s = Used ∨ s = Big → B !! a ≠ Some (l, s))).
Proof.
  intros Hi Hn Hroom. destruct (round_page_mod (n + 16)) as [Hm Hr]; [lia|].
  assert (round_page (n + 16) / 4096 = (n + 4111) / 4096) as Hpages by mod_lia.
  eapply wp_mono; [eapply (wp_large_alloc_len B c h n (round_page (n + 16))); try done; try lia|].
  - by rewrite u32_small by (unfold is_u32, sizeof_heapEntry; lia).
  - by rewrite Hpages.
  - intros a h' (B' & ? & ? & ?). exists B', (round_page (n + 16)). split_and!; (done || lia).
Qed.

(** ** The heap as its users see it

    [L] maps the addresses that [heapAlloc] returned and that were not freed
    yet to the sizes of their blocks, [c] is what the blocks hold. *)
Definition heap_ok (L : gmap Z Z) (c : gmap Z Z) (h : heap P) : Prop :=
  ∃ B, inv B c h ∧ ∀ r len, L !! r = Some len ↔ ∃ st, (st = Used ∨ st = Big) ∧ B !! (r - 16) = Some (len + 16, st).

(** Blocks in use do not overlap, not even with each other's headers. *)
Lemma heap_ok_apart L c h r s lr ls : heap_ok L c h → L !! r = Some lr → L !! s = Some ls → r < s → r + lr ≤ s - 16.
Proof.
  intros (B & Hi & HL) (st & _ & Hr)%HL (st' & _ & Hs)%HL Hlt.
  pose proof (ti_apart _ (inv_tiled _ _ _ Hi) _ _ _ _ _ _ Hr Hs). lia.
Qed.

Lemma heap_ok_block L c h r len : heap_ok L c h → L !! r = Some len → 4096 < r ∧ r mod 16 = 0 ∧ 16 ≤ len ∧ r + len < 4294967296.
Proof.
  intros (B & Hi & HL) (st & [-> | ->] & Hr)%HL; pose proof (ti_range _ (inv_tiled _ _ _ Hi) _ _ _ Hr).
  - pose proof (ti_small _ (inv_tiled _ _ _ Hi) _ _ _ Hr) as (? & ? & ? & ?); [done|]. split_and!; mod_lia.
  - pose proof (ti_big _ (inv_tiled _ _ _ Hi) _ _ Hr) as (? & ? & ?). split_and!; mod_lia.
Qed.

Lemma heap_ok_allocated L B B' a len st c h' : (∀ r len, L !! r = Some len ↔ ∃ st, (st = Used ∨ st = Big) ∧ B !! (r - 16) = Some (len + 16, st)) →
  inv B' c h' → allocated B a len st B' → st = Used ∨ st = Big → (∀ l s, s = Used ∨ s = Big → B !! a ≠ Some (l, s)) →
  L !! (a + 16) = None ∧ heap_ok (<[a + 16 := len - 16]> L) c h'.
Proof.
  intros HL Hi Hal Hst Hno. split.
  - destruct (L !! (a + 16)) as [l|] eqn:E; [|done]. apply HL in E as (s & Hs & E).
    replace (a + 16 - 16) with a in E by lia. by destruct (Hno (l + 16) s Hs).
  - exists B'. split; [done|]. intros r l. destruct (decide (r = a + 16)) as [->|Hne].
    + rewrite lookup_insert_eq. replace (a + 16 - 16) with a by lia. split.
      * intros [= <-]. exists st. split; [done|]. apply Hal; [done|]. left. split_and!; (done || lia).
      * intros (s & Hs & [(_ & Heq & _)|[? _]]%(Hal _ _ _ Hs)); [f_equal; lia|done].
    + rewrite lookup_insert_ne by done. rewrite HL. split; intros (s & Hs & Hx); exists s; (split; [done|]).
      * apply Hal; [done|]. right. split; [lia|done].
      * apply (Hal _ _ _ Hs) in Hx as [(? & _)|[_ ?]]; [lia|done].
Qed.

Lemma wp_heap_alloc L c h n : heap_ok L c h → 1 ≤ n ≤ 2147479536 → pg_room (if n <=? 1008 then 1 else (n + 4111) / 4096) (pages h) →
  wp (heapAlloc n) h (λ r h', ∃ len, L !! r = None ∧ n ≤ len ∧ heap_ok (<[r := len]> L) c h').
Proof.
  intros (B & Hi & HL) Hn Hroom. unfold heapAlloc, sizeof_heapEntry. rewrite (proj2 (Z.eqb_neq n 0)) by lia. change (1024 - 16) with 1008.
  assert (∀ a h1 st B' len, st = Used ∨ st = Big → inv B' c h1 → allocated B a len st B' → n + 16 ≤ len →
    (∀ l s, s = Used ∨ s = Big → B !! a ≠ Some (l, s)) →
    wp (mret (if a =? 0 then 0 else u32 (a + 16))) h1 (λ r h', ∃ len, L !! r = None ∧ n ≤ len ∧ heap_ok (<[r := len]> L) c h')) as Hend.
  { intros a h1 st B' len Hst Hi' Hal Hlen Hno. destruct (heap_ok_allocated _ _ _ _ _ _ _ _ HL Hi' Hal Hst Hno) as [Hnone Hok].
    pose proof (heap_ok_block _ _ _ _ _ Hok (lookup_insert_eq _ _ _)) as (? & ? & ? & ?).
    rewrite (proj2 (Z.eqb_neq a 0)), u32_small by (unfold is_u32; lia). wp_step. exists (len - 16). split_and!; [done|lia|done]. }
  wp_step. destruct (Z.leb_spec n 1008).
  - eapply wp_mono; [apply (wp_small_alloc B c); (done || lia)|]. intros a h1 (B' & len & ? & ? & ? & ?). by apply (Hend a h1 Used B' len); auto.
  - eapply wp_mono; [apply (wp_large_alloc B c); (done || lia)|]. intros a h1 (B' & len & ? & ? & ? & ?). by apply (Hend a h1 Big B' len); auto.
Qed.

(** Without a block in use the heap has no pages: free blocks are joined and
    free pages are given back. *)
Lemma heap_ok_empty c h : heap_ok ∅ c h → pg_ok (λ _, False) (pages h).
Proof.
  intros (B & [Ht Hc Htr Hs Hst] & HL).
  assert (∀ a l s, B !! a = Some (l, s) → s = Free) as Hfree.
  { intros a l s Ha. destruct s; try done; [|by destruct (Hs a l)|];
      (assert ((∅ : gmap Z Z) !! (a + 16) = Some (l - 16)) as Hx; [|done]); apply HL;
      replace (a + 16 - 16) with a by lia; replace (l - 16 + 16) with l by lia; eauto. }
  assert (∀ a l s, B !! a ≠ Some (l, s)) as Hnone.
  { intros a l s Ha. assert (s = Free) as -> by by eapply Hfree.
    destruct (ti_first _ Ht _ _ _ Ha) as (l0 & s0 & Hp & ?); [done|]. assert (s0 = Free) as -> by by eapply Hfree.
    pose proof (ti_small _ Ht _ _ _ Hp) as (? & ? & ? & ?); [done|].
    assert (l0 ≠ 4096) by (intros ->; by apply (Htr _ Hp)).
    destruct (ti_next _ Ht _ _ _ Hp) as (l1 & s1 & Hn & ?); [done|mod_lia|].
    assert (s1 = Free) as -> by by eapply Hfree. pose proof (Hc _ _ _ Hp Hn). mod_lia. }
  assert (pointwise_relation Z iff (λ _, False) (own B)) as ->; [|apply Hst].
  intros x. split; [done|]. intros (_ & a & l & s & Ha & _). by apply (Hnone a l s).
Qed.

(** From [B] to [B'] the block at [a] was given back. *)
Definition given_back (B : blocks) (a : Z) (B' : blocks) : Prop :=
  ∀ x l s, s = Used ∨ s = Big → B' !! x = Some (l, s) ↔ x ≠ a ∧ B !! x = Some (l, s).

Lemma wp_small_free B c h a len : inv B c h → B !! a = Some (len, Used) →
  wp (__smallFree a) h (λ _ h', ∃ B', inv B' c h' ∧ given_back B a B').
Proof.
  intros [Ht Hc Htr Hs Hst] Ha. pose proof (ti_small _ Ht _ _ _ Ha) as (? & ? & ? & ?); [done|].
  assert (entry B a = Some (HeapEntry SMALL_HEAP_MAGIC len true)) as He by (unfold entry; by rewrite Ha).
  unfold __smallFree. wp_step. eapply wp_read_header; [done..|]. rewrite aligned_16_mod. simpl.
  wp_steps; [lia|]. eapply wp_list_remove; [done|by unfold place; rewrite Ha|]. intros h1 Hst1.
  eapply wp_mono; [apply (wp_internal_free (<[a := (len, Hole)]> B) a len (entry B) c h1)|].
  - by eapply hole_at_retag.
  - intros _. rewrite He. eauto.
  - intros [] h2 (B' & Hi & Hsame). exists B'. split; [done|]. intros x l s Hu.
    rewrite (Hsame x l s Hu), lookup_insert_Some. naive_solver.
Qed.

Lemma wp_large_free B c h a len : inv B c h → B !! a = Some (len, Big) →
  wp (__largeFree a) h (λ _ h', ∃ B', inv B' c h' ∧ given_back B a B').
Proof.
  intros [Ht Hc Htr Hs Hst] Ha. pose proof (ti_big _ Ht _ _ Ha) as (? & ? & ?). pose proof (ti_range _ Ht _ _ _ Ha).
  unfold __largeFree. rewrite page_aligned_mod. wp_step. wp_step; [lia|]. wp_step.
  eapply wp_read_header; [done|by unfold entry; rewrite Ha|]. rewrite page_aligned_mod. simpl. wp_steps; [lia|].
  eapply wp_list_remove; [done|by unfold place; rewrite Ha|]. intros h1 Hst1.
  assert (Z.shiftr len PAGE_BITS * 4096 = len ∧ 0 < Z.shiftr len PAGE_BITS) as [Hpages ?].
  { unfold PAGE_BITS. rewrite Z.shiftr_div_pow2 by lia. change (2 ^ 12) with 4096. mod_lia. }
  eapply wp_pages_release; [done..|lia|rewrite Hpages; lia| |].
  { rewrite Hpages. intros x ? ?. split; [done|]. by exists a, len, Big. }
  rewrite Hpages. intros h2 Hst2. exists (delete a B). split; [split|].
  - by eapply tiled_remove.
  - intros x l l' [_ Hx]%lookup_delete_Some [_ Hy]%lookup_delete_Some. by eapply Hc.
  - intros x [_ Hx]%lookup_delete_Some. by apply (Htr x).
  - intros x l [_ Hx]%lookup_delete_Some. by apply (Hs x l).
  - eapply st_ok_mono; [done|..].
    + intros x. unfold place, upd. case_decide as E; [by rewrite E, lookup_delete_eq|by rewrite lookup_delete_ne].
    + intros x e. unfold entry. destruct (decide (x = a)) as [->|]; [by rewrite lookup_delete_eq|by rewrite lookup_delete_ne].
    + intros x. by eapply own_delete.
  - intros x l s Hu. rewrite lookup_delete_Some. naive_solver.
Qed.

Lemma wp_block_header B c h r len st (Q : Z * heapEntry → heap P → Prop) : inv B c h →
  B !! (r - 16) = Some (len, st) → st = Used ∨ st = Big →
  Q (r - 16, HeapEntry (if decide (st = Used) then SMALL_HEAP_MAGIC else LARGE_HEAP_MAGIC) len true) h → wp (block_header r) h Q.
Proof.
  intros [Ht Hc Htr Hs Hst] Hr Hu HQ. unfold block_header, sizeof_heapEntry, PAGE_MASK. rewrite (land_low _ 12) by done.
  wp_step. wp_step.
  { change (2 ^ 12) with 4096. destruct Hu as [-> | ->].
    - pose proof (ti_small _ Ht _ _ _ Hr) as (? & ? & ? & ?); [done|]. mod_lia.
    - pose proof (ti_big _ Ht _ _ Hr). mod_lia. }
  destruct Hu as [-> | ->]; (wp_step; eapply wp_read_header; [done|by unfold entry; rewrite Hr|]); simpl; by wp_steps.
Qed.

Lemma wp_verify_list f g A c h l ok : st_ok f g A c h → (∀ a, a ∈ l → ∃ e, g a = Some e ∧ ok a e = true) →
  wp (verify_list l ok) h (λ _ h', h' = h).
Proof.
  intros Hst. induction l as [|a l IH]; intros Hl; simpl; [by wp_step|]. destruct (Hl a) as (e & He & Hok); [left|].
  wp_step. eapply wp_read_header; [done..|]. wp_steps; [done|]. apply IH. intros x Hx. apply Hl. by right.
Qed.

End Laws.
