(* ===== verification/HeapPages.v ===== *)
(** * The heap on the pages of paging.c

    The pages of the kernel's heap are pages that paging.c allocates in the
    address space of the kernel: what AllocatorProofs.v assumes of them
    ([PagesLaws]) holds of the functions of Paging.v. *)

From S2P Require Import Prelude PhysMem PhysMemProofs PhysMemRefs Paging PagingProofs PagingArea Allocator HeapBlocks AllocatorProofs.
Open Scope Z_scope.

#[export] Instance machine_pages : Pages machine := {
  page_alloc n := pagingAllocatePhysMem None n true false;
  page_release a n := pagingReleasePhysMem None a n;
  page_realloc a old_n n := pagingReAllocatePhysMem None a old_n n true false;
}.

(** The page [m] of the kernel is mapped to a frame of its own. *)
Definition page_held (s : machine) (m f : Z) : Prop :=
  pte s m = new_entry true true false 0 f ∧ 256 ≤ f < PAGE_COUNT ∧ refs s f = 1 ∧ ¬ table s f.

Record held (A : Z → Prop) (F : Z → Z) (s : machine) : Prop := {
  he_page x : A x → x mod 4096 = 0 ∧ 1 ≤ x / 4096 < KERNEL_PAGES ∧ page_held s (x / 4096) (F x);
  he_inj x y : A x → A y → F x = F y → x = y;
}.

Definition machine_ok (A : Z → Prop) (s : machine) : Prop := kernel_ok s ∧ extra_ok s ∧ ∃ F, held A F s.
Definition machine_room (n : Z) (s : machine) : Prop :=
  n ≤ KERNEL_PAGES ∧ 2 * n ≤ Z.of_nat (free_memory s) ∧ ∃ a, free_area s a n.

Lemma refs_reserved (s : machine) f : refs s f = 1 → reserved (physMemMap s) f = true.
Proof. unfold refs. by destruct (reserved _ _). Qed.

Lemma held_not_free s m f : 256 ≤ f < PAGE_COUNT → pte s m = new_entry true true false 0 f → pte s m ≠ 0.
Proof. intros ? ->. apply new_entry_nonzero; (lia || by left). Qed.

Lemma wp_machine_alloc A s n : machine_ok A s → machine_room n s → 0 < n →
  wp (pagingAllocatePhysMem None n true false) s (λ a s', a mod 4096 = 0 ∧ 4096 ≤ a ∧ a + n * 4096 ≤ 4294963200 ∧
    (∀ x, a ≤ x < a + n * 4096 → ¬ A x) ∧ machine_ok (λ x, A x ∨ x mod 4096 = 0 ∧ a ≤ x < a + n * 4096) s').
Proof.
  intros (Hk & Hx & F & HF) (Hn & Hmem & a0 & Ha0) Hpos.
  unfold pagingAllocatePhysMem, allocate, try_allocate. rewrite kernel_entry_eq. wp_step. wp_step.
  apply wp_try_search; [done|unfold KERNEL_PAGES in *; lia|]. intros r [[-> Hno]|(a & -> & (Ha & Hr & Hz) & _)]; [by destruct (Hno a0)|].
  rewrite (proj2 (Z.eqb_neq _ _)) by (unfold PAGE_SIZE; lia). wp_step. change PAGE_SIZE with 4096.
  eapply wp_mono; [apply wp_allocate_pages; (done || lia || (intros; apply Hz; lia))|].
  intros [] s1 (ks & fs & _ & Hev & _ & Hlen & Hmap & Hnd & Htaken). wp_steps.
  rewrite (proj2 (Z.eqb_neq _ _)) by lia. wp_step.
  assert (∀ x, A x → ¬ a ≤ x / 4096 < a + n) as Hout.
  { intros x Hin Hr'. destruct (he_page _ _ _ HF x Hin) as (_ & _ & Hp & Hf & _). by destruct (held_not_free s (x / 4096) (F x)); auto. }
  split_and!; [mod_lia|lia|unfold KERNEL_PAGES in *; lia| |].
  { intros x Hr' Hin. apply (Hout x Hin). destruct (he_page _ _ _ HF x Hin). mod_lia. }
  split_and!; [apply Hev|by eapply evolves_extra_ok|].
  assert (∀ x, A x → nthZ fs (x / 4096 - a) = None) as Hold.
  { intros x Hin. apply nthZ_None. specialize (Hout x Hin). lia. }
  assert (∀ x f, nthZ fs (x / 4096 - a) = Some f → f ∈ fs) as Hnew.
  { intros x f Hf. unfold nthZ in Hf. case_match; [done|]. by eapply list_elem_of_lookup_2. }
  exists (λ x, default (F x) (nthZ fs (x / 4096 - a))). split.
  - intros x [Hin|[Hm Hr']].
    + rewrite (Hold x Hin). simpl. destruct (he_page _ _ _ HF x Hin) as (? & ? & Hp & Hf & Href & Hnt).
      split_and!; try done; try lia. split_and!; try done; try lia.
      * rewrite Hmap, (Hold x Hin) by lia. done.
      * destruct (refs_taken _ _ _ (F x) Hx Hev ltac:(lia)) as [[-> _]|(? & _)]; [done|lia].
      * intros [?|Hr']%(ev_tables _ _ _ Hev); [done|]. rewrite (refs_reserved s) in Hr' by done. done.
    + destruct (nthZ_is_Some fs (x / 4096 - a)) as [f Hf]; [mod_lia|]. rewrite Hf. simpl.
      destruct (Htaken f (Hnew _ _ Hf)) as (Hfr & Hf0 & Hf1 & Hnt).
      split_and!; [done|mod_lia|unfold KERNEL_PAGES in *; mod_lia|]. split_and!; try done; try lia.
      * rewrite Hmap, Hf; [done|unfold KERNEL_PAGES in *; mod_lia].
      * destruct (refs_taken _ _ _ f Hx Hev ltac:(lia)) as [[_ [?|?]]|(_ & ? & _)]; congruence.
  - assert (∀ x y f, A x → nthZ fs (y / 4096 - a) = Some f → F x ≠ f) as Hdiff.
    { intros x y f Hin Hf <-. destruct (Htaken _ (Hnew _ _ Hf)) as (_ & Hf0 & _).
      destruct (he_page _ _ _ HF x Hin) as (_ & _ & _ & _ & Href & _). rewrite (refs_reserved s) in Hf0 by done. done. }
    intros x y Hx' Hy'. destruct (nthZ fs (x / 4096 - a)) as [f|] eqn:Ef, (nthZ fs (y / 4096 - a)) as [g|] eqn:Eg; simpl.
    + intros ->. unfold nthZ in Ef, Eg. repeat case_match; try done.
      pose proof (NoDup_lookup _ _ _ _ Hnd Ef Eg). destruct Hx' as [Hx'|[? _]]; [exfalso|destruct Hy' as [Hy'|[? _]]; [exfalso|mod_lia]].
      * specialize (Hold _ Hx'). unfold nthZ in Hold. repeat case_match; congruence.
      * specialize (Hold _ Hy'). unfold nthZ in Hold. repeat case_match; congruence.
    + intros E. destruct Hy' as [Hy'|[? Hy']]; [by destruct (Hdiff y x f)|].
      destruct (nthZ_is_Some fs (y / 4096 - a)) as [g ?]; [mod_lia|congruence].
    + intros E. destruct Hx' as [Hx'|[? Hx']]; [by destruct (Hdiff x y g)|].
      destruct (nthZ_is_Some fs (x / 4096 - a)) as [g' ?]; [mod_lia|congruence].
    + destruct Hx' as [Hx'|[? Hx']]; [|destruct (nthZ_is_Some fs (x / 4096 - a)) as [g' ?]; [mod_lia|congruence]].
      destruct Hy' as [Hy'|[? Hy']]; [|destruct (nthZ_is_Some fs (y / 4096 - a)) as [g' ?]; [mod_lia|congruence]].
      by apply (he_inj _ _ _ HF).
Qed.

Lemma wp_machine_release A s a n : machine_ok A s → 0 < n → a mod 4096 = 0 → 4096 ≤ a → a + n * 4096 ≤ 4294963200 →
  (∀ x, x mod 4096 = 0 → a ≤ x < a + n * 4096 → A x) →
  wp (pagingReleasePhysMem None a n) s (λ _ s', machine_ok (λ x, A x ∧ ¬ a ≤ x < a + n * 4096) s').
Proof.
  intros (Hk & Hx & F & HF) Hn Hm Ha Hr HA.
  set (fs := (λ j, F (a + j * 4096)) <$> seqZ 0 n).
  assert (lenZ fs = n) as Hlen by (unfold fs; rewrite length_fmap, length_seqZ; lia).
  assert (∀ j f, fs !! j = Some f → f = F (a + Z.of_nat j * 4096) ∧ A (a + Z.of_nat j * 4096) ∧ Z.of_nat j < n) as Hfs.
  { intros j f Hj. unfold fs in Hj. apply list_lookup_fmap_Some_1 in Hj as (k & -> & [-> ?]%lookup_seqZ).
    rewrite Z.add_0_l. split_and!; [done| |done]. apply HA; [mod_lia|lia]. }
  assert (∀ f, f ∈ fs → ∃ x, f = F x ∧ A x ∧ a ≤ x < a + n * 4096) as Hin.
  { intros f [j Hj]%list_elem_of_lookup_1. destruct (Hfs j f Hj) as (-> & ? & ?). eexists. split_and!; [done|done|lia..]. }
  assert (a / 4096 + n ≤ KERNEL_PAGES) as Hkp.
  { destruct (he_page _ _ _ HF (a + (n - 1) * 4096)) as (_ & ? & _); [apply HA; mod_lia|]. mod_lia. }
  unfold pagingReleasePhysMem, pagingTryReleasePhysMem. wp_step.
  replace (Z.to_nat n) with (length fs) by lia. replace a with (a / 4096 * 4096) at 1 by mod_lia.
  eapply wp_mono; [apply (wp_release_pages true false fs s (a / 4096)); try done; try mod_lia|].
  - apply NoDup_alt. intros i j f Hi Hj. destruct (Hfs i f Hi) as (-> & Hxi & _), (Hfs j _ Hj) as (E & Hxj & _).
    apply (he_inj _ _ _ HF) in E; [lia|done|done].
  - intros j f Hj. destruct (Hfs j f Hj) as (-> & Hx' & _). destruct (he_page _ _ _ HF _ Hx') as (_ & _ & <- & _). f_equal. mod_lia.
  - intros f (x & -> & Hx' & _)%Hin. destruct (he_page _ _ _ HF _ Hx') as (_ & _ & _ & ? & ? & ?).
    split_and!; [lia|lia|by apply refs_reserved|done|done].
  - intros r s' (-> & Hk' & Hx' & Hpte & Hrefs & Htab). wp_step; [done|]. split_and!; [done|done|]. exists F. split.
    + intros x [Hxa Hout]. destruct (he_page _ _ _ HF x Hxa) as (? & ? & ? & ? & ? & Hnt). split_and!; [done|lia|lia|]. split_and!; [|lia|lia| |].
      * rewrite Hpte by lia. rewrite decide_False by mod_lia. done.
      * rewrite Hrefs by lia. rewrite decide_False; [done|]. intros (y & E & Hya & Hy)%Hin.
        apply (he_inj _ _ _ HF) in E; [lia|done|done].
      * by rewrite Htab.
    + intros x y [Hxa _] [Hya _]. by apply (he_inj _ _ _ HF).
Qed.

#[export] Program Instance machine_pages_laws : PagesLaws machine := {
  pg_ok := machine_ok;
  pg_room := machine_room;
}.
Next Obligation.
  intros A A' HA s s' <-. split; intros (? & ? & F & [Hp Hi]); (split_and!; [done|done|]); exists F;
    (split; [intros x Hx; apply Hp|intros x y Hx Hy; apply Hi]); by apply HA.
Qed.
Next Obligation. intros. by apply wp_machine_alloc. Qed.
Next Obligation. intros. by apply wp_machine_release. Qed.

(** ** A heap on the machine of PagingArea.v, for witnesses *)

Definition sample_heap : heap machine := Heap ∅ (λ _, []) ∅ sample_space.

Lemma sample_heap_ok : heap_ok ∅ ∅ sample_heap.
Proof.
  exists ∅. split; [split|].
  - split; intros *; rewrite ?lookup_empty; done.
  - intros a la lb. by rewrite lookup_empty.
  - intros a. by rewrite lookup_empty.
  - intros a l. by rewrite lookup_empty.
  - split; try done.
    + intros l a. split; [by intros ?%not_elem_of_nil|done].
    + intros l. constructor.
    + split_and!; [apply sample_space_ok|apply sample_extra_ok|]. exists (λ _, 0).
      split; [intros x (_ & a & l & s & Ha & _)|intros x y (_ & a & l & s & Ha & _)]; by rewrite lookup_empty in Ha.
  - intros r len. rewrite lookup_empty. split; [done|]. intros (st & _ & Hr). by rewrite lookup_empty in Hr.
Qed.

Lemma sample_room n : 1 ≤ n ≤ 3 → pg_room n (pages sample_heap).
Proof.
  intros Hn. pose proof sample_free. split_and!; [unfold KERNEL_PAGES; lia|simpl; lia|]. exists 300.
  destruct sample_area as (? & ? & Hz). split_and!; [lia|lia|]. intros m Hm. apply Hz. lia.
Qed.

(** The same heap with a block of 100 bytes. *)
Definition result_of {S A} (m : M S A) (s : S) (d : A) : A := match m s with Ok (a, _) => a | _ => d end.
Definition state_after {S A} (m : M S A) (s : S) : S := match m s with Ok (_, s') => s' | _ => s end.

Lemma wp_after {S A} (m : M S A) s d Q : wp m s Q → Q (result_of m s d) (state_after m s).
Proof. unfold wp, result_of, state_after. by destruct (m s) as [[a s']| | |]. Qed.

Abbreviation sample_block := (result_of (heapAlloc 100) sample_heap 0).
Abbreviation sample_heap1 := (state_after (heapAlloc 100) sample_heap).

Lemma sample_heap1_ok : ∃ len, heap_ok (<[sample_block := len]> ∅) ∅ sample_heap1.
Proof.
  destruct (wp_after _ _ 0 _ (wp_heap_alloc ∅ ∅ sample_heap 100 sample_heap_ok ltac:(lia) (sample_room 1 ltac:(lia))))
    as (len & _ & _ & Hok). exists len. exact Hok.
Qed.
