(* ===== verification/HeapProofs.v ===== *)
(** * The theorems about the heap

    What the functions of allocator.c do to the blocks in use. The witnesses
    run the heap on the pages of paging.c. *)

From S2P Require Import Prelude Paging PagingArea Allocator HeapBlocks AllocatorProofs HeapPages.
Open Scope Z_scope.

Section Heap.
Context {P : Type} `{PagesLaws P}.

(** C9: Allocating [n] bytes of the heap, with room for the pages that this may
    take, returns an aligned block of at least [n] bytes that does not overlap
    any block in use, and changes no other block: no assertion of the heap
    fails, no list or header is damaged. *)
Theorem heapAlloc_correct L c h n : heap_ok L c h → 1 ≤ n ≤ 2147479536 → pg_room (if n <=? 1008 then 1 else (n + 4111) / 4096) (pages h) →
  wp (heapAlloc n) h (λ r h', ∃ len, L !! r = None ∧ r mod 16 = 0 ∧ n ≤ len ∧
    (∀ x l, L !! x = Some l → x + l ≤ r - 16 ∨ r + len ≤ x - 16) ∧ heap_ok (<[r := len]> L) c h').
Proof.
  intros Hok Hn Hroom. eapply wp_mono; [by apply (wp_heap_alloc L c)|]. intros r h' (len & Hnone & Hlen & Hok').
  pose proof (heap_ok_block _ _ _ _ _ Hok' (lookup_insert_eq _ _ _)) as (? & ? & ? & ?).
  exists len. split_and!; try done. intros x l Hx. assert (x ≠ r) by congruence.
  assert (<[r := len]> L !! x = Some l) as Hx' by by rewrite lookup_insert_ne. destruct (decide (x < r)).
  - left. by apply (heap_ok_apart _ _ _ _ _ _ _ Hok' Hx' (lookup_insert_eq _ _ _)).
  - right. apply (heap_ok_apart _ _ _ _ _ _ _ Hok' (lookup_insert_eq _ _ _) Hx'). lia.
Qed.

(** For the 15 largest lengths the sum with the size of the header wraps,
    and [heapAlloc] returns a block of 4080 bytes instead of failing. *)
Theorem heapAlloc_wraps L c h n : heap_ok L c h → 4294967281 ≤ n < 4294967296 → pg_room 1 (pages h) →
  wp (heapAlloc n) h (λ r h', heap_ok (<[r := 4080]> L) c h').
Proof.
  intros (B & Hi & HL) Hn Hroom. unfold heapAlloc, sizeof_heapEntry.
  rewrite (proj2 (Z.eqb_neq n 0)), (proj2 (Z.leb_gt n (1024 - 16))) by lia. wp_step.
  assert (u32 (n + sizeof_heapEntry) = n - 4294967280) as Hu by (unfold sizeof_heapEntry; ulia).
  destruct (round_page_mod (n - 4294967280)) as [Hm Hr]; [lia|].
  eapply wp_mono; [apply (wp_large_alloc_len B c h n 4096); (done || lia || (rewrite Hu; mod_lia))|].
  intros a h' (B' & Hi' & Hal & Hno).
  destruct (heap_ok_allocated _ _ _ _ _ _ _ _ HL Hi' Hal ltac:(by right) Hno) as [_ Hok].
  pose proof (heap_ok_block _ _ _ _ _ Hok (lookup_insert_eq _ _ _)) as (? & ? & ? & ?).
  rewrite (proj2 (Z.eqb_neq a 0)), u32_small by (unfold is_u32; lia). by wp_step.
Qed.

(** C10: The size of a block in use is the one it was allocated with, and freeing it
    takes it out of the heap and changes no other block. Free neighbours are
    joined, and with its last block the heap has given back all its pages. *)
Theorem heapFree_correct L c h r len : heap_ok L c h → L !! r = Some len →
  wp (heapSize r) h (λ n h', n = len ∧ h' = h) ∧
  wp (heapFree r) h (λ _ h', heap_ok (delete r L) c h' ∧ (delete r L = ∅ → pg_ok (λ _, False) (pages h'))).
Proof.
  intros Hok Hr. pose proof (heap_ok_block _ _ _ _ _ Hok Hr) as (? & ? & ? & ?).
  destruct Hok as (B & Hi & HL). apply HL in Hr as (st & Hst & Hr).
  unfold heapSize, heapFree. rewrite (proj2 (Z.eqb_neq r 0)) by lia. split.
  { wp_step. eapply wp_block_header; [done..|]. simpl. wp_step. split; [|done].
    rewrite u32_small; unfold is_u32, sizeof_heapEntry; lia. }
  assert (∀ h' B', inv B' c h' → given_back B (r - 16) B' →
    heap_ok (delete r L) c h' ∧ (delete r L = ∅ → pg_ok (λ _, False) (pages h'))) as Hend.
  { intros h' B' Hi' Hgb. assert (heap_ok (delete r L) c h') as Hok.
    - exists B'. split; [done|]. intros x l. rewrite lookup_delete_Some, HL. split.
      + intros (? & s & Hs & Hx). exists s. split; [done|]. apply Hgb; [done|]. split; [lia|done].
      + intros (s & Hs & [? Hx]%(Hgb _ _ _ Hs)). split; [intros ->; done|]. by exists s.
    - split; [done|]. intros E. rewrite E in Hok. by eapply heap_ok_empty. }
  wp_step. eapply wp_block_header; [done..|]. destruct Hst as [-> | ->]; simpl.
  - eapply wp_mono; [by eapply wp_small_free|]. intros [] h' (B' & ? & ?). by eapply Hend.
  - eapply wp_mono; [by eapply wp_large_free|]. intros [] h' (B' & ? & ?). by eapply Hend.
Qed.

(** *** The self test *)

(** What the self test asks for, of the entries in use and of the unused ones. *)
Definition sound_small (reserved : bool) (a : Z) (e : heapEntry) : Prop :=
  a mod 16 = 0 ∧ heapMagic e = SMALL_HEAP_MAGIC ∧ 32 ≤ h_length e ∧ h_reserved e = reserved.
Definition sound_large (a : Z) (e : heapEntry) : Prop :=
  a mod 4096 = 0 ∧ heapMagic e = LARGE_HEAP_MAGIC ∧ 0 < h_length e ∧ h_length e mod 4096 = 0 ∧ h_reserved e = true.
Definition sound (l : heapList) (a : Z) (e : heapEntry) : Prop :=
  match l with SmallHeap => sound_small true a e | LargeHeap => sound_large a e | Unused _ => sound_small false a e end.

Definition sound_heap (h : heap P) : Prop :=
  ∀ l a, l ∈ all_lists → a ∈ lists h l → ∃ e, headers h !! a = Some e ∧ sound l a e.

(** Every entry that is linked into a list has a header. *)
Definition linked (h : heap P) : Prop := ∀ l a, a ∈ lists h l → is_Some (headers h !! a).

Lemma small_entry_sound reserved a e : small_entry reserved a e = true ↔ sound_small reserved a e.
Proof.
  unfold small_entry, sound_small, is_small, sizeof_heapEntry.
  rewrite aligned_16_mod, !andb_true_iff, !Z.eqb_eq, Z.leb_le, eqb_true_iff. change (16 + 16) with 32. tauto.
Qed.

Lemma large_entry_sound a e : large_entry a e = true ↔ sound_large a e.
Proof.
  unfold large_entry, sound_large, is_large.
  rewrite !page_aligned_mod, !andb_true_iff, !Z.eqb_eq, Z.ltb_lt. tauto.
Qed.

(** The invariant of the heap says more about the entries. *)
Lemma heap_ok_sound L c h l a : heap_ok L c h → a ∈ lists h l → ∃ e, headers h !! a = Some e ∧ sound l a e.
Proof.
  intros (B & [Ht Hc Htr Hs Hst] & _) Ha%(so_in _ _ _ _ _ Hst). unfold place in Ha.
  assert (∀ e, entry B a = Some e → headers h !! a = Some e) as Hhd by by intros e; apply (so_headers _ _ _ _ _ Hst).
  unfold entry in Hhd. destruct (B !! a) as [[len st]|] eqn:E; [|done]. destruct st; try done.
  - pose proof (ti_small _ Ht _ _ _ E) as (? & ? & ? & ?); [done|]. simplify_eq/=. eexists. split; [by apply Hhd|].
    split_and!; (done || simpl; lia).
  - pose proof (ti_small _ Ht _ _ _ E) as (? & ? & ? & ?); [done|]. destruct (class_of len); simplify_eq/=.
    eexists. split; [by apply Hhd|]. split_and!; (done || simpl; lia).
  - pose proof (ti_big _ Ht _ _ E). simplify_eq/=. eexists. split; [by apply Hhd|]. split_and!; (done || simpl; lia).
Qed.

(** A test that passes or stops the system, and changes nothing. *)
Definition tests (v : M (heap P) unit) (h : heap P) (good : Prop) : Prop :=
  (good ∧ v h = Ok (tt, h)) ∨ (¬ good ∧ v h = Panic "heapVerify").

Lemma tests_iff v h good good' : tests v h good → (good ↔ good') → tests v h good'.
Proof. unfold tests. tauto. Qed.

Lemma tests_bind v w h good1 good2 : tests v h good1 → tests w h good2 → tests (v ;; w) h (good1 ∧ good2).
Proof.
  unfold tests, mbind, M_bind. intros [[H1 ->]|[H1 ->]] [[H2 E2]|[H2 E2]]; rewrite ?E2; tauto.
Qed.

Lemma tests_list h l ok (good : Z → heapEntry → Prop) : (∀ a e, ok a e = true ↔ good a e) →
  (∀ a, a ∈ l → is_Some (headers h !! a)) →
  tests (verify_list l ok) h (∀ a, a ∈ l → ∃ e, headers h !! a = Some e ∧ good a e).
Proof.
  intros Hgood. induction l as [|a l IH]; intros Hl.
  { left. split; [|done]. by intros ? ?%not_elem_of_nil. }
  destruct (Hl a) as [e He]; [left|]. cbn [verify_list].
  assert (tests (assert (ok a e) "heapVerify" ;; verify_list l ok) h
    (good a e ∧ ∀ a, a ∈ l → ∃ e, headers h !! a = Some e ∧ good a e)) as Ht.
  { apply tests_bind; [|apply IH; intros x Hx; apply Hl; by right].
    unfold tests, assert. rewrite <-Hgood. destruct (ok a e); [by left|right]. by split. }
  eapply (tests_iff _ _ _ _).
  - unfold tests. unfold mbind at 1 2, M_bind at 1 2, read_header, mbind, M_bind, get. rewrite He. exact Ht.
  - setoid_rewrite elem_of_cons. split.
    + intros [? ?] x [->|Hx]; eauto.
    + intros Hx. split; [|intros; apply Hx; by right]. destruct (Hx a) as (e' & He' & ?); [by left|]. congruence.
Qed.

Lemma tests_unused h : linked h → ∀ sizes,
  tests (verify_unused sizes) h (∀ size, size ∈ sizes → ∀ a, a ∈ lists h (Unused size) → ∃ e, headers h !! a = Some e ∧ sound_small false a e).
Proof.
  intros Hl. induction sizes as [|size sizes IH].
  { left. split; [|done]. by intros ? ?%not_elem_of_nil. }
  eapply tests_iff.
  - cbn [verify_unused]. unfold mbind at 1, M_bind at 1, get. unfold tests.
    apply (tests_bind (verify_list (lists h (Unused size)) (small_entry false)) (verify_unused sizes)); [|exact IH].
    apply (tests_list h _ _ _ (small_entry_sound false)). intros a. apply Hl.
  - setoid_rewrite elem_of_cons. split; [intros [? ?] s [->|?]; eauto|].
    intros Hs. split; [intros a Ha; apply (Hs size); [by left|done]|intros s Hs' a Ha; apply (Hs s); [by right|done]].
Qed.

(** C29: The self test of the heap, on lists whose entries have headers: it changes
    nothing, passes exactly if all entries of all lists are sound, stops the system
    otherwise, and passes in every state that satisfies the invariant of the heap,
    which allocating and freeing keep. *)
Theorem heapVerify_correct h :
  (linked h →
   (sound_heap h ∧ heapVerify h = Ok (tt, h)) ∨ (¬ sound_heap h ∧ heapVerify h = Panic "heapVerify")) ∧
  (∀ L c, heap_ok L c h → linked h ∧ sound_heap h).
Proof.
  split.
  - intros Hl. change (tests heapVerify h (sound_heap h)). eapply tests_iff.
    + apply tests_bind; [|apply tests_bind].
      * apply (tests_list h (lists h SmallHeap) _ _ (small_entry_sound true)). intros a. apply Hl.
      * apply (tests_list h (lists h LargeHeap) _ _ large_entry_sound). intros a. apply Hl.
      * by apply tests_unused.
    + unfold sound_heap. split.
      * intros (Hsmall & Hlarge & Hu) l a Hin Ha. destruct l as [|size|]; [by apply Hsmall| |by apply Hlarge].
        apply (Hu size); [|done]. unfold all_lists in Hin. set_solver.
      * intros Hs. split_and!; [intros a; apply (Hs SmallHeap)|intros a; apply (Hs LargeHeap)|].
        1, 2: unfold all_lists; set_solver.
        intros size Hsize a. apply (Hs (Unused size)). unfold all_lists. set_solver.
  - intros L c Hok. assert (∀ l a, a ∈ lists h l → ∃ e, headers h !! a = Some e ∧ sound l a e) as Hall
      by (intros l a; by eapply heap_ok_sound).
    split; [|intros l a _; apply Hall]. intros l a (e & -> & _)%Hall. by eexists.
Qed.
End Heap.

Lemma heapFree_correct_witness : ∃ len, heap_ok (<[sample_block := len]> ∅) ∅ sample_heap1 ∧
  wp (heapSize sample_block) sample_heap1 (λ n h', n = len ∧ h' = sample_heap1) ∧
  wp (heapFree sample_block) sample_heap1 (λ _ h', heap_ok (delete sample_block (<[sample_block := len]> ∅)) ∅ h' ∧
    (delete sample_block (<[sample_block := len]> ∅ : gmap Z Z) = ∅ → pg_ok (λ _, False) (pages h'))).
Proof.
  destruct sample_heap1_ok as [len Hok]. exists len. split; [exact Hok|].
  apply (heapFree_correct (<[sample_block := len]> ∅) ∅ sample_heap1 sample_block len Hok). apply lookup_insert_eq.
Defined.

Lemma heapVerify_correct_witness :
  linked sample_heap1 ∧ sound_heap sample_heap1 ∧ heapVerify sample_heap1 = Ok (tt, sample_heap1).
Proof.
  destruct sample_heap1_ok as [len Hok]. destruct (heapVerify_correct sample_heap1) as [Htest Hinv].
  destruct (Hinv _ _ Hok) as [Hl Hs]. destruct (Htest Hl) as [[_ E]|[Hn _]]; [by split_and!|by destruct Hn].
Defined.

(** With the header of a block overwritten, the self test stops the system. *)
Example heapVerify_broken :
  heapVerify (set_headers (<[sample_block - 16 := HeapEntry 0 0 true]> (headers sample_heap1)) sample_heap1) = Panic "heapVerify".
Proof. vm_compute. reflexivity. Qed.

Lemma heapAlloc_correct_witness :
  heap_ok ∅ ∅ sample_heap ∧ wp (heapAlloc 5000) sample_heap (λ r h', ∃ len, (∅ : gmap Z Z) !! r = None ∧ r mod 16 = 0 ∧ 5000 ≤ len ∧
    (∀ x l, (∅ : gmap Z Z) !! x = Some l → x + l ≤ r - 16 ∨ r + len ≤ x - 16) ∧ heap_ok (<[r := len]> ∅) ∅ h').
Proof.
  split; [apply sample_heap_ok|]. apply (heapAlloc_correct ∅ ∅ sample_heap 5000); [apply sample_heap_ok|lia|].
  apply sample_room. vm_compute. done.
Defined.

Lemma heapAlloc_wraps_witness : heap_ok ∅ ∅ sample_heap ∧
  wp (heapAlloc 4294967295) sample_heap (λ r h', heap_ok (<[r := 4080]> ∅) ∅ h').
Proof.
  split; [apply sample_heap_ok|]. apply (heapAlloc_wraps ∅ ∅ sample_heap 4294967295); [apply sample_heap_ok|lia|].
  by apply sample_room.
Defined.
