(* ===== verification/Kernel.v ===== *)
(** * object.h and the kernel's shared state

    The objects of the kernel ([struct object] of
    src/kernelmode/kernel/include/process/object.h and the structures that
    start with it), the queues that link them, and the operations every
    component uses: reference counting, the list calls, [queueWakeup], and the
    dispatch through the function tables as an interface ([Methods]) the
    components are written against; file Dispatch.v ties the knot.

    An object is known by its address. The page tables, the physical memory
    map and the heap belong to the memory components: they are a state [mem]
    with the interface [Memory]. *)

From S2P Require Import Prelude Io LinkedList Console.
Open Scope Z_scope.

(** The address of an object, as handed out by [heapAlloc]. *)
Abbreviation oid := Z.

(** ** Queues

    Every [struct linkedList] of the kernel: the heads first, then the link
    fields of the objects. *)
Inductive node :=
  | ThreadList | TimerList | ProcessList
  | Waiters (o : oid) | WriteWaiters (o : oid) | ReadWaiters (o : oid)
  | SubEvents (o : oid) | Threads (o : oid)
  | Files (o : oid) | Directories (o : oid)
  | OpenedFiles (o : oid) | OpenedDirectories (o : oid)
  | Entry (o : oid)          (* obj.entry *)
  | EntryEvent (o : oid)     (* subEvent.entry_event *)
  | EntryProcess (o : oid)   (* thread.entry_process *)
  | EntryList (o : oid).     (* process.entry_list *)

#[export] Instance node_eq_dec : EqDecision node.
Proof. solve_decision. Defined.

Definition node_code (n : node) : nat * Z :=
  match n with
  | ThreadList => (0%nat, 0) | TimerList => (1%nat, 0) | ProcessList => (2%nat, 0)
  | Waiters o => (3%nat, o) | WriteWaiters o => (4%nat, o) | ReadWaiters o => (5%nat, o)
  | SubEvents o => (6%nat, o) | Threads o => (7%nat, o)
  | Files o => (8%nat, o) | Directories o => (9%nat, o)
  | OpenedFiles o => (10%nat, o) | OpenedDirectories o => (11%nat, o)
  | Entry o => (12%nat, o) | EntryEvent o => (13%nat, o)
  | EntryProcess o => (14%nat, o) | EntryList o => (15%nat, o)
  end.

Definition node_decode (c : nat * Z) : option node :=
  let '(t, o) := c in
  match t with
  | 0 => Some ThreadList | 1 => Some TimerList | 2 => Some ProcessList
  | 3 => Some (Waiters o) | 4 => Some (WriteWaiters o) | 5 => Some (ReadWaiters o)
  | 6 => Some (SubEvents o) | 7 => Some (Threads o)
  | 8 => Some (Files o) | 9 => Some (Directories o)
  | 10 => Some (OpenedFiles o) | 11 => Some (OpenedDirectories o)
  | 12 => Some (Entry o) | 13 => Some (EntryEvent o)
  | 14 => Some (EntryProcess o) | 15 => Some (EntryList o)
  | _ => None
  end%nat.

#[export] Instance node_countable : Countable node.
Proof. refine (inj_countable node_code node_decode _). by intros []. Defined.

(** LL_ENTRY: the object a link field belongs to. A list head read as if it
    were a link field gives garbage. *)
Definition container (n : node) : option oid :=
  match n with
  | Entry o | EntryEvent o | EntryProcess o | EntryList o => Some o
  | _ => None
  end.

(** ** Objects *)

(** The fields of [struct taskContext] (include/hardware/context.h); the
    reserved fields are never used. *)
Record taskContext := TaskContext {
  prevTask : Z; esp0 : Z; ss0 : Z; esp1 : Z; ss1 : Z; esp2 : Z; ss2 : Z;
  cr3 : Z; eip : Z; eflags : Z;
  eax : Z; ecx : Z; edx : Z; ebx : Z; esp : Z; ebp : Z; esi : Z; edi : Z;
  es : Z; cs : Z; ss : Z; ds : Z; fs : Z; gs : Z; ldt : Z; iomap : Z;
}.

Definition set_eax (v : Z) (t : taskContext) : taskContext :=
  TaskContext (prevTask t) (esp0 t) (ss0 t) (esp1 t) (ss1 t) (esp2 t) (ss2 t)
    (cr3 t) (eip t) (eflags t) v (ecx t) (edx t) (ebx t) (esp t) (ebp t) (esi t) (edi t)
    (es t) (cs t) (ss t) (ds t) (fs t) (gs t) (ldt t) (iomap t).

Definition set_cr3 (v : Z) (t : taskContext) : taskContext :=
  TaskContext (prevTask t) (esp0 t) (ss0 t) (esp1 t) (ss1 t) (esp2 t) (ss2 t)
    v (eip t) (eflags t) (eax t) (ecx t) (edx t) (ebx t) (esp t) (ebp t) (esi t) (edi t)
    (es t) (cs t) (ss t) (ds t) (fs t) (gs t) (ldt t) (iomap t).

Record semaphore := SemaphoreFields { value : Z }.

Record event := EventFields { e_status : Z; e_wakeupAll : bool }.

Record subEvent := SubEventFields {
  s_blocked : bool;
  s_event : oid;
  s_wait : oid;
  s_waitMode : Z;
  s_identifier : Z;
}.

Record timer := TimerFields {
  t_active : bool;
  t_timeout : Z;      (* uint64_t *)
  t_interval : Z;
  t_wakeupAll : bool;
}.

(** A block of the heap that holds bytes or handles: its address and contents. *)
Record block (A : Type) := Block { b_addr : oid; b_data : list A }.
Arguments Block {A} _ _.
Arguments b_addr {A} _.
Arguments b_data {A} _.

(** [p_buffer] is [None] for a null pointer; its length is [p_size]. *)
Record pipe := PipeFields {
  p_buffer : option (block Z);
  p_size : Z;
  p_writePos : Z;
  p_readPos : Z;
  p_writeable : bool;
}.

Record thread := ThreadFields {
  th_blocked : bool;
  th_process : option oid;
  th_exitcode : Z;
  th_fpuInitialized : bool;
  th_ring3StackBase : Z;
  th_ring3StackLength : Z;
  th_threadLocalBase : Z;
  th_threadLocalLength : Z;
  th_task : taskContext;
  th_fpu : Z;         (* the saved FPU state, an opaque value *)
}.

(** [h_handles] is [None] for a null pointer; its length is [h_count]. *)
Record handleTable := HandleTable {
  h_count : Z;
  h_free_begin : Z;
  h_free_end : Z;
  h_handles : option (block (option oid));
}.

Record process := ProcessFields {
  pr_exitcode : Z;
  pr_pageDirectory : Z;     (* 0: released *)
  pr_entryPoint : Z;
  pr_programArgumentsBase : Z;
  pr_programArgumentsLength : Z;
  pr_environmentVariablesBase : Z;
  pr_environmentVariablesLength : Z;
  pr_handles : handleTable;
}.

(** A name is a block of its own that holds the characters and a terminator. *)
Record directory := DirectoryFields { d_parent : option oid; d_name : option (block Z) }.

(** [f_buffer] is a block of the heap if [f_isHeap], and otherwise a part of
    the boot module, whose address is not needed. *)
Record file := FileFields {
  f_parent : option oid;
  f_name : option (block Z);
  f_isHeap : bool;
  f_buffer : option (block Z);
  f_size : Z;
}.

Record openedFile := OpenedFileFields { of_file : oid; of_pos : Z }.
Record openedDirectory := OpenedDirectoryFields { od_directory : oid; od_pos : option oid }.

(** One constructor per function table ([struct objectFunctions]) of the code. *)
Inductive body :=
  | Semaphore (s : semaphore)
  | Event (e : event)
  | SubEvent (s : subEvent)
  | Timer (t : timer)
  | Pipe (p : pipe)
  | Stdout
  | Thread (t : thread)
  | Process (p : process)
  | Directory (d : directory)
  | File (f : file)
  | OpenedFile (f : openedFile)
  | OpenedDirectory (d : openedDirectory).

Record object := Object { refcount : Z; obj_body : body }.

(** ** The memory components, as the rest of the kernel uses them

    A null pointer is [None]; a process is named by its address, and [None]
    is the kernel itself (the [NULL] process of paging.c). *)
Class Memory (mem : Type) := {
  heapAlloc : Z → M mem (option oid);
  heapReAlloc : oid → Z → M mem (option oid);
  heapFree : oid → M mem unit;
  pagingAllocatePhysMem : option oid → Z → bool → bool → M mem Z;
  pagingReleasePhysMem : option oid → Z → Z → M mem unit;
  pagingGetPhysMem : option oid → Z → M mem Z;
  pagingMapRemoteMemory : option oid → option oid → Z → Z → Z → bool → bool → M mem Z;
  pagingAllocProcessPageTable : oid → M mem Z;
  pagingForkProcessPageTable : oid → oid → M mem Z;
  pagingReleaseProcessPageTable : oid → M mem unit;
  (* the memory related fields of a struct processInfo, in their order *)
  pagingFillProcessInfo : option oid → M mem (Z * Z * Z * Z * Z);
}.

(** What the kernel relies on: [live m] are the addresses of the blocks in use. *)
Class MemoryLaws (mem : Type) `{Memory mem} := {
  live : mem → gset oid;
  heapAlloc_spec m n : wp (heapAlloc n) m (λ r m',
    match r with
    | Some o => (o ∉ live m) ∧ (live m' = {[o]} ∪ live m)
    | None => live m' = live m
    end);
  heapReAlloc_spec m o n : o ∈ live m → wp (heapReAlloc o n) m (λ r m',
    match r with
    | Some o' => (o' = o ∨ o' ∉ live m) ∧ live m' = {[o']} ∪ (live m ∖ {[o]})
    | None => live m' = live m
    end);
  heapFree_spec m o : o ∈ live m → wp (heapFree o) m (λ _ m', live m' = live m ∖ {[o]});
}.

(** ** The kernel state *)

Record kernel (mem : Type) := Kernel {
  objs : gmap oid object;
  qs : queues node;
  currentKernelTimestamp : Z;
  lastFPUthread : option oid;
  fileSystemRoot : option oid;
  con : console;
  memory : mem;
}.
Arguments Kernel {mem} _ _ _ _ _ _ _.
Arguments objs {mem} _.
Arguments qs {mem} _.
Arguments currentKernelTimestamp {mem} _.
Arguments lastFPUthread {mem} _.
Arguments fileSystemRoot {mem} _.
Arguments con {mem} _.
Arguments memory {mem} _.

Section State.
Context {mem : Type}.

Definition set_objs (x : gmap oid object) (k : kernel mem) : kernel mem :=
  Kernel x (qs k) (currentKernelTimestamp k) (lastFPUthread k) (fileSystemRoot k) (con k) (memory k).
Definition set_qs (x : queues node) (k : kernel mem) : kernel mem :=
  Kernel (objs k) x (currentKernelTimestamp k) (lastFPUthread k) (fileSystemRoot k) (con k) (memory k).
Definition set_timestamp (x : Z) (k : kernel mem) : kernel mem :=
  Kernel (objs k) (qs k) x (lastFPUthread k) (fileSystemRoot k) (con k) (memory k).
Definition set_lastFPU (x : option oid) (k : kernel mem) : kernel mem :=
  Kernel (objs k) (qs k) (currentKernelTimestamp k) x (fileSystemRoot k) (con k) (memory k).
Definition set_con (x : console) (k : kernel mem) : kernel mem :=
  Kernel (objs k) (qs k) (currentKernelTimestamp k) (lastFPUthread k) (fileSystemRoot k) x (memory k).
Definition set_memory (x : mem) (k : kernel mem) : kernel mem :=
  Kernel (objs k) (qs k) (currentKernelTimestamp k) (lastFPUthread k) (fileSystemRoot k) (con k) x.
Definition set_root (x : option oid) (k : kernel mem) : kernel mem :=
  Kernel (objs k) (qs k) (currentKernelTimestamp k) (lastFPUthread k) x (con k) (memory k).
End State.

(** A computation of the kernel. *)
Abbreviation KM mem := (M (kernel mem)).

(** What [wait] methods return: a queue to block on, or [NULL] with the value
    stored through [result], if any was. *)
Inductive waitResult :=
  | Queue (q : node)
  | Done (result : option Z).

(** The calls through [struct objectFunctions] that components make on
    objects they do not know. [loop_fuel] bounds the loops over lists. *)
Class Methods (mem : Type) := {
  loop_fuel : nat;
  __objectSignal : oid → Z → KM mem unit;
  __objectWait : oid → Z → KM mem waitResult;
  __objectRelease : oid → KM mem unit;
  __objectShutdown : oid → Z → KM mem unit;
}.

Section Objects.
Context {mem : Type}.
Abbreviation KM := (KM mem).

Definition with_memory {A} (m : M mem A) : KM A := zoom memory set_memory m.
Definition with_console {A} (m : M console A) : KM A := zoom con set_con m.

(** *** Accesses to an object *)

Definition getObject (o : oid) : KM object :=
  let* k := get in deref (objs k !! o) "dangling object pointer".

Definition putObject (o : oid) (x : object) : KM unit :=
  modify (λ k, set_objs (<[o := x]> (objs k)) k).

Definition getBody (o : oid) : KM body := let* x := getObject o in mret (obj_body x).

Definition putBody (o : oid) (b : body) : KM unit :=
  let* x := getObject o in putObject o (Object (refcount x) b).

(** [objectContainer]: the check of [__objectCheckType], then the structure
    around the object. *)
Definition objectContainer {T} (match_type : body → option T) (o : oid) : KM T :=
  let* b := getBody o in
  match match_type b with
  | Some t => mret t
  | None => panic "assert: obj && obj->functions == functions"
  end.

(** Following a typed pointer, which no check protects. *)
Definition pointee {T} (match_type : body → option T) (o : oid) : KM T :=
  let* b := getBody o in deref (match_type b) "pointer to another structure".

Definition as_semaphore (b : body) := match b with Semaphore s => Some s | _ => None end.
Definition as_event (b : body) := match b with Event e => Some e | _ => None end.
Definition as_subEvent (b : body) := match b with SubEvent s => Some s | _ => None end.
Definition as_timer (b : body) := match b with Timer t => Some t | _ => None end.
Definition as_pipe (b : body) := match b with Pipe p => Some p | _ => None end.
Definition as_thread (b : body) := match b with Thread t => Some t | _ => None end.
Definition as_directory (b : body) := match b with Directory d => Some d | _ => None end.
Definition as_file (b : body) := match b with File f => Some f | _ => None end.
Definition as_openedDirectory (b : body) := match b with OpenedDirectory d => Some d | _ => None end.
Definition as_openedFile (b : body) := match b with OpenedFile f => Some f | _ => None end.
Definition as_process (b : body) := match b with Process p => Some p | _ => None end.

Definition __objectAddRef (o : oid) : KM oid :=
  let* x := getObject o in
  putObject o (Object (u32 (refcount x + 1)) (obj_body x)) ;; mret o.

(** *** List calls

    A call that breaks the contract of list.h (linking a linked element,
    removing an unlinked one) corrupts the lists: undefined behaviour. *)

Definition queue_call (c : ll_call) : KM unit :=
  let* k := get in
  match q_exec c (qs k) with
  | Some q => put (set_qs q k)
  | None => undef "list.h: corrupted list"
  end.

Definition queue_init (list : node) : KM unit := queue_call (CallInit list).
Definition queue_add_after (list element : node) : KM unit := queue_call (CallAddAfter list element).
Definition queue_add_before (list element : node) : KM unit := queue_call (CallAddBefore list element).
Definition queue_add_tail := queue_add_before.
Definition queue_remove (element : node) : KM unit := queue_call (CallRemove element).

Definition queue_empty (list : node) : KM bool :=
  let* k := get in
  let* xs := deref (qs k !! list) "list.h: dangling list head" in
  mret (bool_decide (xs = [])).

Definition queue_next (n : node) : KM node :=
  let* k := get in deref (q_next n (qs k)) "list.h: dangling link".

(** *** Creation and destruction *)

Definition createObject `{Memory mem} (size : Z) (b : body) : KM (option oid) :=
  let* r := with_memory (heapAlloc size) in
  match r with
  | None => mret None
  | Some o => putObject o (Object 1 b) ;; mret (Some o)
  end.

(** [obj->functions = NULL; heapFree(obj)]: the object and the list heads in
    it are gone; [heads] are those heads. *)
Definition freeObject `{Memory mem} (o : oid) (heads : list node) : KM unit :=
  modify (λ k, set_qs (foldr delete (qs k) heads) (set_objs (delete o (objs k)) k)) ;;
  with_memory (heapFree o).

(** *** Iteration *)

(** LL_FOR_EACH_SAFE, with a value threaded through the body; [inr] breaks. *)
Fixpoint for_each_safe_loop {A} (fuel : nat) (list : node) (body : oid → A → KM (A + A))
    (element next_element : node) (a : A) : KM A :=
  match fuel with
  | O => no_fuel
  | S fuel =>
      if decide (element = list) then mret a
      else
        let* o := deref (container element) "list.h: a list head used as an object" in
        let* r := body o a in
        match r with
        | inl a =>
            let* n := queue_next next_element in
            for_each_safe_loop fuel list body next_element n a
        | inr a => mret a
        end
  end.

Definition for_each_safe {A} (fuel : nat) (list : node) (body : oid → A → KM (A + A)) (a : A) : KM A :=
  let* element := queue_next list in
  let* next_element := queue_next element in
  for_each_safe_loop fuel list body element next_element a.

(** LL_FOR_EACH; the node the loop stopped at is returned as well. *)
Fixpoint for_each_loop {A} (fuel : nat) (list : node) (body : oid → A → KM (A + A))
    (element : node) (a : A) : KM (node * A) :=
  match fuel with
  | O => no_fuel
  | S fuel =>
      if decide (element = list) then mret (element, a)
      else
        let* o := deref (container element) "list.h: a list head used as an object" in
        let* r := body o a in
        match r with
        | inl a => let* n := queue_next element in for_each_loop fuel list body n a
        | inr a => mret (element, a)
        end
  end.

Definition for_each {A} (fuel : nat) (list : node) (body : oid → A → KM (A + A)) (a : A) : KM (node * A) :=
  let* element := queue_next list in for_each_loop fuel list body element a.

Definition queueWakeup `{Methods mem} (queue : node) (all : bool) (eax : Z) : KM unit :=
  for_each_safe loop_fuel queue (λ o _,
    __objectSignal o eax ;; mret (if all then inl tt else inr tt)) tt.

(** [__objectGetMinHandle], through the table: pipes and stdout start at 0. *)
Definition __objectGetMinHandle (o : oid) : KM Z :=
  let* b := getBody o in
  mret (match b with Pipe _ | Stdout => 0 | _ => 3 end).
End Objects.


(** ** Rules for the primitives *)

Section Rules.
Context {mem : Type}.
Implicit Types (k : kernel mem).

Lemma wp_getObject o x k (Q : object → kernel mem → Prop) :
  objs k !! o = Some x → Q x k → wp (getObject o) k Q.
Proof. intros Ho HQ. unfold getObject. wp_steps. by eapply wp_deref. Qed.

Lemma wp_getBody o x k (Q : body → kernel mem → Prop) :
  objs k !! o = Some x → Q (obj_body x) k → wp (getBody o) k Q.
Proof. intros Ho HQ. unfold getBody. wp_step. eapply wp_getObject; [done|]. by wp_step. Qed.

Lemma wp_putBody o x b k (Q : unit → kernel mem → Prop) :
  objs k !! o = Some x →
  Q tt (set_objs (<[o := Object (refcount x) b]> (objs k)) k) → wp (putBody o b) k Q.
Proof.
  intros Ho HQ. unfold putBody. wp_step. eapply wp_getObject; [done|]. unfold putObject. by wp_steps.
Qed.

Lemma wp_pointee {T} (f : body → option T) o x t k (Q : T → kernel mem → Prop) :
  objs k !! o = Some x → f (obj_body x) = Some t → Q t k → wp (pointee f o) k Q.
Proof.
  intros Ho Hf HQ. unfold pointee. wp_step. eapply wp_getBody; [done|]. by eapply wp_deref.
Qed.

Lemma wp_container {T} (f : body → option T) o x t k (Q : T → kernel mem → Prop) :
  objs k !! o = Some x → f (obj_body x) = Some t → Q t k → wp (objectContainer f o) k Q.
Proof.
  intros Ho Hf HQ. unfold objectContainer. wp_step. eapply wp_getBody; [done|]. rewrite Hf. by wp_step.
Qed.

Lemma wp_queue_empty l xs k (Q : bool → kernel mem → Prop) :
  qs k !! l = Some xs → Q (bool_decide (xs = [])) k → wp (queue_empty l) k Q.
Proof. intros Hl HQ. unfold queue_empty. wp_steps. eapply wp_deref; [done|]. by wp_step. Qed.

Lemma wp_queue_next n m k (Q : node → kernel mem → Prop) :
  q_next n (qs k) = Some m → Q m k → wp (queue_next n) k Q.
Proof. intros Hn HQ. unfold queue_next. wp_steps. by eapply wp_deref. Qed.

Lemma wp_queue_init l k (Q : unit → kernel mem → Prop) :
  free_node (qs k) l → Q tt (set_qs (<[l := []]> (qs k)) k) → wp (queue_init l) k Q.
Proof.
  intros Hf HQ. unfold queue_init, queue_call. wp_steps. simpl. by rewrite decide_True.
Qed.

Lemma wp_queue_remove l xs e ys k (Q : unit → kernel mem → Prop) :
  q_ok (qs k) → qs k !! l = Some (xs ++ e :: ys) →
  Q tt (set_qs (<[l := xs ++ ys]> (qs k)) k) → wp (queue_remove e) k Q.
Proof.
  intros Hok Hl HQ. unfold queue_remove, queue_call. wp_steps. simpl.
  rewrite decide_True by (exists l, (xs ++ e :: ys); split; [done|set_solver]).
  erewrite q_remove_insert by done. by wp_step.
Qed.

Lemma wp_queue_add_head l xs e k (Q : unit → kernel mem → Prop) :
  q_ok (qs k) → qs k !! l = Some xs → free_node (qs k) e →
  Q tt (set_qs (<[l := e :: xs]> (qs k)) k) → wp (queue_add_after l e) k Q.
Proof.
  intros Hok Hl Hf HQ. unfold queue_add_after, queue_call. wp_steps. simpl.
  rewrite decide_True by (split; [exists l, xs; split; [done|set_solver]|done]).
  destruct (q_add_head _ _ _ e Hok Hl) as [-> _]. by wp_step.
Qed.

Lemma wp_queue_add_tail l xs e k (Q : unit → kernel mem → Prop) :
  q_ok (qs k) → qs k !! l = Some xs → free_node (qs k) e →
  Q tt (set_qs (<[l := xs ++ [e]]> (qs k)) k) → wp (queue_add_before l e) k Q.
Proof.
  intros Hok Hl Hf HQ. unfold queue_add_before, queue_call. wp_steps. simpl.
  rewrite decide_True by (split; [exists l, xs; split; [done|set_solver]|done]).
  destruct (q_add_head _ _ _ e Hok Hl) as [_ ->]. by wp_step.
Qed.

Lemma wp_queue_add_before l xs r ys e k (Q : unit → kernel mem → Prop) :
  q_ok (qs k) → qs k !! l = Some (xs ++ r :: ys) → free_node (qs k) e →
  Q tt (set_qs (<[l := xs ++ e :: r :: ys]> (qs k)) k) → wp (queue_add_before r e) k Q.
Proof.
  intros Hok Hl Hf HQ. unfold queue_add_before, queue_call. wp_steps. simpl.
  rewrite decide_True by (split; [exists l, (xs ++ r :: ys); split; [done|set_solver]|done]).
  destruct (q_add_elem _ _ _ _ _ e Hok Hl) as [_ ->]. by wp_step.
Qed.
End Rules.
