(* ===== verification/Semaphore.v ===== *)
(** * semaphore.c: counting semaphores

    Models src/kernelmode/kernel/process/semaphore.c. *)

From S2P Require Import Prelude LinkedList Kernel.
Open Scope Z_scope.

Section Semaphore.
Context {mem : Type} `{Memory mem} `{Methods mem}.
Abbreviation KM := (KM mem).

Definition sizeof_semaphore := 28.

Definition semaphoreCreate (value : Z) : KM (option oid) :=
  let* r := createObject sizeof_semaphore (Semaphore (SemaphoreFields value)) in
  match r with
  | None => mret None
  | Some s => queue_init (Waiters s) ;; mret (Some s)
  end.

Definition __semaphoreDestroy (obj : oid) : KM unit :=
  objectContainer as_semaphore obj ;;
  queueWakeup (Waiters obj) true ERR ;;
  let* b := queue_empty (Waiters obj) in
  assert b "ll_empty(&s->waiters)" ;;
  freeObject obj [Waiters obj].

Definition __semaphoreShutdown (obj : oid) (mode : Z) : KM unit :=
  objectContainer as_semaphore obj ;;
  queueWakeup (Waiters obj) true ERR.

Definition __semaphoreGetStatus (obj : oid) (mode : Z) : KM Z :=
  let* s := objectContainer as_semaphore obj in mret (i32 (value s)).

Definition __semaphoreWait (obj : oid) (mode : Z) : KM waitResult :=
  let* s := objectContainer as_semaphore obj in
  if value s =? 0 then mret (Queue (Waiters obj))
  else
    let v := u32 (value s - 1) in
    putBody obj (Semaphore (SemaphoreFields v)) ;; mret (Done (Some v)).

Definition __semaphoreSignal (obj : oid) (result : Z) : KM unit :=
  let* s := objectContainer as_semaphore obj in
  let* b := queue_empty (Waiters obj) in
  if b : bool then putBody obj (Semaphore (SemaphoreFields (u32 (value s + 1))))
  else
    assert (value s =? 0) "s->value == 0" ;;
    queueWakeup (Waiters obj) false 0.
End Semaphore.
