(* ===== verification/Event.v ===== *)
(** * event.c: events and the objects attached to them

    Models src/kernelmode/kernel/process/event.c. *)

From S2P Require Import Prelude LinkedList Kernel.
Open Scope Z_scope.

Section Event.
Context {mem : Type} `{Memory mem} `{Methods mem}.
Abbreviation KM := (KM mem).

Definition sizeof_event := 40.
Definition sizeof_subEvent := 44.

Definition eventCreate (wakeupAll : bool) : KM (option oid) :=
  let* r := createObject sizeof_event (Event (EventFields 0 wakeupAll)) in
  match r with
  | None => mret None
  | Some e => queue_init (Waiters e) ;; queue_init (SubEvents e) ;; mret (Some e)
  end.

(** Unlinking and freeing a sub event, as the loops of [__eventDestroy] and
    [__eventDetachObj] do. *)
Definition releaseSubEvent (sub : oid) : KM unit :=
  let* s := pointee as_subEvent sub in
  when (s_blocked s) (queue_remove (Entry sub)) ;;
  queue_remove (EntryEvent sub) ;;
  __objectRelease (s_wait s) ;;
  freeObject sub [].

Definition __eventDestroy (obj : oid) : KM unit :=
  objectContainer as_event obj ;;
  queueWakeup (Waiters obj) true ERR ;;
  let* b := queue_empty (Waiters obj) in
  assert b "ll_empty(&e->waiters)" ;;
  for_each_safe loop_fuel (SubEvents obj) (λ sub _, releaseSubEvent sub ;; mret (inl tt)) tt ;;
  freeObject obj [Waiters obj; SubEvents obj].

Definition __eventShutdown (obj : oid) (mode : Z) : KM unit :=
  objectContainer as_event obj ;;
  queueWakeup (Waiters obj) true ERR.

Definition __eventGetStatus (obj : oid) (mode : Z) : KM Z :=
  let* e := objectContainer as_event obj in mret (i32 (e_status e)).

(** [e->status = v] *)
Definition set_status (obj : oid) (v : Z) : KM unit :=
  let* e := pointee as_event obj in
  putBody obj (Event (EventFields v (e_wakeupAll e))).

Definition set_blocked (sub : oid) (b : bool) : KM unit :=
  let* s := pointee as_subEvent sub in
  putBody sub (SubEvent (SubEventFields b (s_event s) (s_wait s) (s_waitMode s) (s_identifier s))).

(** One round of the loop of [__eventWait]: [Some r] stops it with the
    identifier [r] of the sub event that did not block. *)
Definition eventWait_step (obj sub : oid) (_ : option Z) : KM (option Z + option Z) :=
  let* s := pointee as_subEvent sub in
  if s_blocked s then mret (inl None)
  else
    assert (bool_decide (s_event s = obj)) "sub->event == e" ;;
    set_status obj 0 ;;
    let* r := __objectWait (s_wait s) (s_waitMode s) in
    match r with
    | Queue queue =>
        set_blocked sub true ;;
        queue_add_after queue (Entry sub) ;;
        mret (inl None)
    | Done res =>
        match res with Some v => set_status obj v | None => mret tt end ;;
        mret (inr (Some (s_identifier s)))
    end.

Definition __eventWait (obj : oid) (mode : Z) : KM waitResult :=
  objectContainer as_event obj ;;
  let* ' (_, r) := for_each loop_fuel (SubEvents obj) (eventWait_step obj) None in
  match r with
  | Some ident => mret (Done (Some ident))
  | None => mret (Queue (Waiters obj))
  end.

Definition __eventSignal (obj : oid) (result : Z) : KM unit :=
  let* e := objectContainer as_event obj in
  set_status obj 0 ;;
  queueWakeup (Waiters obj) (e_wakeupAll e) result.

Definition __eventAttachObj (obj subObj : oid) (mode ident : Z) : KM bool :=
  objectContainer as_event obj ;;
  let* r := createObject sizeof_subEvent (SubEvent (SubEventFields false obj subObj mode ident)) in
  match r with
  | None => mret false
  | Some sub =>
      queue_add_tail (SubEvents obj) (EntryEvent sub) ;;
      __objectAddRef subObj ;;
      mret true
  end.

Definition __eventDetachObj (obj : oid) (ident : Z) : KM bool :=
  objectContainer as_event obj ;;
  for_each_safe loop_fuel (SubEvents obj) (λ sub success,
    let* s := pointee as_subEvent sub in
    if s_identifier s =? ident then releaseSubEvent sub ;; mret (inl true)
    else mret (inl success)) false.

Definition __subEventSignal (obj : oid) (result : Z) : KM unit :=
  let* s := objectContainer as_subEvent obj in
  if s_blocked s then
    set_blocked obj false ;;
    queue_remove (Entry obj) ;;
    let* e := pointee as_event (s_event s) in
    set_status (s_event s) result ;;
    queueWakeup (Waiters (s_event s)) (e_wakeupAll e) (s_identifier s)
  else mret tt.
End Event.
