(* ===== verification/Timer.v ===== *)
(** * timer.c: timers and the timer interrupt

    Models src/kernelmode/kernel/process/timer.c. Active timers are linked in
    [TimerList], ordered by timeout. *)

From S2P Require Import Prelude LinkedList Kernel.
Open Scope Z_scope.

Section Timer.
Context {mem : Type} `{Memory mem} `{Methods mem}.
Abbreviation KM := (KM mem).

Definition TIMER_INTERRUPT_FREQUENCY := 82.
Definition TIMER_INTERRUPT_DELTA := 12.
Definition sizeof_timer := 44.
Definition sizeof_timerInfo := 12.

(** *** Field updates *)

Definition timer_with_active (b : bool) (t : timer) : timer :=
  TimerFields b (t_timeout t) (t_interval t) (t_wakeupAll t).
Definition timer_with_timeout (v : Z) (t : timer) : timer :=
  TimerFields (t_active t) v (t_interval t) (t_wakeupAll t).
Definition timer_with_interval (v : Z) (t : timer) : timer :=
  TimerFields (t_active t) (t_timeout t) v (t_wakeupAll t).

Definition modify_timer (o : oid) (f : timer → timer) : KM unit :=
  let* t := pointee as_timer o in putBody o (Timer (f t)).

(** *** The list of active timers *)

Definition __timerDeactivate (o : oid) : KM unit :=
  let* t := pointee as_timer o in
  when (t_active t) (queue_remove (Entry o) ;; modify_timer o (timer_with_active false)).

Definition __timerActivate (o : oid) : KM unit :=
  let* t := pointee as_timer o in
  when (negb (t_active t))
    (let* ' (cur, _) := for_each loop_fuel TimerList (λ c _,
       let* cur_t := pointee as_timer c in
       mret (if t_timeout t <? t_timeout cur_t then inr tt else inl tt)) tt in
     queue_add_before cur (Entry o) ;;
     modify_timer o (timer_with_active true)).

Definition __timerUpdate (o : oid) : KM unit := __timerDeactivate o ;; __timerActivate o.

(** *** Operations *)

Definition timerCreate (wakeupAll : bool) : KM (option oid) :=
  let* r := createObject sizeof_timer (Timer (TimerFields false 0 0 wakeupAll)) in
  match r with
  | None => mret None
  | Some t => queue_init (Waiters t) ;; mret (Some t)
  end.

Definition __timerDestroy (obj : oid) : KM unit :=
  objectContainer as_timer obj ;;
  __timerDeactivate obj ;;
  queueWakeup (Waiters obj) true ERR ;;
  let* b := queue_empty (Waiters obj) in
  assert b "ll_empty(&t->waiters)" ;;
  freeObject obj [Waiters obj].

Definition __timerShutdown (obj : oid) (mode : Z) : KM unit :=
  objectContainer as_timer obj ;;
  __timerDeactivate obj ;;
  queueWakeup (Waiters obj) true ERR.

Definition __timerGetStatus (obj : oid) (mode : Z) : KM Z :=
  let* t := objectContainer as_timer obj in
  mret (if negb (t_interval t =? 0) then -1 else if t_active t then 0 else 1).

(** The number of periods that have passed since the timeout, and the timeout
    that follows. [eventCount] and the product are 32-bit. *)
Definition eventCount (now : Z) (t : timer) : Z :=
  u32 (u64 (now - t_timeout t) / t_interval t + 1).
Definition next_timeout (now : Z) (t : timer) : Z :=
  u64 (t_timeout t + u32 (eventCount now t * t_interval t)).

Definition __timerWait (obj : oid) (mode : Z) : KM waitResult :=
  let* t := objectContainer as_timer obj in
  let* now := gets currentKernelTimestamp in
  if now <? t_timeout t then
    __timerActivate obj ;; mret (Queue (Waiters obj))
  else if negb (t_interval t =? 0) then
    modify_timer obj (timer_with_timeout (next_timeout now t)) ;;
    __timerUpdate obj ;;
    mret (Done (Some (eventCount now t)))
  else
    __timerDeactivate obj ;;
    mret (Done (Some (if t_active t then 1 else 0))).

Definition __timerSignal (obj : oid) (result : Z) : KM unit :=
  let* t := objectContainer as_timer obj in
  queueWakeup (Waiters obj) (t_wakeupAll t) 0.

(** The buffer of [__timerWrite], read as a [struct timerInfo]. *)
Record timerInfo := TimerInfo { ti_timeout : Z; ti_interval : Z }.

Definition le_bytes (bs : list Z) : Z := foldr (λ b v, b + 256 * v) 0 bs.

Definition parse_timerInfo (buf : list Z) : timerInfo :=
  TimerInfo (le_bytes (take 8 buf)) (le_bytes (take 4 (drop 8 buf))).

Definition __timerWrite (obj : oid) (buf : list Z) (length : Z) : KM Z :=
  objectContainer as_timer obj ;;
  if negb (length =? sizeof_timerInfo) then mret (-1)
  else
    let info := parse_timerInfo buf in
    let* now := gets currentKernelTimestamp in
    modify_timer obj (timer_with_timeout (u64 (now + ti_timeout info))) ;;
    modify_timer obj (timer_with_interval (ti_interval info)) ;;
    __timerUpdate obj ;;
    mret length.

(** *** The interrupt *)

(** One expired timer: set it up for its next period or deactivate it, then
    wake up its waiters. *)
Definition timer_expire (now : Z) (o : oid) : KM unit :=
  let* t := pointee as_timer o in
  let* count :=
    (if negb (t_interval t =? 0) then
       modify_timer o (timer_with_timeout (next_timeout now t)) ;;
       __timerUpdate o ;;
       mret (eventCount now t)
     else __timerDeactivate o ;; mret 1) in
  queueWakeup (Waiters o) (t_wakeupAll t) count.

Fixpoint timer_irq_loop (fuel : nat) : KM unit :=
  match fuel with
  | O => no_fuel
  | S fuel =>
      let* n := queue_next TimerList in
      if decide (n = TimerList) then mret tt
      else
        let* o := deref (container n) "timerList: not a timer" in
        let* t := pointee as_timer o in
        let* now := gets currentKernelTimestamp in
        if now <? t_timeout t then mret tt
        else timer_expire now o ;; timer_irq_loop fuel
  end.

Definition INTERRUPT_CONTINUE_EXECUTION := 1.
Definition INTERRUPT_YIELD := 2.

Definition timer_irq (irq : Z) : KM Z :=
  modify (λ k, set_timestamp (u64 (currentKernelTimestamp k + TIMER_INTERRUPT_DELTA)) k) ;;
  timer_irq_loop loop_fuel ;;
  mret INTERRUPT_YIELD.

Definition timerGetTimestamp : KM Z := gets currentKernelTimestamp.
End Timer.
