(* ===== verification/Pipe.v ===== *)
(** * pipe.c: pipes and the console as an object

    Models src/kernelmode/kernel/process/pipe.c. *)

From S2P Require Import Prelude LinkedList Console Kernel.
Open Scope Z_scope.

Section Pipe.
Context {mem : Type} `{Memory mem} `{Methods mem}.
Abbreviation KM := (KM mem).

Definition MIN_PIPE_BUFFER_SIZE := 0x1000.
Definition MAX_PIPE_BUFFER_SIZE := 0x10000.
Definition sizeof_pipe := 52.
Definition sizeof_stdout := 16.

(** The contents of fresh memory are not specified; no byte of a pipe's buffer
    is read before it is written, and zero stands for whatever is there. *)
Definition fresh_bytes (n : Z) : list Z := replicate (Z.to_nat n) 0.

Definition pipeCreate : KM (option oid) :=
  let* r := with_memory (heapAlloc sizeof_pipe) in
  match r with
  | None => mret None
  | Some p =>
      let* b := with_memory (heapAlloc MIN_PIPE_BUFFER_SIZE) in
      match b with
      | None => with_memory (heapFree p) ;; mret None
      | Some buffer =>
          putObject p (Object 1 (Pipe (PipeFields
            (Some (Block buffer (fresh_bytes MIN_PIPE_BUFFER_SIZE))) MIN_PIPE_BUFFER_SIZE 0 0 true))) ;;
          queue_init (WriteWaiters p) ;;
          queue_init (ReadWaiters p) ;;
          mret (Some p)
      end
  end.

Definition freeBuffer (b : option (block Z)) : KM unit :=
  match b with Some b => with_memory (heapFree (b_addr b)) | None => mret tt end.

Definition __pipeDestroy (obj : oid) : KM unit :=
  objectContainer as_pipe obj ;;
  queueWakeup (WriteWaiters obj) true ERR ;;
  queueWakeup (ReadWaiters obj) true ERR ;;
  let* b := queue_empty (WriteWaiters obj) in
  assert b "ll_empty(&p->writeWaiters)" ;;
  let* b := queue_empty (ReadWaiters obj) in
  assert b "ll_empty(&p->readWaiters)" ;;
  let* p := pointee as_pipe obj in
  freeBuffer (p_buffer p) ;;
  freeObject obj [WriteWaiters obj; ReadWaiters obj].

Definition __pipeGetMinHandle (obj : oid) : Z := 0.

Definition __pipeShutdown (obj : oid) (mode : Z) : KM unit :=
  let* p := objectContainer as_pipe obj in
  putBody obj (Pipe (PipeFields (p_buffer p) (p_size p) (p_writePos p) (p_readPos p) false)) ;;
  queueWakeup (WriteWaiters obj) true ERR ;;
  let* p := pointee as_pipe obj in
  if negb (mode =? 0) && negb (p_writePos p =? p_readPos p) then mret tt
  else
    queueWakeup (ReadWaiters obj) true ERR ;;
    let* p := pointee as_pipe obj in
    freeBuffer (p_buffer p) ;;
    putBody obj (Pipe (PipeFields None 0 0 0 (p_writeable p))).

Definition used (p : pipe) : Z := u32 (p_writePos p - p_readPos p).

Definition __pipeGetStatus (obj : oid) (mode : Z) : KM Z :=
  let* p := objectContainer as_pipe obj in
  if negb (p_writeable p) && (negb (mode =? 0) || (used p =? 0)) then mret (-1)
  else mret (i32 (if negb (mode =? 0) then u32 (MAX_PIPE_BUFFER_SIZE - used p) else used p)).

Definition __pipeWait (obj : oid) (mode : Z) : KM waitResult :=
  let* p := objectContainer as_pipe obj in
  if negb (mode =? 0) then
    if negb (p_writeable p) then mret (Done (Some ERR))
    else if MAX_PIPE_BUFFER_SIZE <=? used p then mret (Queue (WriteWaiters obj))
    else mret (Done (Some (u32 (MAX_PIPE_BUFFER_SIZE - used p))))
  else
    if negb (p_writeable p) && (used p =? 0) then mret (Done (Some ERR))
    else if used p =? 0 then mret (Queue (ReadWaiters obj))
    else mret (Done (Some (used p))).

(** *** Buffer arithmetic

    The three steps of [__pipeWrite] before the copy. *)

Definition set_buffer (p : pipe) (b : block Z) (size writePos readPos : Z) : pipe :=
  PipeFields (Some b) size writePos readPos (p_writeable p).

(** [memmove(buffer, buffer + readPos, writePos - readPos)] and the new positions. *)
Definition compact (p : pipe) (b : block Z) : pipe :=
  if p_readPos p =? 0 then p
  else
    let n := Z.to_nat (used p) in
    let data := take n (drop (Z.to_nat (p_readPos p)) (b_data b)) ++ drop n (b_data b) in
    set_buffer p (Block (b_addr b) data) (p_size p) (u32 (p_writePos p - p_readPos p)) 0.

(** [while (new_size < writePos + length) new_size *= 2;] *)
Fixpoint double_until (fuel : nat) (new_size need : Z) : outcome Z :=
  match fuel with
  | O => NoFuel
  | S fuel => if new_size <? need then double_until fuel (u32 (new_size * 2)) need else Ok new_size
  end.

Definition grow (obj : oid) (length : Z) : KM unit :=
  let* p := pointee as_pipe obj in
  when (u32 (p_size p - p_writePos p) <? length)
    (match double_until 64 (u32 (p_size p * 2)) (u32 (p_writePos p + length)) with
     | Ok new_size =>
         let* b := deref (p_buffer p) "p->buffer is a null pointer" in
         let* r := with_memory (heapReAlloc (b_addr b) new_size) in
         let* addr := match r with Some a => mret a | None => panic "assert: p->buffer" end in
         let data := resize (Z.to_nat new_size) 0 (b_data b) in
         putBody obj (Pipe (set_buffer p (Block addr data) new_size (p_writePos p) (p_readPos p)))
     | _ => no_fuel
     end).

(** Replacing the bytes of [l] at [pos]: [memcpy(l + pos, bs, length)]. *)
Definition blit (l : list Z) (pos : Z) (bs : list Z) : list Z :=
  take (Z.to_nat pos) l ++ bs ++ drop (Z.to_nat pos + length bs) l.

Definition __pipeWrite (obj : oid) (buf : list Z) (len : Z) : KM Z :=
  let* p := objectContainer as_pipe obj in
  let used := used p in
  if negb (p_writeable p) then mret (-1)
  else
    assert (bool_decide (is_Some (p_buffer p))) "p->buffer" ;;
    let room := u32 (MAX_PIPE_BUFFER_SIZE - used) in
    let len := if room <? len then room else len in
    when (u32 (p_size p - p_writePos p) <? len)
      (match p_buffer p with
       | Some b => putBody obj (Pipe (compact p b))
       | None => undef "memmove from a null pointer"
       end ;;
       grow obj len) ;;
    when (0 <? len)
      (let* p := pointee as_pipe obj in
       let* b := deref (p_buffer p) "memcpy to a null pointer" in
       if (len <=? lenZ buf) && (p_writePos p + len <=? lenZ (b_data b)) then
         putBody obj (Pipe (set_buffer p
           (Block (b_addr b) (blit (b_data b) (p_writePos p) (take (Z.to_nat len) buf)))
           (p_size p) (u32 (p_writePos p + len)) (p_readPos p)))
       else undef "memcpy: out of the buffer") ;;
    let used := if 0 <? len then u32 (used + len) else used in
    when (negb (used =? 0)) (queueWakeup (ReadWaiters obj) true used) ;;
    mret (i32 len).

(** The bytes read are returned with the result. *)
Definition __pipeRead (obj : oid) (len : Z) : KM (Z * list Z) :=
  let* p := objectContainer as_pipe obj in
  let used := used p in
  if negb (p_writeable p) && (used =? 0) then mret (-1, [])
  else
    let* b := match p_buffer p with Some b => mret b | None => panic "assert: p->buffer" end in
    let len := if used <? len then used else len in
    let* data :=
      (if 0 <? len then
         if p_readPos p + len <=? lenZ (b_data b) then
           putBody obj (Pipe (set_buffer p b (p_size p) (p_writePos p) (u32 (p_readPos p + len)))) ;;
           mret (take (Z.to_nat len) (drop (Z.to_nat (p_readPos p)) (b_data b)))
         else undef "memcpy: out of the buffer"
       else mret []) in
    let used := if 0 <? len then u32 (used - len) else used in
    let* p := pointee as_pipe obj in
    when (p_readPos p =? p_writePos p)
      (if negb (p_writeable p) then
         freeBuffer (p_buffer p) ;;
         putBody obj (Pipe (PipeFields None 0 0 0 (p_writeable p)))
       else putBody obj (Pipe (PipeFields (p_buffer p) (p_size p) 0 0 (p_writeable p)))) ;;
    when (used <? MAX_PIPE_BUFFER_SIZE)
      (let* p := pointee as_pipe obj in
       queueWakeup (WriteWaiters obj) true (if p_writeable p then u32 (MAX_PIPE_BUFFER_SIZE - used) else 0)) ;;
    mret (i32 len, data).

(** *** stdout *)

Definition stdoutCreate : KM (option oid) := createObject sizeof_stdout Stdout.

Definition as_stdout (b : body) := match b with Stdout => Some tt | _ => None end.

Definition __stdoutDestroy (obj : oid) : KM unit :=
  objectContainer as_stdout obj ;; freeObject obj [].

Definition __stdoutGetMinHandle (obj : oid) : Z := 0.

Definition __stdoutWrite (obj : oid) (buf : list Z) (length : Z) : KM Z :=
  with_console (consoleWriteStringLen buf (Z.to_nat length)) ;; mret (i32 length).
End Pipe.
