(* ===== verification/Handle.v ===== *)
(** * handle.c: the handle table of a process

    Models src/kernelmode/kernel/process/handle.c. The functions that only
    change the table are pure functions on [handleTable]; where the allocator
    is called, [heap] is the block it returned, if any. The array of a table
    is the list of its slots, a null pointer being [None]. *)

From S2P Require Import Prelude LinkedList Kernel.
Open Scope Z_scope.

Definition MIN_HANDLES := 0x100.
Definition MAX_HANDLES := 0x10000.

Abbreviation slots := (list (option oid)).

(** [memset(handles + from, 0, ...)] on an array grown or cut to [n] slots. *)
Definition resize_slots (n : Z) (l : slots) : slots := resize (Z.to_nat n) None l.

Definition set_slots (t : handleTable) (count free_begin free_end : Z) (addr : oid) (l : slots) : handleTable :=
  HandleTable count free_begin free_end (Some (Block addr l)).

(** The slots of the table: [None] for a null pointer. *)
Definition table_slots (t : handleTable) : option slots := b_data <$> h_handles t.

(** [while (count < n) count *= 2;] in 32 bits; [None]: it never ends. *)
Fixpoint double_count (fuel : nat) (count n : Z) : option Z :=
  match fuel with
  | O => None
  | S fuel => if count <? n then double_count fuel (u32 (count * 2)) n else Some count
  end.

(** The number of slots the table is grown to for slot [i]. *)
Definition grown_count (count i : Z) : option Z :=
  c ← double_count 33 (u32 (2 * count)) i;
  Some (if MAX_HANDLES <? c then MAX_HANDLES else c).

(** *** handleAllocate

    The search of the loop: the first empty slot from [i] to below the end. *)
Fixpoint first_free (l : slots) (i : Z) (n : nat) : option Z :=
  match n with
  | O => None
  | S n => match nthZ l i with Some None => Some i | _ => first_free l (i + 1) n end
  end.

(** Where [handleAllocate] puts an object: in a free slot below the end, in
    the slot at the end, or in that slot after growing the array to so many
    slots; [Full]: no more handles. *)
Inductive placement :=
  | InTable (i : Z)
  | AtEnd (i : Z)
  | Grow (i count : Z)
  | Full.

Definition place (t : handleTable) (l : slots) (minHandle : Z) : option placement :=
  let start := if minHandle <? h_free_begin t then h_free_begin t else minHandle in
  match first_free l start (Z.to_nat (h_free_end t - start)) with
  | Some i => Some (InTable i)
  | None =>
      let i := if start <? h_free_end t then h_free_end t else start in
      if h_count t <=? i then
        count ← grown_count (h_count t) i;
        Some (if count <=? h_count t then Full else Grow i count)
      else Some (AtEnd i)
  end.

(** The table after an object has been placed; [addr]: the address of the array. *)
Definition placed (t : handleTable) (l : slots) (addr obj : oid) (p : placement) : option handleTable :=
  match p with
  | InTable i => Some (set_slots t (h_count t) (i + 1) (h_free_end t) addr (setZ l i (Some obj)))
  | AtEnd i =>
      if i <? lenZ l then Some (set_slots t (h_count t) (i + 1) (i + 1) addr (setZ l i (Some obj))) else None
  | Grow i count =>
      if i <? count then
        Some (set_slots t count (i + 1) (i + 1) addr (setZ (resize_slots count l) i (Some obj)))
      else None
  | Full => Some t
  end.

(** *** handleSet *)

Definition set_handle (t : handleTable) (l : slots) (addr : oid) (handle : Z) (obj : oid) : option handleTable :=
  if handle <? lenZ l then
    Some (set_slots t (lenZ l)
      (if handle =? h_free_begin t then handle + 1 else h_free_begin t)
      (if h_free_end t <=? handle then handle + 1 else h_free_end t)
      addr (setZ l handle (Some obj)))
  else None.

(** *** handleGet *)

Definition handleGet (t : handleTable) (handle : Z) : outcome (option oid) :=
  if h_free_end t <=? handle then Ok None
  else
    match table_slots t with
    | None => Undef "handleGet: table released"
    | Some l => match nthZ l handle with Some o => Ok o | None => Undef "handleGet: out of the array" end
    end.

(** *** handleRelease *)

(** [while (free_end > 0 && !handles[free_end - 1]) free_end--;] *)
Fixpoint trim_end (l : slots) (n : nat) : Z :=
  match n with
  | O => 0
  | S n' => match l !! n' with Some None => trim_end l n' | _ => Z.of_nat n end
  end.

(** The table after slot [handle] has been emptied, before the array is cut. *)
Definition release_slot (t : handleTable) (l : slots) (addr : oid) (handle : Z) : handleTable :=
  let l := setZ l handle None in
  set_slots t (h_count t)
    (if handle <? h_free_begin t then handle else h_free_begin t)
    (if handle =? h_free_end t - 1 then trim_end l (Z.to_nat (h_free_end t)) else h_free_end t)
    addr l.

(** The size the array is cut to, if it is. *)
Definition shrink_count (t : handleTable) : option Z :=
  if (MIN_HANDLES <? h_free_end t) && (h_free_end t <? h_count t / 4) then
    Some (if h_count t / 4 <? MIN_HANDLES then MIN_HANDLES else h_count t / 4)
  else None.

Definition shrunk (t : handleTable) (l : slots) (addr : oid) (count : Z) : handleTable :=
  set_slots t count (h_free_begin t) (h_free_end t) addr (resize_slots count l).

(** *** handleCount *)

Definition handleCount (t : handleTable) : outcome Z :=
  match table_slots t with
  | None => if h_free_end t <=? 0 then Ok 0 else Undef "handleCount: table released"
  | Some l =>
      if h_free_end t <=? lenZ l
      then Ok (u32 (lenZ (filter (λ s, is_Some s) (take (Z.to_nat (h_free_end t)) l))))
      else Undef "handleCount: out of the array"
  end.

(** *** The operations of the kernel *)

Section Handle.
Context {mem : Type} `{Memory mem} `{Methods mem}.
Abbreviation KM := (KM mem).

Definition sizeof_pointer := 4.

Definition get_table (p : oid) : KM handleTable := let* q := pointee as_process p in mret (pr_handles q).

Definition set_table (p : oid) (t : handleTable) : KM unit :=
  let* q := pointee as_process p in
  putBody p (Process (ProcessFields (pr_exitcode q) (pr_pageDirectory q) (pr_entryPoint q)
    (pr_programArgumentsBase q) (pr_programArgumentsLength q)
    (pr_environmentVariablesBase q) (pr_environmentVariablesLength q) t)).

Definition lift {A} (o : outcome A) : KM A := λ k,
  match o with Ok a => Ok (a, k) | Panic w => Panic w | Undef w => Undef w | NoFuel => NoFuel end.

Definition get_array (t : handleTable) : KM (block (option oid)) :=
  deref (h_handles t) "handle table released".

(** [heapReAlloc] of the array. The slots behind the old end are cleared
    before the result is checked, so a failure writes through a null pointer. *)
Definition realloc_array (addr : oid) (count : Z) : KM oid :=
  let* r := with_memory (heapReAlloc addr (u32 (count * sizeof_pointer))) in
  deref r "memset behind a null pointer".

Definition handleTableInit (p : oid) : KM unit :=
  let* r := with_memory (heapAlloc (MIN_HANDLES * sizeof_pointer)) in
  match r with
  | None => panic "assert: table->handles"
  | Some a => set_table p (HandleTable MIN_HANDLES 0 0 (Some (Block a (replicate 256 None))))
  end.

Fixpoint addref_all (l : slots) : KM unit :=
  match l with
  | [] => mret tt
  | Some o :: l => __objectAddRef o ;; addref_all l
  | None :: l => addref_all l
  end.

Definition handleForkTable (destination source : oid) : KM unit :=
  let* t := get_table source in
  let* count := lift (match double_count 33 MIN_HANDLES (h_free_end t) with Some c => Ok c | None => NoFuel end) in
  let* b := match h_handles t with Some b => mret b | None => panic "assert: source->handles" end in
  assert (h_free_end t <=? count) "count >= source->free_end" ;;
  let* r := with_memory (heapAlloc (u32 (count * sizeof_pointer))) in
  match r with
  | None => panic "assert: destination->handles"
  | Some a =>
      if h_free_end t <=? lenZ (b_data b) then
        let used := take (Z.to_nat (h_free_end t)) (b_data b) in
        addref_all used ;;
        set_table destination (HandleTable count (h_free_begin t) (h_free_end t)
          (Some (Block a (resize_slots count used))))
      else undef "handleForkTable: out of the array"
  end.

(** The loop of [handleTableFree]; the table is read again in every round. *)
Fixpoint release_all (p : oid) (n : nat) (i : Z) : KM unit :=
  match n with
  | O => mret tt
  | S n =>
      let* t := get_table p in
      if h_free_end t <=? i then mret tt
      else
        let* b := get_array t in
        let* s := deref (nthZ (b_data b) i) "handleTableFree: out of the array" in
        match s with Some o => __objectRelease o | None => mret tt end ;;
        release_all p n (i + 1)
  end.

Definition handleTableFree (p : oid) : KM unit :=
  release_all p (Z.to_nat MAX_HANDLES) 0 ;;
  let* t := get_table p in
  let* b := get_array t in
  with_memory (heapFree (b_addr b)).

Definition handleAllocate (p : oid) (object : oid) : KM Z :=
  let* minHandle := __objectGetMinHandle object in
  let* t := get_table p in
  let* b := get_array t in
  let* pl := lift (match place t (b_data b) minHandle with Some pl => Ok pl | None => NoFuel end) in
  let* addr := match pl with Grow _ count => realloc_array (b_addr b) count | _ => mret (b_addr b) end in
  match pl with
  | Full => mret ERR
  | InTable i | AtEnd i | Grow i _ =>
      let* t' := deref (placed t (b_data b) addr object pl) "handleAllocate: out of the array" in
      set_table p t' ;;
      __objectAddRef object ;;
      mret i
  end.

Definition handleSet (p : oid) (handle : Z) (object : oid) : KM bool :=
  if MAX_HANDLES <=? handle then mret false
  else
    let* t := get_table p in
    let* b := get_array t in
    let* ' (addr, l) :=
      (if h_count t <=? handle then
         let* count := lift (match grown_count (h_count t) handle with Some c => Ok c | None => NoFuel end) in
         assert (h_count t <? count) "count > table->count" ;;
         let* addr := realloc_array (b_addr b) count in
         mret (addr, resize_slots count (b_data b))
       else mret (b_addr b, b_data b)) in
    let* t' := deref (set_handle t l addr handle object) "handleSet: out of the array" in
    __objectAddRef object ;;
    set_table p t' ;;
    match nthZ l handle with
    | Some (Some old) => __objectRelease old
    | _ => mret tt
    end ;;
    mret true.

Definition handleRelease (p : oid) (handle : Z) : KM bool :=
  let* t := get_table p in
  let* o := lift (handleGet t handle) in
  match o with
  | None => mret false
  | Some object =>
      let* b := get_array t in
      let t1 := release_slot t (b_data b) (b_addr b) handle in
      let l1 := setZ (b_data b) handle None in
      match (if handle =? h_free_end t - 1 then shrink_count t1 else None) with
      | None => set_table p t1
      | Some count =>
          let* r := with_memory (heapReAlloc (b_addr b) (count * sizeof_pointer)) in
          match r with
          | None => panic "assert: table->handles"
          | Some a => set_table p (shrunk t1 l1 a count)
          end
      end ;;
      __objectRelease object ;;
      mret true
  end.
End Handle.
