(* ===== verification/Thread.v ===== *)
(** * thread.c: threads and the scheduler

    Models src/kernelmode/kernel/process/thread.c. The segment selectors of
    the descriptor table are the interface [Machine], running a thread in user mode
    until the next interrupt and idling are the interface [UserMode] of the
    scheduler; file Interrupt.v implements both. *)

From S2P Require Import Prelude LinkedList Kernel.
Open Scope Z_scope.

Definition DEFAULT_STACK_SIZE := 0x10000.
Definition DEFAULT_TLB_SIZE := 0x1000.

Definition INTERRUPT_UNHANDLED := 0.
Definition INTERRUPT_CONTINUE_EXECUTION := 1.
Definition INTERRUPT_YIELD := 2.
Definition INTERRUPT_EXIT_THREAD := 3.
Definition INTERRUPT_EXIT_PROCESS := 4.

Definition USERMODE_KERNELSTACK_ADDRESS := 0xFF800000.
Definition USERMODE_GDT_ADDRESS := 0xFF801000.
Definition USERMODE_IDT_ADDRESS := 0xFF811000.
Definition USERMODE_INTJMP_ADDRESS := 0xFF812000.
Definition USERMODE_TASK_ADDRESS := 0xFF813000.
Definition KERNELSTACK_SIZE := PAGE_SIZE.
Definition GDT_MAX_SIZE := 0x10000.
Definition GDT_MAX_PAGES := Z.shiftr (GDT_MAX_SIZE + PAGE_MASK) PAGE_BITS.
Definition USERMODE_KERNELSTACK_LIMIT := USERMODE_KERNELSTACK_ADDRESS + KERNELSTACK_SIZE.

Class Machine (mem : Type) := {
  dataRing0_offset : Z;    (* gdtGetEntryOffset(dataRing0, GDT_CPL_RING0) *)
  codeRing3_offset : Z;
  dataRing3_offset : Z;
  kernelStack : Z;
  intJmpTable_user : Z;
  fnsave : KM mem Z;       (* the FPU state saved by clts; fnsave; fwait *)
}.

(** Running threads, and waiting for an interrupt when there is none to run. *)
Class UserMode (mem : Type) := {
  tssRunUsermodeThread : oid → KM mem Z;
  tssKernelIdle : KM mem unit;
}.

Section Thread.
Context {mem : Type} `{Memory mem} `{Methods mem} `{Machine mem}.
Abbreviation KM := (KM mem).

Definition sizeof_thread := 280.

(** *** Field updates *)

Definition thread_with_blocked (b : bool) (t : thread) : thread :=
  ThreadFields b (th_process t) (th_exitcode t) (th_fpuInitialized t) (th_ring3StackBase t) (th_ring3StackLength t)
    (th_threadLocalBase t) (th_threadLocalLength t) (th_task t) (th_fpu t).
Definition thread_with_task (c : taskContext) (t : thread) : thread :=
  ThreadFields (th_blocked t) (th_process t) (th_exitcode t) (th_fpuInitialized t) (th_ring3StackBase t)
    (th_ring3StackLength t) (th_threadLocalBase t) (th_threadLocalLength t) c (th_fpu t).
Definition thread_with_exit (code : Z) (t : thread) : thread :=
  ThreadFields (th_blocked t) None code (th_fpuInitialized t) (th_ring3StackBase t)
    (th_ring3StackLength t) (th_threadLocalBase t) (th_threadLocalLength t) (th_task t) (th_fpu t).
Definition thread_with_stacks (stack tls : Z) (t : thread) : thread :=
  ThreadFields (th_blocked t) (th_process t) (th_exitcode t) (th_fpuInitialized t) stack
    (th_ring3StackLength t) tls (th_threadLocalLength t) (th_task t) (th_fpu t).
Definition thread_with_fpu (f : Z) (t : thread) : thread :=
  ThreadFields (th_blocked t) (th_process t) (th_exitcode t) (th_fpuInitialized t) (th_ring3StackBase t)
    (th_ring3StackLength t) (th_threadLocalBase t) (th_threadLocalLength t) (th_task t) f.

Definition modify_thread (o : oid) (f : thread → thread) : KM unit :=
  let* t := pointee as_thread o in putBody o (Thread (f t)).

Definition set_result (v : Z) (t : thread) : thread := thread_with_task (set_eax v (th_task t)) t.

(** *** Creation *)

(** The registers of a thread that starts at [entry]. *)
Definition initial_context (cr3 entry stackBase stackLength : Z) : taskContext := {|
  prevTask := 0; esp0 := USERMODE_KERNELSTACK_LIMIT; ss0 := dataRing0_offset;
  esp1 := 0; ss1 := 0; esp2 := 0; ss2 := 0;
  Kernel.cr3 := cr3; eip := entry; eflags := Z.shiftl 1 9;
  eax := 0; ecx := 0; edx := 0; ebx := 0;
  esp := u32 (stackBase + Z.shiftl stackLength PAGE_BITS);
  ebp := 0; esi := 0; edi := 0;
  es := dataRing3_offset; cs := codeRing3_offset; ss := dataRing3_offset; ds := dataRing3_offset;
  fs := dataRing3_offset; gs := dataRing3_offset; ldt := 0; iomap := 0x68;
|}.

Definition pageDirectory_of (p : oid) : KM Z :=
  let* q := pointee as_process p in mret (pr_pageDirectory q).

Definition process_cr3 (p : oid) : KM Z :=
  let* d := pageDirectory_of p in
  let* page := with_memory (pagingGetPhysMem None d) in
  mret (u32 (Z.shiftl page PAGE_BITS)).

Definition threadCreate (p : oid) (original : option oid) (entry : Z) : KM (option oid) :=
  let stackLength := Z.shiftr DEFAULT_STACK_SIZE PAGE_BITS in
  let tlsLength := Z.shiftr DEFAULT_TLB_SIZE PAGE_BITS in
  let blank := initial_context 0 entry 0 0 in
  let* r := createObject sizeof_thread (Thread (ThreadFields false (Some p) ERR false 0 0 0 0 blank 0)) in
  match r with
  | None => mret None
  | Some t =>
      queue_add_tail ThreadList (Entry t) ;;
      queue_init (Waiters t) ;;
      queue_add_tail (Threads p) (EntryProcess t) ;;
      match original with
      | None =>
          let* stack := with_memory (pagingAllocatePhysMem (Some p) stackLength true true) in
          let* tls := with_memory (pagingAllocatePhysMem (Some p) tlsLength true true) in
          let* cr3 := process_cr3 p in
          modify_thread t (λ _, ThreadFields false (Some p) ERR false stack stackLength tls tlsLength
            (initial_context cr3 entry stack stackLength) 0)
      | Some original =>
          let* o := pointee as_thread original in
          assert (bool_decide (is_Some (th_process o) ∧ th_process o ≠ Some p))
            "original->process && p != original->process" ;;
          let* cr3 := process_cr3 p in
          let* fpu :=
            (if th_fpuInitialized o then
               let* last := gets lastFPUthread in
               when (bool_decide (last = Some original))
                 (let* f := fnsave in modify_thread original (thread_with_fpu f)) ;;
               let* o := pointee as_thread original in mret (th_fpu o)
             else mret 0) in
          modify_thread t (λ _, ThreadFields false (Some p) ERR (th_fpuInitialized o)
            (th_ring3StackBase o) (th_ring3StackLength o) (th_threadLocalBase o) (th_threadLocalLength o)
            (set_cr3 cr3 (th_task o)) fpu)
      end ;;
      __objectAddRef t ;;
      __objectAddRef p ;;
      mret (Some t)
  end.

(** *** The methods *)

Definition forgetFPU (obj : oid) : KM unit :=
  modify (λ k, if decide (lastFPUthread k = Some obj) then set_lastFPU None k else k).

Definition __threadDestroy (obj : oid) : KM unit :=
  let* t := objectContainer as_thread obj in
  forgetFPU obj ;;
  let* b := queue_empty (Waiters obj) in
  assert b "ll_empty(&t->waiters)" ;;
  assert (bool_decide (th_process t = None)) "!t->process" ;;
  freeObject obj [Waiters obj].

Definition __threadShutdown (obj : oid) (exitcode : Z) : KM unit :=
  let* t := objectContainer as_thread obj in
  forgetFPU obj ;;
  match th_process t with
  | None => mret tt
  | Some p =>
      modify_thread obj (thread_with_exit exitcode) ;;
      assert (negb (th_threadLocalBase t =? 0)) "t->user_threadLocalBase" ;;
      assert (negb (th_ring3StackBase t =? 0)) "t->user_ring3StackBase" ;;
      with_memory (pagingReleasePhysMem (Some p) (th_threadLocalBase t) (th_threadLocalLength t)) ;;
      with_memory (pagingReleasePhysMem (Some p) (th_ring3StackBase t) (th_ring3StackLength t)) ;;
      modify_thread obj (thread_with_stacks 0 0) ;;
      queue_remove (Entry obj) ;;
      queue_remove (EntryProcess obj) ;;
      queueWakeup (Waiters obj) true exitcode ;;
      let* b := queue_empty (Threads p) in
      when b (let* t := pointee as_thread obj in __objectShutdown p (th_exitcode t)) ;;
      __objectRelease obj ;;
      __objectRelease p
  end.

Definition __threadGetStatus (obj : oid) (mode : Z) : KM Z :=
  let* t := objectContainer as_thread obj in
  mret (match th_process t with Some _ => -1 | None => i32 (th_exitcode t) end).

Definition __threadWait (obj : oid) (mode : Z) : KM waitResult :=
  let* t := objectContainer as_thread obj in
  mret (match th_process t with
        | Some _ => Queue (Waiters obj)
        | None => Done (Some (th_exitcode t))
        end).

Definition __threadSignal (obj : oid) (result : Z) : KM unit :=
  let* t := objectContainer as_thread obj in
  if negb (bool_decide (is_Some (th_process t))) || negb (th_blocked t) then mret tt
  else
    modify_thread obj (thread_with_blocked false) ;;
    modify_thread obj (set_result result) ;;
    queue_remove (Entry obj) ;;
    queue_add_tail ThreadList (Entry obj).

(** *** Waiting *)

Definition threadWait (t obj : oid) (mode : Z) : KM Z :=
  modify_thread t (set_result 0) ;;
  let* r := __objectWait obj mode in
  match r with
  | Queue queue =>
      let* th := pointee as_thread t in
      assert (negb (th_blocked th)) "!t->blocked" ;;
      modify_thread t (thread_with_blocked true) ;;
      queue_remove (Entry t) ;;
      queue_add_after queue (Entry t) ;;
      mret INTERRUPT_YIELD
  | Done res =>
      match res with Some v => modify_thread t (set_result v) | None => mret tt end ;;
      mret INTERRUPT_CONTINUE_EXECUTION
  end.

(** *** The scheduler *)

Context `{UserMode mem}.

(** [while (status == INTERRUPT_CONTINUE_EXECUTION) ...] *)
Fixpoint run_loop (fuel : nat) (t p : oid) : KM Z :=
  match fuel with
  | O => no_fuel
  | S fuel =>
      let* th := pointee as_thread t in
      assert (bool_decide (th_process th = Some p) && negb (th_blocked th)) "t->process == p && !t->blocked" ;;
      let* status := tssRunUsermodeThread t in
      if status =? INTERRUPT_CONTINUE_EXECUTION then run_loop fuel t p else mret status
  end.

(** The first thread of another process, starting with [next_t]. *)
Fixpoint skip_process (fuel : nat) (p : option oid) (next_t : node) : KM node :=
  match fuel with
  | O => no_fuel
  | S fuel =>
      if decide (next_t = ThreadList) then mret next_t
      else
        let* o := deref (container next_t) "threadList: not a thread" in
        let* th := pointee as_thread o in
        if decide (th_process th = p) then
          let* n := queue_next next_t in skip_process fuel p n
        else mret next_t
  end.

(** The result is a link of the list of threads, or its head. *)
Definition __threadRun (t : oid) : KM node :=
  let* th := pointee as_thread t in
  let p := th_process th in
  let* next_t := queue_next (Entry t) in
  let* status := match p with Some p => run_loop loop_fuel t p | None => mret INTERRUPT_CONTINUE_EXECUTION end in
  if status =? INTERRUPT_EXIT_THREAD then
    let* th := pointee as_thread t in
    __objectShutdown t (ebx (th_task th)) ;; mret next_t
  else if status =? INTERRUPT_EXIT_PROCESS then
    let* next_t := skip_process loop_fuel p next_t in
    let* th := pointee as_thread t in
    let* p := deref p "shutdown of a null process" in
    __objectShutdown p (ebx (th_task th)) ;; mret next_t
  else mret next_t.

(** One pass over the list of threads. *)
Fixpoint schedule_pass (fuel : nat) (t : node) : KM unit :=
  match fuel with
  | O => no_fuel
  | S fuel =>
      if decide (t = ThreadList) then mret tt
      else
        let* o := deref (container t) "threadList: not a thread" in
        let* n := __threadRun o in schedule_pass fuel n
  end.

Fixpoint schedule_threads (fuel : nat) : KM unit :=
  match fuel with
  | O => no_fuel
  | S fuel =>
      let* b := queue_empty ThreadList in
      if b : bool then mret tt
      else
        let* t := queue_next ThreadList in
        schedule_pass loop_fuel t ;;
        schedule_threads fuel
  end.

Fixpoint threadSchedule (fuel : nat) : KM unit :=
  match fuel with
  | O => no_fuel
  | S fuel =>
      let* b := queue_empty ProcessList in
      if b : bool then mret tt
      else
        schedule_threads fuel ;;
        tssKernelIdle ;;
        threadSchedule fuel
  end.
End Thread.
