(* ===== verification/Process.v ===== *)
(** * process.c: processes

    Models src/kernelmode/kernel/process/process.c. *)

From S2P Require Import Prelude LinkedList Kernel Handle Thread.
Open Scope Z_scope.

Section Process.
Context {mem : Type} `{Memory mem} `{Methods mem} `{Machine mem}.
Abbreviation KM := (KM mem).

Definition sizeof_process := 4196.

Definition process_with_pageDirectory (d : Z) (p : process) : process :=
  ProcessFields (pr_exitcode p) d (pr_entryPoint p) (pr_programArgumentsBase p) (pr_programArgumentsLength p)
    (pr_environmentVariablesBase p) (pr_environmentVariablesLength p) (pr_handles p).
Definition process_with_exitcode (c : Z) (p : process) : process :=
  ProcessFields c (pr_pageDirectory p) (pr_entryPoint p) (pr_programArgumentsBase p) (pr_programArgumentsLength p)
    (pr_environmentVariablesBase p) (pr_environmentVariablesLength p) (pr_handles p).
Definition process_without_handles (p : process) : process :=
  ProcessFields (pr_exitcode p) (pr_pageDirectory p) (pr_entryPoint p) (pr_programArgumentsBase p)
    (pr_programArgumentsLength p) (pr_environmentVariablesBase p) (pr_environmentVariablesLength p)
    (HandleTable (h_count (pr_handles p)) (h_free_begin (pr_handles p)) (h_free_end (pr_handles p)) None).

Definition modify_process (o : oid) (f : process → process) : KM unit :=
  let* p := pointee as_process o in putBody o (Process (f p)).

Definition processCreate (original : option oid) : KM (option oid) :=
  let* r := createObject sizeof_process
    (Process (ProcessFields ERR 0 0 0 0 0 0 (HandleTable 0 0 0 None))) in
  match r with
  | None => mret None
  | Some p =>
      queue_init (Waiters p) ;;
      queue_add_tail ProcessList (EntryList p) ;;
      queue_init (Threads p) ;;
      match original with
      | None =>
          handleTableInit p ;;
          let* d := with_memory (pagingAllocProcessPageTable p) in
          modify_process p (process_with_pageDirectory d) ;;
          let map dst src n rw := with_memory (pagingMapRemoteMemory (Some p) None dst src n rw false) in
          map USERMODE_KERNELSTACK_ADDRESS kernelStack 1 true ;;
          map USERMODE_GDT_ADDRESS USERMODE_GDT_ADDRESS GDT_MAX_PAGES false ;;
          map USERMODE_IDT_ADDRESS USERMODE_IDT_ADDRESS 1 false ;;
          map USERMODE_INTJMP_ADDRESS intJmpTable_user 1 false ;;
          map USERMODE_TASK_ADDRESS USERMODE_TASK_ADDRESS 1 false ;;
          mret tt
      | Some original =>
          handleForkTable p original ;;
          let* d := with_memory (pagingForkProcessPageTable p original) in
          modify_process p (process_with_pageDirectory d)
      end ;;
      mret (Some p)
  end.

(** The two releases that the destructor and [__processShutdown] share. *)
Definition releasePaging (obj : oid) : KM unit :=
  let* p := pointee as_process obj in
  when (negb (pr_pageDirectory p =? 0))
    (with_memory (pagingReleaseProcessPageTable obj) ;;
     modify_process obj (process_with_pageDirectory 0)).

Definition releaseHandles (obj : oid) : KM unit :=
  let* p := pointee as_process obj in
  when (bool_decide (is_Some (h_handles (pr_handles p))))
    (handleTableFree obj ;;
     modify_process obj process_without_handles).

Definition __processDestroy (obj : oid) : KM unit :=
  objectContainer as_process obj ;;
  let* b := queue_empty (Waiters obj) in
  assert b "ll_empty(&p->waiters)" ;;
  let* b := queue_empty (Threads obj) in
  assert b "ll_empty(&p->threads)" ;;
  releasePaging obj ;;
  releaseHandles obj ;;
  queue_remove (EntryList obj) ;;
  freeObject obj [Waiters obj; Threads obj].

Definition __processShutdown (obj : oid) (exitcode : Z) : KM unit :=
  objectContainer as_process obj ;;
  modify_process obj (process_with_exitcode exitcode) ;;
  __objectAddRef obj ;;
  queueWakeup (Waiters obj) true exitcode ;;
  for_each_safe loop_fuel (Threads obj) (λ t _,
    let* p := pointee as_process obj in
    __objectShutdown t (pr_exitcode p) ;; mret (inl tt)) tt ;;
  releasePaging obj ;;
  releaseHandles obj ;;
  __objectRelease obj.

Definition __processGetStatus (obj : oid) (mode : Z) : KM Z :=
  let* p := objectContainer as_process obj in
  let* b := queue_empty (Threads obj) in
  mret (if b : bool then i32 (pr_exitcode p) else -1).

Definition __processWait (obj : oid) (mode : Z) : KM waitResult :=
  let* p := objectContainer as_process obj in
  let* b := queue_empty (Threads obj) in
  mret (if b : bool then Done (Some (pr_exitcode p)) else Queue (Waiters obj)).

Definition processCount : KM Z :=
  let* ' (_, n) := for_each loop_fuel ProcessList (λ _ n, mret (inl (u32 (n + 1)))) 0 in
  mret n.

(** [struct processInfo] *)
Record processInfo := ProcessInfo {
  processID : Z;
  pagesPhysical : Z; pagesShared : Z; pagesNoFork : Z; pagesReserved : Z; pagesOutpaged : Z;
  pi_handleCount : Z;
  numberOfTotalThreads : Z;
  numberOfBlockedThreads : Z;
}.

Definition process_info (p : option oid) (id handles total blocked : Z) : KM processInfo :=
  let* ' (a, b, c, d, e) := with_memory (pagingFillProcessInfo p) in
  mret (ProcessInfo id a b c d e handles total blocked).

(** The threads of a process, and how many of them are blocked. *)
Definition count_threads (p : oid) : KM (Z * Z) :=
  let* ' (_, r) := for_each loop_fuel (Threads p) (λ t '(total, blocked),
    let* th := pointee as_thread t in
    mret (inl (u32 (total + 1), if th_blocked th then u32 (blocked + 1) else blocked))) (0, 0) in
  mret r.

(** The entries written and the result of [processInfo]. *)
Definition fill_processInfo (count : Z) : KM (list processInfo * Z) :=
  let* kernel_entry := (if 0 <? count then let* i := process_info None 0 0 0 0 in mret [i] else mret []) in
  let count := if 0 <? count then count - 1 else count in
  let* ' (_, (_, infos, n)) := for_each loop_fuel ProcessList (λ p '(count, infos, n),
    if 0 <? count then
      let* q := pointee as_process p in
      let* handles := match h_handles (pr_handles q) with
                      | Some _ => lift (handleCount (pr_handles q))
                      | None => mret 0
                      end in
      let* ' (total, blocked) := count_threads p in
      let* i := process_info (Some p) p handles total blocked in
      mret (inl (count - 1, infos ++ [i], u32 (n + 1)))
    else mret (inl (count, infos, u32 (n + 1)))) (count, kernel_entry, 0) in
  mret (infos, n).
End Process.
