(* ===== verification/Elf.v ===== *)
(** * elf.c: the loader of executables

    Models src/kernelmode/kernel/loader/elf.c. The file is a list of bytes at
    some address; fields are read from it at their offsets. Access to the memory
    of a process goes through the interface [UserMemory] to paging.c: what the
    kernel maps of it, and the bytes behind a mapped address. *)

From S2P Require Import Prelude LinkedList Kernel Handle Thread Process.
Open Scope Z_scope.

(** What the loader and the system calls need of paging.c for the memory of
    processes. A mapping is its address in the kernel, 0 if nothing is mapped,
    and its number of pages. *)
Class UserMemory (mem : Type) := {
  pagingAllocatePhysMemFixed : oid → Z → Z → bool → bool → M mem Z;
  pagingTryAllocatePhysMem : oid → Z → bool → bool → M mem Z;
  pagingTryReleaseUserMem : oid → Z → Z → M mem bool;
  ACCESS_USER_MEMORY : oid → Z → Z → bool → M mem (bool * (Z * Z));
  ACCESS_USER_MEMORY_STRUCT : oid → Z → Z → Z → bool → M mem (option (bool * (Z * Z)));
  RELEASE_USER_MEMORY : Z * Z → M mem unit;
  read_bytes : Z → Z → M mem (list Z);
  write_bytes : Z → list Z → M mem unit;
  (* [old_p] is the [struct process] on the stack of SYSCALL_EXECUTE_PROGRAM: the page
     directory and tables of a process go there and leave it without a directory, and back *)
  old_p : oid;
  backup_page_tables : oid → M mem unit;
  restore_page_tables : oid → M mem unit;
}.

Definition sizeof_elfHeader := 52.
Definition sizeof_elfSectionTable := 40.
Definition sizeof_requiredPages := 16.
Definition ELF_MAG := [0x7f; 69; 76; 70].
Definition ELF_STYPE_NOBITS := 8.

(** ** The file *)

(** A little endian number of [n] bytes at [off]; [None] outside of the file. *)
Definition read_le (n : nat) (buf : list Z) (off : Z) : option Z :=
  if (0 <=? off) && (off + Z.of_nat n <=? lenZ buf) then
    Some (foldr (λ b v, b + 256 * v) 0 (take n (drop (Z.to_nat off) buf)))
  else None.

(** The fields of [struct elfHeader] that the loader uses. *)
Record elfHeader := ElfHeader { ident : list Z; eh_entry : Z; shoff : Z; shentsize : Z; shnum : Z }.

Definition read_header (buf : list Z) : option elfHeader :=
  entry ← read_le 4 buf 24;
  shoff ← read_le 4 buf 32;
  shentsize ← read_le 2 buf 46;
  shnum ← read_le 2 buf 48;
  Some (ElfHeader (take 4 buf) entry shoff shentsize shnum).

(** Those of [struct elfSectionTable]. *)
Record elfSection := ElfSection { es_type : Z; es_addr : Z; es_offset : Z; es_size : Z }.

Definition read_section (buf : list Z) (off : Z) : option elfSection :=
  type ← read_le 4 buf (off + 4);
  addr ← read_le 4 buf (off + 12);
  offset ← read_le 4 buf (off + 16);
  size ← read_le 4 buf (off + 20);
  Some (ElfSection type addr offset size).

(** [struct requiredPages], by the address of its block of the heap. *)
Record requiredPages := RequiredPages { rp_node : oid; rp_start : Z; rp_stop : Z }.

Section Elf.
Context {mem : Type} `{Memory mem} `{UserMemory mem}.

(** ** The ranges of pages *)

Definition insert_here (seen it : list requiredPages) (startIndex stopIndex : Z) : M mem (list requiredPages) :=
  let* temp_it := heapAlloc sizeof_requiredPages in
  match temp_it with
  | Some n => mret (seen ++ RequiredPages n startIndex stopIndex :: it)
  | None => panic "temp_it"
  end.

(** The loop of [__insertRequiredPage]; [seen] are the nodes in front of [it]. *)
Fixpoint insert_pages (seen it : list requiredPages) (startIndex stopIndex : Z) : M mem (list requiredPages) :=
  match it with
  | [] => insert_here seen it startIndex stopIndex
  | r :: rest =>
      if stopIndex <? rp_start r then insert_here seen it startIndex stopIndex
      else if rp_stop r <? startIndex then insert_pages (seen ++ [r]) rest startIndex stopIndex
      else if (rp_start r <=? startIndex) && (stopIndex <=? rp_stop r) then mret (seen ++ it)
      else
        heapFree (rp_node r) ;;
        insert_pages seen rest
          (if rp_start r <? startIndex then rp_start r else startIndex)
          (if stopIndex <? rp_stop r then rp_stop r else stopIndex)
  end.

Definition __insertRequiredPage (pages : list requiredPages) (startIndex stopIndex : Z) : M mem (list requiredPages) :=
  if stopIndex <=? startIndex then mret pages else insert_pages [] pages startIndex stopIndex.

(** ** Loading *)

Definition section_start (s : elfSection) : Z := Z.shiftr (es_addr s) PAGE_BITS.
Definition section_stop (s : elfSection) : Z :=
  let stopIndex := u32 (Z.shiftr (u64 (u64 (es_addr s + es_size s) + PAGE_MASK)) PAGE_BITS) in
  if PAGE_COUNT <=? stopIndex then PAGE_COUNT - 1 else stopIndex.

(** The first loop over the sections, with the pages found so far; [None]:
    return false, the blocks of [pages] stay allocated. *)
Fixpoint scan_sections (n : nat) (buf : list Z) (length shentsize section : Z) (pages : list requiredPages)
    : M mem (option (list requiredPages)) :=
  match n with
  | O => mret (Some pages)
  | S n =>
      let section := u32 (section + shentsize) in
      if length <? u32 (section + sizeof_elfSectionTable) then mret None
      else
        let* s := deref (read_section buf section) "section header outside of the file" in
        if es_addr s =? 0 then scan_sections n buf length shentsize section pages
        else if negb (es_type s =? ELF_STYPE_NOBITS) && (length <? u64 (es_offset s + es_size s)) then mret None
        else
          assert (section_start s <=? section_stop s) "startIndex <= stopIndex" ;;
          let* pages := __insertRequiredPage pages (section_start s) (section_stop s) in
          scan_sections n buf length shentsize section pages
  end.

Fixpoint allocate_required (p : oid) (pages : list requiredPages) : M mem unit :=
  match pages with
  | [] => mret tt
  | it :: pages =>
      pagingAllocatePhysMemFixed p (u32 (Z.shiftl (rp_start it) PAGE_BITS)) (u32 (rp_stop it - rp_start it)) true true ;;
      heapFree (rp_node it) ;;
      allocate_required p pages
  end.

(** The bytes of a section: zeros, or a part of the file. *)
Definition section_bytes (buf : list Z) (s : elfSection) : option (list Z) :=
  if es_type s =? ELF_STYPE_NOBITS then Some (replicate (Z.to_nat (es_size s)) 0)
  else if es_offset s + es_size s <=? lenZ buf then Some (take (Z.to_nat (es_size s)) (drop (Z.to_nat (es_offset s)) buf))
  else None.

(** The second loop; [false]: return false. *)
Fixpoint fill_sections (n : nat) (p : oid) (buf : list Z) (length shentsize section : Z) : M mem bool :=
  match n with
  | O => mret true
  | S n =>
      let section := u32 (section + shentsize) in
      if length <? u32 (section + sizeof_elfSectionTable) then mret false
      else
        let* s := deref (read_section buf section) "section header outside of the file" in
        if es_addr s =? 0 then fill_sections n p buf length shentsize section
        else
          let* ' (ok, k) := ACCESS_USER_MEMORY p (es_addr s) (es_size s) true in
          if ok : bool then
            let* bs := deref (section_bytes buf s) "section outside of the file" in
            write_bytes (k.1) bs ;;
            RELEASE_USER_MEMORY k ;;
            fill_sections n p buf length shentsize section
          else mret false
  end.

(** The result is the entry point. *)
Definition load_sections (p : oid) (buf : list Z) (length : Z) (h : elfHeader) : M mem (option Z) :=
  let* pages := scan_sections (Z.to_nat (shnum h)) buf length (shentsize h) (shoff h) [] in
  match pages with
  | None => mret None
  | Some pages =>
      allocate_required p pages ;;
      let* (ok : bool) := fill_sections (Z.to_nat (shnum h)) p buf length (shentsize h) (shoff h) in
      mret (if ok then Some (eh_entry h) else None)
  end.

Definition load_binary (p : oid) (buf : list Z) (length : Z) : M mem (option Z) :=
  if length <? sizeof_elfHeader then mret None
  else
    let* h := deref (read_header buf) "elf header outside of the file" in
    if negb (bool_decide (ident h = ELF_MAG)) then mret None
    else if length <? shoff h then mret None
    else load_sections p buf length h.

Definition process_with_entryPoint (e : Z) (p : process) : process :=
  ProcessFields (pr_exitcode p) (pr_pageDirectory p) e (pr_programArgumentsBase p) (pr_programArgumentsLength p)
    (pr_environmentVariablesBase p) (pr_environmentVariablesLength p) (pr_handles p).

Definition elfLoadBinary (p : oid) (buf : list Z) (length : Z) : KM mem bool :=
  let* r := with_memory (load_binary p buf length) in
  match r with
  | None => mret false
  | Some entry => modify_process p (process_with_entryPoint entry) ;; mret true
  end.
End Elf.
