(* ===== verification/KeymapDE.v ===== *)
(** * keymap_de.c: the german keyboard

    The tables of src/kernelmode/kernel/hardware/keymap_de.c: for each combination
    of modifiers the code of every key, as keyboard.c reads it. *)

From S2P Require Import Prelude.
Open Scope Z_scope.

Definition plain_map : list Z :=
  [
    0xf200; 0xf01b; 0xf031; 0xf032; 0xf033; 0xf034; 0xf035; 0xf036; 0xf037; 0xf038; 0xf039; 0xf030; 0xf0df; 0xf027; 0xf07f; 0xf009;
    0xfb71; 0xfb77; 0xfb65; 0xfb72; 0xfb74; 0xfb7a; 0xfb75; 0xfb69; 0xfb6f; 0xfb70; 0xf0fc; 0xf02b; 0xf201; 0xf702; 0xfb61; 0xfb73;
    0xfb64; 0xfb66; 0xfb67; 0xfb68; 0xfb6a; 0xfb6b; 0xfb6c; 0xf0f6; 0xf0e4; 0xf05e; 0xf700; 0xf023; 0xfb79; 0xfb78; 0xfb63; 0xfb76;
    0xfb62; 0xfb6e; 0xfb6d; 0xf02c; 0xf02e; 0xf02d; 0xf700; 0xf30c; 0xf703; 0xf020; 0xf207; 0xf100; 0xf101; 0xf102; 0xf103; 0xf104;
    0xf105; 0xf106; 0xf107; 0xf108; 0xf109; 0xf208; 0xf209; 0xf307; 0xf308; 0xf309; 0xf30b; 0xf304; 0xf305; 0xf306; 0xf30a; 0xf301;
    0xf302; 0xf303; 0xf300; 0xf30f; 0xf206; 0xf200; 0xf03c; 0xf10a; 0xf10b; 0xf200; 0xf200; 0xf200; 0xf200; 0xf200; 0xf200; 0xf200;
    0xf30e; 0xf702; 0xf30d; 0xf20e; 0xf701; 0xf205; 0xf114; 0xf603; 0xf118; 0xf601; 0xf602; 0xf117; 0xf600; 0xf119; 0xf115; 0xf116;
    0xf200; 0xf200; 0xf200; 0xf200; 0xf200; 0xf200; 0xf200; 0xf11d; 0xf200; 0xf200; 0xf200; 0xf200; 0xf200; 0xf200; 0xf200; 0xf200;
    0xf200; 0xf200; 0xf200; 0xf200; 0xf200; 0xf200; 0xf200; 0xf200; 0xf200; 0xf200; 0xf200; 0xf200; 0xf200; 0xf200; 0xf200; 0xf200;
    0xf200; 0xf200; 0xf200; 0xf200; 0xf200; 0xf200; 0xf200; 0xf200; 0xf200; 0xf200; 0xf200; 0xf200; 0xf200; 0xf200; 0xf200; 0xf200;
    0xf200; 0xf200; 0xf200; 0xf200; 0xf200; 0xf200; 0xf200; 0xf200; 0xf200; 0xf200; 0xf200; 0xf200; 0xf200; 0xf200; 0xf200; 0xf200;
    0xf200; 0xf200; 0xf200; 0xf200; 0xf200; 0xf200; 0xf200; 0xf200; 0xf200; 0xf200; 0xf200; 0xf200; 0xf200; 0xf200; 0xf200; 0xf200;
    0xf200; 0xf200; 0xf200; 0xf200; 0xf200; 0xf200; 0xf200; 0xf200; 0xf200; 0xf200; 0xf200; 0xf200; 0xf200; 0xf200; 0xf200; 0xf200;
    0xf200; 0xf200; 0xf200; 0xf200; 0xf200; 0xf200; 0xf200; 0xf200; 0xf200; 0xf200; 0xf200; 0xf200; 0xf200; 0xf200; 0xf200; 0xf200;
    0xf200; 0xf200; 0xf200; 0xf200; 0xf200; 0xf200; 0xf200; 0xf200; 0xf200; 0xf200; 0xf200; 0xf200; 0xf200; 0xf200; 0xf200; 0xf200;
    0xf200; 0xf200; 0xf200; 0xf200; 0xf200; 0xf200; 0xf200; 0xf200; 0xf200; 0xf200; 0xf200; 0xf200; 0xf200; 0xf200; 0xf200; 0xf200
  ].

Definition shift_map : list Z :=
  [
    0xf200; 0xf01b; 0xf021; 0xf022; 0xf023; 0xf024; 0xf025; 0xf026; 0xf02f; 0xf028; 0xf029; 0xf03d; 0xf03f; 0xf060; 0xf07f; 0xf809;
    0xfb51; 0xfb57; 0xfb45; 0xfb52; 0xfb54; 0xfb5a; 0xfb55; 0xfb49; 0xfb4f; 0xfb50; 0xf0dc; 0xf02a; 0xf201; 0xf702; 0xfb41; 0xfb53;
    0xfb44; 0xfb46; 0xfb47; 0xfb48; 0xfb4a; 0xfb4b; 0xfb4c; 0xf0d6; 0xf0c4; 0xf07e; 0xf700; 0xf027; 0xfb59; 0xfb58; 0xfb43; 0xfb56;
    0xfb42; 0xfb4e; 0xfb4d; 0xf03b; 0xf03a; 0xf05f; 0xf700; 0xf30c; 0xf703; 0xf020; 0xf207; 0xf10c; 0xf10d; 0xf10e; 0xf10f; 0xf110;
    0xf111; 0xf112; 0xf113; 0xf11e; 0xf11f; 0xf208; 0xf203; 0xf307; 0xf308; 0xf309; 0xf30b; 0xf304; 0xf305; 0xf306; 0xf30a; 0xf301;
    0xf302; 0xf303; 0xf300; 0xf30f; 0xf206; 0xf200; 0xf03e; 0xf120; 0xf121; 0xf200; 0xf200; 0xf200; 0xf200; 0xf200; 0xf200; 0xf200;
    0xf30e; 0xf702; 0xf30d; 0xf20e; 0xf701; 0xf205; 0xf114; 0xf603; 0xf20b; 0xf601; 0xf602; 0xf117; 0xf600; 0xf20a; 0xf115; 0xf116;
    0xf200; 0xf200; 0xf200; 0xf200; 0xf200; 0xf200; 0xf200; 0xf11d; 0xf200; 0xf200; 0xf200; 0xf200; 0xf200; 0xf200; 0xf200; 0xf200;
    0xf200; 0xf200; 0xf200; 0xf200; 0xf200; 0xf200; 0xf200; 0xf200; 0xf200; 0xf200; 0xf200; 0xf200; 0xf200; 0xf200; 0xf200; 0xf200;
    0xf200; 0xf200; 0xf200; 0xf200; 0xf200; 0xf200; 0xf200; 0xf200; 0xf200; 0xf200; 0xf200; 0xf200; 0xf200; 0xf200; 0xf200; 0xf200;
    0xf200; 0xf200; 0xf200; 0xf200; 0xf200; 0xf200; 0xf200; 0xf200; 0xf200; 0xf200; 0xf200; 0xf200; 0xf200; 0xf200; 0xf200; 0xf200;
    0xf200; 0xf200; 0xf200; 0xf200; 0xf200; 0xf200; 0xf200; 0xf200; 0xf200; 0xf200; 0xf200; 0xf200; 0xf200; 0xf200; 0xf200; 0xf200;
    0xf200; 0xf200; 0xf200; 0xf200; 0xf200; 0xf200; 0xf200; 0xf200; 0xf200; 0xf200; 0xf200; 0xf200; 0xf200; 0xf200; 0xf200; 0xf200;
    0xf200; 0xf200; 0xf200; 0xf200; 0xf200; 0xf200; 0xf200; 0xf200; 0xf200; 0xf200; 0xf200; 0xf200; 0xf200; 0xf200; 0xf200; 0xf200;
    0xf200; 0xf200; 0xf200; 0xf200; 0xf200; 0xf200; 0xf200; 0xf200; 0xf200; 0xf200; 0xf200; 0xf200; 0xf200; 0xf200; 0xf200; 0xf200;
    0xf200; 0xf200; 0xf200; 0xf200; 0xf200; 0xf200; 0xf200; 0xf200; 0xf200; 0xf200; 0xf200; 0xf200; 0xf200; 0xf200; 0xf200; 0xf200
  ].

Definition altgr_map : list Z :=
  [
    0xf200; 0xf200; 0xf200; 0xf032; 0xf033; 0xf200; 0xf200; 0xf200; 0xf07b; 0xf05b; 0xf05d; 0xf07d; 0xf05c; 0xf200; 0xf200; 0xf200;
    0xf040; 0xfb77; 0xf080; 0xfb72; 0xfb74; 0xfb7a; 0xfb75; 0xfb69; 0xfb6f; 0xfb70; 0xf200; 0xf07e; 0xf201; 0xf702; 0xfb61; 0xfb73;
    0xfb64; 0xfb66; 0xfb67; 0xfb68; 0xfb6a; 0xfb6b; 0xfb6c; 0xf200; 0xf200; 0xf860; 0xf700; 0xf200; 0xfb79; 0xfb78; 0xf0a2; 0xfb76;
    0xfb62; 0xfb6e; 0xf0b5; 0xf200; 0xf200; 0xf82d; 0xf700; 0xf916; 0xf703; 0xf820; 0xf207; 0xf200; 0xf200; 0xf200; 0xf200; 0xf200;
    0xf200; 0xf200; 0xf200; 0xf200; 0xf200; 0xf914; 0xf202; 0xf911; 0xf912; 0xf913; 0xf917; 0xf90e; 0xf90f; 0xf910; 0xf918; 0xf90b;
    0xf90c; 0xf90d; 0xf90a; 0xf30f; 0xf206; 0xf200; 0xf07c; 0xf200; 0xf200; 0xf200; 0xf200; 0xf200; 0xf200; 0xf200; 0xf200; 0xf200;
    0xf919; 0xf702; 0xf915; 0xf20e; 0xf701; 0xf205; 0xf114; 0xf603; 0xf118; 0xf601; 0xf602; 0xf117; 0xf600; 0xf119; 0xf115; 0xf116;
    0xf200; 0xf200; 0xf200; 0xf200; 0xf200; 0xf200; 0xf200; 0xf11d; 0xf200; 0xf200; 0xf200; 0xf200; 0xf200; 0xf200; 0xf200; 0xf200;
    0xf200; 0xf200; 0xf200; 0xf200; 0xf200; 0xf200; 0xf200; 0xf200; 0xf200; 0xf200; 0xf200; 0xf200; 0xf200; 0xf200; 0xf200; 0xf200;
    0xf200; 0xf200; 0xf200; 0xf200; 0xf200; 0xf200; 0xf200; 0xf200; 0xf200; 0xf200; 0xf200; 0xf200; 0xf200; 0xf200; 0xf200; 0xf200;
    0xf200; 0xf200; 0xf200; 0xf200; 0xf200; 0xf200; 0xf200; 0xf200; 0xf200; 0xf200; 0xf200; 0xf200; 0xf200; 0xf200; 0xf200; 0xf200;
    0xf200; 0xf200; 0xf200; 0xf200; 0xf200; 0xf200; 0xf200; 0xf200; 0xf200; 0xf200; 0xf200; 0xf200; 0xf200; 0xf200; 0xf200; 0xf200;
    0xf200; 0xf200; 0xf200; 0xf200; 0xf200; 0xf200; 0xf200; 0xf200; 0xf200; 0xf200; 0xf200; 0xf200; 0xf200; 0xf200; 0xf200; 0xf200;
    0xf200; 0xf200; 0xf200; 0xf200; 0xf200; 0xf200; 0xf200; 0xf200; 0xf200; 0xf200; 0xf200; 0xf200; 0xf200; 0xf200; 0xf200; 0xf200;
    0xf200; 0xf200; 0xf200; 0xf200; 0xf200; 0xf200; 0xf200; 0xf200; 0xf200; 0xf200; 0xf200; 0xf200; 0xf200; 0xf200; 0xf200; 0xf200;
    0xf200; 0xf200; 0xf200; 0xf200; 0xf200; 0xf200; 0xf200; 0xf200; 0xf200; 0xf200; 0xf200; 0xf200; 0xf200; 0xf200; 0xf200; 0xf200
  ].

Definition ctrl_map : list Z :=
  [
    0xf200; 0xf200; 0xf200; 0xf000; 0xf01b; 0xf200; 0xf200; 0xf200; 0xf200; 0xf200; 0xf200; 0xf200; 0xf200; 0xf200; 0xf200; 0xf200;
    0xf011; 0xf017; 0xf005; 0xf012; 0xf014; 0xf01a; 0xf015; 0xf009; 0xf00f; 0xf010; 0xf200; 0xf200; 0xf201; 0xf702; 0xf001; 0xf013;
    0xf004; 0xf006; 0xf007; 0xf008; 0xf00a; 0xf00b; 0xf00c; 0xf200; 0xf200; 0xf01e; 0xf700; 0xf200; 0xf019; 0xf018; 0xf003; 0xf016;
    0xf002; 0xf00e; 0xf00d; 0xf200; 0xf200; 0xf200; 0xf700; 0xf30c; 0xf703; 0xf000; 0xf207; 0xf122; 0xf123; 0xf124; 0xf125; 0xf126;
    0xf127; 0xf128; 0xf129; 0xf12a; 0xf12b; 0xf208; 0xf204; 0xf307; 0xf308; 0xf309; 0xf30b; 0xf304; 0xf305; 0xf306; 0xf30a; 0xf301;
    0xf302; 0xf303; 0xf300; 0xf30f; 0xf206; 0xf200; 0xf200; 0xf12c; 0xf12d; 0xf200; 0xf200; 0xf200; 0xf200; 0xf200; 0xf200; 0xf200;
    0xf30e; 0xf702; 0xf30d; 0xf01c; 0xf701; 0xf205; 0xf114; 0xf603; 0xf118; 0xf601; 0xf602; 0xf117; 0xf600; 0xf119; 0xf115; 0xf116;
    0xf200; 0xf200; 0xf200; 0xf200; 0xf200; 0xf200; 0xf200; 0xf11d; 0xf200; 0xf200; 0xf200; 0xf200; 0xf200; 0xf200; 0xf200; 0xf200;
    0xf200; 0xf200; 0xf200; 0xf200; 0xf200; 0xf200; 0xf200; 0xf200; 0xf200; 0xf200; 0xf200; 0xf200; 0xf200; 0xf200; 0xf200; 0xf200;
    0xf200; 0xf200; 0xf200; 0xf200; 0xf200; 0xf200; 0xf200; 0xf200; 0xf200; 0xf200; 0xf200; 0xf200; 0xf200; 0xf200; 0xf200; 0xf200;
    0xf200; 0xf200; 0xf200; 0xf200; 0xf200; 0xf200; 0xf200; 0xf200; 0xf200; 0xf200; 0xf200; 0xf200; 0xf200; 0xf200; 0xf200; 0xf200;
    0xf200; 0xf200; 0xf200; 0xf200; 0xf200; 0xf200; 0xf200; 0xf200; 0xf200; 0xf200; 0xf200; 0xf200; 0xf200; 0xf200; 0xf200; 0xf200;
    0xf200; 0xf200; 0xf200; 0xf200; 0xf200; 0xf200; 0xf200; 0xf200; 0xf200; 0xf200; 0xf200; 0xf200; 0xf200; 0xf200; 0xf200; 0xf200;
    0xf200; 0xf200; 0xf200; 0xf200; 0xf200; 0xf200; 0xf200; 0xf200; 0xf200; 0xf200; 0xf200; 0xf200; 0xf200; 0xf200; 0xf200; 0xf200;
    0xf200; 0xf200; 0xf200; 0xf200; 0xf200; 0xf200; 0xf200; 0xf200; 0xf200; 0xf200; 0xf200; 0xf200; 0xf200; 0xf200; 0xf200; 0xf200;
    0xf200; 0xf200; 0xf200; 0xf200; 0xf200; 0xf200; 0xf200; 0xf200; 0xf200; 0xf200; 0xf200; 0xf200; 0xf200; 0xf200; 0xf200; 0xf200
  ].

Definition shift_ctrl_map : list Z :=
  [
    0xf200; 0xf200; 0xf200; 0xf200; 0xf200; 0xf200; 0xf200; 0xf200; 0xf200; 0xf200; 0xf200; 0xf200; 0xf200; 0xf200; 0xf200; 0xf200;
    0xf011; 0xf017; 0xf005; 0xf012; 0xf014; 0xf01a; 0xf015; 0xf009; 0xf00f; 0xf010; 0xf200; 0xf200; 0xf201; 0xf702; 0xf001; 0xf013;
    0xf004; 0xf006; 0xf007; 0xf008; 0xf00a; 0xf00b; 0xf00c; 0xf200; 0xf01d; 0xf200; 0xf700; 0xf200; 0xf019; 0xf018; 0xf003; 0xf016;
    0xf002; 0xf00e; 0xf00d; 0xf200; 0xf200; 0xf01f; 0xf700; 0xf30c; 0xf703; 0xf200; 0xf207; 0xf200; 0xf200; 0xf200; 0xf200; 0xf200;
    0xf200; 0xf200; 0xf200; 0xf200; 0xf200; 0xf208; 0xf200; 0xf307; 0xf308; 0xf309; 0xf30b; 0xf304; 0xf305; 0xf306; 0xf30a; 0xf301;
    0xf302; 0xf303; 0xf300; 0xf30f; 0xf206; 0xf200; 0xf200; 0xf200; 0xf200; 0xf200; 0xf200; 0xf200; 0xf200; 0xf200; 0xf200; 0xf200;
    0xf30e; 0xf702; 0xf30d; 0xf20e; 0xf701; 0xf205; 0xf114; 0xf603; 0xf118; 0xf601; 0xf602; 0xf117; 0xf600; 0xf119; 0xf115; 0xf116;
    0xf200; 0xf200; 0xf200; 0xf200; 0xf200; 0xf200; 0xf200; 0xf11d; 0xf200; 0xf200; 0xf200; 0xf200; 0xf200; 0xf200; 0xf200; 0xf200;
    0xf200; 0xf200; 0xf200; 0xf200; 0xf200; 0xf200; 0xf200; 0xf200; 0xf200; 0xf200; 0xf200; 0xf200; 0xf200; 0xf200; 0xf200; 0xf200;
    0xf200; 0xf200; 0xf200; 0xf200; 0xf200; 0xf200; 0xf200; 0xf200; 0xf200; 0xf200; 0xf200; 0xf200; 0xf200; 0xf200; 0xf200; 0xf200;
    0xf200; 0xf200; 0xf200; 0xf200; 0xf200; 0xf200; 0xf200; 0xf200; 0xf200; 0xf200; 0xf200; 0xf200; 0xf200; 0xf200; 0xf200; 0xf200;
    0xf200; 0xf200; 0xf200; 0xf200; 0xf200; 0xf200; 0xf200; 0xf200; 0xf200; 0xf200; 0xf200; 0xf200; 0xf200; 0xf200; 0xf200; 0xf200;
    0xf200; 0xf200; 0xf200; 0xf200; 0xf200; 0xf200; 0xf200; 0xf200; 0xf200; 0xf200; 0xf200; 0xf200; 0xf200; 0xf200; 0xf200; 0xf200;
    0xf200; 0xf200; 0xf200; 0xf200; 0xf200; 0xf200; 0xf200; 0xf200; 0xf200; 0xf200; 0xf200; 0xf200; 0xf200; 0xf200; 0xf200; 0xf200;
    0xf200; 0xf200; 0xf200; 0xf200; 0xf200; 0xf200; 0xf200; 0xf200; 0xf200; 0xf200; 0xf200; 0xf200; 0xf200; 0xf200; 0xf200; 0xf200;
    0xf200; 0xf200; 0xf200; 0xf200; 0xf200; 0xf200; 0xf200; 0xf200; 0xf200; 0xf200; 0xf200; 0xf200; 0xf200; 0xf200; 0xf200; 0xf200
  ].

Definition altgr_ctrl_map : list Z :=
  [
    0xf200; 0xf200; 0xf200; 0xf200; 0xf200; 0xf200; 0xf200; 0xf200; 0xf200; 0xf200; 0xf01d; 0xf200; 0xf01c; 0xf200; 0xf200; 0xf200;
    0xf000; 0xf017; 0xf005; 0xf012; 0xf014; 0xf01a; 0xf015; 0xf009; 0xf00f; 0xf010; 0xf200; 0xf200; 0xf201; 0xf702; 0xf001; 0xf013;
    0xf004; 0xf006; 0xf007; 0xf008; 0xf00a; 0xf00b; 0xf00c; 0xf200; 0xf200; 0xf200; 0xf700; 0xf200; 0xf019; 0xf018; 0xf003; 0xf016;
    0xf002; 0xf00e; 0xf00d; 0xf200; 0xf200; 0xf200; 0xf700; 0xf30c; 0xf703; 0xf200; 0xf207; 0xf200; 0xf200; 0xf200; 0xf200; 0xf200;
    0xf200; 0xf200; 0xf200; 0xf200; 0xf200; 0xf208; 0xf200; 0xf307; 0xf308; 0xf309; 0xf30b; 0xf304; 0xf305; 0xf306; 0xf30a; 0xf301;
    0xf302; 0xf303; 0xf300; 0xf20c; 0xf206; 0xf200; 0xf200; 0xf200; 0xf200; 0xf200; 0xf200; 0xf200; 0xf200; 0xf200; 0xf200; 0xf200;
    0xf30e; 0xf702; 0xf30d; 0xf20e; 0xf701; 0xf205; 0xf114; 0xf603; 0xf118; 0xf601; 0xf602; 0xf117; 0xf600; 0xf119; 0xf115; 0xf20c;
    0xf200; 0xf200; 0xf200; 0xf200; 0xf200; 0xf200; 0xf200; 0xf11d; 0xf200; 0xf200; 0xf200; 0xf200; 0xf200; 0xf200; 0xf200; 0xf200;
    0xf200; 0xf200; 0xf200; 0xf200; 0xf200; 0xf200; 0xf200; 0xf200; 0xf200; 0xf200; 0xf200; 0xf200; 0xf200; 0xf200; 0xf200; 0xf200;
    0xf200; 0xf200; 0xf200; 0xf200; 0xf200; 0xf200; 0xf200; 0xf200; 0xf200; 0xf200; 0xf200; 0xf200; 0xf200; 0xf200; 0xf200; 0xf200;
    0xf200; 0xf200; 0xf200; 0xf200; 0xf200; 0xf200; 0xf200; 0xf200; 0xf200; 0xf200; 0xf200; 0xf200; 0xf200; 0xf200; 0xf200; 0xf200;
    0xf200; 0xf200; 0xf200; 0xf200; 0xf200; 0xf200; 0xf200; 0xf200; 0xf200; 0xf200; 0xf200; 0xf200; 0xf200; 0xf200; 0xf200; 0xf200;
    0xf200; 0xf200; 0xf200; 0xf200; 0xf200; 0xf200; 0xf200; 0xf200; 0xf200; 0xf200; 0xf200; 0xf200; 0xf200; 0xf200; 0xf200; 0xf200;
    0xf200; 0xf200; 0xf200; 0xf200; 0xf200; 0xf200; 0xf200; 0xf200; 0xf200; 0xf200; 0xf200; 0xf200; 0xf200; 0xf200; 0xf200; 0xf200;
    0xf200; 0xf200; 0xf200; 0xf200; 0xf200; 0xf200; 0xf200; 0xf200; 0xf200; 0xf200; 0xf200; 0xf200; 0xf200; 0xf200; 0xf200; 0xf200;
    0xf200; 0xf200; 0xf200; 0xf200; 0xf200; 0xf200; 0xf200; 0xf200; 0xf200; 0xf200; 0xf200; 0xf200; 0xf200; 0xf200; 0xf200; 0xf200
  ].

Definition alt_map : list Z :=
  [
    0xf200; 0xf81b; 0xf831; 0xf832; 0xf833; 0xf834; 0xf835; 0xf836; 0xf837; 0xf838; 0xf839; 0xf830; 0xf85c; 0xf827; 0xf87f; 0xf809;
    0xf871; 0xf877; 0xf865; 0xf872; 0xf874; 0xf87a; 0xf875; 0xf869; 0xf86f; 0xf870; 0xf840; 0xf82b; 0xf80d; 0xf702; 0xf861; 0xf873;
    0xf864; 0xf866; 0xf867; 0xf868; 0xf86a; 0xf86b; 0xf86c; 0xf85b; 0xf85d; 0xf85e; 0xf700; 0xf823; 0xf879; 0xf878; 0xf863; 0xf876;
    0xf862; 0xf86e; 0xf86d; 0xf82c; 0xf82e; 0xf82d; 0xf700; 0xf30c; 0xf703; 0xf820; 0xf207; 0xf500; 0xf501; 0xf502; 0xf503; 0xf504;
    0xf505; 0xf506; 0xf507; 0xf508; 0xf509; 0xf208; 0xf209; 0xf907; 0xf908; 0xf909; 0xf30b; 0xf904; 0xf905; 0xf906; 0xf30a; 0xf901;
    0xf902; 0xf903; 0xf900; 0xf30f; 0xf206; 0xf200; 0xf83c; 0xf50a; 0xf50b; 0xf200; 0xf200; 0xf200; 0xf200; 0xf200; 0xf200; 0xf200;
    0xf30e; 0xf702; 0xf30d; 0xf01c; 0xf20e; 0xf205; 0xf114; 0xf212; 0xf118; 0xf210; 0xf211; 0xf117; 0xf600; 0xf119; 0xf115; 0xf116;
    0xf200; 0xf200; 0xf200; 0xf200; 0xf200; 0xf200; 0xf200; 0xf11d; 0xf200; 0xf200; 0xf200; 0xf200; 0xf200; 0xf200; 0xf200; 0xf200;
    0xf200; 0xf200; 0xf200; 0xf200; 0xf200; 0xf200; 0xf200; 0xf200; 0xf200; 0xf200; 0xf200; 0xf200; 0xf200; 0xf200; 0xf200; 0xf200;
    0xf200; 0xf200; 0xf200; 0xf200; 0xf200; 0xf200; 0xf200; 0xf200; 0xf200; 0xf200; 0xf200; 0xf200; 0xf200; 0xf200; 0xf200; 0xf200;
    0xf200; 0xf200; 0xf200; 0xf200; 0xf200; 0xf200; 0xf200; 0xf200; 0xf200; 0xf200; 0xf200; 0xf200; 0xf200; 0xf200; 0xf200; 0xf200;
    0xf200; 0xf200; 0xf200; 0xf200; 0xf200; 0xf200; 0xf200; 0xf200; 0xf200; 0xf200; 0xf200; 0xf200; 0xf200; 0xf200; 0xf200; 0xf200;
    0xf200; 0xf200; 0xf200; 0xf200; 0xf200; 0xf200; 0xf200; 0xf200; 0xf200; 0xf200; 0xf200; 0xf200; 0xf200; 0xf200; 0xf200; 0xf200;
    0xf200; 0xf200; 0xf200; 0xf200; 0xf200; 0xf200; 0xf200; 0xf200; 0xf200; 0xf200; 0xf200; 0xf200; 0xf200; 0xf200; 0xf200; 0xf200;
    0xf200; 0xf200; 0xf200; 0xf200; 0xf200; 0xf200; 0xf200; 0xf200; 0xf200; 0xf200; 0xf200; 0xf200; 0xf200; 0xf200; 0xf200; 0xf200;
    0xf200; 0xf200; 0xf200; 0xf200; 0xf200; 0xf200; 0xf200; 0xf200; 0xf200; 0xf200; 0xf200; 0xf200; 0xf200; 0xf200; 0xf200; 0xf200
  ].

Definition shift_alt_map : list Z :=
  [
    0xf200; 0xf81b; 0xf821; 0xf822; 0xf823; 0xf824; 0xf825; 0xf826; 0xf82f; 0xf828; 0xf829; 0xf83d; 0xf83f; 0xf860; 0xf87f; 0xf200;
    0xf851; 0xf857; 0xf845; 0xf852; 0xf854; 0xf85a; 0xf855; 0xf849; 0xf84f; 0xf850; 0xf85c; 0xf82a; 0xf201; 0xf702; 0xf841; 0xf853;
    0xf844; 0xf846; 0xf847; 0xf848; 0xf84a; 0xf84b; 0xf84c; 0xf87b; 0xf87d; 0xf87e; 0xf700; 0xf827; 0xf859; 0xf858; 0xf843; 0xf856;
    0xf842; 0xf84e; 0xf84d; 0xf83b; 0xf83a; 0xf85f; 0xf700; 0xf30c; 0xf703; 0xf820; 0xf207; 0xf200; 0xf200; 0xf200; 0xf200; 0xf200;
    0xf200; 0xf200; 0xf200; 0xf200; 0xf200; 0xf208; 0xf200; 0xf307; 0xf308; 0xf309; 0xf30b; 0xf304; 0xf305; 0xf306; 0xf30a; 0xf301;
    0xf302; 0xf303; 0xf300; 0xf30f; 0xf206; 0xf200; 0xf83e; 0xf200; 0xf200; 0xf200; 0xf200; 0xf200; 0xf200; 0xf200; 0xf200; 0xf200;
    0xf30e; 0xf702; 0xf30d; 0xf20e; 0xf701; 0xf205; 0xf114; 0xf603; 0xf118; 0xf601; 0xf602; 0xf117; 0xf600; 0xf119; 0xf115; 0xf116;
    0xf200; 0xf200; 0xf200; 0xf200; 0xf200; 0xf200; 0xf200; 0xf11d; 0xf200; 0xf200; 0xf200; 0xf200; 0xf200; 0xf200; 0xf200; 0xf200;
    0xf200; 0xf200; 0xf200; 0xf200; 0xf200; 0xf200; 0xf200; 0xf200; 0xf200; 0xf200; 0xf200; 0xf200; 0xf200; 0xf200; 0xf200; 0xf200;
    0xf200; 0xf200; 0xf200; 0xf200; 0xf200; 0xf200; 0xf200; 0xf200; 0xf200; 0xf200; 0xf200; 0xf200; 0xf200; 0xf200; 0xf200; 0xf200;
    0xf200; 0xf200; 0xf200; 0xf200; 0xf200; 0xf200; 0xf200; 0xf200; 0xf200; 0xf200; 0xf200; 0xf200; 0xf200; 0xf200; 0xf200; 0xf200;
    0xf200; 0xf200; 0xf200; 0xf200; 0xf200; 0xf200; 0xf200; 0xf200; 0xf200; 0xf200; 0xf200; 0xf200; 0xf200; 0xf200; 0xf200; 0xf200;
    0xf200; 0xf200; 0xf200; 0xf200; 0xf200; 0xf200; 0xf200; 0xf200; 0xf200; 0xf200; 0xf200; 0xf200; 0xf200; 0xf200; 0xf200; 0xf200;
    0xf200; 0xf200; 0xf200; 0xf200; 0xf200; 0xf200; 0xf200; 0xf200; 0xf200; 0xf200; 0xf200; 0xf200; 0xf200; 0xf200; 0xf200; 0xf200;
    0xf200; 0xf200; 0xf200; 0xf200; 0xf200; 0xf200; 0xf200; 0xf200; 0xf200; 0xf200; 0xf200; 0xf200; 0xf200; 0xf200; 0xf200; 0xf200;
    0xf200; 0xf200; 0xf200; 0xf200; 0xf200; 0xf200; 0xf200; 0xf200; 0xf200; 0xf200; 0xf200; 0xf200; 0xf200; 0xf200; 0xf200; 0xf200
  ].

Definition altgr_alt_map : list Z :=
  [
    0xf200; 0xf200; 0xf200; 0xf832; 0xf833; 0xf200; 0xf200; 0xf200; 0xf87b; 0xf85b; 0xf85d; 0xf87d; 0xf200; 0xf200; 0xf200; 0xf200;
    0xf840; 0xf877; 0xf865; 0xf872; 0xf874; 0xf87a; 0xf875; 0xf869; 0xf86f; 0xf870; 0xf200; 0xf87e; 0xf201; 0xf702; 0xf861; 0xf873;
    0xf864; 0xf866; 0xf867; 0xf868; 0xf86a; 0xf86b; 0xf86c; 0xf200; 0xf200; 0xf200; 0xf700; 0xf200; 0xf879; 0xf878; 0xf863; 0xf876;
    0xf862; 0xf86e; 0xf86d; 0xf200; 0xf200; 0xf200; 0xf700; 0xf30c; 0xf703; 0xf200; 0xf207; 0xf200; 0xf200; 0xf200; 0xf200; 0xf200;
    0xf200; 0xf200; 0xf200; 0xf200; 0xf200; 0xf208; 0xf200; 0xf307; 0xf308; 0xf309; 0xf30b; 0xf304; 0xf305; 0xf306; 0xf30a; 0xf301;
    0xf302; 0xf303; 0xf300; 0xf30f; 0xf206; 0xf200; 0xf87c; 0xf200; 0xf200; 0xf200; 0xf200; 0xf200; 0xf200; 0xf200; 0xf200; 0xf200;
    0xf30e; 0xf702; 0xf30d; 0xf20e; 0xf701; 0xf205; 0xf114; 0xf603; 0xf118; 0xf601; 0xf602; 0xf117; 0xf600; 0xf119; 0xf115; 0xf116;
    0xf200; 0xf200; 0xf200; 0xf200; 0xf200; 0xf200; 0xf200; 0xf11d; 0xf200; 0xf200; 0xf200; 0xf200; 0xf200; 0xf200; 0xf200; 0xf200;
    0xf200; 0xf200; 0xf200; 0xf200; 0xf200; 0xf200; 0xf200; 0xf200; 0xf200; 0xf200; 0xf200; 0xf200; 0xf200; 0xf200; 0xf200; 0xf200;
    0xf200; 0xf200; 0xf200; 0xf200; 0xf200; 0xf200; 0xf200; 0xf200; 0xf200; 0xf200; 0xf200; 0xf200; 0xf200; 0xf200; 0xf200; 0xf200;
    0xf200; 0xf200; 0xf200; 0xf200; 0xf200; 0xf200; 0xf200; 0xf200; 0xf200; 0xf200; 0xf200; 0xf200; 0xf200; 0xf200; 0xf200; 0xf200;
    0xf200; 0xf200; 0xf200; 0xf200; 0xf200; 0xf200; 0xf200; 0xf200; 0xf200; 0xf200; 0xf200; 0xf200; 0xf200; 0xf200; 0xf200; 0xf200;
    0xf200; 0xf200; 0xf200; 0xf200; 0xf200; 0xf200; 0xf200; 0xf200; 0xf200; 0xf200; 0xf200; 0xf200; 0xf200; 0xf200; 0xf200; 0xf200;
    0xf200; 0xf200; 0xf200; 0xf200; 0xf200; 0xf200; 0xf200; 0xf200; 0xf200; 0xf200; 0xf200; 0xf200; 0xf200; 0xf200; 0xf200; 0xf200;
    0xf200; 0xf200; 0xf200; 0xf200; 0xf200; 0xf200; 0xf200; 0xf200; 0xf200; 0xf200; 0xf200; 0xf200; 0xf200; 0xf200; 0xf200; 0xf200;
    0xf200; 0xf200; 0xf200; 0xf200; 0xf200; 0xf200; 0xf200; 0xf200; 0xf200; 0xf200; 0xf200; 0xf200; 0xf200; 0xf200; 0xf200; 0xf200
  ].

Definition ctrl_alt_map : list Z :=
  [
    0xf200; 0xf200; 0xf200; 0xf800; 0xf81b; 0xf200; 0xf200; 0xf200; 0xf200; 0xf200; 0xf200; 0xf200; 0xf200; 0xf200; 0xf200; 0xf200;
    0xf811; 0xf817; 0xf805; 0xf812; 0xf814; 0xf81a; 0xf815; 0xf809; 0xf80f; 0xf810; 0xf200; 0xf200; 0xf201; 0xf702; 0xf801; 0xf813;
    0xf804; 0xf806; 0xf807; 0xf808; 0xf80a; 0xf80b; 0xf80c; 0xf200; 0xf200; 0xf81e; 0xf700; 0xf200; 0xf819; 0xf818; 0xf803; 0xf816;
    0xf802; 0xf80e; 0xf80d; 0xf200; 0xf200; 0xf200; 0xf700; 0xf30c; 0xf703; 0xf800; 0xf207; 0xf500; 0xf501; 0xf502; 0xf503; 0xf504;
    0xf505; 0xf506; 0xf507; 0xf508; 0xf509; 0xf208; 0xf200; 0xf307; 0xf308; 0xf309; 0xf30b; 0xf304; 0xf305; 0xf306; 0xf30a; 0xf301;
    0xf302; 0xf303; 0xf300; 0xf20c; 0xf206; 0xf200; 0xf200; 0xf50a; 0xf50b; 0xf200; 0xf200; 0xf200; 0xf200; 0xf200; 0xf200; 0xf200;
    0xf30e; 0xf702; 0xf30d; 0xf81c; 0xf701; 0xf205; 0xf114; 0xf603; 0xf118; 0xf601; 0xf602; 0xf117; 0xf600; 0xf119; 0xf115; 0xf20c;
    0xf200; 0xf200; 0xf200; 0xf200; 0xf200; 0xf200; 0xf200; 0xf11d; 0xf200; 0xf200; 0xf200; 0xf200; 0xf200; 0xf200; 0xf200; 0xf200;
    0xf200; 0xf200; 0xf200; 0xf200; 0xf200; 0xf200; 0xf200; 0xf200; 0xf200; 0xf200; 0xf200; 0xf200; 0xf200; 0xf200; 0xf200; 0xf200;
    0xf200; 0xf200; 0xf200; 0xf200; 0xf200; 0xf200; 0xf200; 0xf200; 0xf200; 0xf200; 0xf200; 0xf200; 0xf200; 0xf200; 0xf200; 0xf200;
    0xf200; 0xf200; 0xf200; 0xf200; 0xf200; 0xf200; 0xf200; 0xf200; 0xf200; 0xf200; 0xf200; 0xf200; 0xf200; 0xf200; 0xf200; 0xf200;
    0xf200; 0xf200; 0xf200; 0xf200; 0xf200; 0xf200; 0xf200; 0xf200; 0xf200; 0xf200; 0xf200; 0xf200; 0xf200; 0xf200; 0xf200; 0xf200;
    0xf200; 0xf200; 0xf200; 0xf200; 0xf200; 0xf200; 0xf200; 0xf200; 0xf200; 0xf200; 0xf200; 0xf200; 0xf200; 0xf200; 0xf200; 0xf200;
    0xf200; 0xf200; 0xf200; 0xf200; 0xf200; 0xf200; 0xf200; 0xf200; 0xf200; 0xf200; 0xf200; 0xf200; 0xf200; 0xf200; 0xf200; 0xf200;
    0xf200; 0xf200; 0xf200; 0xf200; 0xf200; 0xf200; 0xf200; 0xf200; 0xf200; 0xf200; 0xf200; 0xf200; 0xf200; 0xf200; 0xf200; 0xf200;
    0xf200; 0xf200; 0xf200; 0xf200; 0xf200; 0xf200; 0xf200; 0xf200; 0xf200; 0xf200; 0xf200; 0xf200; 0xf200; 0xf200; 0xf200; 0xf200
  ].

(** [struct keyMapInfo] and [struct keyMap] of include/hardware/keyboard.h. *)
Record keyMapInfo := KeyMapInfo {
  km_plain : list Z; km_shift : list Z; km_altgr : list Z; km_alt : list Z; km_ctrl : list Z;
  km_shift_ctrl : list Z; km_altgr_ctrl : list Z; km_shift_alt : list Z; km_altgr_alt : list Z; km_ctrl_alt : list Z;
}.

Record keyMap := KeyMap { km_code : list Z; km_maps : keyMapInfo }.

Definition keyMapDE : keyMap :=
  KeyMap [100; 101]
    (KeyMapInfo plain_map shift_map altgr_map alt_map ctrl_map shift_ctrl_map altgr_ctrl_map
       shift_alt_map altgr_alt_map ctrl_alt_map).
