(* ===== verification/Devices.v ===== *)
(** * The state of the devices

    The static variables of interrupt/interrupt.c, hardware/pic.c,
    hardware/keyboard.c and of the tasks of hardware/gdt.c. They are a part of
    the memory of the kernel: [platform pages] puts them beside the page tables
    and the heap, and passes the operations of these through, so that the handlers
    of interrupts, the devices and the kernel objects work on one state. *)

From S2P Require Import Prelude Io Console LinkedList Kernel Thread Process Elf.
Open Scope Z_scope.

(** The functions that interrupt.c and pic.c put into the table of interrupts. *)
Inductive interrupt_callback :=
  | Interrupt_0x07 | Interrupt_0x0E | Interrupt_0x10 | Interrupt_0x80
  | Interrupt_irq.

(** The functions given to [picReserveIRQ]. *)
Inductive irq_callback := Keyboard_irq | Timer_irq.

#[export] Instance interrupt_callback_eq_dec : EqDecision interrupt_callback.
Proof. solve_decision. Defined.
#[export] Instance irq_callback_eq_dec : EqDecision irq_callback.
Proof. solve_decision. Defined.

(** [struct keyModifier], bit fields of one bit. *)
Record keyModifier := KeyModifier {
  shift : bool; shiftLocked : bool; ctrl : bool; alt : bool; altgr : bool;
}.

Record keyboard := Keyboard {
  keyboardLEDFlags : Z;
  keyboardStdin : option oid;
  modifiers : keyModifier;
  ext1Code : bool;
  ext2Code : Z;
  e1_prev : Z;
}.

Definition no_modifiers : keyModifier := KeyModifier false false false false false.
Definition keyboard_start : keyboard := Keyboard 0 None no_modifiers false 0 0.

Record devices := MkDevices {
  interruptTable : list (option interrupt_callback);
  irqBase : Z;
  irqTable : list (option irq_callback);
  kbd : keyboard;
  TSS_user : taskContext;
  kernelStackWords : list Z;      (* the page of the stack of the kernel *)
}.

Record platform (pages : Type) := Platform { pages_of : pages; devs : devices }.
Arguments Platform {pages} _ _.
Arguments pages_of {pages} _.
Arguments devs {pages} _.

Definition set_interruptTable (t : list (option interrupt_callback)) (d : devices) : devices :=
  MkDevices t (irqBase d) (irqTable d) (kbd d) (TSS_user d) (kernelStackWords d).
Definition set_irqBase (b : Z) (d : devices) : devices :=
  MkDevices (interruptTable d) b (irqTable d) (kbd d) (TSS_user d) (kernelStackWords d).
Definition set_irqTable (t : list (option irq_callback)) (d : devices) : devices :=
  MkDevices (interruptTable d) (irqBase d) t (kbd d) (TSS_user d) (kernelStackWords d).
Definition set_kbd (x : keyboard) (d : devices) : devices :=
  MkDevices (interruptTable d) (irqBase d) (irqTable d) x (TSS_user d) (kernelStackWords d).
Definition set_task (t : taskContext) (stack : list Z) (d : devices) : devices :=
  MkDevices (interruptTable d) (irqBase d) (irqTable d) (kbd d) t stack.

Section Platform.
Context {pages : Type}.
Abbreviation KM := (KM (platform pages)).

Definition set_pages (p : pages) (x : platform pages) : platform pages := Platform p (devs x).
Definition set_devs (d : devices) (x : platform pages) : platform pages := Platform (pages_of x) d.

Definition with_pages {A} (m : M pages A) : M (platform pages) A := zoom pages_of set_pages m.

(** The accesses of the device code to its variables and to the ports. *)
Definition get_dev : KM devices := gets (λ k, devs (memory k)).
Definition modify_dev (f : devices → devices) : KM unit :=
  modify (λ k, set_memory (set_devs (f (devs (memory k))) (memory k)) k).
Definition ports_of {A} (m : M ports A) : KM A := with_console (with_io m).

#[export] Instance platform_memory `{Memory pages} : Memory (platform pages) := {|
  heapAlloc := λ n, with_pages (heapAlloc n);
  heapReAlloc := λ o n, with_pages (heapReAlloc o n);
  heapFree := λ o, with_pages (heapFree o);
  pagingAllocatePhysMem := λ p n rw u, with_pages (pagingAllocatePhysMem p n rw u);
  pagingReleasePhysMem := λ p a n, with_pages (pagingReleasePhysMem p a n);
  pagingGetPhysMem := λ p a, with_pages (pagingGetPhysMem p a);
  pagingMapRemoteMemory := λ d s da sa n rw u, with_pages (pagingMapRemoteMemory d s da sa n rw u);
  pagingAllocProcessPageTable := λ p, with_pages (pagingAllocProcessPageTable p);
  pagingForkProcessPageTable := λ p q, with_pages (pagingForkProcessPageTable p q);
  pagingReleaseProcessPageTable := λ p, with_pages (pagingReleaseProcessPageTable p);
  pagingFillProcessInfo := λ p, with_pages (pagingFillProcessInfo p);
|}.

#[export] Instance platform_userMemory `{UserMemory pages} : UserMemory (platform pages) := {|
  pagingAllocatePhysMemFixed := λ p a n rw u, with_pages (pagingAllocatePhysMemFixed p a n rw u);
  pagingTryAllocatePhysMem := λ p n rw u, with_pages (pagingTryAllocatePhysMem p n rw u);
  pagingTryReleaseUserMem := λ p a n, with_pages (pagingTryReleaseUserMem p a n);
  ACCESS_USER_MEMORY := λ p a n rw, with_pages (ACCESS_USER_MEMORY p a n rw);
  ACCESS_USER_MEMORY_STRUCT := λ p a n l rw, with_pages (ACCESS_USER_MEMORY_STRUCT p a n l rw);
  RELEASE_USER_MEMORY := λ k, with_pages (RELEASE_USER_MEMORY k);
  read_bytes := λ a n, with_pages (read_bytes a n);
  write_bytes := λ a bs, with_pages (write_bytes a bs);
  backup_page_tables := λ p, with_pages (backup_page_tables p);
  restore_page_tables := λ p, with_pages (restore_page_tables p);
  old_p := old_p;
|}.
End Platform.
