(* ===== verification/Gdt.v ===== *)
(** * gdt.c: descriptor tables and tasks

    Models src/kernelmode/kernel/hardware/gdt.c: the global descriptor table with
    its segments and tasks, the interrupt descriptor table, and the code that is
    generated for the entries of interrupts. A descriptor is a record of the bit
    fields of [struct GDTEntry], and a pointer to one is its index in the table.
    The pages come from paging.c through the interface [FixedPages]; [cpu] are
    the registers that the assembly of the file loads. *)

From S2P Require Import Prelude Kernel Thread.
Open Scope Z_scope.

Definition GDT_CPL_MASK := 3.
Definition GDT_CPL_RING0 := 0.
Definition GDT_CPL_RING3 := 3.
Definition INT_TYPE_INT32 := 0xE.
Definition sizeof_GDTEntry := 8.
Definition GDT_MAX_COUNT := GDT_MAX_SIZE / sizeof_GDTEntry.
Definition sizeof_IDTEntry := 8.
Definition IDT_MAX_COUNT := 256.
Definition sizeof_taskContext := 0x68.
Definition USERMODE_INTJMP_ENABLE_FPU := USERMODE_INTJMP_ADDRESS + 2048.
Definition INTJMP_ENTRY_SIZE := 8.
Definition INTJMP_ENTRY_MASK := 7.
Definition INTJMP_ENTRY_BITS := 3.

(** ** Descriptors *)

Record accessBits := AccessBits {
  accessed : Z; readWrite : Z; dc : Z; execute : Z; isSystem : Z; privlevel : Z; present : Z;
}.

Record GDTEntry := MkGDTEntry {
  limit1 : Z; address1 : Z; address2 : Z; access : accessBits;
  limit2 : Z; user : Z; reserved : Z; is32bit : Z; granularity : Z; address3 : Z;
}.

Definition zero_entry : GDTEntry := MkGDTEntry 0 0 0 (AccessBits 0 0 0 0 0 0 0) 0 0 0 0 0 0.

Record IDTEntry := MkIDTEntry {
  addressLow : Z; csSelector : Z; idt_zero : Z; i_type : Z; storageSegment : Z; dpl : Z; i_present : Z; addressHigh : Z;
}.

Definition gdtEntrySetAddress (address : Z) (e : GDTEntry) : GDTEntry :=
  MkGDTEntry (limit1 e) (Z.land address 0x0000FFFF) (Z.shiftr (Z.land address 0x00FF0000) 16) (access e)
    (limit2 e) (user e) (reserved e) (is32bit e) (granularity e) (Z.shiftr (Z.land address 0xFF000000) 24).

(** [None]: an assertion fails. *)
Definition gdtEntrySetLimit (length : Z) (e : GDTEntry) : option GDTEntry :=
  if (length <=? 0x100000000) && (0 <? length) then
    if 0x100000 <? length then
      if Z.land length PAGE_MASK =? 0 then
        let length := Z.shiftr length PAGE_BITS - 1 in
        Some (MkGDTEntry (Z.land length 0x0000FFFF) (address1 e) (address2 e) (access e)
          (Z.land (Z.shiftr length 16) 0xF) (user e) (reserved e) (is32bit e) 1 (address3 e))
      else None
    else
      let length := length - 1 in
      Some (MkGDTEntry (Z.land length 0x0000FFFF) (address1 e) (address2 e) (access e)
        (Z.land (Z.shiftr length 16) 0xF) (user e) (reserved e) (is32bit e) 0 (address3 e))
  else None.

Definition set_bits (a : accessBits) (user reserved is32bit : Z) (e : GDTEntry) : GDTEntry :=
  MkGDTEntry (limit1 e) (address1 e) (address2 e) a (limit2 e) user reserved is32bit (granularity e) (address3 e).

(** ** The state of the file *)

Record cpu := Cpu {
  gdtr : Z * Z;          (* limit and address *)
  idtr : Z * Z;
  cs_ds : Z * Z;
  tr : Z;
}.

(** The tables are null pointers before [gdtInit]; the pages with the code of
    the interrupt entries are lists of bytes. *)
Record gdt (mem : Type) := Gdt {
  kernelStack : Z;
  gdtTableEntries : option (list GDTEntry);
  idtTableEntries : option (list IDTEntry);
  taskTable : Z;
  intJmpTable_kernel : Z * list Z;
  intJmpTable_user : Z * list Z;
  TSS_kernel : taskContext;
  TSS_user : taskContext;
  codeRing0 : Z; dataRing0 : Z; codeRing3 : Z; dataRing3 : Z;
  kernelTask : Z; usermodeTask : Z;
  regs : cpu;
  gmem : mem;
}.
Arguments Gdt {mem}.
Arguments kernelStack {mem} _. Arguments gdtTableEntries {mem} _. Arguments idtTableEntries {mem} _.
Arguments taskTable {mem} _. Arguments intJmpTable_kernel {mem} _. Arguments intJmpTable_user {mem} _.
Arguments TSS_kernel {mem} _. Arguments TSS_user {mem} _.
Arguments codeRing0 {mem} _. Arguments dataRing0 {mem} _. Arguments codeRing3 {mem} _. Arguments dataRing3 {mem} _.
Arguments kernelTask {mem} _. Arguments usermodeTask {mem} _. Arguments regs {mem} _. Arguments gmem {mem} _.

(** [pagingAllocatePhysMemUnpageable] and [pagingAllocatePhysMemFixedUnpageable]
    for the kernel, writable and without user access. *)
Class FixedPages (mem : Type) := {
  allocateUnpageable : Z → M mem Z;
  allocateFixedUnpageable : Z → Z → M mem Z;
}.

Section Gdt.
Context {mem : Type} `{FixedPages mem}.
Abbreviation GM := (M (gdt mem)).

Definition set_entries (l : list GDTEntry) (g : gdt mem) : gdt mem :=
  Gdt (kernelStack g) (Some l) (idtTableEntries g) (taskTable g) (intJmpTable_kernel g) (intJmpTable_user g)
    (TSS_kernel g) (TSS_user g) (codeRing0 g) (dataRing0 g) (codeRing3 g) (dataRing3 g) (kernelTask g) (usermodeTask g) (regs g) (gmem g).
Definition set_idt (l : list IDTEntry) (g : gdt mem) : gdt mem :=
  Gdt (kernelStack g) (gdtTableEntries g) (Some l) (taskTable g) (intJmpTable_kernel g) (intJmpTable_user g)
    (TSS_kernel g) (TSS_user g) (codeRing0 g) (dataRing0 g) (codeRing3 g) (dataRing3 g) (kernelTask g) (usermodeTask g) (regs g) (gmem g).
Definition set_pages (stack task : Z) (jk ju : Z * list Z) (g : gdt mem) : gdt mem :=
  Gdt stack (gdtTableEntries g) (idtTableEntries g) task jk ju
    (TSS_kernel g) (TSS_user g) (codeRing0 g) (dataRing0 g) (codeRing3 g) (dataRing3 g) (kernelTask g) (usermodeTask g) (regs g) (gmem g).
Definition set_tss (k u : taskContext) (g : gdt mem) : gdt mem :=
  Gdt (kernelStack g) (gdtTableEntries g) (idtTableEntries g) (taskTable g) (intJmpTable_kernel g) (intJmpTable_user g)
    k u (codeRing0 g) (dataRing0 g) (codeRing3 g) (dataRing3 g) (kernelTask g) (usermodeTask g) (regs g) (gmem g).
Definition set_segments (c0 d0 c3 d3 : Z) (g : gdt mem) : gdt mem :=
  Gdt (kernelStack g) (gdtTableEntries g) (idtTableEntries g) (taskTable g) (intJmpTable_kernel g) (intJmpTable_user g)
    (TSS_kernel g) (TSS_user g) c0 d0 c3 d3 (kernelTask g) (usermodeTask g) (regs g) (gmem g).
Definition set_tasks (k u : Z) (g : gdt mem) : gdt mem :=
  Gdt (kernelStack g) (gdtTableEntries g) (idtTableEntries g) (taskTable g) (intJmpTable_kernel g) (intJmpTable_user g)
    (TSS_kernel g) (TSS_user g) (codeRing0 g) (dataRing0 g) (codeRing3 g) (dataRing3 g) k u (regs g) (gmem g).
Definition set_regs (r : cpu) (g : gdt mem) : gdt mem :=
  Gdt (kernelStack g) (gdtTableEntries g) (idtTableEntries g) (taskTable g) (intJmpTable_kernel g) (intJmpTable_user g)
    (TSS_kernel g) (TSS_user g) (codeRing0 g) (dataRing0 g) (codeRing3 g) (dataRing3 g) (kernelTask g) (usermodeTask g) r (gmem g).
Definition set_gmem (m : mem) (g : gdt mem) : gdt mem :=
  Gdt (kernelStack g) (gdtTableEntries g) (idtTableEntries g) (taskTable g) (intJmpTable_kernel g) (intJmpTable_user g)
    (TSS_kernel g) (TSS_user g) (codeRing0 g) (dataRing0 g) (codeRing3 g) (dataRing3 g) (kernelTask g) (usermodeTask g) (regs g) m.
Definition with_gmem {A} (m : M mem A) : GM A := zoom gmem set_gmem m.

(** ** Entries of the table *)

Definition table_entries : GM (list GDTEntry) := let* g := get in match gdtTableEntries g with Some l => mret l | None => panic "gdtTableEntries" end.

(** The first index from [i] on that is not present. *)
Fixpoint free_entry (l : list GDTEntry) (i : Z) : option Z :=
  match l with
  | [] => None
  | e :: l => if present (access e) =? 0 then Some i else free_entry l (i + 1)
  end.

Definition with_present (p : Z) (e : GDTEntry) : GDTEntry :=
  let a := access e in
  set_bits (AccessBits (accessed a) (readWrite a) (dc a) (execute a) (isSystem a) (privlevel a) p) (user e) (reserved e) (is32bit e) e.

Definition gdtGetFreeEntry : GM Z :=
  let* l := table_entries in
  match free_entry (drop 1 l) 1 with
  | Some i =>
      let* e := deref (nthZ l i) "gdtTableEntries" in
      modify (set_entries (setZ l i (with_present 1 e))) ;; mret i
  | None => panic "error_outOfGDTEntries"
  end.

Definition gdtGetEntryOffset (entry ring : Z) : GM Z :=
  let* _ := table_entries in
  assert ((0 <=? entry) && (entry <? GDT_MAX_COUNT)) "entry < gdtTableEntries + GDT_MAX_COUNT" ;;
  let offset := sizeof_GDTEntry * entry in
  assert (Z.land offset 7 =? 0) "(offset & 7) == 0" ;;
  mret (Z.lor offset ring).

Definition modify_entry (i : Z) (f : GDTEntry → option GDTEntry) : GM unit :=
  let* l := table_entries in
  let* e := deref (nthZ l i) "gdtTableEntries" in
  match f e with
  | Some e => modify (set_entries (setZ l i e))
  | None => panic "gdtEntrySetLimit"
  end.

Definition gdtReleaseEntry (i : Z) : GM unit := modify_entry i (λ _, Some zero_entry).

(** A new segment or task from [address] on; the fields of the access byte are
    set as the code does it for all of them. *)
Definition new_descriptor (address length : Z) (a : accessBits) (is32bit : Z) : GM Z :=
  let* i := gdtGetFreeEntry in
  modify_entry i (λ e, Some (gdtEntrySetAddress address e)) ;;
  modify_entry i (gdtEntrySetLimit length) ;;
  modify_entry i (λ e, Some (set_bits a 0 0 is32bit e)) ;;
  mret i.

Definition segment_bits (executable ring : Z) : accessBits := AccessBits 0 1 0 executable 1 ring 1.
Definition task_bits : accessBits := AccessBits 1 0 0 1 0 GDT_CPL_RING0 1.

Definition __initBasicGDT : GM unit :=
  let* c0 := new_descriptor 0 0x100000000 (segment_bits 1 GDT_CPL_RING0) 1 in
  let* d0 := new_descriptor 0 0x100000000 (segment_bits 0 GDT_CPL_RING0) 1 in
  let* c3 := new_descriptor 0 0x100000000 (segment_bits 1 GDT_CPL_RING3) 1 in
  let* d3 := new_descriptor 0 0x100000000 (segment_bits 0 GDT_CPL_RING3) 1 in
  modify (set_segments c0 d0 c3 d3).

(** [memset(task, 0, ...)] and the two assignments after it. *)
Definition blank_task : taskContext :=
  TaskContext 0 0 0 0 0 0 0 0 0 0 0 0 0 0 0 0 0 0 0 0 0 0 0 0 0 sizeof_taskContext.

Definition __initBasicTask : GM unit :=
  let* g := get in
  assert (negb (taskTable g =? 0)) "taskTable" ;;
  let* k := new_descriptor (taskTable g) sizeof_taskContext task_bits 0 in
  let* u := new_descriptor (u32 (taskTable g + sizeof_taskContext)) sizeof_taskContext task_bits 0 in
  modify (set_tasks k u) ;;
  modify (set_tss blank_task blank_task) ;;
  assert (2 * sizeof_taskContext <=? PAGE_SIZE) "(uint32_t)task - (uint32_t)taskTable <= PAGE_SIZE".

(** ** The code for the entries of interrupts *)

Definition __isErrorCodeInterrupt (i : Z) : bool := (i =? 8) || ((10 <=? i) && (i <=? 14)) || (i =? 17).

(** The two instructions of interrupt [i]: room on the stack, and the call of
    the dispatcher behind the table. *)
Definition int_entry (i : Z) : list Z :=
  let cur := INTJMP_ENTRY_SIZE * i + 4 in
  [0x83; 0xEC; if __isErrorCodeInterrupt i then 0x68 else 0x6C; 0xE8] ++ le32 (INTJMP_ENTRY_SIZE * IDT_MAX_COUNT - (cur + 4)).

Definition kernel_dispatcher (base dispatchKernelInterrupt : Z) : list Z :=
  let code1 :=
    [0x89; 0x44; 0x24; 0x2C; 0x89; 0x4C; 0x24; 0x30; 0x89; 0x54; 0x24; 0x34; 0x89; 0x5C; 0x24; 0x38;
    0x8D; 0x84; 0x24; 0x80; 0x00; 0x00; 0x00; 0x89; 0x44; 0x24; 0x3C; 0x89; 0x6C; 0x24; 0x40; 0x89;
    0x74; 0x24; 0x44; 0x89; 0x7C; 0x24; 0x48; 0x8C; 0x44; 0x24; 0x4C; 0x66; 0x8B; 0x44; 0x24; 0x74;
    0x66; 0x89; 0x44; 0x24; 0x50; 0x8C; 0x54; 0x24; 0x54; 0x8C; 0x5C; 0x24; 0x58; 0x8C; 0x64; 0x24;
    0x5C; 0x8C; 0x6C; 0x24; 0x60; 0x0F; 0x20; 0xD8; 0x89; 0x44; 0x24; 0x20; 0x8B; 0x44; 0x24; 0x70;
    0x89; 0x44; 0x24; 0x24; 0x8B; 0x44; 0x24; 0x78; 0x89; 0x44; 0x24; 0x28; 0x58; 0x2D] in
  let code2 :=
    [0xC1; 0xE8; 0x03; 0x54; 0xFF; 0x74; 0x24; 0x6C; 0x50; 0xE8] in
  let code3 :=
    [0x8B; 0x44; 0x24; 0x2C; 0x89; 0x44; 0x24; 0x78; 0x8B; 0x44; 0x24; 0x58; 0x66; 0x89; 0x44; 0x24;
    0x7C; 0x8B; 0x44; 0x24; 0x30; 0x89; 0x84; 0x24; 0x80; 0x00; 0x00; 0x00; 0x8B; 0x7C; 0x24; 0x50;
    0x8B; 0x74; 0x24; 0x4C; 0x8B; 0x6C; 0x24; 0x48; 0x8B; 0x5C; 0x24; 0x40; 0x8B; 0x54; 0x24; 0x3C;
    0x8B; 0x4C; 0x24; 0x38; 0x8B; 0x44; 0x24; 0x34; 0x83; 0xC4; 0x78; 0xCF] in
  let cur := base + INTJMP_ENTRY_SIZE * IDT_MAX_COUNT + lenZ code1 + 4 + lenZ code2 in
  code1 ++ le32 (USERMODE_INTJMP_ADDRESS + 8) ++ code2 ++ le32 (dispatchKernelInterrupt - (cur + 4)) ++ code3.

Definition user_entry (kernelTaskOffset : Z) : list Z := [0xEA] ++ le32 0 ++ le16 kernelTaskOffset ++ [0xCC].
Definition enable_fpu : list Z := [0x0F; 0x06; 0xCF].

(** Code in a page that was cleared before. *)
Definition in_page (code : list Z) : list Z := code ++ replicate (Z.to_nat PAGE_SIZE - length code) 0.

(** The code of both pages, for the address of the dispatcher in C and the selector
    of the task of the kernel. *)
Definition kernel_code (base dispatchKernelInterrupt : Z) : list Z :=
  concat (int_entry <$> seqZ 0 IDT_MAX_COUNT) ++ kernel_dispatcher base dispatchKernelInterrupt.
Definition user_code (selector : Z) : list Z :=
  concat ((λ _, user_entry selector) <$> seqZ 0 IDT_MAX_COUNT) ++ enable_fpu.

Definition __generateIntJmpTables (dispatchKernelInterrupt : Z) : GM unit :=
  let* g := get in
  let ' (jk, ju) := ((intJmpTable_kernel g).1, (intJmpTable_user g).1) in
  assert (negb (jk =? 0) && negb (ju =? 0)) "intJmpTable_kernel && intJmpTable_user" ;;
  assert (INTJMP_ENTRY_SIZE * IDT_MAX_COUNT <=? PAGE_SIZE) "INTJMP_ENTRY_SIZE * IDT_MAX_COUNT <= PAGE_SIZE" ;;
  assert (negb (kernelTask g =? 0)) "kernelTask" ;;
  let kernel := kernel_code jk dispatchKernelInterrupt in
  assert (lenZ kernel <=? PAGE_SIZE) "cur <= (uint8_t *)intJmpTable_kernel + PAGE_SIZE" ;;
  let* offset := gdtGetEntryOffset (kernelTask g) GDT_CPL_RING0 in
  let user := user_code offset in
  assert (lenZ user <=? PAGE_SIZE) "cur <= (uint8_t *)intJmpTable_user + PAGE_SIZE" ;;
  modify (set_pages (kernelStack g) (taskTable g) (jk, in_page kernel) (ju, in_page user)).

(** ** Initialization *)

Definition idt_entry (selector i : Z) : IDTEntry :=
  let address := u32 (USERMODE_INTJMP_ADDRESS + INTJMP_ENTRY_SIZE * i) in
  MkIDTEntry (Z.land address 0x0000FFFF) (u16 selector) 0 INT_TYPE_INT32 0
    (if i =? 0x80 then GDT_CPL_RING3 else GDT_CPL_RING0) 1 (Z.shiftr address 16).

(** [captured] are the registers that [debugCaptureCpuContext] stores. *)
Definition gdtInit (dispatchKernelInterrupt : Z) (captured : taskContext) : GM unit :=
  let* g := get in
  assert (bool_decide (gdtTableEntries g = None)) "!gdtTableEntries" ;;
  assert (bool_decide (idtTableEntries g = None)) "!idtTableEntries" ;;
  assert (taskTable g =? 0) "!taskTable" ;;
  assert (((intJmpTable_kernel g).1 =? 0) && ((intJmpTable_user g).1 =? 0)) "!intJmpTable_kernel && !intJmpTable_user" ;;
  let* stack := with_gmem (allocateUnpageable 1) in
  let* table := with_gmem (allocateFixedUnpageable USERMODE_GDT_ADDRESS GDT_MAX_PAGES) in
  modify (set_entries (replicate (Z.to_nat GDT_MAX_COUNT) zero_entry)) ;;
  let* idt := with_gmem (allocateFixedUnpageable USERMODE_IDT_ADDRESS 1) in
  let* task := with_gmem (allocateFixedUnpageable USERMODE_TASK_ADDRESS 1) in
  let* jk := with_gmem (allocateFixedUnpageable USERMODE_INTJMP_ADDRESS 1) in
  let* ju := with_gmem (allocateUnpageable 1) in
  modify (set_pages stack task (jk, in_page []) (ju, in_page [])) ;;
  __initBasicGDT ;;
  let* g := get in
  let* code := gdtGetEntryOffset (codeRing0 g) GDT_CPL_RING0 in
  let* data := gdtGetEntryOffset (dataRing0 g) GDT_CPL_RING0 in
  modify (λ g, set_regs (Cpu (GDT_MAX_SIZE - 1, table) (idtr (regs g)) (code, data) (tr (regs g))) g) ;;
  __initBasicTask ;;
  modify (λ g, set_tss captured (TSS_user g) g) ;;
  let* g := get in
  let* t := gdtGetEntryOffset (kernelTask g) GDT_CPL_RING0 in
  modify (λ g, set_regs (Cpu (gdtr (regs g)) (idtr (regs g)) (cs_ds (regs g)) (u16 t)) g) ;;
  __generateIntJmpTables dispatchKernelInterrupt ;;
  let* selector := gdtGetEntryOffset (codeRing0 g) GDT_CPL_RING0 in
  modify (set_idt (idt_entry selector <$> seqZ 0 IDT_MAX_COUNT)) ;;
  modify (λ g, set_regs (Cpu (gdtr (regs g)) (IDT_MAX_COUNT * sizeof_IDTEntry - 1, idt) (cs_ds (regs g)) (tr (regs g))) g).
End Gdt.
