(* ===== verification/GdtProofs.v ===== *)
(** * The descriptor tables after initialization

    How the processor reads descriptors, and that the tables, tasks and code that
    gdt.c sets up are read as they are meant. *)

From S2P Require Import Prelude Kernel Thread Gdt.
Open Scope Z_scope.

(** ** Descriptors as the processor reads them *)

Definition base (e : GDTEntry) : Z := address1 e + Z.shiftl (address2 e) 16 + Z.shiftl (address3 e) 24.
Definition size (e : GDTEntry) : Z :=
  let limit := limit1 e + Z.shiftl (limit2 e) 16 in
  if granularity e =? 1 then (limit + 1) * PAGE_SIZE else limit + 1.
Definition offset (e : IDTEntry) : Z := addressLow e + Z.shiftl (addressHigh e) 16.

Lemma land_ff x n : 0 ≤ x → 0 ≤ n → Z.land x (Z.ones n) = x mod 2 ^ n.
Proof. intros. by apply Z.land_ones. Qed.

(** A field of [n] bits from bit [k] on. *)
Lemma shifted_field x k n m : 0 ≤ k → 0 ≤ n → m = Z.shiftl (Z.ones n) k → Z.shiftr (Z.land x m) k = x / 2 ^ k mod 2 ^ n.
Proof.
  intros Hk Hn ->. rewrite Z.shiftr_land, Z.shiftr_shiftl_l, Z.sub_diag, Z.shiftl_0_r by lia.
  by rewrite Z.land_ones, Z.shiftr_div_pow2.
Qed.

Lemma base_set_address address e : is_u32 address → base (gdtEntrySetAddress address e) = address.
Proof.
  intros Hu. unfold base, gdtEntrySetAddress. simpl.
  rewrite (land_low address 16), (shifted_field address 16 8), (shifted_field address 24 8), !Z.shiftl_mul_pow2 by done.
  unfold is_u32 in Hu. change (2 ^ 16) with 65536. change (2 ^ 8) with 256. change (2 ^ 24) with 16777216.
  Z.to_euclidean_division_equations; lia.
Qed.

(** The lengths a descriptor can express. *)
Definition expressible (length : Z) : Prop :=
  0 < length ≤ 0x100000000 ∧ (0x100000 < length → length mod PAGE_SIZE = 0).

Lemma limit_fields l : 0 ≤ l < 0x100000 → Z.land l 0x0000FFFF + Z.shiftl (Z.land (Z.shiftr l 16) 0xF) 16 = l.
Proof.
  intros. rewrite (land_low _ 16), (land_low _ 4), Z.shiftl_mul_pow2, Z.shiftr_div_pow2 by done.
  change (2 ^ 16) with 65536. change (2 ^ 4) with 16. Z.to_euclidean_division_equations; lia.
Qed.

(** The address and the length that are stored in the parts of a descriptor
    are those that the processor puts together from them. A length is refused
    exactly if no descriptor can express it, and the other fields stay. *)
Theorem gdtEntry_roundtrip e address length : is_u32 address →
  match gdtEntrySetLimit length (gdtEntrySetAddress address e) with
  | Some e' => expressible length ∧ base e' = address ∧ size e' = length ∧ access e' = access e ∧
      user e' = user e ∧ reserved e' = reserved e ∧ is32bit e' = is32bit e
  | None => ¬ expressible length
  end.
Proof.
  intros Hu. pose proof (base_set_address address e Hu) as Hb. unfold gdtEntrySetLimit, expressible.
  rewrite (land_low length 12) by done. change (2 ^ 12) with PAGE_SIZE.
  destruct (Z.leb_spec length 0x100000000), (Z.ltb_spec 0 length); simpl; try lia.
  destruct (Z.ltb_spec 0x100000 length).
  - destruct (Z.eqb_spec (length mod PAGE_SIZE) 0); [|lia]. split_and!; try done; try lia. unfold size. simpl.
    unfold PAGE_BITS. rewrite Z.shiftr_div_pow2 by lia. change (2 ^ 12) with PAGE_SIZE.
    unfold PAGE_SIZE in *. rewrite limit_fields; Z.to_euclidean_division_equations; lia.
  - split_and!; try done; [lia|]. unfold size. simpl. rewrite limit_fields; lia.
Qed.

Lemma gdtEntry_roundtrip_witness : is_u32 0xFF813000 ∧
  match gdtEntrySetLimit 0x68 (gdtEntrySetAddress 0xFF813000 zero_entry) with
  | Some e' => expressible 0x68 ∧ base e' = 0xFF813000 ∧ size e' = 0x68 ∧ access e' = access zero_entry ∧
      user e' = user zero_entry ∧ reserved e' = reserved zero_entry ∧ is32bit e' = is32bit zero_entry
  | None => ¬ expressible 0x68
  end.
Proof. split; [done|]. apply (gdtEntry_roundtrip zero_entry 0xFF813000 0x68). done. Defined.

(** ** Filling the table *)

(** What [new_descriptor] stores. *)
Definition descriptor (address length : Z) (a : accessBits) (b : Z) : option GDTEntry :=
  set_bits a 0 0 b <$> gdtEntrySetLimit length (gdtEntrySetAddress address (with_present 1 zero_entry)).

Section Fill.
Context {mem : Type}.
Implicit Types g : gdt mem.

Lemma free_entry_skip ds l i : Forall (λ e, present (access e) ≠ 0) ds → free_entry (ds ++ l) i = free_entry l (i + lenZ ds).
Proof.
  intros Hds. revert i. induction Hds as [|e ds He _ IH]; intros i; cbn [app free_entry length]; [by rewrite Z.add_0_r|].
  rewrite (proj2 (Z.eqb_neq _ _) He), IH. f_equal. lia.
Qed.

Lemma nthZ_middle {A} (l1 : list A) x l2 : nthZ (l1 ++ x :: l2) (lenZ l1) = Some x.
Proof. unfold nthZ. rewrite (proj2 (Z.ltb_ge _ _)), Nat2Z.id by lia. by apply list_lookup_middle. Qed.

Lemma setZ_middle {A} (l1 : list A) x y l2 : setZ (l1 ++ x :: l2) (lenZ l1) y = l1 ++ y :: l2.
Proof.
  unfold setZ. rewrite (proj2 (Z.ltb_ge _ _)), Nat2Z.id by lia.
  rewrite <-(Nat.add_0_r (length l1)) at 1. by rewrite insert_app_r.
Qed.

Definition table_of (ds : list GDTEntry) : list GDTEntry :=
  zero_entry :: ds ++ replicate (Z.to_nat GDT_MAX_COUNT - 1 - length ds) zero_entry.

Lemma wp_modify_entry g ds d d' f k (Q : unit → gdt mem → Prop) :
  f d = Some d' → Q tt (set_entries (zero_entry :: ds ++ d' :: k) g) →
  wp (modify_entry (1 + lenZ ds) f) (set_entries (zero_entry :: ds ++ d :: k) g) Q.
Proof.
  intros Hf HQ. unfold modify_entry, table_entries. wp_step. wp_step. wp_step. simpl. wp_step. wp_step.
  pose proof (nthZ_middle (zero_entry :: ds) d k) as Hn. pose proof (setZ_middle (zero_entry :: ds) d d' k) as Hs.
  cbn [length] in Hn, Hs. rewrite Nat2Z.inj_succ, <-Z.add_1_l in Hn, Hs.
  eapply wp_deref; [exact Hn|]. rewrite Hf. wp_step. simpl in Hs. by rewrite Hs.
Qed.

Lemma wp_new_descriptor g ds d address len a b (Q : Z → gdt mem → Prop) :
  gdtTableEntries g = Some (table_of ds) → Forall (λ e, present (access e) ≠ 0) ds →
  (length ds < Z.to_nat GDT_MAX_COUNT - 1)%nat → descriptor address len a b = Some d →
  Q (1 + lenZ ds) (set_entries (table_of (ds ++ [d])) g) → wp (new_descriptor address len a b) g Q.
Proof.
  intros Hg Hds Hlen Hd HQ. unfold descriptor in Hd. apply fmap_Some in Hd as (d2 & Hd2 & ->).
  unfold table_of in *. replace (Z.to_nat GDT_MAX_COUNT - 1 - length ds)%nat
    with (S (Z.to_nat GDT_MAX_COUNT - 1 - length (ds ++ [set_bits a 0 0 b d2]))) in Hg by (rewrite length_app; cbn [length]; lia).
  set (n := (Z.to_nat GDT_MAX_COUNT - 1 - length (ds ++ [set_bits a 0 0 b d2]))%nat) in *. clearbody n. cbn [replicate] in Hg.
  set (k := replicate n zero_entry) in *. clearbody k.
  unfold new_descriptor, gdtGetFreeEntry, table_entries. wp_step. wp_step. wp_step. wp_step. rewrite Hg. wp_step.
  change (drop 1 (zero_entry :: ?x)) with x. rewrite (free_entry_skip ds) by done. cbn [free_entry].
  change (present (access zero_entry) =? 0) with true. cbv iota. wp_step.
  pose proof (nthZ_middle (zero_entry :: ds) zero_entry k) as Hn.
  pose proof (setZ_middle (zero_entry :: ds) zero_entry (with_present 1 zero_entry) k) as Hs.
  cbn [length] in Hn, Hs. rewrite Nat2Z.inj_succ, <-Z.add_1_l in Hn, Hs.
  eapply wp_deref; [exact Hn|]. wp_step. wp_step. wp_step. simpl in Hs. rewrite Hs. wp_step.
  eapply wp_modify_entry; [done|]. wp_step. eapply wp_modify_entry; [exact Hd2|]. wp_step.
  eapply wp_modify_entry; [done|]. wp_step. rewrite <-app_assoc in HQ. exact HQ.
Qed.

Lemma wp_entry_offset g l i ring (Q : Z → gdt mem → Prop) : gdtTableEntries g = Some l →
  0 ≤ i < GDT_MAX_COUNT → Q (Z.lor (8 * i) ring) g → wp (gdtGetEntryOffset i ring) g Q.
Proof.
  intros Hg Hi HQ. unfold gdtGetEntryOffset, table_entries. wp_step. wp_step. wp_step. rewrite Hg. wp_step.
  wp_steps; [lia| |done]. unfold sizeof_GDTEntry. rewrite (land_low _ 3) by done. change (2 ^ 3) with 8.
  Z.to_euclidean_division_equations; lia.
Qed.
End Fill.

(** ** Initialization *)

(** What [gdtInit] needs of paging.c: pages at other addresses than 0, and at the
    address that is asked for. [fp_ok] says that enough of them are left. *)
Class FixedPagesLaws (mem : Type) `{FixedPages mem} := {
  fp_ok : mem → Prop;
  allocateUnpageable_spec m n : fp_ok m →
    wp (allocateUnpageable n) m (λ a m', a ≠ 0 ∧ is_u32 a ∧ fp_ok m');
  allocateFixedUnpageable_spec m a n : fp_ok m →
    wp (allocateFixedUnpageable a n) m (λ a' m', a' = a ∧ fp_ok m');
}.

(** A flat segment of all addresses, and a task of [sizeof_taskContext] bytes. *)
Definition flat_segment (executable ring : Z) (e : GDTEntry) : Prop :=
  base e = 0 ∧ size e = 2 ^ 32 ∧ is32bit e = 1 ∧ access e = segment_bits executable ring.
Definition task_segment (address : Z) (e : GDTEntry) : Prop :=
  base e = address ∧ size e = sizeof_taskContext ∧ access e = task_bits.

(** Entry [i] of the interrupt table goes to entry [i] of the code, and only the
    system call may be issued by programs. *)
Definition interrupt_gate (selector i : Z) (e : IDTEntry) : Prop :=
  offset e = USERMODE_INTJMP_ADDRESS + INTJMP_ENTRY_SIZE * i ∧ csSelector e = selector ∧
  i_type e = INT_TYPE_INT32 ∧ i_present e = 1 ∧ dpl e = (if i =? 0x80 then GDT_CPL_RING3 else GDT_CPL_RING0).

(** The table with the segments and the tasks, and nothing else. *)
Definition gdt_ready (table : list GDTEntry) : Prop :=
  lenZ table = GDT_MAX_COUNT ∧
  ∃ c0 d0 c3 d3 k u, take 7 table = [zero_entry; c0; d0; c3; d3; k; u] ∧
    flat_segment 1 GDT_CPL_RING0 c0 ∧ flat_segment 0 GDT_CPL_RING0 d0 ∧
    flat_segment 1 GDT_CPL_RING3 c3 ∧ flat_segment 0 GDT_CPL_RING3 d3 ∧
    task_segment USERMODE_TASK_ADDRESS k ∧ task_segment (USERMODE_TASK_ADDRESS + sizeof_taskContext) u ∧
    Forall (λ e, e = zero_entry) (drop 7 table).

Lemma seg_descriptor x r : ∃ d, descriptor 0 0x100000000 (segment_bits x r) 1 = Some d ∧ flat_segment x r d.
Proof. eexists. split; [reflexivity|]. done. Qed.

Lemma task_descriptor a : a ∈ [USERMODE_TASK_ADDRESS; USERMODE_TASK_ADDRESS + sizeof_taskContext] →
  ∃ d, descriptor a sizeof_taskContext task_bits 0 = Some d ∧ task_segment a d.
Proof. rewrite !elem_of_cons, elem_of_nil. intros [->|[->|[]]]; (eexists; split; [reflexivity|done]). Qed.

Lemma gate_decodes i : 0 ≤ i < IDT_MAX_COUNT → interrupt_gate 8 i (idt_entry 8 i).
Proof.
  intros Hi. unfold interrupt_gate, idt_entry, offset. simpl.
  rewrite (u32_small (_ + _)) by (unfold is_u32, USERMODE_INTJMP_ADDRESS, INTJMP_ENTRY_SIZE, IDT_MAX_COUNT in *; lia).
  rewrite (land_low _ 16), Z.shiftl_mul_pow2, Z.shiftr_div_pow2 by done. change (2 ^ 16) with 65536.
  split; [Z.to_euclidean_division_equations; lia|done].
Qed.

Lemma length_kernel_code b d : length (kernel_code b d) = 2220%nat.
Proof. unfold kernel_code. rewrite length_app. vm_compute. done. Qed.

Lemma length_user_code s : length (user_code s) = 2051%nat.
Proof. unfold user_code. rewrite length_app. vm_compute. done. Qed.

Section Init.
Context {mem : Type} `{FixedPagesLaws mem}.
Implicit Types g : gdt mem.

Lemma wp_initBasicGDT g (Q : unit → gdt mem → Prop) : gdtTableEntries g = Some (table_of []) →
  (∀ c0 d0 c3 d3, flat_segment 1 GDT_CPL_RING0 c0 → flat_segment 0 GDT_CPL_RING0 d0 →
     flat_segment 1 GDT_CPL_RING3 c3 → flat_segment 0 GDT_CPL_RING3 d3 →
     Q tt (set_segments 1 2 3 4 (set_entries (table_of [c0; d0; c3; d3]) g))) →
  wp __initBasicGDT g Q.
Proof.
  intros Hg HQ. unfold __initBasicGDT.
  destruct (seg_descriptor 1 GDT_CPL_RING0) as (c0 & E1 & F1), (seg_descriptor 0 GDT_CPL_RING0) as (d0 & E2 & F2),
    (seg_descriptor 1 GDT_CPL_RING3) as (c3 & E3 & F3), (seg_descriptor 0 GDT_CPL_RING3) as (d3 & E4 & F4).
  pose proof (HQ _ _ _ _ F1 F2 F3 F4) as HQ'.
  assert (∀ x r e, flat_segment x r e → present (access e) ≠ 0) as Hp by (intros x r e (_ & _ & _ & ->); done).
  assert (4 < Z.to_nat GDT_MAX_COUNT - 1)%nat as Hn by (vm_compute; lia).
  wp_step. eapply wp_new_descriptor; [exact Hg|done|cbn [length]; lia|exact E1|].
  wp_step. eapply wp_new_descriptor; [done|repeat constructor; eauto|cbn [length app]; lia|exact E2|].
  wp_step. eapply wp_new_descriptor; [done|repeat constructor; eauto|cbn [length app]; lia|exact E3|].
  wp_step. eapply wp_new_descriptor; [done|repeat constructor; eauto|cbn [length app]; lia|exact E4|].
  wp_step. exact HQ'.
Qed.

Lemma wp_initBasicTask g ds (Q : unit → gdt mem → Prop) : gdtTableEntries g = Some (table_of ds) →
  length ds = 4%nat → Forall (λ e, present (access e) ≠ 0) ds → taskTable g = USERMODE_TASK_ADDRESS →
  (∀ k u, task_segment USERMODE_TASK_ADDRESS k → task_segment (USERMODE_TASK_ADDRESS + sizeof_taskContext) u →
     Q tt (set_tss blank_task blank_task (set_tasks 5 6 (set_entries (table_of (ds ++ [k; u])) g)))) →
  wp __initBasicTask g Q.
Proof.
  intros Hg Hl Hp Ht HQ. unfold __initBasicTask.
  destruct (task_descriptor USERMODE_TASK_ADDRESS) as (k & E1 & F1); [set_solver|].
  destruct (task_descriptor (USERMODE_TASK_ADDRESS + sizeof_taskContext)) as (u & E2 & F2); [set_solver|].
  pose proof (HQ _ _ F1 F2) as HQ'.
  assert (6 < Z.to_nat GDT_MAX_COUNT - 1)%nat as Hn by (vm_compute; lia).
  assert (present (access k) ≠ 0) as Hk by (destruct F1 as (_ & _ & ->); done).
  wp_step. wp_step. wp_step. wp_step; [by rewrite Ht|]. rewrite Ht.
  wp_step. eapply wp_new_descriptor; [exact Hg|done|lia|exact E1|]. rewrite Hl.
  wp_step. eapply wp_new_descriptor; [done|by apply Forall_app_2; [|repeat constructor]| |exact E2|].
  { rewrite length_app. cbn [length]. lia. }
  rewrite length_app, Hl. wp_step. wp_step. wp_step. wp_step. wp_step; [done|].
  rewrite <-app_assoc in *. exact HQ'.
Qed.

Lemma wp_generate g l dispatch jk ju (Q : unit → gdt mem → Prop) : gdtTableEntries g = Some l → kernelTask g = 5 →
  intJmpTable_kernel g = (jk, in_page []) → intJmpTable_user g = (ju, in_page []) → jk ≠ 0 → ju ≠ 0 →
  Q tt (set_pages (kernelStack g) (taskTable g) (jk, in_page (kernel_code jk dispatch)) (ju, in_page (user_code 40)) g) →
  wp (__generateIntJmpTables dispatch) g Q.
Proof.
  intros Hg Ht Hk Hu Hjk Hju HQ. unfold __generateIntJmpTables. wp_step. wp_step. rewrite Hk, Hu, Ht. cbn [fst].
  wp_step. wp_step; [by rewrite !(proj2 (Z.eqb_neq _ _))|].
  wp_step. wp_step; [done|]. wp_step. wp_step; [done|].
  wp_step. wp_step; [by rewrite length_kernel_code|].
  wp_step. eapply wp_entry_offset; [exact Hg|done|]. change (Z.lor (8 * 5) GDT_CPL_RING0) with 40.
  wp_step. wp_step; [by rewrite length_user_code|]. wp_step. exact HQ.
Qed.
End Init.

Lemma table_of_nil : replicate (Z.to_nat GDT_MAX_COUNT) zero_entry = table_of [].
Proof. unfold table_of. cbn [length app]. rewrite Nat.sub_0_r. change (zero_entry :: replicate ?n ?x) with (replicate (S n) x). f_equal. Qed.

Lemma length_table_of ds : (length ds < Z.to_nat GDT_MAX_COUNT)%nat → lenZ (table_of ds) = GDT_MAX_COUNT.
Proof.
  intros. unfold table_of. cbn [length]. rewrite length_app, length_replicate.
  assert (GDT_MAX_COUNT = Z.of_nat (Z.to_nat GDT_MAX_COUNT)) as E by done. lia.
Qed.

Section Theorem_.
#[local] Arguments replicate : simpl never.
#[local] Arguments Z.to_nat : simpl never.
#[local] Opaque table_of in_page seqZ.
Context {mem : Type} `{FixedPagesLaws mem}.
Implicit Types g : gdt mem.

(** The state before [gdtInit]: null pointers. *)
Definition gdt_fresh g : Prop :=
  gdtTableEntries g = None ∧ idtTableEntries g = None ∧ taskTable g = 0 ∧
  (intJmpTable_kernel g).1 = 0 ∧ (intJmpTable_user g).1 = 0.

(** C15: [gdtInit] ends, and then: the descriptor table holds the flat segments of
    both rings and the two tasks, and no other descriptor; every interrupt goes to
    its own entry of the generated code in the segment of the kernel, and programs
    may issue the system call only; the registers of the processor hold the two
    tables, the segments of the kernel and its task, whose registers are saved. *)
Theorem gdtInit_correct g dispatch captured : gdt_fresh g → fp_ok (gmem g) →
  wp (gdtInit dispatch captured) g (λ _ g',
    (∃ table, gdtTableEntries g' = Some table ∧ gdt_ready table) ∧
    (∃ idt, idtTableEntries g' = Some idt ∧ lenZ idt = IDT_MAX_COUNT ∧
       ∀ i, 0 ≤ i < IDT_MAX_COUNT → ∃ e, nthZ idt i = Some e ∧ interrupt_gate 8 i e) ∧
    regs g' = Cpu (GDT_MAX_SIZE - 1, USERMODE_GDT_ADDRESS) (IDT_MAX_COUNT * sizeof_IDTEntry - 1, USERMODE_IDT_ADDRESS)
      (8 * codeRing0 g', 8 * dataRing0 g') (8 * kernelTask g') ∧
    (codeRing0 g', dataRing0 g', codeRing3 g', dataRing3 g', kernelTask g', usermodeTask g') = (1, 2, 3, 4, 5, 6) ∧
    TSS_kernel g' = captured ∧ TSS_user g' = blank_task ∧ kernelStack g' ≠ 0 ∧
    intJmpTable_kernel g' = (USERMODE_INTJMP_ADDRESS, in_page (kernel_code USERMODE_INTJMP_ADDRESS dispatch)) ∧
    (intJmpTable_user g').2 = in_page (user_code (8 * kernelTask g'))).
Proof.
  intros (H1 & H2 & H3 & H4 & H5) Hm. unfold gdtInit.
  wp_step. wp_step. rewrite H1, H2, H3, H4, H5.
  do 4 (wp_step; wp_step; [done|]).
  wp_step. apply wp_zoom. eapply wp_mono; [by apply allocateUnpageable_spec|]. intros stack m1 (Hs & _ & Hm1). simpl.
  wp_step. apply wp_zoom. eapply wp_mono; [by apply allocateFixedUnpageable_spec|]. intros table m2 (-> & Hm2). simpl.
  wp_step. wp_step.
  wp_step. apply wp_zoom. eapply wp_mono; [by apply allocateFixedUnpageable_spec|]. intros idt m3 (-> & Hm3). simpl.
  wp_step. apply wp_zoom. eapply wp_mono; [by apply allocateFixedUnpageable_spec|]. intros task m4 (-> & Hm4). simpl.
  wp_step. apply wp_zoom. eapply wp_mono; [by apply allocateFixedUnpageable_spec|]. intros jk m5 (-> & Hm5). simpl.
  wp_step. apply wp_zoom. eapply wp_mono; [by apply allocateUnpageable_spec|]. intros ju m6 (Hju & _ & Hm6). simpl.
  wp_step. wp_step. wp_step. rewrite table_of_nil. apply wp_initBasicGDT; [done|]. intros c0 d0 c3 d3 F1 F2 F3 F4.
  wp_step. wp_step. wp_step. eapply wp_entry_offset; [done|done|]. wp_step. eapply wp_entry_offset; [done|done|].
  wp_step. wp_step. wp_step. eapply (wp_initBasicTask _ [c0; d0; c3; d3]); [done|done| |done|].
  { repeat constructor; by match goal with H : flat_segment _ _ ?e |- present (access ?e) ≠ 0 => destruct H as (_ & _ & _ & ->) end. }
  intros k u F5 F6. cbn [app].
  wp_step. wp_step. wp_step. wp_step. wp_step. eapply wp_entry_offset; [done|done|].
  wp_step. wp_step. wp_step. eapply wp_generate; [done..|].
  wp_step. eapply wp_entry_offset; [done|done|].
  cbv beta. change (idt_entry (Z.lor _ _)) with (idt_entry 8). remember (idt_entry 8 <$> seqZ 0 IDT_MAX_COUNT) as idt eqn:Eidt.
  wp_step. wp_step. wp_step. simpl.
  split_and!; try done.
  - eexists. split; [done|]. split; [by apply length_table_of; vm_compute; lia|].
    exists c0, d0, c3, d3, k, u. split_and!; try done.
    with_strategy transparent [table_of] unfold table_of. cbn [length app drop]. by apply Forall_replicate.
  - eexists. split; [done|]. rewrite Eidt. split; [by rewrite length_fmap, length_seqZ|]. intros i Hi. exists (idt_entry 8 i). split; [|by apply gate_decodes].
    unfold nthZ. rewrite (proj2 (Z.ltb_ge _ _)) by lia. rewrite list_lookup_fmap.
    rewrite lookup_seqZ_lt by (unfold IDT_MAX_COUNT in *; lia). simpl. do 2 f_equal. lia.
Qed.
End Theorem_.

(** Pages for the witness: the address that is asked for, or 0x200000. *)
#[export] Instance sample_pages : FixedPages unit := {|
  allocateUnpageable _ := mret 0x200000;
  allocateFixedUnpageable a _ := mret a;
|}.
#[export] Instance sample_pages_laws : FixedPagesLaws unit.
Proof. refine {| fp_ok _ := True |}; by intros. Defined.

Definition sample_gdt : gdt unit :=
  Gdt 0 None None 0 (0, []) (0, []) blank_task blank_task 0 0 0 0 0 0 (Cpu (0, 0) (0, 0) (0, 0) 0) tt.

Lemma gdtInit_correct_witness : gdt_fresh sample_gdt ∧
  wp (gdtInit 0x100000 blank_task) sample_gdt (λ _ g', usermodeTask g' = 6).
Proof.
  split; [done|]. eapply wp_mono; [apply (gdtInit_correct sample_gdt 0x100000 blank_task); done|].
  intros [] g' (_ & _ & _ & E & _). by simplify_eq.
Defined.
