(* ===== verification/InterruptEntry.v ===== *)
(** * The code of the interrupt entries, executed

    hardware/gdt.c writes machine code: an entry per interrupt, and a dispatcher
    that saves the registers in a [struct taskContext] on the stack, calls
    [__dispatchKernelInterrupt] and returns with [iret]. This file runs that code:
    [decode] and [exec] are the instructions it consists of, as the manual of the
    processor gives them, over 32-bit words of memory at aligned addresses; an
    instruction or an access outside of this has no result. *)

From S2P Require Import Prelude Kernel Thread Gdt GdtProofs.
Open Scope Z_scope.

(** ** The processor *)

(** General registers by their number in an instruction: eax, ecx, edx, ebx, esp,
    ebp, esi, edi; segment registers: es, cs, ss, ds, fs, gs. *)
Record x86 := X86 {
  x_regs : list Z;
  x_segs : list Z;
  x_cr3 : Z;
  x_eip : Z;
  x_eflags : Z;
  x_mem : Z → Z;
}.

Abbreviation EAX := 0%nat.
Abbreviation ESP := 4%nat.

(** A memory operand is always [esp + disp]. The flags that the arithmetic sets are
    never read, and are left out. *)
Inductive instr :=
  | AddImm (r : nat) (imm : Z)
  | SubImm (r : nat) (imm : Z)
  | ShrImm (r : nat) (n : Z)
  | Store (disp : Z) (r : nat)
  | Load (r : nat) (disp : Z)
  | Store16 (disp : Z) (r : nat)
  | Load16 (r : nat) (disp : Z)
  | Lea (r : nat) (disp : Z)
  | StoreSeg (disp : Z) (s : nat)
  | MovCr3 (r : nat)
  | Push (r : nat)
  | PushMem (disp : Z)
  | Pop (r : nat)
  | Call (rel : Z)
  | Iret.

(** A number of four bytes: an operand, and the distance of a jump. *)
Definition imm32 (b0 b1 b2 b3 : Z) : Z := b0 + 256 * (b1 + 256 * (b2 + 256 * b3)).
Definition rel32 (b0 b1 b2 b3 : Z) : Z := imm32 b0 b1 b2 b3.

(** The operands [reg, [esp + disp8]] and [reg, [esp + disp32]]. *)
Definition operands (bs : list Z) : option (nat * Z * nat) :=
  match bs with
  | modrm :: 0x24 :: rest =>
      let reg := Z.to_nat (Z.land (Z.shiftr modrm 3) 7) in
      if Z.land modrm 0xC7 =? 0x44 then
        match rest with d :: _ => if d <? 0x80 then Some (reg, d, 3%nat) else None | _ => None end
      else if Z.land modrm 0xC7 =? 0x84 then
        match rest with b0 :: b1 :: b2 :: b3 :: _ => Some (reg, imm32 b0 b1 b2 b3, 6%nat) | _ => None end
      else None
  | _ => None
  end.

(** The instruction at the front of the bytes, and its length. *)
Definition decode (bs : list Z) : option (instr * nat) :=
  let mem n (f : nat → Z → instr) bs := '(r, d, k) ← operands bs; Some (f r d, (n + k)%nat) in
  match bs with
  | 0x83 :: 0xEC :: i :: _ => if i <? 0x80 then Some (SubImm ESP i, 3%nat) else None
  | 0x83 :: 0xC4 :: i :: _ => if i <? 0x80 then Some (AddImm ESP i, 3%nat) else None
  | 0x2D :: b0 :: b1 :: b2 :: b3 :: _ => Some (SubImm EAX (imm32 b0 b1 b2 b3), 5%nat)
  | 0xC1 :: 0xE8 :: n :: _ => Some (ShrImm EAX n, 3%nat)
  | 0xE8 :: b0 :: b1 :: b2 :: b3 :: _ => Some (Call (rel32 b0 b1 b2 b3), 5%nat)
  | 0x0F :: 0x20 :: 0xD8 :: _ => Some (MovCr3 EAX, 3%nat)
  | 0x50 :: _ => Some (Push EAX, 1%nat)
  | 0x54 :: _ => Some (Push ESP, 1%nat)
  | 0x58 :: _ => Some (Pop EAX, 1%nat)
  | 0xCF :: _ => Some (Iret, 1%nat)
  | 0x66 :: 0x89 :: bs => mem 2%nat (λ r d, Store16 d r) bs
  | 0x66 :: 0x8B :: bs => mem 2%nat (λ r d, Load16 r d) bs
  | 0x89 :: bs => mem 1%nat (λ r d, Store d r) bs
  | 0x8B :: bs => mem 1%nat (λ r d, Load r d) bs
  | 0x8C :: bs => mem 1%nat (λ s d, StoreSeg d s) bs
  | 0x8D :: bs => mem 1%nat (λ r d, Lea r d) bs
  | 0xFF :: bs => '(r, d, k) ← operands bs; if (r =? 6)%nat then Some (PushMem d, S k) else None
  | _ => None
  end.

(** The low 16 bits of a word replaced. *)
Definition low16 (old v : Z) : Z := (old / 65536) * 65536 + v mod 65536.

Definition upd (m : Z → Z) (a v : Z) : Z → Z := λ x, if x =? a then v else m x.

Definition reg (s : x86) (r : nat) : option Z := x_regs s !! r.
Definition with_reg (r : nat) (v : Z) (s : x86) : x86 :=
  X86 (<[r := v]> (x_regs s)) (x_segs s) (x_cr3 s) (x_eip s) (x_eflags s) (x_mem s).
Definition with_mem (m : Z → Z) (s : x86) : x86 :=
  X86 (x_regs s) (x_segs s) (x_cr3 s) (x_eip s) (x_eflags s) m.
Definition with_eip (e : Z) (s : x86) : x86 :=
  X86 (x_regs s) (x_segs s) (x_cr3 s) e (x_eflags s) (x_mem s).

Definition aligned (a : Z) : option Z := if a mod 4 =? 0 then Some a else None.
Definition operand_address (s : x86) (disp : Z) : option Z := sp ← reg s ESP; aligned (u32 (sp + disp)).
Definition load_word (s : x86) (disp : Z) : option Z := a ← operand_address s disp; Some (x_mem s a).
Definition store_word (s : x86) (disp v : Z) : option x86 :=
  a ← operand_address s disp; Some (with_mem (upd (x_mem s) a v) s).
Definition push (v : Z) (s : x86) : option x86 :=
  sp ← reg s ESP; store_word (with_reg ESP (u32 (sp - 4)) s) 0 v.
Definition pop (s : x86) : option (Z * x86) :=
  sp ← reg s ESP; v ← load_word s 0; Some (v, with_reg ESP (u32 (sp + 4)) s).

(** The effect of an instruction; [x_eip] is already behind it. *)
Definition exec (i : instr) (s : x86) : option x86 :=
  match i with
  | AddImm r imm => v ← reg s r; Some (with_reg r (u32 (v + imm)) s)
  | SubImm r imm => v ← reg s r; Some (with_reg r (u32 (v - imm)) s)
  | ShrImm r n => v ← reg s r; Some (with_reg r (Z.shiftr v n) s)
  | Store disp r => v ← reg s r; store_word s disp v
  | Load r disp => v ← load_word s disp; Some (with_reg r v s)
  | Store16 disp r => v ← reg s r; old ← load_word s disp; store_word s disp (low16 old v)
  | Load16 r disp => old ← reg s r; v ← load_word s disp; Some (with_reg r (low16 old v) s)
  | Lea r disp => sp ← reg s ESP; Some (with_reg r (u32 (sp + disp)) s)
  | StoreSeg disp g => v ← x_segs s !! g; old ← load_word s disp; store_word s disp (low16 old v)
  | MovCr3 r => Some (with_reg r (x_cr3 s) s)
  | Push r => v ← reg s r; push v s
  | PushMem disp => v ← load_word s disp; push v s
  | Pop r => '(v, s) ← pop s; Some (with_reg r v s)
  | Call rel => s' ← push (x_eip s) s; Some (with_eip (u32 (x_eip s + rel)) s')
  | Iret =>
      '(e, s) ← pop s; '(c, s) ← pop s; '(f, s) ← pop s;
      Some (X86 (x_regs s) (<[1%nat := c mod 65536]> (x_segs s)) (x_cr3 s) e f (x_mem s))
  end.

(** One step of the code at [base]; [steps n] are [n] of them. *)
Definition step (base : Z) (code : list Z) (s : x86) : option x86 :=
  if x_eip s <? base then None
  else '(i, n) ← decode (drop (Z.to_nat (x_eip s - base)) code); exec i (with_eip (x_eip s + Z.of_nat n) s).

Fixpoint steps (n : nat) (base : Z) (code : list Z) (s : x86) : option x86 :=
  match n with
  | O => Some s
  | S n => s' ← step base code s; steps n base code s'
  end.

(** ** Execution on a region of the stack

    The code only touches a region of the stack. [frame] is a state in which this
    region is a list of words and esp an index of it, so that [fexec] computes;
    [sim] relates it to a state of the processor. *)

Definition sub32 (a b : Z) : Z := u32 (a - b).
Definition add32 (a b : Z) : Z := u32 (a + b).
Definition shr (a n : Z) : Z := Z.shiftr a n.
Definition seg16 (a : Z) : Z := a mod 65536.
(** The address of word [k] of the region at [L]. *)
Definition word_at (L : Z) (k : nat) : Z := L + 4 * Z.of_nat k.

Record frame := Frame {
  f_regs : list Z;      (* the entry of esp is not used *)
  f_segs : list Z;
  f_eip : Z;
  f_eflags : Z;
  f_top : nat;
  f_words : list Z;
}.

Section Frame.
Context (L cr3 : Z).

Definition f_with_reg (r : nat) (v : Z) (f : frame) : frame :=
  Frame (<[r := v]> (f_regs f)) (f_segs f) (f_eip f) (f_eflags f) (f_top f) (f_words f).
Definition f_with_top (k : nat) (f : frame) : frame :=
  Frame (f_regs f) (f_segs f) (f_eip f) (f_eflags f) k (f_words f).
Definition f_with_words (ws : list Z) (f : frame) : frame :=
  Frame (f_regs f) (f_segs f) (f_eip f) (f_eflags f) (f_top f) ws.
Definition f_with_eip (e : Z) (f : frame) : frame :=
  Frame (f_regs f) (f_segs f) e (f_eflags f) (f_top f) (f_words f).

Definition f_reg (f : frame) (r : nat) : option Z :=
  if (r =? 4)%nat then Some (word_at L (f_top f)) else f_regs f !! r.
Definition words_of (disp : Z) : option nat :=
  if (0 <=? disp) && (disp mod 4 =? 0) then Some (Z.to_nat (disp / 4)) else None.
Definition f_load (f : frame) (disp : Z) : option Z := k ← words_of disp; f_words f !! (f_top f + k)%nat.
Definition f_store (f : frame) (disp v : Z) : option frame :=
  k ← words_of disp;
  if ((f_top f + k) <? length (f_words f))%nat then Some (f_with_words (<[(f_top f + k)%nat := v]> (f_words f)) f) else None.
Definition f_push (v : Z) (f : frame) : option frame :=
  match f_top f with S k => f_store (f_with_top k f) 0 v | O => None end.
Definition f_pop (f : frame) : option (Z * frame) :=
  v ← f_words f !! f_top f; Some (v, f_with_top (S (f_top f)) f).
Definition f_set (r : nat) (v : Z) (f : frame) : option frame :=
  if (r =? 4)%nat then None else Some (f_with_reg r v f).

Definition fexec (i : instr) (f : frame) : option frame :=
  match i with
  | AddImm r imm =>
      if (r =? 4)%nat then
        k ← words_of imm; if ((f_top f + k) <=? length (f_words f))%nat then Some (f_with_top (f_top f + k) f) else None
      else None
  | SubImm r imm =>
      if (r =? 4)%nat then
        k ← words_of imm; if (k <=? f_top f)%nat then Some (f_with_top (f_top f - k) f) else None
      else v ← f_regs f !! r; f_set r (sub32 v imm) f
  | ShrImm r n => v ← f_reg f r; f_set r (shr v n) f
  | Store disp r => v ← f_reg f r; f_store f disp v
  | Load r disp => v ← f_load f disp; f_set r v f
  | Store16 disp r => v ← f_reg f r; old ← f_load f disp; f_store f disp (low16 old v)
  | Load16 r disp => old ← f_reg f r; v ← f_load f disp; f_set r (low16 old v) f
  | Lea r disp => f_set r (add32 (word_at L (f_top f)) disp) f
  | StoreSeg disp g => v ← f_segs f !! g; old ← f_load f disp; f_store f disp (low16 old v)
  | MovCr3 r => f_set r cr3 f
  | Push r => v ← f_reg f r; f_push v f
  | PushMem disp => v ← f_load f disp; f_push v f
  | Pop r => '(v, f) ← f_pop f; f_set r v f
  | Call rel => f' ← f_push (f_eip f) f; Some (f_with_eip (add32 (f_eip f) rel) f')
  | Iret =>
      '(e, f) ← f_pop f; '(c, f) ← f_pop f; '(fl, f) ← f_pop f;
      Some (Frame (f_regs f) (<[1%nat := seg16 c]> (f_segs f)) e fl (f_top f) (f_words f))
  end.

Definition fstep (base : Z) (code : list Z) (f : frame) : option frame :=
  if f_eip f <? base then None
  else '(i, n) ← decode (drop (Z.to_nat (f_eip f - base)) code); fexec i (f_with_eip (f_eip f + Z.of_nat n) f).

Fixpoint fsteps (n : nat) (base : Z) (code : list Z) (f : frame) : option frame :=
  match n with
  | O => Some f
  | S n => f' ← fstep base code f; fsteps n base code f'
  end.

(** The region is aligned and does not reach the end of the addresses. *)
Definition region_ok (n : nat) : Prop := 0 ≤ L ∧ L mod 4 = 0 ∧ L + 4 * Z.of_nat n < 0xFFFFFFFC.

(** [m0] is the memory outside of the region. *)
Definition sim (m0 : Z → Z) (n : nat) (f : frame) (s : x86) : Prop :=
  x_regs s = <[ESP := word_at L (f_top f)]> (f_regs f) ∧ length (f_regs f) = 8%nat ∧
  x_segs s = f_segs f ∧ x_cr3 s = cr3 ∧ x_eip s = f_eip f ∧ x_eflags s = f_eflags f ∧
  length (f_words f) = n ∧ (f_top f ≤ n)%nat ∧
  (∀ k w, f_words f !! k = Some w → x_mem s (word_at L k) = w) ∧
  (∀ a, (∀ k, (k < n)%nat → a ≠ word_at L k) → x_mem s a = m0 a).

Context (m0 : Z → Z) (n : nat) (Hreg : region_ok n).

Lemma sim_reg f s r v : sim m0 n f s → f_reg f r = Some v → reg s r = Some v.
Proof.
  intros (Hr & H8 & _). unfold f_reg, reg. rewrite Hr. destruct (Nat.eqb_spec r 4) as [->|].
  - intros [= <-]. apply list_lookup_insert_eq. lia.
  - by rewrite list_lookup_insert_ne.
Qed.

Lemma sim_esp f s : sim m0 n f s → reg s ESP = Some (word_at L (f_top f)).
Proof. intros Hs. by eapply sim_reg. Qed.

Lemma sim_set f f' s r v : sim m0 n f s → f_set r v f = Some f' → sim m0 n f' (with_reg r v s).
Proof.
  intros (Hr & H8 & Hs) Hf. unfold f_set in Hf. destruct (Nat.eqb_spec r 4); [done|]. simplify_eq.
  split; [|split; [|exact Hs]].
  - simpl. rewrite Hr. by apply list_insert_insert_ne.
  - simpl. by rewrite length_insert.
Qed.

Lemma sim_top f s k e : sim m0 n f s → (k ≤ n)%nat → e = word_at L k → sim m0 n (f_with_top k f) (with_reg ESP e s).
Proof.
  intros (Hr & H8 & Hs & Hc & He & Hf & Hl & Ht & Hw & Ho) Hk ->. unfold sim. simpl. rewrite Hr, list_insert_insert_eq. done.
Qed.

Lemma sim_eip f s e : sim m0 n f s → sim m0 n (f_with_eip e f) (with_eip e s).
Proof. intros (Hr & H8 & Hs & Hc & He & Hf & Hl & Ht & Hw & Ho). unfold sim. simpl. done. Qed.

Lemma sim_operand f s disp k : sim m0 n f s → words_of disp = Some k → (f_top f + k < n)%nat →
  operand_address s disp = Some (word_at L (f_top f + k)).
Proof.
  intros Hs Hd Hk. unfold operand_address. rewrite (sim_esp f s Hs). simpl.
  unfold words_of in Hd. case_match eqn:E; [|done]. apply andb_true_iff in E as [E1 E2]. simplify_eq.
  destruct Hreg as (H0 & H1 & H2).
  assert (word_at L (f_top f) + disp = word_at L (f_top f + Z.to_nat (disp / 4))) as ->.
  { unfold word_at. Z.to_euclidean_division_equations. lia. }
  rewrite u32_small by (unfold is_u32, word_at; lia). unfold aligned, word_at.
  rewrite (proj2 (Z.eqb_eq _ 0)); [done|]. Z.to_euclidean_division_equations. lia.
Qed.

Lemma sim_load f s disp v : sim m0 n f s → f_load f disp = Some v → load_word s disp = Some v.
Proof.
  intros Hs Hf. unfold f_load in Hf. destruct (words_of disp) as [k|] eqn:Hd; [|done]. simpl in Hf.
  pose proof Hs as (_ & _ & _ & _ & _ & _ & Hl & _ & Hw & _).
  unfold load_word. erewrite sim_operand; [|done|done|].
  - simpl. f_equal. by apply Hw.
  - apply lookup_lt_Some in Hf. lia.
Qed.

Lemma word_at_inj j k : word_at L j = word_at L k → j = k.
Proof. unfold word_at. lia. Qed.

Lemma sim_store f f' s disp v : sim m0 n f s → f_store f disp v = Some f' →
  ∃ s', store_word s disp v = Some s' ∧ sim m0 n f' s'.
Proof.
  intros Hs Hf. unfold f_store in Hf. destruct (words_of disp) as [k|] eqn:Hd; [|done]. simpl in Hf.
  case_match eqn:E; [|done]. apply Nat.ltb_lt in E. simplify_eq.
  pose proof Hs as (Hr & H8 & Hg & Hc & He & Hfl & Hl & Ht & Hw & Ho).
  unfold store_word. erewrite sim_operand; [|done|done|lia]. simpl. eexists. split; [done|].
  unfold sim. simpl. rewrite length_insert. split_and!; try done; unfold upd.
  - intros j w Hj. destruct (decide (j = (f_top f + k)%nat)) as [->|].
    + rewrite list_lookup_insert_eq in Hj by lia. simplify_eq. by rewrite Z.eqb_refl.
    + rewrite list_lookup_insert_ne in Hj by done. rewrite (proj2 (Z.eqb_neq _ _)); [by apply Hw|].
      by intros ?%word_at_inj.
  - intros a Ha. rewrite (proj2 (Z.eqb_neq _ _)); [by apply Ho|]. apply Ha. lia.
Qed.

Lemma sim_push f f' s v : sim m0 n f s → f_push v f = Some f' → ∃ s', push v s = Some s' ∧ sim m0 n f' s'.
Proof.
  intros Hs Hf. unfold f_push in Hf. destruct (f_top f) as [|k] eqn:Et; [done|].
  pose proof Hs as (_ & _ & _ & _ & _ & _ & _ & Ht & _).
  unfold push. rewrite (sim_esp f s Hs), Et. simpl. eapply sim_store; [|done]. apply sim_top; [done|lia|].
  destruct Hreg as (? & ? & ?). rewrite u32_small; unfold is_u32, word_at; lia.
Qed.

Lemma sim_pop f f' s v : sim m0 n f s → f_pop f = Some (v, f') → ∃ s', pop s = Some (v, s') ∧ sim m0 n f' s'.
Proof.
  intros Hs Hf. unfold f_pop in Hf. destruct (f_words f !! f_top f) as [w|] eqn:Ew; [|done]. simpl in Hf. simplify_eq.
  assert (f_load f 0 = Some v) as Hld by (unfold f_load; simpl; by rewrite Nat.add_0_r).
  pose proof Hs as (_ & _ & _ & _ & _ & _ & Hl & Ht & _).
  apply lookup_lt_Some in Ew. unfold pop. rewrite (sim_esp f s Hs). simpl. rewrite (sim_load f s 0 v Hs Hld). simpl.
  eexists. split; [done|]. apply sim_top; [done|lia|].
  destruct Hreg as (? & ? & ?). rewrite u32_small; unfold is_u32, word_at; lia.
Qed.

(** Splitting a computation in the option monad. *)
Ltac split_option H :=
  repeat match type of H with
  | mbind _ ?x = Some _ => let E := fresh "E" in destruct x as [?|] eqn:E; [simpl in H|discriminate H]
  end.

Lemma sim_exec i f f' s : sim m0 n f s → fexec i f = Some f' → ∃ s', exec i s = Some s' ∧ sim m0 n f' s'.
Proof.
  intros Hs Hf. pose proof Hs as (Hr & H8 & Hg & Hc & He & Hfl & Hl & Ht & _).
  pose proof Hreg as (HL0 & _ & HL).
  destruct i; simpl in *.
  - case_match eqn:E; [|done]. apply Nat.eqb_eq in E as ->. split_option Hf. case_match eqn:E2; [|done]. injection Hf as <-.
    apply Nat.leb_le in E2. rewrite (sim_esp _ _ Hs). simpl. eexists. split; [done|]. apply sim_top; [done|lia|].
    unfold words_of in E. case_match eqn:E3; [|done]. injection E as <-. apply andb_true_iff in E3 as [? ?].
    assert (word_at L (f_top f) + imm = word_at L (f_top f + Z.to_nat (imm / 4))) as ->
      by (unfold word_at; Z.to_euclidean_division_equations; lia).
    rewrite u32_small; unfold is_u32, word_at; lia.
  - case_match eqn:E.
    + apply Nat.eqb_eq in E as ->. split_option Hf. case_match eqn:E2; [|done]. injection Hf as <-.
      apply Nat.leb_le in E2. rewrite (sim_esp _ _ Hs). simpl. eexists. split; [done|]. apply sim_top; [done|lia|].
      unfold words_of in E. case_match eqn:E3; [|done]. injection E as <-. apply andb_true_iff in E3 as [? ?].
      assert (word_at L (f_top f) - imm = word_at L (f_top f - Z.to_nat (imm / 4))) as ->
        by (unfold word_at; Z.to_euclidean_division_equations; lia).
      rewrite u32_small; unfold is_u32, word_at; lia.
    + split_option Hf. erewrite sim_reg; [|done|unfold f_reg; rewrite E; done]. simpl. eexists. split; [done|].
      by eapply sim_set.
  - split_option Hf. erewrite sim_reg by done. simpl. eexists. split; [done|]. by eapply sim_set.
  - split_option Hf. erewrite sim_reg by done. simpl. by eapply sim_store.
  - split_option Hf. erewrite sim_load by done. simpl. eexists. split; [done|]. by eapply sim_set.
  - split_option Hf. erewrite sim_reg by done. simpl. erewrite sim_load by done. simpl. by eapply sim_store.
  - split_option Hf. erewrite sim_reg by done. simpl. erewrite sim_load by done. simpl. eexists. split; [done|]. by eapply sim_set.
  - rewrite (sim_esp _ _ Hs). simpl. eexists. split; [done|]. by eapply sim_set.
  - split_option Hf. rewrite Hg, E. simpl. erewrite sim_load by done. simpl. by eapply sim_store.
  - eexists. split; [done|]. rewrite Hc. by eapply sim_set.
  - split_option Hf. erewrite sim_reg by done. simpl. by eapply sim_push.
  - split_option Hf. erewrite sim_load by done. simpl. by eapply sim_push.
  - split_option Hf. destruct p as [v f1]. destruct (sim_pop _ _ _ _ Hs E) as (s1 & -> & Hs1). simpl. eexists. split; [done|].
    by eapply sim_set.
  - split_option Hf. injection Hf as <-. rewrite <-He in E. destruct (sim_push _ _ _ _ Hs E) as (s1 & -> & Hs1). simpl. eexists. split; [done|].
    rewrite He. by apply sim_eip.
  - split_option Hf. destruct p as [e f1]. split_option Hf. destruct p as [c f2]. split_option Hf. destruct p as [fl f3].
    injection Hf as <-.
    destruct (sim_pop _ _ _ _ Hs E) as (s1 & -> & Hs1). simpl.
    destruct (sim_pop _ _ _ _ Hs1 E0) as (s2 & -> & Hs2). simpl.
    destruct (sim_pop _ _ _ _ Hs2 E1) as (s3 & -> & Hs3). simpl. eexists. split; [done|].
    destruct Hs3 as (? & ? & Hg3 & ? & ? & ? & ? & ? & ? & ?). unfold sim. simpl. by rewrite Hg3.
Qed.

Lemma sim_steps k base code f f' s : sim m0 n f s → fsteps k base code f = Some f' →
  ∃ s', steps k base code s = Some s' ∧ sim m0 n f' s'.
Proof.
  revert f s. induction k as [|k IH]; intros f s Hs Hf; simpl in *; [simplify_eq; eauto|].
  destruct (fstep base code f) as [f1|] eqn:E1; [|done]. simpl in Hf.
  unfold fstep in E1. unfold step. pose proof Hs as (_ & _ & _ & _ & He & _). rewrite He.
  case_match; [done|]. destruct (decode _) as [[i len]|]; [|done]. simpl in *.
  eapply sim_exec in E1 as (s1 & -> & Hs1); [|by apply sim_eip]. simpl. by eapply IH.
Qed.
End Frame.

(** ** The bytes of the page *)

Abbreviation BASE := USERMODE_INTJMP_ADDRESS.
Definition DISPATCHER := BASE + INTJMP_ENTRY_SIZE * IDT_MAX_COUNT.
(** The address behind the call of [__dispatchKernelInterrupt]. *)
Definition RETURN := DISPATCHER + 112.

Lemma le32_bytes x : ∃ b0 b1 b2 b3, le32 x = [b0; b1; b2; b3] ∧ imm32 b0 b1 b2 b3 = u32 x.
Proof.
  do 4 eexists. split; [reflexivity|]. unfold imm32, u8. pose proof (u32_range x) as Hu. unfold is_u32 in Hu.
  rewrite !Z.shiftr_div_pow2 by done. change (2 ^ (8 * 0)) with 1. change (2 ^ (8 * 1)) with 256.
  change (2 ^ (8 * 2)) with 65536. change (2 ^ (8 * 3)) with 16777216. Z.to_euclidean_division_equations. lia.
Qed.

Lemma concat_blocks (f : Z → list Z) i n : (∀ j, length (f j) = 8%nat) → 0 ≤ i < n →
  ∃ rest, drop (Z.to_nat (8 * i)) (concat (f <$> seqZ 0 n)) = f i ++ rest.
Proof.
  intros Hf Hi.
  assert (∀ m k, length (concat (f <$> seqZ k m)) = (8 * Z.to_nat m)%nat) as Hl.
  { intros m. destruct (Z.le_gt_cases 0 m); [|intros; rewrite seqZ_nil by lia; simpl; lia].
    pattern m. apply natlike_ind; [intros; by rewrite seqZ_nil by lia| |done].
    intros x Hx IH k. rewrite seqZ_cons by lia. cbn [fmap list_fmap concat]. rewrite length_app, Hf, Z.pred_succ, IH. lia. }
  exists (concat (f <$> seqZ (i + 1) (n - i - 1))).
  replace n with (i + (1 + (n - i - 1))) at 1 by lia. rewrite seqZ_app by lia.
  rewrite fmap_app, concat_app, drop_app_ge; rewrite Hl; [|lia].
  replace (Z.to_nat (8 * i) - 8 * Z.to_nat i)%nat with 0%nat by lia. cbn [drop].
  rewrite seqZ_cons by lia. cbn [fmap list_fmap concat]. rewrite Z.add_0_l.
  replace (Z.succ i) with (i + 1) by lia. replace (Z.pred (1 + (n - i - 1))) with (n - i - 1) by lia. done.
Qed.

(** The dispatcher with the four bytes of the distance to [__dispatchKernelInterrupt]. *)
Definition dispatcher_bytes (b0 b1 b2 b3 : Z) : list Z := Eval cbv in
  take 108 (kernel_dispatcher BASE 0) ++ [b0; b1; b2; b3] ++ drop 112 (kernel_dispatcher BASE 0).

Lemma page_dispatcher d : ∃ b0 b1 b2 b3 z, rel32 b0 b1 b2 b3 = u32 (d - RETURN) ∧
  drop 2048 (in_page (kernel_code BASE d)) = dispatcher_bytes b0 b1 b2 b3 ++ z.
Proof.
  destruct (le32_bytes (d - RETURN)) as (b0 & b1 & b2 & b3 & Hb & Hv). exists b0, b1, b2, b3. eexists. split; [exact Hv|].
  unfold in_page, kernel_code. rewrite <-app_assoc, drop_app_ge by (vm_compute; lia).
  match goal with |- drop ?n _ = _ => change n with 0%nat end. cbn [drop]. f_equal.
  unfold kernel_dispatcher. cbv zeta. match goal with |- context [le32 (d - ?x)] => change (le32 (d - x)) with (le32 (d - RETURN)) end.
  rewrite Hb. reflexivity.
Qed.

Lemma page_entry d i : 0 ≤ i < IDT_MAX_COUNT → ∃ rest, drop (Z.to_nat (8 * i)) (in_page (kernel_code BASE d)) = int_entry i ++ rest.
Proof.
  intros Hi. destruct (concat_blocks int_entry i IDT_MAX_COUNT) as [rest Hr]; [by intros; reflexivity|done|].
  unfold in_page, kernel_code. rewrite <-app_assoc, drop_app_le.
  - rewrite Hr, <-app_assoc. eauto.
  - assert (length (concat (int_entry <$> seqZ 0 IDT_MAX_COUNT)) = 2048%nat) as -> by (vm_compute; done).
    unfold IDT_MAX_COUNT in *. lia.
Qed.

(** Running the code from a later part of the page. *)
Lemma fsteps_drop L c3 n base code k f f' :
  fsteps L c3 n (base + Z.of_nat k) (drop k code) f = Some f' → fsteps L c3 n base code f = Some f'.
Proof.
  revert f. induction n as [|n IH]; intros f Hf; simpl in *; [done|].
  destruct (fstep L c3 (base + Z.of_nat k) (drop k code) f) as [f1|] eqn:E; [|done]. simpl in Hf. apply IH in Hf.
  unfold fstep in *. destruct (Z.ltb_spec (f_eip f) (base + Z.of_nat k)); [done|]. rewrite (proj2 (Z.ltb_ge (f_eip f) base)) by lia.
  rewrite drop_drop in E. replace (k + Z.to_nat (f_eip f - (base + Z.of_nat k)))%nat with (Z.to_nat (f_eip f - base)) in E by lia.
  rewrite E. done.
Qed.

(** ** The runs *)

Definition err_words (i : Z) : nat := if __isErrorCodeInterrupt i then 30%nat else 31%nat.

Lemma f_push_eq v rs gs e fl k ws : (k < length ws)%nat →
  f_push v (Frame rs gs e fl (S k) ws) = Some (Frame rs gs e fl k (<[k := v]> ws)).
Proof.
  intros Hk. unfold f_push, f_store. cbn [f_top f_with_top f_words]. change (words_of 0) with (Some 0%nat). simpl.
  rewrite Nat.add_0_r, (proj2 (Nat.ltb_lt _ _)) by done. done.
Qed.

(** The two instructions of an entry. *)
Lemma run_entry L c3 d i rs gs fl ws : 0 ≤ i < IDT_MAX_COUNT → length ws = 34%nat →
  fsteps L c3 2 BASE (in_page (kernel_code BASE d)) (Frame rs gs (BASE + 8 * i) fl (err_words i) ws) =
  Some (Frame rs gs DISPATCHER fl 3 (<[3%nat := BASE + 8 * i + 8]> ws)).
Proof.
  intros Hi Hw. destruct (page_entry d i Hi) as [rest Hr]. cbn [fsteps].
  unfold fstep at 2. cbn [f_eip]. rewrite (proj2 (Z.ltb_ge _ BASE)) by lia.
  replace (BASE + 8 * i - BASE) with (8 * i) by lia. rewrite Hr.
  unfold int_entry, INTJMP_ENTRY_SIZE. destruct (le32_bytes (8 * IDT_MAX_COUNT - (8 * i + 4 + 4))) as (b0 & b1 & b2 & b3 & Hb & Hv).
  rewrite Hb.
  assert (fstep L c3 BASE (in_page (kernel_code BASE d)) (Frame rs gs (BASE + 8 * i + 3) fl 4 ws) =
    Some (Frame rs gs DISPATCHER fl 3 (<[3%nat := BASE + 8 * i + 8]> ws))) as Hcall.
  { unfold fstep. cbn [f_eip]. rewrite (proj2 (Z.ltb_ge _ BASE)) by lia.
    replace (Z.to_nat (BASE + 8 * i + 3 - BASE)) with (Z.to_nat (8 * i) + 3)%nat by lia.
    rewrite <-drop_drop, Hr. unfold int_entry, INTJMP_ENTRY_SIZE. rewrite Hb.
    cbn [app drop decode mbind option_bind fexec f_eip f_with_eip f_regs f_segs f_top f_words f_eflags Z.to_nat Pos.to_nat].
    cbn [Pos.iter_op Nat.add drop decode mbind option_bind fexec f_eip f_with_eip f_regs f_segs f_top f_words f_eflags].
    unfold f_with_eip. cbn [f_regs f_segs f_top f_words f_eflags f_eip].
    rewrite f_push_eq by lia. cbn [mbind option_bind f_regs f_segs f_top f_words f_eflags f_eip].
    unfold rel32. rewrite Hv. do 3 f_equal; [|lia].
    unfold add32, DISPATCHER, INTJMP_ENTRY_SIZE, IDT_MAX_COUNT, BASE in *. ulia. }
  unfold err_words. destruct (__isErrorCodeInterrupt i).
  all: cbn [app decode]; match goal with |- context [?x <? 128] => change (x <? 128) with true end.
  all: cbn [mbind option_bind fexec Nat.eqb].
  all: match goal with |- context [words_of ?x] => let k := eval vm_compute in (words_of x) in change (words_of x) with k end.
  all: unfold f_with_eip, f_with_top; cbn [f_regs f_segs f_top f_words f_eflags f_eip mbind option_bind Nat.leb Nat.sub Z.ltb Z.compare Pos.compare Pos.compare_cont].
  all: change (Z.of_nat 3) with 3; by rewrite Hcall.
Qed.

Section Runs.
Context (L c3 : Z) (b0 b1 b2 b3 : Z) (z : list Z).
Context (ax cx dx bx x bp si di e c s d f g fl : Z).
Context (w0 w1 w2 w3 err ip csw flw : Z) (c0 c1 c2 c3' c4 c5 c6 c7 c8 c9 c10 c11 c12 c13 c14 c15 c16 c17 c18 c19 c20 c21 c22 c23 c24 c25 : Z).

(** Saving the registers and calling. *)
Lemma run_dispatcher :
  fsteps L c3 29 DISPATCHER (dispatcher_bytes b0 b1 b2 b3 ++ z)
    (Frame [ax; cx; dx; bx; x; bp; si; di] [e; c; s; d; f; g] DISPATCHER fl 3
      [w0; w1; w2; w3; c0; c1; c2; c3'; c4; c5; c6; c7; c8; c9; c10; c11; c12; c13; c14; c15; c16; c17; c18; c19; c20; c21; c22; c23; c24; c25; err; ip; csw; flw]) =
  Some (Frame [shr (sub32 w3 (BASE + 8)) 3; cx; dx; bx; x; bp; si; di] [e; c; s; d; f; g]
      (add32 RETURN (rel32 b0 b1 b2 b3)) fl 0
      [RETURN; shr (sub32 w3 (BASE + 8)) 3; err; word_at L 4; c0; c1; c2; c3'; c4; c5; c6; c3; ip; flw; ax; cx; dx; bx;
       add32 (word_at L 3) 128; bp; si; di; low16 c18 e; low16 c19 (low16 (add32 (word_at L 3) 128) csw);
       low16 c20 s; low16 c21 d; low16 c22 f; low16 c23 g; c24; c25; err; ip; csw; flw]).
Proof. cbv -[sub32 add32 shr seg16 word_at low16 rel32]. reflexivity. Qed.

(** Restoring them. *)
Lemma run_return :
  fsteps L c3 15 DISPATCHER (dispatcher_bytes b0 b1 b2 b3 ++ z)
    (Frame [ax; cx; dx; bx; x; bp; si; di] [e; c; s; d; f; g] RETURN fl 1
      [w0; w1; w2; w3; c0; c1; c2; c3'; c4; c5; c6; c7; c8; c9; c10; c11; c12; c13; c14; c15; c16; c17; c18; c19; c20; c21; c22; c23; c24; c25; err; ip; csw; flw]) =
  Some (Frame [c10; c11; c12; c13; x; c15; c16; c17] [e; seg16 (low16 csw c19); s; d; f; g] c8 c9 34
      [w0; w1; w2; w3; c0; c1; c2; c3'; c4; c5; c6; c7; c8; c9; c10; c11; c12; c13; c14; c15; c16; c17; c18; c19; c20; c21; c22; c23; c24; c25; err; c8; low16 csw c19; c9]).
Proof. cbv -[sub32 add32 shr seg16 word_at low16 rel32]. reflexivity. Qed.
End Runs.

(** ** An interrupt of the kernel *)

(** What the processor does: flags, code segment, address and, for some interrupts,
    an error code go to the stack, and the entry of the interrupt is next. *)
Definition interrupt (i err : Z) (s : x86) : option x86 :=
  c ← x_segs s !! 1%nat;
  s1 ← push (x_eflags s) s; s2 ← push c s1; s3 ← push (x_eip s) s2;
  s4 ← (if __isErrorCodeInterrupt i then push err s3 else Some s3);
  Some (with_eip (BASE + 8 * i) s4).

(** The [struct taskContext] at an address; the offsets are those of
    include/hardware/context.h. *)
Definition context_at (m : Z → Z) (a : Z) : taskContext :=
  let h off := m (a + off) mod 65536 in
  TaskContext (h 0x00) (m (a + 0x04)) (h 0x08) (m (a + 0x0C)) (h 0x10) (m (a + 0x14)) (h 0x18)
    (m (a + 0x1C)) (m (a + 0x20)) (m (a + 0x24))
    (m (a + 0x28)) (m (a + 0x2C)) (m (a + 0x30)) (m (a + 0x34)) (m (a + 0x38)) (m (a + 0x3C)) (m (a + 0x40)) (m (a + 0x44))
    (h 0x48) (h 0x4C) (h 0x50) (h 0x54) (h 0x58) (h 0x5C) (h 0x60) (m (a + 0x64) / 65536).

(** The registers of [s] are those of the context, with [sp] for esp. *)
Definition saved (s : x86) (sp : Z) (t : taskContext) : Prop :=
  x_regs s = [eax t; ecx t; edx t; ebx t; sp; ebp t; esi t; edi t] ∧
  x_segs s = [es t; cs t; ss t; ds t; fs t; gs t] ∧
  x_cr3 s = cr3 t ∧ x_eip s = eip t ∧ x_eflags s = eflags t.

Definition kernel_state (s : x86) (sp : Z) : Prop :=
  length (x_regs s) = 8%nat ∧ reg s ESP = Some sp ∧ length (x_segs s) = 6%nat ∧ Forall is_u16 (x_segs s).

(** The stack pointer has room for what the entry stores. *)
Definition stack_room (sp : Z) : Prop := 136 ≤ sp < 0xFFFFFFFC ∧ sp mod 4 = 0.
Definition outside (sp a : Z) : Prop := a < sp - 136 ∨ sp ≤ a.

Lemma low16_mod old v : low16 old v mod 65536 = v mod 65536.
Proof. unfold low16. rewrite Z.add_comm, Z_mod_plus_full. apply Z.mod_mod. lia. Qed.

Lemma word_at_off L j k : word_at L j + 4 * Z.of_nat k = word_at L (j + k).
Proof. unfold word_at. lia. Qed.

(** The region of an interrupt as a frame, from the state of the processor. *)
Lemma sim_start L s k : length (x_regs s) = 8%nat → reg s ESP = Some (word_at L k) → (k ≤ 34)%nat →
  sim L (x_cr3 s) (x_mem s) 34 (Frame (x_regs s) (x_segs s) (x_eip s) (x_eflags s) k ((λ j, x_mem s (word_at L j)) <$> seq 0 34)) s.
Proof.
  intros H8 Hsp Hk. unfold sim. cbn [f_regs f_segs f_eip f_eflags f_top f_words]. split_and!; try done.
  - symmetry. by apply list_insert_id.
  - intros j w Hj. rewrite list_lookup_fmap in Hj. apply fmap_Some in Hj as (x & Hx & ->). apply lookup_seq in Hx as [-> _]. done.
Qed.

Lemma fsteps_add L c3 j k base code f f1 :
  fsteps L c3 j base code f = Some f1 → fsteps L c3 (j + k) base code f = fsteps L c3 k base code f1.
Proof.
  revert f. induction j as [|j IH]; intros f Hf; simpl in *; [by simplify_eq|].
  destruct (fstep L c3 base code f) as [f2|]; [|done]. simpl in *. by apply IH.
Qed.

Lemma in_dispatcher L c3 d n f f' :
  (∀ b0 b1 b2 b3 z, rel32 b0 b1 b2 b3 = u32 (d - RETURN) →
     fsteps L c3 n DISPATCHER (dispatcher_bytes b0 b1 b2 b3 ++ z) f = Some f') →
  fsteps L c3 n BASE (in_page (kernel_code BASE d)) f = Some f'.
Proof.
  intros Hf. destruct (page_dispatcher d) as (b0 & b1 & b2 & b3 & z & Hv & Hp).
  apply (fsteps_drop L c3 n BASE _ 2048). rewrite Hp. apply Hf. done.
Qed.

(** The stack after the interrupt. *)
Lemma interrupt_frame i err s sp : kernel_state s sp → stack_room sp →
  ∃ ws s', interrupt i err s = Some s' ∧ length ws = 34%nat ∧
    (__isErrorCodeInterrupt i = true → ws !! 30%nat = Some err) ∧
    (ws !! 31%nat = Some (x_eip s) ∧ ws !! 32%nat = x_segs s !! 1%nat ∧ ws !! 33%nat = Some (x_eflags s)) ∧
    sim (sp - 136) (x_cr3 s) (x_mem s) 34 (Frame (x_regs s) (x_segs s) (BASE + 8 * i) (x_eflags s) (err_words i) ws) s'.
Proof.
  intros (H8 & Hsp & H6 & Hu) (Hr & Hal). set (L := sp - 136).
  assert (region_ok L 34) as Hreg by (unfold region_ok, L; Z.to_euclidean_division_equations; lia).
  assert (sp = word_at L 34) as Esp by (unfold word_at, L; lia).
  pose proof (sim_start L s 34 H8 ltac:(by rewrite <-Esp) ltac:(lia)) as Hs.
  remember ((λ j, x_mem s (word_at L j)) <$> seq 0 34) as w0 eqn:Ew.
  assert (length w0 = 34%nat) as Hl by (by rewrite Ew, length_fmap, length_seq). clear Ew.
  destruct (x_segs s !! 1%nat) as [c|] eqn:Ec; [|apply lookup_ge_None in Ec; lia].
  unfold interrupt. rewrite Ec. cbn [mbind option_bind].
  edestruct (sim_push L (x_cr3 s) (x_mem s) 34 Hreg) as (s1 & -> & Hs1); [exact Hs|by apply f_push_eq; lia|]. cbn [mbind option_bind].
  edestruct (sim_push L (x_cr3 s) (x_mem s) 34 Hreg) as (s2 & -> & Hs2); [exact Hs1|by apply f_push_eq; rewrite !length_insert; lia|].
  cbn [mbind option_bind].
  edestruct (sim_push L (x_cr3 s) (x_mem s) 34 Hreg) as (s3 & -> & Hs3); [exact Hs2|by apply f_push_eq; rewrite !length_insert; lia|].
  cbn [mbind option_bind]. unfold err_words. destruct (__isErrorCodeInterrupt i).
  - edestruct (sim_push L (x_cr3 s) (x_mem s) 34 Hreg) as (s4 & -> & Hs4); [exact Hs3|by apply f_push_eq; rewrite !length_insert; lia|].
    eexists _, _. split; [done|]. apply (sim_eip _ _ _ _ _ _ (BASE + 8 * i)) in Hs4. unfold f_with_eip in Hs4. cbn [f_regs f_segs f_eflags f_top f_words] in Hs4.
    split_and!; [| | | | |exact Hs4]; [by rewrite !length_insert|intros _| | |];
      by repeat first [rewrite list_lookup_insert_eq by (rewrite ?length_insert; lia)|rewrite list_lookup_insert_ne by lia].
  - eexists _, _. split; [done|]. apply (sim_eip _ _ _ _ _ _ (BASE + 8 * i)) in Hs3. unfold f_with_eip in Hs3. cbn [f_regs f_segs f_eflags f_top f_words] in Hs3.
    split_and!; [| | | | |exact Hs3]; [by rewrite !length_insert|done| | |];
      by repeat first [rewrite list_lookup_insert_eq by (rewrite ?length_insert; lia)|rewrite list_lookup_insert_ne by lia].
Qed.

(** [__dispatchKernelInterrupt] is about to run: its return address and its three
    arguments are on the stack, the last one is the context with the registers of
    [s], and no other memory has changed. *)
Definition called (d i err sp : Z) (s s1 : x86) : Prop :=
  x_eip s1 = u32 d ∧ x_segs s1 = x_segs s ∧ reg s1 ESP = Some (sp - 136) ∧ x_mem s1 (sp - 136) = RETURN ∧
  (x_mem s1 (sp - 132) = i ∧ (__isErrorCodeInterrupt i = true → x_mem s1 (sp - 128) = err) ∧ x_mem s1 (sp - 124) = sp - 120) ∧
  saved s sp (context_at (x_mem s1) (sp - 120)) ∧ esp (context_at (x_mem s1) (sp - 120)) = sp + 4 ∧
  (∀ a, outside sp a → x_mem s1 a = x_mem s a).

(** It returns: the return address is off the stack, esp is kept. Registers and
    memory may be any. *)
Definition returned (sp : Z) (s2 : x86) : Prop :=
  x_eip s2 = RETURN ∧ reg s2 ESP = Some (sp - 132) ∧ length (x_regs s2) = 8%nat ∧ length (x_segs s2) = 6%nat.

(** The code that was interrupted goes on with the registers of the context. *)
Definition resumed (sp : Z) (s2 s3 : x86) : Prop :=
  let t := context_at (x_mem s2) (sp - 120) in
  x_regs s3 = [eax t; ecx t; edx t; ebx t; sp; ebp t; esi t; edi t] ∧
  x_eip s3 = eip t ∧ x_eflags s3 = eflags t ∧ x_segs s3 = <[1%nat := cs t]> (x_segs s2) ∧
  (∀ a, outside sp a → x_mem s3 a = x_mem s2 a).

Lemma list8 {A} (l : list A) : length l = 8%nat → ∃ a b c d e f g h, l = [a; b; c; d; e; f; g; h].
Proof. intros. do 8 (destruct l as [|? l]; [done|]). destruct l; [|done]. by repeat eexists. Qed.

Lemma list6 {A} (l : list A) : length l = 6%nat → ∃ a b c d e f, l = [a; b; c; d; e; f].
Proof. intros. do 6 (destruct l as [|? l]; [done|]). destruct l; [|done]. by repeat eexists. Qed.

Lemma list34 {A} (l : list A) : length l = 34%nat →
  ∃ w0 w1 w2 w3 c0 c1 c2 c3 c4 c5 c6 c7 c8 c9 c10 c11 c12 c13 c14 c15 c16 c17 c18 c19 c20 c21 c22 c23 c24 c25 e p c f,
  l = [w0; w1; w2; w3; c0; c1; c2; c3; c4; c5; c6; c7; c8; c9; c10; c11; c12; c13; c14; c15; c16; c17; c18; c19; c20; c21; c22; c23; c24; c25; e; p; c; f].
Proof. intros. do 34 (destruct l as [|? l]; [done|]). destruct l; [|done]. by repeat eexists. Qed.

(** Reading the memory of a frame: the word at an offset of the region. *)
Ltac read_word Hw k :=
  match goal with |- context [?m ?a] =>
    match type of Hw with context [m (word_at ?L _)] =>
      replace a with (word_at L k) by (unfold word_at; lia); erewrite (Hw k) by reflexivity end end.

(** The context of a frame, from its words. *)
Definition context_words (ws : list Z) : taskContext :=
  let w k := nth (4 + k) ws 0 in let h k := w k mod 65536 in
  TaskContext (h 0%nat) (w 1%nat) (h 2%nat) (w 3%nat) (h 4%nat) (w 5%nat) (h 6%nat) (w 7%nat) (w 8%nat) (w 9%nat)
    (w 10%nat) (w 11%nat) (w 12%nat) (w 13%nat) (w 14%nat) (w 15%nat) (w 16%nat) (w 17%nat)
    (h 18%nat) (h 19%nat) (h 20%nat) (h 21%nat) (h 22%nat) (h 23%nat) (h 24%nat) (w 25%nat / 65536).

Lemma context_at_words m L ws : (∀ k w, ws !! k = Some w → m (word_at L k) = w) → length ws = 34%nat →
  context_at m (word_at L 4) = context_words ws.
Proof.
  intros Hw Hl.
  assert (∀ k, (k < 26)%nat → m (word_at L 4 + 4 * Z.of_nat k) = nth (4 + k) ws 0) as Hk.
  { intros k Hk. rewrite word_at_off. apply Hw.
    destruct (ws !! (4 + k)%nat) as [w|] eqn:E; [|apply lookup_ge_None in E; lia]. by rewrite nth_lookup, E. }
  unfold context_at, context_words.
  assert (∀ k off, off = 4 * Z.of_nat k → (k < 26)%nat → m (word_at L 4 + off) = nth (4 + k) ws 0) as Hk'
    by (intros k off -> ?; by apply Hk).
  f_equal; (by apply Hk'; [done|lia]) || (f_equal; by apply Hk'; [done|lia]).
Qed.

Section Page.
Context (d : Z).
Abbreviation page := (in_page (kernel_code BASE d)).

(** An entry and the dispatcher, up to the call, on a frame. *)
Lemma run_call L c3 i rs gs fl ws : 0 ≤ i < IDT_MAX_COUNT → length rs = 8%nat → length gs = 6%nat → length ws = 34%nat →
  let w k := nth k ws 0 in let g k := nth k gs 0 in let r k := nth k rs 0 in
  fsteps L c3 31 BASE page (Frame rs gs (BASE + 8 * i) fl (err_words i) ws) =
  Some (Frame (<[0%nat := i]> rs) gs (u32 d) fl 0
    ([RETURN; i; w 30%nat; word_at L 4] ++ take 7 (drop 4 ws) ++
     [c3; w 31%nat; w 33%nat; r 0%nat; r 1%nat; r 2%nat; r 3%nat; add32 (word_at L 3) 128; r 5%nat; r 6%nat; r 7%nat;
      low16 (w 22%nat) (g 0%nat); low16 (w 23%nat) (low16 (add32 (word_at L 3) 128) (w 32%nat));
      low16 (w 24%nat) (g 2%nat); low16 (w 25%nat) (g 3%nat); low16 (w 26%nat) (g 4%nat); low16 (w 27%nat) (g 5%nat)] ++ drop 28 ws)).
Proof.
  intros Hi H8 H6 Hl.
  destruct (list8 _ H8) as (ax & cx & dx & bx & x & bp & si & di & ->).
  destruct (list6 _ H6) as (e & c & st & dt & f & g & ->).
  destruct (list34 ws Hl) as (w0 & w1 & w2 & w3 & c0 & c1 & c2 & c3' & c4 & c5 & c6 & c7 & c8 & c9 & c10 & c11 & c12 & c13 & c14 &
    c15 & c16 & c17 & c18 & c19 & c20 & c21 & c22 & c23 & c24 & c25 & ew & pw & cw & fw & ->).
  cbn [nth app take drop insert list_insert].
  change 31%nat with (2 + 29)%nat. erewrite fsteps_add by (by apply run_entry). apply in_dispatcher. intros b0 b1 b2 b3 z Hv.
  change (<[3%nat := ?v]> (?a :: ?b :: ?c :: _ :: ?l)) with (a :: b :: c :: v :: l). rewrite run_dispatcher.
  assert (shr (sub32 (BASE + 8 * i + 8) (BASE + 8)) 3 = i) as ->.
  { unfold shr, sub32. replace (BASE + 8 * i + 8 - (BASE + 8)) with (8 * i) by lia.
    unfold IDT_MAX_COUNT in *. rewrite u32_small by (unfold is_u32; lia). rewrite Z.shiftr_div_pow2 by lia.
    change (2 ^ 3) with 8. Z.to_euclidean_division_equations. lia. }
  rewrite Hv. do 2 f_equal. unfold add32. ulia.
Qed.

Lemma entry_call i err s sp : 0 ≤ i < IDT_MAX_COUNT → kernel_state s sp → stack_room sp →
  ∃ s', interrupt i err s = Some s' ∧ ∃ s1, steps 31 BASE page s' = Some s1 ∧ called d i err sp s s1.
Proof.
  intros Hi Hk Hroom. pose proof Hk as (H8 & Hsp & H6 & Hu).
  destruct (interrupt_frame i err s sp Hk Hroom) as (ws & s' & -> & Hl & Herr & (Hip & Hcs & Hfl) & Hs).
  exists s'. split; [done|]. destruct Hroom as (Hr & Hal). set (L := sp - 136) in *.
  assert (region_ok L 34) as Hreg by (unfold region_ok, L; Z.to_euclidean_division_equations; lia).
  destruct (sim_steps L (x_cr3 s) (x_mem s) 34 Hreg _ _ _ _ _ _ Hs (run_call L _ i _ _ _ _ Hi H8 H6 Hl)) as (s1 & -> & Hs1).
  exists s1. split; [done|]. destruct Hs1 as (Er & _ & Eg & Ec & Ee & Efl & _ & _ & Hw & Ho).
  destruct (list8 _ H8) as (ax & cx & dx & bx & x & bp & si & di & Eregs).
  destruct (list6 _ H6) as (e & c & st & dt & f & g & Esegs).
  destruct (list34 ws Hl) as (w0 & w1 & w2 & w3 & c0 & c1 & c2 & c3 & c4 & c5 & c6 & c7 & c8 & c9 & c10 & c11 & c12 & c13 & c14 &
    c15 & c16 & c17 & c18 & c19 & c20 & c21 & c22 & c23 & c24 & c25 & ew & pw & cw & fw & ->).
  unfold reg in Hsp. rewrite Eregs in *. rewrite Esegs in *.
  cbn [f_regs f_segs f_eip f_eflags f_top f_words nth app take drop lookup list_lookup] in *. simplify_eq.
  repeat (apply Forall_cons in Hu as [? Hu]). unfold is_u16 in *.
  assert (sp - 120 = word_at L 4) as Ea by (unfold word_at, L; lia). unfold called. rewrite Ea.
  rewrite (context_at_words _ L _ Hw eq_refl). unfold context_words. cbn [nth Nat.add esp].
  split_and!; try done.
  - by rewrite Eg, Esegs.
  - unfold reg. rewrite Er. cbn. f_equal. unfold word_at, L. lia.
  - read_word Hw 0%nat. done.
  - read_word Hw 1%nat. done.
  - intros Hcode. specialize (Herr Hcode). simplify_eq. read_word Hw 2%nat. done.
  - read_word Hw 3%nat. unfold word_at, L. lia.
  - unfold saved. cbn [eax ecx edx ebx ebp esi edi es cs ss ds fs gs cr3 eip eflags].
    rewrite !low16_mod, Eregs, Esegs, !Z.mod_small by lia. done.
  - unfold add32, word_at, L. rewrite u32_small; unfold is_u32; lia.
  - intros a Ha. apply Ho. intros k Hk' ->. unfold outside, word_at, L in Ha. lia.
Qed.
(** The rest of the dispatcher, on a frame. *)
Lemma run_back L c3 rs gs fl ws : length rs = 8%nat → length gs = 6%nat → length ws = 34%nat →
  let w k := nth k ws 0 in
  fsteps L c3 15 BASE page (Frame rs gs RETURN fl 1 ws) =
  Some (Frame [w 14%nat; w 15%nat; w 16%nat; w 17%nat; nth 4 rs 0; w 19%nat; w 20%nat; w 21%nat]
    (<[1%nat := low16 (w 32%nat) (w 23%nat) mod 65536]> gs) (w 12%nat) (w 13%nat) 34
    (take 31 ws ++ [w 12%nat; low16 (w 32%nat) (w 23%nat); w 13%nat])).
Proof.
  intros H8 H6 Hl.
  destruct (list8 _ H8) as (ax & cx & dx & bx & x & bp & si & di & ->).
  destruct (list6 _ H6) as (e & c & st & dt & f & g & ->).
  destruct (list34 ws Hl) as (w0 & w1 & w2 & w3 & c0 & c1 & c2 & c3' & c4 & c5 & c6 & c7 & c8 & c9 & c10 & c11 & c12 & c13 & c14 &
    c15 & c16 & c17 & c18 & c19 & c20 & c21 & c22 & c23 & c24 & c25 & ew & pw & cw & fw & ->).
  apply in_dispatcher. intros b0 b1 b2 b3 z Hv. rewrite run_return. done.
Qed.

Lemma entry_return sp s2 : stack_room sp → returned sp s2 → ∃ s3, steps 15 BASE page s2 = Some s3 ∧ resumed sp s2 s3.
Proof.
  intros (Hr & Hal) (Hip & Hsp & H8 & H6). set (L := sp - 136) in *.
  assert (region_ok L 34) as Hreg by (unfold region_ok, L; Z.to_euclidean_division_equations; lia).
  assert (sp - 132 = word_at L 1) as E1 by (unfold word_at, L; lia). rewrite E1 in Hsp.
  pose proof (sim_start L s2 1 H8 Hsp ltac:(lia)) as Hs.
  remember ((λ j, x_mem s2 (word_at L j)) <$> seq 0 34) as ws eqn:Ews. rewrite Hip in Hs.
  assert (length ws = 34%nat) as Hl by (by rewrite Ews, length_fmap, length_seq).
  destruct (sim_steps L (x_cr3 s2) (x_mem s2) 34 Hreg _ _ _ _ _ _ Hs (run_back L _ _ _ _ _ H8 H6 Hl)) as (s3 & -> & Hs3).
  exists s3. split; [done|]. destruct Hs3 as (Er & _ & Eg & _ & Ee & Efl & _ & _ & _ & Ho).
  destruct Hs as (_ & _ & _ & _ & _ & _ & _ & _ & Hw & _). cbn [f_regs f_segs f_eip f_eflags f_top f_words] in *.
  assert (sp - 120 = word_at L 4) as Ea by (unfold word_at, L; lia). unfold resumed. rewrite Ea.
  rewrite (context_at_words _ L _ Hw Hl). unfold context_words. cbn [Nat.add eax ecx edx ebx ebp esi edi eip eflags cs].
  rewrite low16_mod in Eg. split_and!; try done.
  - rewrite Er. cbn [insert list_insert]. do 4 f_equal. f_equal. f_equal. unfold word_at, L. lia.
  - intros a Ha. apply Ho. intros k Hk ->. unfold outside, word_at, L in Ha. lia.
Qed.
End Page.

(** ** The entry of an interrupt is transparent *)

(** The dispatcher hands the handler what the handler may change: the context holds
    every register, and only the context, the words below it and what the handler
    itself wrote are different when the interrupted code goes on. *)
Definition context_kept (sp : Z) (s1 s2 : x86) : Prop :=
  context_at (x_mem s2) (sp - 120) = context_at (x_mem s1) (sp - 120) ∧ x_segs s2 = x_segs s1.

(** C14: The machine code that gdt.c writes for the interrupts of the kernel does
    what its comments promise, for each of the 256 interrupts and any address of
    [__dispatchKernelInterrupt]. After the interrupt, 31 instructions lead to the
    call, with the number of the interrupt, the error code of the processor where
    there is one and the address of the context as arguments; the context holds
    all registers, but its esp is 4 bytes above that of the interrupted code.
    When the handler returns, in whatever registers and memory, 15 instructions
    load the general registers, eip, cs and eflags of the context, and esp is again that of
    the interrupted code. So a handler that leaves the context alone is not
    noticed. *)
Theorem interrupt_entry_correct d i err s sp : 0 ≤ i < IDT_MAX_COUNT → kernel_state s sp → stack_room sp →
  ∃ s', interrupt i err s = Some s' ∧ ∃ s1, steps 31 BASE (in_page (kernel_code BASE d)) s' = Some s1 ∧
    called d i err sp s s1 ∧
    ∀ s2, returned sp s2 → ∃ s3, steps 15 BASE (in_page (kernel_code BASE d)) s2 = Some s3 ∧ resumed sp s2 s3 ∧
      (context_kept sp s1 s2 → x_regs s3 = x_regs s ∧ x_segs s3 = x_segs s ∧ x_eip s3 = x_eip s ∧ x_eflags s3 = x_eflags s).
Proof.
  intros Hi Hk Hroom. destruct (entry_call d i err s sp Hi Hk Hroom) as (s' & Hint & s1 & Hrun & Hc).
  exists s'. split; [done|]. exists s1. split; [done|]. split; [done|]. intros s2 Hs2.
  destruct (entry_return d sp s2 Hroom Hs2) as (s3 & Hback & Hs3). exists s3. split; [done|]. split; [done|].
  intros (Ec & Eg). destruct Hc as (_ & Eg1 & _ & _ & _ & (Er & Es & _ & Eip & Efl) & _ & _).
  destruct Hs3 as (Er3 & Eip3 & Efl3 & Es3 & _). rewrite Ec in *. rewrite Er3, Eip3, Efl3, Es3, Er, Eip, Efl, Eg, Eg1, Es.
  done.
Qed.

(** The kernel with its stack at 0x2000 is interrupted by a page fault. *)
Definition sample_cpu : x86 :=
  X86 [1; 2; 3; 4; 0x2000; 5; 6; 7] [16; 8; 16; 16; 16; 16] 0x1000 0x100123 0x202 (λ _, 0).

Lemma interrupt_entry_correct_witness : (kernel_state sample_cpu 0x2000 ∧ stack_room 0x2000) ∧
  ∃ s' s1, interrupt 14 2 sample_cpu = Some s' ∧ steps 31 BASE (in_page (kernel_code BASE 0x104000)) s' = Some s1 ∧
    x_eip s1 = 0x104000 ∧ eax (context_at (x_mem s1) 0x1F88) = 1 ∧ esp (context_at (x_mem s1) 0x1F88) = 0x2004.
Proof.
  assert (kernel_state sample_cpu 0x2000 ∧ stack_room 0x2000) as [Hk Hr].
  { unfold kernel_state, stack_room. split_and!; try done. repeat constructor; done. }
  split; [done|].
  destruct (interrupt_entry_correct 0x104000 14 2 sample_cpu 0x2000 ltac:(done) Hk Hr) as (s' & Hs' & s1 & Hs1 & Hc & _).
  exists s', s1. split; [done|]. split; [done|].
  destruct Hc as (He & _ & _ & _ & _ & (Er & _) & Ee & _). split; [exact He|]. split; [|exact Ee].
  injection Er as Eax. symmetry. apply Eax.
Defined.
