(* ===== verification/FileSystem.v ===== *)
(** * filesystem.c: files and directories

    Models src/kernelmode/kernel/process/filesystem.c. A string argument is
    the list of the bytes that can be read from its pointer. *)

From S2P Require Import Prelude Util LinkedList Kernel.
Import Util.Str.
Open Scope Z_scope.

Section FileSystem.
Context {mem : Type} `{Memory mem} `{Methods mem}.
Abbreviation KM := (KM mem).

Definition sizeof_directory := 48.
Definition sizeof_file := 44.
Definition sizeof_openedFile := 24.
Definition sizeof_openedDirectory := 24.

Definition lift_outcome {A} (o : outcome A) : KM A := λ k,
  match o with Ok a => Ok (a, k) | Panic w => Panic w | Undef w => Undef w | NoFuel => NoFuel end.

Definition is_equal (str : option (block Z)) (buf : list Z) (len : Z) : KM bool :=
  lift_outcome (stringIsEqual (b_data <$> str) buf len).

Definition DOT : option (block Z) := Some (Block 0 [46; 0]).
Definition DOTDOT : option (block Z) := Some (Block 0 [46; 46; 0]).

(** *** Field updates *)

Definition modify_directory (o : oid) (f : directory → directory) : KM unit :=
  let* d := pointee as_directory o in putBody o (Directory (f d)).
Definition modify_file (o : oid) (f : file → file) : KM unit :=
  let* d := pointee as_file o in putBody o (File (f d)).
Definition modify_openedFile (o : oid) (f : openedFile → openedFile) : KM unit :=
  let* d := pointee as_openedFile o in putBody o (OpenedFile (f d)).
Definition modify_openedDirectory (o : oid) (f : openedDirectory → openedDirectory) : KM unit :=
  let* d := pointee as_openedDirectory o in putBody o (OpenedDirectory (f d)).

Definition file_with_name (n : option (block Z)) (f : file) : file :=
  FileFields (f_parent f) n (f_isHeap f) (f_buffer f) (f_size f).
Definition file_with_parent (p : option oid) (f : file) : file :=
  FileFields p (f_name f) (f_isHeap f) (f_buffer f) (f_size f).
Definition file_with_data (isHeap : bool) (b : option (block Z)) (size : Z) (f : file) : file :=
  FileFields (f_parent f) (f_name f) isHeap b size.

(** *** Names *)

Definition name_of (n : node) : KM (option (option (block Z))) :=
  let* o := deref (container n) "list.h: a list head used as an object" in
  let* b := getBody o in
  mret (match b with File f => Some (f_name f) | Directory d => Some (d_name d) | _ => None end).

(** Whether an element of the list other than [current] has the name. *)
Definition name_in_use (names : node) (current : option oid) (buf : list Z) (length : Z) : KM bool :=
  let* ' (_, r) := for_each loop_fuel names (λ o _,
    let* n := name_of (Entry o) in
    let* name := deref n "neither a file nor a directory" in
    if decide (Some o = current) then mret (inl false)
    else
      let* e := is_equal name buf length in
      mret (if e : bool then inr true else inl false)) false in
  mret r.

Definition reserved_name (buf : list Z) (length : Z) : KM bool :=
  let* e := is_equal DOT buf length in
  if e : bool then mret true else is_equal DOTDOT buf length.

Definition __isValidFilename (current : option oid) (parent : option oid) (buf : list Z) (length : Z) : KM bool :=
  let* e := reserved_name buf length in
  if e : bool then mret false
  else
    match parent with
    | None => mret true
    | Some parent =>
        let* e := name_in_use (Files parent) current buf length in
        if e : bool then mret false
        else
          let* e := name_in_use (Directories parent) current buf length in
          mret (negb e)
    end.

(** [heapAlloc(length + 1)], the copy and the terminator. *)
Definition copyName (name : list Z) (length : Z) : KM (option (block Z)) :=
  let* r := with_memory (heapAlloc (u32 (length + 1))) in
  match r with
  | None => mret None
  | Some a =>
      if length <=? lenZ name then mret (Some (Block a (take (Z.to_nat length) name ++ [0])))
      else undef "memcpy: out of the name"
  end.

Definition freeName (n : option (block Z)) : KM unit :=
  match n with Some b => with_memory (heapFree (b_addr b)) | None => mret tt end.

(** Allocating an object and the copy of its name; the memory of the object is
    given back if there is none for the name. *)
Definition allocNamed (size : Z) (name : option (list Z)) (nameLength : Z)
    : KM (option (oid * option (block Z))) :=
  let* r := with_memory (heapAlloc size) in
  match r with
  | None => mret None
  | Some o =>
      match name with
      | None => mret (Some (o, None))
      | Some name =>
          let* n := copyName name nameLength in
          match n with
          | None => with_memory (heapFree o) ;; mret None
          | Some b => mret (Some (o, Some b))
          end
      end
  end.

(** *** Directories *)

Definition directoryCreate (parent : option oid) (name : option (list Z)) (nameLength : Z) : KM (option oid) :=
  let* r := allocNamed sizeof_directory name nameLength in
  match r with
  | None => mret None
  | Some (d, buffer) =>
      putObject d (Object 1 (Directory (DirectoryFields parent buffer))) ;;
      queue_init (OpenedDirectories d) ;;
      queue_init (Files d) ;;
      queue_init (Directories d) ;;
      match parent with
      | Some p => queue_add_tail (Directories p) (Entry d) ;; __objectAddRef d ;; mret tt
      | None => mret tt
      end ;;
      mret (Some d)
  end.

Definition __directoryShutdownChilds (directory : oid) : KM unit :=
  for_each_safe loop_fuel (Files directory) (λ f _, __objectShutdown f 0 ;; mret (inl tt)) tt ;;
  for_each_safe loop_fuel (Directories directory) (λ d _, __objectShutdown d 0 ;; mret (inl tt)) tt.

Definition __directoryDestroy (obj : oid) : KM unit :=
  let* d := objectContainer as_directory obj in
  assert (bool_decide (d_parent d = None)) "!d->parent" ;;
  __directoryShutdownChilds obj ;;
  let* e1 := queue_empty (Files obj) in
  let* e2 := queue_empty (Directories obj) in
  assert (e1 && e2) "ll_empty(&d->files) && ll_empty(&d->directories)" ;;
  let* d := pointee as_directory obj in
  freeName (d_name d) ;;
  freeObject obj [OpenedDirectories obj; Files obj; Directories obj].

Definition __directoryShutdown (obj : oid) (mode : Z) : KM unit :=
  let* d := objectContainer as_directory obj in
  when (bool_decide (is_Some (d_parent d)))
    (queue_remove (Entry obj) ;;
     modify_directory obj (λ d, DirectoryFields None (d_name d)) ;;
     __objectRelease obj).

(** [while (length > 0 && !buf[length - 1]) length--;] *)
Definition trim_name (buf : list Z) (length : Z) : KM Z :=
  let* n := lift_outcome (trim_loop buf (Z.to_nat length)) in mret (Z.of_nat n).

(** The common part of [__directoryWrite] and [__fileWrite]: the new name and
    the result, or [None] if the name is refused. *)
Definition rename (obj : oid) (parent : option oid) (old : option (block Z)) (buf : list Z) (length : Z)
    : KM (option (option (block Z) * Z)) :=
  let* length := trim_name buf length in
  let* valid := (if 0 <? length then __isValidFilename (Some obj) parent buf length else mret true) in
  if negb valid then mret None
  else
    freeName old ;;
    if length =? 0 then mret (Some (None, 0))
    else
      let* n := copyName buf length in
      mret (Some (n, match n with Some _ => length | None => 0 end)).

Definition __directoryWrite (obj : oid) (buf : list Z) (length : Z) : KM Z :=
  let* d := objectContainer as_directory obj in
  let* r := rename obj (d_parent d) (d_name d) buf length in
  match r with
  | None => mret (-1)
  | Some (n, res) => modify_directory obj (λ d, DirectoryFields (d_parent d) n) ;; mret (i32 res)
  end.

(** The common part of the functions that return a name: the number of
    characters and the characters, the terminator included if it fits. *)
Definition read_name (name : option (block Z)) (length : Z) : KM (Z * list Z) :=
  match name with
  | None => mret (-1, [])
  | Some b =>
      let* n := lift_outcome (stringLength (Some (b_data b))) in
      let file_length := u32 (n + 1) in
      let length := if file_length <? length then file_length else length in
      mret (i32 length, take (Z.to_nat length) (b_data b))
  end.

Definition __directoryRead (obj : oid) (length : Z) : KM (Z * list Z) :=
  let* d := objectContainer as_directory obj in read_name (d_name d) length.

(** *** Files *)

Definition fileCreate (parent : option oid) (name : option (list Z)) (nameLength : Z)
    (static : option (list Z)) : KM (option oid) :=
  let* r := allocNamed sizeof_file name nameLength in
  match r with
  | None => mret None
  | Some (f, buffer) =>
      putObject f (Object 1 (File (match static with
        | Some data => FileFields parent buffer false (Some (Block 0 data)) (lenZ data)
        | None => FileFields parent buffer true None 0
        end))) ;;
      queue_init (OpenedFiles f) ;;
      match parent with
      | Some p => queue_add_tail (Files p) (Entry f) ;; __objectAddRef f ;; mret tt
      | None => mret tt
      end ;;
      mret (Some f)
  end.

Definition __fileDestroy (obj : oid) : KM unit :=
  let* f := objectContainer as_file obj in
  assert (bool_decide (f_parent f = None)) "!f->parent" ;;
  freeName (f_name f) ;;
  match f_buffer f with
  | Some b => when (f_isHeap f) (with_memory (heapFree (b_addr b)))
  | None => mret tt
  end ;;
  freeObject obj [OpenedFiles obj].

Definition __fileShutdown (obj : oid) (mode : Z) : KM unit :=
  let* f := objectContainer as_file obj in
  when (bool_decide (is_Some (f_parent f)))
    (queue_remove (Entry obj) ;;
     modify_file obj (file_with_parent None) ;;
     __objectRelease obj).

Definition __fileGetStatus (obj : oid) (mode : Z) : KM Z :=
  let* f := objectContainer as_file obj in mret (i32 (f_size f)).

Definition __fileWrite (obj : oid) (buf : list Z) (length : Z) : KM Z :=
  let* f := objectContainer as_file obj in
  let* r := rename obj (f_parent f) (f_name f) buf length in
  match r with
  | None => mret (-1)
  | Some (n, res) => modify_file obj (file_with_name n) ;; mret (i32 res)
  end.

Definition __fileRead (obj : oid) (length : Z) : KM (Z * list Z) :=
  let* f := objectContainer as_file obj in read_name (f_name f) length.

(** *** Opened files *)

Definition fileOpen (file : oid) : KM (option oid) :=
  let* r := createObject sizeof_openedFile (OpenedFile (OpenedFileFields file 0)) in
  match r with
  | None => mret None
  | Some h =>
      queue_add_tail (OpenedFiles file) (Entry h) ;;
      __objectAddRef file ;;
      mret (Some h)
  end.

Definition __openedFileDestroy (obj : oid) : KM unit :=
  let* h := objectContainer as_openedFile obj in
  queue_remove (Entry obj) ;;
  freeObject obj [] ;;
  __objectRelease (of_file h).

Definition __openedFileShutdown (obj : oid) (mode : Z) : KM unit :=
  let* h := objectContainer as_openedFile obj in
  let* f := pointee as_file (of_file h) in
  when (of_pos h <? f_size f)
    (let* buffer :=
       match f_buffer f with
       | Some b =>
           if f_isHeap f then
             let* r := with_memory (heapReAlloc (b_addr b) (of_pos h)) in
             match r with
             | Some a => mret (Some (Block a (take (Z.to_nat (of_pos h)) (b_data b))))
             | None => mret (if of_pos h =? 0 then None else Some b)
             end
           else mret (Some b)
       | None => mret None
       end in
     modify_file (of_file h) (file_with_data (f_isHeap f) buffer (of_pos h))).

Definition __openedFileGetStatus (obj : oid) (mode : Z) : KM Z :=
  let* h := objectContainer as_openedFile obj in
  if negb (mode =? 0) then mret (i32 (of_pos h))
  else let* f := pointee as_file (of_file h) in mret (i32 (f_size f)).

Definition __openedFileSignal (obj : oid) (result : Z) : KM unit :=
  let* h := objectContainer as_openedFile obj in
  putBody obj (OpenedFile (OpenedFileFields (of_file h) result)).

(** The file after its buffer has been grown to [size] bytes at [addr]: the old
    contents, zeros up to [pos]; what follows is not specified (zeros here). *)
Definition grown_data (old : list Z) (size : Z) : list Z := resize (Z.to_nat size) 0 old.

(** Replacing the bytes of a buffer at [pos]; [None]: outside the buffer. *)
Definition overwrite (data : list Z) (pos : Z) (bs : list Z) : option (list Z) :=
  if (0 <=? pos) && (pos + lenZ bs <=? lenZ data) then
    Some (take (Z.to_nat pos) data ++ bs ++ drop (Z.to_nat pos + length bs) data)
  else None.

Definition __openedFileWrite (obj : oid) (buf : list Z) (len : Z) : KM Z :=
  let* h := objectContainer as_openedFile obj in
  let* f := pointee as_file (of_file h) in
  if len =? 0 then mret 0
  else
    let pos := of_pos h in
    let need := u32 (pos + len) in
    (* the number of bytes to write, if any can be *)
    let* len :=
      (if f_size f <? need then
         let* r := match f_buffer f with
                   | Some b => if f_isHeap f then with_memory (heapReAlloc (b_addr b) need)
                               else with_memory (heapAlloc need)
                   | None => with_memory (heapAlloc need)
                   end in
         match r with
         | Some a =>
             let old := match f_buffer f with Some b => take (Z.to_nat (f_size f)) (b_data b) | None => [] end in
             modify_file (of_file h) (file_with_data true (Some (Block a (grown_data old need))) need) ;;
             mret (Some len)
         | None =>
             if f_isHeap f && (pos <? f_size f) then
               assert (f_size f - pos <? len) "f->size - h->pos < length" ;;
               mret (Some (f_size f - pos))
             else mret None
         end
       else mret (Some len)) in
    match len with
    | None => mret 0
    | Some len =>
        let* f := pointee as_file (of_file h) in
        let* b := deref (f_buffer f) "memcpy to a null pointer" in
        if len <=? lenZ buf then
          let* data := deref (overwrite (b_data b) pos (take (Z.to_nat len) buf)) "memcpy: out of the file" in
          modify_file (of_file h) (file_with_data (f_isHeap f) (Some (Block (b_addr b) data)) (f_size f)) ;;
          putBody obj (OpenedFile (OpenedFileFields (of_file h) (u32 (pos + len)))) ;;
          mret (i32 len)
        else undef "memcpy: out of the source"
    end.

Definition __openedFileRead (obj : oid) (len : Z) : KM (Z * list Z) :=
  let* h := objectContainer as_openedFile obj in
  let* f := pointee as_file (of_file h) in
  if f_size f <=? of_pos h then mret (-1, [])
  else
    let rest := u32 (f_size f - of_pos h) in
    let len := if rest <? len then rest else len in
    if 0 <? len then
      let* b := deref (f_buffer f) "memcpy from a null pointer" in
      if of_pos h + len <=? lenZ (b_data b) then
        putBody obj (OpenedFile (OpenedFileFields (of_file h) (u32 (of_pos h + len)))) ;;
        mret (i32 len, take (Z.to_nat len) (drop (Z.to_nat (of_pos h)) (b_data b)))
      else undef "memcpy: out of the file"
    else mret (i32 len, []).

(** *** Opened directories *)

Definition directoryOpen (directory : oid) : KM (option oid) :=
  let* r := createObject sizeof_openedDirectory (OpenedDirectory (OpenedDirectoryFields directory None)) in
  match r with
  | None => mret None
  | Some h =>
      queue_add_tail (OpenedDirectories directory) (Entry h) ;;
      __objectAddRef directory ;;
      mret (Some h)
  end.

Definition __openedDirectoryDestroy (obj : oid) : KM unit :=
  let* h := objectContainer as_openedDirectory obj in
  queue_remove (Entry obj) ;;
  match od_pos h with Some pos => __objectRelease pos | None => mret tt end ;;
  freeObject obj [] ;;
  __objectRelease (od_directory h).

Definition set_pos (obj : oid) (pos : option oid) : KM unit :=
  modify_openedDirectory obj (λ h, OpenedDirectoryFields (od_directory h) pos).

(** The first named element of a list, starting with [n]. *)
Fixpoint next_named (fuel : nat) (head n : node) : KM (option (oid * block Z)) :=
  match fuel with
  | O => no_fuel
  | S fuel =>
      if decide (n = head) then mret None
      else
        let* nm := name_of n in
        let* name := deref nm "neither a file nor a directory" in
        let* o := deref (container n) "list.h: a list head used as an object" in
        match name with
        | Some b => mret (Some (o, b))
        | None => let* n := queue_next n in next_named fuel head n
        end
  end.

(** The label [enumdir]: the directories from [n] on. *)
Definition enum_directories (obj dir : oid) (n : node) (length : Z) : KM (Z * list Z) :=
  let* r := next_named loop_fuel (Directories dir) n in
  match r with
  | None => set_pos obj None ;; mret (-1, [])
  | Some (d, name) => set_pos obj (Some d) ;; read_name (Some name) length
  end.

Definition enum_files (obj dir : oid) (n : node) (length : Z) : KM (Z * list Z) :=
  let* r := next_named loop_fuel (Files dir) n in
  match r with
  | None => let* d := queue_next (Directories dir) in enum_directories obj dir d length
  | Some (f, name) => set_pos obj (Some f) ;; read_name (Some name) length
  end.

Definition __openedDirectoryRead (obj : oid) (length : Z) : KM (Z * list Z) :=
  let* h := objectContainer as_openedDirectory obj in
  let dir := od_directory h in
  match od_pos h with
  | None => let* f := queue_next (Files dir) in enum_files obj dir f length
  | Some pos =>
      let* b := getBody pos in
      match b with
      | File _ => let* f := queue_next (Entry pos) in enum_files obj dir f length
      | Directory _ => let* d := queue_next (Entry pos) in enum_directories obj dir d length
      | _ => panic "assert: 0"
      end
  end.

(** *** Casts *)

Definition fileSystemIsValidDirectory (obj : option oid) : KM (option oid) :=
  match obj with
  | None => mret None
  | Some o =>
      let* b := getBody o in
      match b with
      | OpenedDirectory h =>
          match od_pos h with
          | None => mret None
          | Some pos => let* b := getBody pos in mret (match b with Directory _ => Some pos | _ => None end)
          end
      | Directory _ => mret (Some o)
      | _ => mret None
      end
  end.

Definition fileSystemIsValidFile (obj : option oid) : KM (option oid) :=
  match obj with
  | None => mret None
  | Some o =>
      let* b := getBody o in
      match b with
      | OpenedDirectory h =>
          match od_pos h with
          | None => mret None
          | Some pos => let* b := getBody pos in mret (match b with File _ => Some pos | _ => None end)
          end
      | File _ => mret (Some o)
      | _ => mret None
      end
  end.

Definition fileSystemGetRoot : KM oid :=
  let* k := get in
  let* root := deref (fileSystemRoot k) "fileSystemRoot is a null pointer" in
  __objectAddRef root.

(** *** Paths *)

Definition SLASH := 47.

(** [while (pathLength > 0 && path[0] == '/')] *)
Fixpoint skip_slashes (path : list Z) (pathLength : nat) {struct pathLength} : outcome (list Z * nat) :=
  match pathLength with
  | O => Ok (path, O)
  | S n =>
      match path with
      | [] => Undef "path: out of the string"
      | c :: path' => if c =? SLASH then skip_slashes path' n else Ok (path, pathLength)
      end
  end.

(** [while (componentLength < pathLength && path[componentLength] != '/')] *)
Fixpoint component_length (path : list Z) (pathLength : nat) {struct pathLength} : outcome nat :=
  match pathLength with
  | O => Ok O
  | S n =>
      match path with
      | [] => Undef "path: out of the string"
      | c :: path' =>
          if c =? SLASH then Ok O
          else match component_length path' n with Ok k => Ok (S k) | r => r end
      end
  end.

(** The element of a list that has the name. *)
Definition find_name (names : node) (buf : list Z) (length : Z) : KM (option oid) :=
  let* ' (n, found) := for_each loop_fuel names (λ o _,
    let* n := name_of (Entry o) in
    let* name := deref n "neither a file nor a directory" in
    let* e := is_equal name buf length in
    mret (if e : bool then inr true else inl false)) false in
  mret (if found : bool then container n else None).

(** One round per path component; the label [subdir]. *)
Fixpoint search_directory (fuel : nat) (directory : oid) (path : list Z) (pathLength : nat) (create : bool)
    : KM (option oid) :=
  match fuel with
  | O => no_fuel
  | S fuel =>
      let* ' (path, pathLength) := lift_outcome (skip_slashes path pathLength) in
      let* componentLength := lift_outcome (component_length path pathLength) in
      let rest := drop componentLength path in
      let restLength := (pathLength - componentLength)%nat in
      if decide (componentLength = O) then __objectAddRef directory ;; mret (Some directory)
      else
        let* reserved := reserved_name path (Z.of_nat componentLength) in
        if reserved : bool then
          (* the pointer has already been advanced when the name is compared again *)
          let* up := is_equal DOTDOT rest (Z.of_nat componentLength) in
          let* d := pointee as_directory directory in
          search_directory fuel
            (match d_parent d with Some p => if up : bool then p else directory | None => directory end)
            rest restLength create
        else
          let* found := find_name (Directories directory) path (Z.of_nat componentLength) in
          match found with
          | Some d => search_directory fuel d rest restLength create
          | None =>
              if negb create then mret None
              else
                let* clash := find_name (Files directory) path (Z.of_nat componentLength) in
                match clash with
                | Some _ => mret None
                | None =>
                    let* d := directoryCreate (Some directory) (Some path) (Z.of_nat componentLength) in
                    match d with
                    | None => mret None
                    | Some d => search_directory fuel d rest restLength create
                    end
                end
          end
  end.

(** Every round but the last consumes at least one character of the path. *)
Definition fileSystemSearchDirectory (directory : option oid) (path : list Z) (pathLength : Z) (create : bool)
    : KM (option oid) :=
  let* k := get in
  match (match directory with Some d => Some d | None => fileSystemRoot k end) with
  | None => panic "assert: directory"
  | Some d => search_directory (S (Z.to_nat pathLength)) d path (Z.to_nat pathLength) create
  end.

(** [while (componentLength > 0 && path[componentLength-1] != '/') componentLength--;] *)
Fixpoint parent_length (path : list Z) (n : nat) : outcome nat :=
  match n with
  | O => Ok O
  | S n' =>
      match path !! n' with
      | None => Undef "path: out of the string"
      | Some c => if c =? SLASH then Ok n else parent_length path n'
      end
  end.

Definition fileSystemSearchFile (directory : option oid) (path : list Z) (pathLength : Z) (create : bool)
    : KM (option oid) :=
  let* componentLength := lift_outcome (parent_length path (Z.to_nat pathLength)) in
  if pathLength <=? Z.of_nat componentLength then mret None
  else
    let* d := fileSystemSearchDirectory directory path (Z.of_nat componentLength) create in
    match d with
    | None => mret None
    | Some directory =>
        let path := drop componentLength path in
        let pathLength := pathLength - Z.of_nat componentLength in
        let err := __objectRelease directory ;; mret None in
        let* reserved := reserved_name path pathLength in
        if reserved : bool then err
        else
          let* f := find_name (Files directory) path pathLength in
          match f with
          | Some f => __objectAddRef f ;; __objectRelease directory ;; mret (Some f)
          | None =>
              if negb create then err
              else
                let* clash := find_name (Directories directory) path pathLength in
                match clash with
                | Some _ => err
                | None =>
                    let* f := fileCreate (Some directory) (Some path) pathLength None in
                    __objectRelease directory ;;
                    mret f
                end
          end
    end.

(** *** The boot archive *)

Definition sizeof_tarHeader := 512.

(** The fields of [struct tarHeader] that are used, by offset and size. *)
Definition tar_field (off size : nat) (tar : list Z) : list Z := take size (drop off tar).
Definition tar_name := tar_field 0 100.
Definition tar_size := tar_field 124 12.
Definition tar_checksum := tar_field 148 8.
Definition tar_typeflag (tar : list Z) : Z := default 0 (tar !! 156%nat).
Definition tar_magic := tar_field 257 6.
Definition tar_prefix := tar_field 345 155.

(** The sums of [__tarVerifyChecksum]; the bytes are read as signed. *)
Definition sum_signed (l : list Z) (init : Z) : Z := fold_left (λ s b, u32 (s + i8 b)) l init.

Definition tar_checksum_value (tar : list Z) : Z :=
  sum_signed (drop 156 (take 512 tar)) (u32 (sum_signed (take 148 tar) 0 + 8 * 32)).

Definition __tarVerifyChecksum (tar : list Z) : outcome bool :=
  match stringParseOctal (tar_checksum tar) 8 with
  | Ok v => Ok (tar_checksum_value tar =? v)
  | Panic w => Panic w | Undef w => Undef w | NoFuel => NoFuel
  end.

Definition __tarIsEOF (tar : list Z) (length : Z) : bool :=
  if length <? sizeof_tarHeader * 2 then false
  else forallb (λ b, b =? 0) (take 1024 tar).

(** The bytes of [namebuf] up to the terminator, for a header. *)
Definition tar_path (tar : list Z) : outcome (list Z) :=
  match stringIsEqual (Some [117; 115; 116; 97; 114; 0]) (tar_magic tar) 6 with
  | Ok ustar =>
      if ustar && negb (default 0 (tar_prefix tar !! 0%nat) =? 0) then
        let prefix := take 154 (tar_prefix tar) ++ [0] in
        match stringLength (Some prefix) with
        | Ok n => Ok (take (Z.to_nat n) prefix ++ [SLASH] ++ tar_name tar ++ [0])
        | Panic w => Panic w | Undef w => Undef w | NoFuel => NoFuel
        end
      else Ok (tar_name tar ++ [0])
  | Panic w => Panic w | Undef w => Undef w | NoFuel => NoFuel
  end.

(** Adding one file of the archive. *)
Definition add_tar_file (tar : list Z) (size : Z) : KM unit :=
  when ((tar_typeflag tar =? 0) || (tar_typeflag tar =? 48))
    (let* namebuf := lift_outcome (tar_path tar) in
     let* n := lift_outcome (stringLength (Some namebuf)) in
     let* f := fileSystemSearchFile None namebuf n true in
     match f with
     | None => panic "assert: f"
     | Some f =>
         modify_file f (file_with_data false (Some (Block 0 (take (Z.to_nat size) (drop 512 tar)))) size) ;;
         __objectRelease f
     end).

Fixpoint read_archive (fuel : nat) (tar : list Z) (length : Z) : KM unit :=
  match fuel with
  | O => no_fuel
  | S fuel =>
      if length <? sizeof_tarHeader then mret tt
      else if __tarIsEOF tar length then mret tt
      else
        let* ok := lift_outcome (__tarVerifyChecksum tar) in
        assert ok "__tarVerifyChecksum(tar)" ;;
        let* size := lift_outcome (stringParseOctal (tar_size tar) 12) in
        assert (negb (size =? ERR)) "size != (uint32_t)-1" ;;
        assert (u32 (sizeof_tarHeader + size) <=? length) "sizeof(struct tarHeader) + size <= length" ;;
        add_tar_file tar size ;;
        let size := u32 (sizeof_tarHeader + Z.land (u32 (size + 511)) (4294967295 - 511)) in
        if length <? size then mret tt
        else read_archive fuel (drop (Z.to_nat size) tar) (length - size)
  end.

(** Every round consumes at least one header, unless the 32-bit size of an entry
    wraps around. *)
Definition fileSystemInit (data : list Z) (length : Z) : KM unit :=
  let* k := get in
  assert (bool_decide (fileSystemRoot k = None)) "!fileSystemRoot" ;;
  let* root := directoryCreate None None 0 in
  match root with
  | None => panic "assert: fileSystemRoot"
  | Some root =>
      modify (set_root (Some root)) ;;
      read_archive (S (Z.to_nat length)) data length
  end.
End FileSystem.
