(* ===== verification/Dispatch.v ===== *)
(** * The function tables

    The tables of type [struct objectFunctions] of the process directory: which
    function an object's type puts behind each method, and the inline
    functions of object.h that call through them. [methods n] is the instance
    of [Methods] in which calls nest at most [n] deep and loops over lists run
    at most [loops] rounds. *)

From S2P Require Import Prelude LinkedList Kernel Semaphore Event Timer Pipe Handle Thread Process FileSystem.
Open Scope Z_scope.

Section Dispatch.
Context {mem : Type} `{Memory mem} `{Machine mem}.
Abbreviation KM := (KM mem).

Definition call_signal `{Methods mem} (o : oid) (result : Z) : KM unit :=
  let* b := getBody o in
  match b with
  | Semaphore _ => __semaphoreSignal o result
  | Event _ => __eventSignal o result
  | SubEvent _ => __subEventSignal o result
  | Timer _ => __timerSignal o result
  | Thread _ => __threadSignal o result
  | OpenedFile _ => __openedFileSignal o result
  | _ => mret tt
  end.

Definition call_wait `{Methods mem} (o : oid) (mode : Z) : KM waitResult :=
  let* b := getBody o in
  match b with
  | Semaphore _ => __semaphoreWait o mode
  | Event _ => __eventWait o mode
  | Timer _ => __timerWait o mode
  | Pipe _ => __pipeWait o mode
  | Thread _ => __threadWait o mode
  | Process _ => __processWait o mode
  | _ => mret (Done None)
  end.

Definition call_shutdown `{Methods mem} (o : oid) (mode : Z) : KM unit :=
  let* b := getBody o in
  match b with
  | Semaphore _ => __semaphoreShutdown o mode
  | Event _ => __eventShutdown o mode
  | Timer _ => __timerShutdown o mode
  | Pipe _ => __pipeShutdown o mode
  | Thread _ => __threadShutdown o mode
  | Process _ => __processShutdown o mode
  | Directory _ => __directoryShutdown o mode
  | File _ => __fileShutdown o mode
  | OpenedFile _ => __openedFileShutdown o mode
  | _ => mret tt
  end.

Definition call_destroy `{Methods mem} (o : oid) : KM unit :=
  let* b := getBody o in
  match b with
  | Semaphore _ => __semaphoreDestroy o
  | Event _ => __eventDestroy o
  | SubEvent _ => mret tt
  | Timer _ => __timerDestroy o
  | Pipe _ => __pipeDestroy o
  | Stdout => __stdoutDestroy o
  | Thread _ => __threadDestroy o
  | Process _ => __processDestroy o
  | Directory _ => __directoryDestroy o
  | File _ => __fileDestroy o
  | OpenedFile _ => __openedFileDestroy o
  | OpenedDirectory _ => __openedDirectoryDestroy o
  end.

(** [if (--obj->refcount) return; destroy(obj);] *)
Definition call_release `{Methods mem} (o : oid) : KM unit :=
  let* x := getObject o in
  let r := u32 (refcount x - 1) in
  putObject o (Object r (obj_body x)) ;;
  if r =? 0 then call_destroy o else mret tt.

(** Calls nested [depth] deep, around no more calls. *)
Definition no_methods (loops : nat) : Methods mem := {|
  loop_fuel := loops;
  Kernel.__objectSignal := λ _ _, no_fuel;
  Kernel.__objectWait := λ _ _, no_fuel;
  Kernel.__objectRelease := λ _, no_fuel;
  Kernel.__objectShutdown := λ _ _, no_fuel;
|}.

Fixpoint methods (loops depth : nat) : Methods mem :=
  match depth with
  | O => no_methods loops
  | S depth =>
      let m := methods loops depth in {|
        loop_fuel := loops;
        Kernel.__objectSignal := λ o r, @call_signal m o r;
        Kernel.__objectWait := λ o mode, @call_wait m o mode;
        Kernel.__objectRelease := λ o, @call_release m o;
        Kernel.__objectShutdown := λ o mode, @call_shutdown m o mode;
      |}
  end.

(** *** Calls that do not nest *)

Definition __objectGetStatus (o : oid) (mode : Z) : KM Z :=
  let* b := getBody o in
  match b with
  | Semaphore _ => __semaphoreGetStatus o mode
  | Event _ => __eventGetStatus o mode
  | Timer _ => __timerGetStatus o mode
  | Pipe _ => __pipeGetStatus o mode
  | Thread _ => __threadGetStatus o mode
  | Process _ => __processGetStatus o mode
  | File _ => __fileGetStatus o mode
  | OpenedFile _ => __openedFileGetStatus o mode
  | _ => mret (-1)
  end.

Definition __objectWrite `{Methods mem} (o : oid) (buf : list Z) (length : Z) : KM Z :=
  let* b := getBody o in
  match b with
  | Timer _ => __timerWrite o buf length
  | Pipe _ => __pipeWrite o buf length
  | Stdout => __stdoutWrite o buf length
  | Directory _ => __directoryWrite o buf length
  | File _ => __fileWrite o buf length
  | OpenedFile _ => __openedFileWrite o buf length
  | _ => mret (-1)
  end.

Definition __objectRead `{Methods mem} (o : oid) (length : Z) : KM (Z * list Z) :=
  let* b := getBody o in
  match b with
  | Pipe _ => __pipeRead o length
  | Directory _ => __directoryRead o length
  | File _ => __fileRead o length
  | OpenedFile _ => __openedFileRead o length
  | OpenedDirectory _ => __openedDirectoryRead o length
  | _ => mret (-1, [])
  end.

Definition __objectAttachObj (o subObj : oid) (mode ident : Z) : KM bool :=
  let* b := getBody o in
  match b with Event _ => __eventAttachObj o subObj mode ident | _ => mret false end.

Definition __objectDetachObj `{Methods mem} (o : oid) (ident : Z) : KM bool :=
  let* b := getBody o in
  match b with Event _ => __eventDetachObj o ident | _ => mret false end.
End Dispatch.
