(* ===== verification/Pic.v ===== *)
(** * pic.c and pit.c: the interrupt controller and the interval timer

    Models src/kernelmode/kernel/hardware/pic.c and pit.c: which driver gets the
    interrupt of which line, the masks of the two controllers, and the rate of
    the timer. The controllers themselves are only the log of the ports. *)

From S2P Require Import Prelude Io Console LinkedList Kernel Timer Thread Devices.
Open Scope Z_scope.

Definition PIC1_COMMAND_PORT := 0x20.
Definition PIC1_DATA_PORT := 0x21.
Definition PIC2_COMMAND_PORT := 0xA0.
Definition PIC2_DATA_PORT := 0xA1.
Definition ICW1_ICW4 := 0x01.
Definition ICW1_INIT := 0x10.
Definition ICW4_8086 := 0x01.
Definition PIC_EOI := 0x20.
Definition IRQ_COUNT := 16.
Definition IRQ_PIT := 0.
Definition IRQ_KEYBOARD := 1.
Definition IRQ_SLAVE := 2.
Definition IDT_MAX_COUNT := 256.

Definition PIT_CHANNEL_BASE := 0x40.
Definition PIT_MODE_PORT := 0x43.
Definition PIT_BINARY := 0.
Definition PIT_LSB_MSB := 3.
Definition PIT_MODE_RATE_GENERATOR := 2.
Definition PIT_CHANNEL_COUNT := 3.
Definition PIT_FREQUENCY := 1193182.
Definition PIT_CONTROL_VALUE (format mode register channel : Z) : Z :=
  Z.lor (Z.lor (Z.lor (Z.shiftl channel 6) (Z.shiftl register 4)) (Z.shiftl mode 1)) format.

Section Pic.
Context {pages : Type}.
Abbreviation KM := (KM (platform pages)).

(** ** The table of interrupts (interrupt.c) *)

Definition interruptReserve (interrupt : Z) (callback : interrupt_callback) : KM bool :=
  assert (interrupt <? IDT_MAX_COUNT) "interrupt < IDT_MAX_COUNT" ;;
  let* d := get_dev in
  let* old := deref (nthZ (interruptTable d) interrupt) "interruptTable" in
  match old with
  | Some _ => mret false
  | None => modify_dev (set_interruptTable (setZ (interruptTable d) interrupt (Some callback))) ;; mret true
  end.

Definition interruptFree (interrupt : Z) : KM unit :=
  let* d := get_dev in
  deref (nthZ (interruptTable d) interrupt) "interruptTable" ;;
  modify_dev (set_interruptTable (setZ (interruptTable d) interrupt None)).

(** ** The controllers *)

(** An interrupt of a line; [call_irq] calls the function of a driver. *)
Definition interrupt_irq (call_irq : irq_callback → Z → KM Z) (interrupt : Z) : KM Z :=
  let* d := get_dev in
  let irq := u32 (interrupt - irqBase d) in
  assert (irq <? IRQ_COUNT) "irq < IRQ_COUNT" ;;
  assert (negb (irq =? IRQ_SLAVE)) "irq != IRQ_SLAVE" ;;
  let* callback := deref (nthZ (irqTable d) irq) "irqTable" in
  let* status := match callback with
                 | Some callback => call_irq callback irq
                 | None =>
                     with_console (consoleWriteString (literal "Unhandled IRQ: ")) ;;
                     with_console (consoleWriteHex32 irq) ;;
                     with_console (consoleWriteString [10; 0]) ;;
                     mret INTERRUPT_CONTINUE_EXECUTION
                 end in
  when (8 <=? irq) (ports_of (outb PIC2_COMMAND_PORT PIC_EOI)) ;;
  ports_of (outb PIC1_COMMAND_PORT PIC_EOI) ;;
  mret status.

Definition reset_irqs (interruptOffset : Z) : KM unit :=
  for_loop 16 0 (λ i, modify_dev (λ d, set_irqTable (setZ (irqTable d) i None) d)) ;;
  for_loop 16 0 (λ i,
    let* ok := interruptReserve (u32 (interruptOffset + i)) Interrupt_irq in
    assert ok "interruptReserve(interruptOffset + i, interrupt_irq)").

Definition picInit (interruptOffset : Z) : KM unit :=
  assert (Z.land interruptOffset 7 =? 0) "(interruptOffset & 7) == 0" ;;
  modify_dev (set_irqBase interruptOffset) ;;
  ports_of (outb PIC1_COMMAND_PORT (ICW1_INIT + ICW1_ICW4) ;;
            outb PIC1_COMMAND_PORT (ICW1_INIT + ICW1_ICW4) ;;
            outb PIC1_DATA_PORT interruptOffset ;;
            outb PIC2_DATA_PORT (interruptOffset + 8) ;;
            outb PIC1_DATA_PORT 4 ;;
            outb PIC2_DATA_PORT 2 ;;
            outb PIC1_DATA_PORT ICW4_8086 ;;
            outb PIC2_DATA_PORT ICW4_8086 ;;
            outb PIC1_DATA_PORT (Z.land 0xF (Z.lnot IRQ_SLAVE)) ;;
            outb PIC2_DATA_PORT 0xF) ;;
  reset_irqs interruptOffset.

(** The controller of a line and its bit there. *)
Definition irq_port (irq : Z) : Z * Z :=
  if irq <? 8 then (PIC1_DATA_PORT, irq) else (PIC2_DATA_PORT, irq - 8).

Definition picReserveIRQ (irq : Z) (callback : irq_callback) : KM bool :=
  assert (irq <? IRQ_COUNT) "irq < IRQ_COUNT" ;;
  let* d := get_dev in
  let* old := deref (nthZ (irqTable d) irq) "irqTable" in
  match old with
  | Some _ => mret false
  | None =>
      assert (negb (irq =? IRQ_SLAVE)) "irq != IRQ_SLAVE" ;;
      modify_dev (set_irqTable (setZ (irqTable d) irq (Some callback))) ;;
      let ' (port, irq) := irq_port irq in
      let* mask := ports_of (inb port) in
      ports_of (outb port (Z.land mask (Z.lnot (Z.shiftl 1 irq)))) ;;
      mret true
  end.

Definition picFreeIRQ (irq : Z) : KM unit :=
  assert (irq <? IRQ_COUNT) "irq < IRQ_COUNT" ;;
  let* d := get_dev in
  let* old := deref (nthZ (irqTable d) irq) "irqTable" in
  match old with
  | None => mret tt
  | Some _ =>
      assert (negb (irq =? IRQ_SLAVE)) "irq != IRQ_SLAVE" ;;
      modify_dev (set_irqTable (setZ (irqTable d) irq None)) ;;
      let ' (port, irq) := irq_port irq in
      let* mask := ports_of (inb port) in
      ports_of (outb port (Z.lor mask (Z.shiftl 1 irq)))
  end.

(** ** The interval timer *)

Definition pitSetValue (channel mode value : Z) : M ports unit :=
  assert (channel <? PIT_CHANNEL_COUNT) "channel < PIT_CHANNEL_COUNT" ;;
  outb PIT_MODE_PORT (PIT_CONTROL_VALUE PIT_BINARY mode PIT_LSB_MSB channel) ;;
  outb (PIT_CHANNEL_BASE + channel) (Z.land value 0xFF) ;;
  outb (PIT_CHANNEL_BASE + channel) (Z.shiftr value 8).

(** A frequency of 0 is a division by zero; [value] is passed as 16 bits. *)
Definition pitSetFrequency (channel frequency : Z) : M ports unit :=
  assert (channel <? PIT_CHANNEL_COUNT) "channel < PIT_CHANNEL_COUNT" ;;
  if frequency =? 0 then undef "division by zero"
  else
    let value := PIT_FREQUENCY / frequency in
    assert (negb (value =? 0)) "value" ;;
    pitSetValue channel PIT_MODE_RATE_GENERATOR (u16 value).

(** timer.c *)
Definition timerInit : KM unit :=
  ports_of (pitSetFrequency 0 TIMER_INTERRUPT_FREQUENCY) ;;
  picReserveIRQ IRQ_PIT Timer_irq ;;
  mret tt.
End Pic.
