(* ===== verification/Keyboard.v ===== *)
(** * keyboard.c: the keyboard

    Models src/kernelmode/kernel/hardware/keyboard.c: the interrupt handler is a
    state machine over the bytes of the keyboard, which come as one byte, after
    0xE0, or as two bytes after 0xE1; keys become characters by the tables of
    keymap_de.c, are echoed and written to the object of the standard input. *)

From S2P Require Import Prelude Io Console LinkedList Kernel Thread Process FileSystem Dispatch KeymapDE Devices Pic.
Open Scope Z_scope.

Definition KEY_CODE (type value : Z) : Z := Z.lor (Z.shiftl type 8) value.
Definition KEY_TYPE (x : Z) : Z := Z.shiftr x 8.
Definition KEY_VALUE (x : Z) : Z := Z.land x 0xff.

Definition KEY_MODIFIER_SHIFT := 0.
Definition KEY_MODIFIER_ALTGR := 1.
Definition KEY_MODIFIER_CTRL := 2.
Definition KEY_MODIFIER_ALT := 3.
Definition KEY_MODIFIER_SHIFTL := 4.
Definition KEY_MODIFIER_SHIFTR := 5.
Definition KEY_MODIFIER_CTRLL := 6.
Definition KEY_MODIFIER_CTRLR := 7.

Definition KEY_TYPE_LATIN := 0x0.
Definition KEY_TYPE_SPEC := 0x2.
Definition KEY_TYPE_SHIFT := 0x7.
Definition KEY_TYPE_ASCII := 0x9.
Definition KEY_TYPE_LETTER := 0xB.
Definition KEY_CODE_ENTER := KEY_CODE KEY_TYPE_SPEC 1.
Definition KEY_CODE_CAPS := KEY_CODE KEY_TYPE_SPEC 7.

Definition KEYBOARD_BUFFER_PORT := 0x60.
Definition KEYBOARD_STATUS_PORT := 0x64.
Definition KEYBOARD_CMD_LED := 0xED.
Definition KEYBOARD_CMD_ENABLE := 0xF4.

Definition standardKeyCodes : list Z :=
  [ 0;  1;  2;  3;  4;  5;  6;  7;  8;  9; 10; 11; 12; 13; 14; 15; 16; 17; 18; 19;
   20; 21; 22; 23; 24; 25; 26; 27; 28; 29; 30; 31; 32; 33; 34; 35; 36; 37; 38; 39;
   40; 41; 42; 43; 44; 45; 46; 47; 48; 49; 50; 51; 52; 53; 54; 55; 56; 57; 58; 59;
   60; 61; 62; 63; 64; 65; 66; 67; 68; 69; 70; 71; 72; 73; 74; 75; 76; 77; 78; 79;
   80; 81; 82; 84;  0;  0; 86; 87; 88;  0;  0;  0;  0;  0;  0;  0;  0;  0;  0;  0;
    0;  0;  0;  0;  0;  0;  0;  0;  0;  0;  0;  0;  0;  0;  0;  0;  0;  0;  0;  0;
    0;  0;  0;  0;  0;  0;  0;  0].

Definition extendedKeyCodes : list Z :=
  [ 0;  0;  0;  0;  0;  0;  0;  0;  0;  0;  0;  0;  0;  0;  0;  0;
    0;  0;  0;  0;  0;  0;  0;  0;  0;  0;  0;  0; 96; 97;  0;  0;
    0;  0;  0;  0;  0;  0;  0;  0;  0;  0;  0;  0;  0;  0;  0;  0;
    0;  0;  0;  0;  0; 99;  0;  0; 100; 0;  0;  0;  0;  0;  0;  0;
    0;  0;  0;  0;  0;  0;  0; 102; 103; 104; 0; 105; 0; 106; 0; 107;
  108; 109; 110; 111; 0;  0;  0;  0;  0;  0;  0;  0;  0;  0;  0;  0;
    0;  0;  0;  0;  0;  0;  0;  0;  0;  0;  0;  0;  0;  0;  0;  0;
    0;  0;  0;  0;  0;  0;  0;  0;  0;  0;  0;  0;  0;  0;  0;  0].

Definition keyMaps : list keyMap := [keyMapDE].
Definition keyMapIndex : Z := 0.

(** ** What a key means *)

(** The table for the state of the modifiers. *)
Definition decode_map (m : keyModifier) (i : keyMapInfo) : list Z :=
  if shift m || shiftLocked m then
    if ctrl m then km_shift_ctrl i
    else if alt m then km_shift_alt i
    else km_shift i
  else if ctrl m then
    if altgr m then km_altgr_ctrl i else km_ctrl i
  else if altgr m then
    if alt m then km_altgr_alt i else km_altgr i
  else if alt m then km_alt i
  else km_plain i.

(** The modifiers after the key with [keyCode] goes down or up. *)
Definition update_modifiers (keyCode : Z) (pressed : bool) (m : keyModifier) : keyModifier :=
  if KEY_TYPE keyCode =? KEY_TYPE_SHIFT then
    let v := KEY_VALUE keyCode in
    if (v =? KEY_MODIFIER_SHIFT) || (v =? KEY_MODIFIER_SHIFTL) || (v =? KEY_MODIFIER_SHIFTR) then
      KeyModifier pressed (shiftLocked m) (ctrl m) (alt m) (altgr m)
    else if (v =? KEY_MODIFIER_CTRL) || (v =? KEY_MODIFIER_CTRLL) || (v =? KEY_MODIFIER_CTRLR) then
      KeyModifier (shift m) (shiftLocked m) pressed (alt m) (altgr m)
    else if v =? KEY_MODIFIER_ALT then KeyModifier (shift m) (shiftLocked m) (ctrl m) pressed (altgr m)
    else if v =? KEY_MODIFIER_ALTGR then KeyModifier (shift m) (shiftLocked m) (ctrl m) (alt m) pressed
    else m
  else if KEY_TYPE keyCode =? KEY_TYPE_SPEC then
    if (keyCode =? KEY_CODE_CAPS) && pressed then
      KeyModifier (shift m) (negb (shiftLocked m)) (ctrl m) (alt m) (altgr m)
    else m
  else m.

(** The character of a key, if it has one. *)
Definition key_char (keyCode : Z) : option Z :=
  if (KEY_TYPE keyCode =? KEY_TYPE_LATIN) || (KEY_TYPE keyCode =? KEY_TYPE_ASCII) ||
     (KEY_TYPE keyCode =? KEY_TYPE_LETTER) || (keyCode =? KEY_CODE_ENTER)
  then Some (if keyCode =? KEY_CODE_ENTER then 10 else KEY_VALUE keyCode)
  else None.

Section Keyboard.
Context {pages : Type} `{Memory pages} `{Methods (platform pages)}.
Abbreviation KM := (KM (platform pages)).

Definition modify_kbd (f : keyboard → keyboard) : KM unit := modify_dev (λ d, set_kbd (f (kbd d)) d).
Definition get_kbd : KM keyboard := let* d := get_dev in mret (kbd d).

Definition kbd_with_modifiers (m : keyModifier) (x : keyboard) : keyboard :=
  Keyboard (keyboardLEDFlags x) (keyboardStdin x) m (ext1Code x) (ext2Code x) (e1_prev x).
Definition kbd_with_ext (ext1 : bool) (ext2 prev : Z) (x : keyboard) : keyboard :=
  Keyboard (keyboardLEDFlags x) (keyboardStdin x) (modifiers x) ext1 ext2 prev.
Definition kbd_with_stdin (o : option oid) (x : keyboard) : keyboard :=
  Keyboard (keyboardLEDFlags x) o (modifiers x) (ext1Code x) (ext2Code x) (e1_prev x).
Definition kbd_with_leds (f : Z) (x : keyboard) : keyboard :=
  Keyboard f (keyboardStdin x) (modifiers x) (ext1Code x) (ext2Code x) (e1_prev x).

(** Echoing a character and passing it on. *)
Definition emit_char (charCode : Z) : KM unit :=
  with_console (consoleEchoChar charCode) ;;
  let* x := get_kbd in
  match keyboardStdin x with
  | Some o => __objectWrite o [charCode] 1 ;; mret tt
  | None => mret tt
  end.

(** [extended] is 0, 1 or 2. *)
Definition processScancode (extended scanCode : Z) (keyUp : bool) : KM unit :=
  let pressed := negb keyUp in
  let* x := get_kbd in
  let* mappedCode :=
    (if extended =? 0 then deref (nthZ standardKeyCodes scanCode) "standardKeyCodes"
     else if extended =? 1 then deref (nthZ extendedKeyCodes scanCode) "extendedKeyCodes"
     else mret 0) in
  if mappedCode =? 0 then mret tt
  else
    let* map := deref (nthZ keyMaps keyMapIndex) "keyMaps" in
    let* code := deref (nthZ (decode_map (modifiers x) (km_maps map)) mappedCode) "decodeMap" in
    let keyCode := Z.land code 0x0FFF in
    if keyCode =? 0 then mret tt
    else
      modify_kbd (kbd_with_modifiers (update_modifiers keyCode pressed (modifiers x))) ;;
      if negb pressed then mret tt
      else match key_char keyCode with
           | Some c => emit_char c
           | None => mret tt
           end.

(** ** The bytes of the keyboard *)

(** A byte that ends the press of a key: the first byte of a sequence only if
    it is not one of the two prefixes. *)
Definition key_up (x : keyboard) (scanCode : Z) : bool :=
  negb (Z.land scanCode 0x80 =? 0) &&
  (negb (ext2Code x =? 0) || negb (scanCode =? 0xE1)) && (ext1Code x || negb (scanCode =? 0xE0)).

(** The handler after the byte was read. *)
Definition keyboard_byte (byte : Z) : KM unit :=
  let* x := get_kbd in
  let keyUp := key_up x byte in
  let scanCode := if keyUp then Z.land byte (Z.lnot 0x80) else byte in
  let set_ext ext1 ext2 prev := modify_kbd (kbd_with_ext ext1 ext2 prev) in
  if ext1Code x then
    if (scanCode =? 0x2A) || (scanCode =? 0x36) then
      set_ext false (ext2Code x) (e1_prev x)
    else
      processScancode 1 scanCode keyUp ;;
      set_ext false (ext2Code x) (e1_prev x)
  else if ext2Code x =? 2 then
    let prev := Z.lor (e1_prev x) (u16 (Z.shiftl scanCode 8)) in
    set_ext false 2 prev ;;
    processScancode 2 (u8 prev) keyUp ;;
    set_ext false 0 prev
  else if ext2Code x =? 1 then set_ext false 2 scanCode
  else if scanCode =? 0xE0 then set_ext true (ext2Code x) (e1_prev x)
  else if scanCode =? 0xE1 then set_ext false 1 (e1_prev x)
  else processScancode 0 scanCode keyUp.

Definition keyboard_irq (irq : Z) : KM Z :=
  let* scanCode := ports_of (inb KEYBOARD_BUFFER_PORT) in
  keyboard_byte scanCode ;;
  mret INTERRUPT_CONTINUE_EXECUTION.

(** ** Commands *)

(** [while (inb(port) & mask) body]; the device decides when it ends. *)
Fixpoint wait_status (fuel : nat) (mask : Z) (body : M ports unit) : M ports unit :=
  match fuel with
  | O => no_fuel
  | S fuel =>
      let* s := inb KEYBOARD_STATUS_PORT in
      if Z.land s mask =? 0 then mret tt else body ;; wait_status fuel mask body
  end.

Definition keyboardSend (fuel : nat) (cmd : Z) : M ports unit :=
  wait_status fuel 2 (mret tt) ;;
  outb KEYBOARD_BUFFER_PORT cmd.

Definition keyboardSetLEDFlags (fuel : nat) (flags : Z) : KM unit :=
  modify_kbd (kbd_with_leds (Z.land flags 7)) ;;
  ports_of (keyboardSend fuel KEYBOARD_CMD_LED) ;;
  let* x := get_kbd in
  ports_of (keyboardSend fuel (u8 (keyboardLEDFlags x))).

Definition keyboardGetLEDFlags : KM Z := let* x := get_kbd in mret (keyboardLEDFlags x).

Definition keyboardInit (fuel : nat) (obj : option oid) : KM unit :=
  modify_kbd (kbd_with_stdin obj) ;;
  picReserveIRQ IRQ_KEYBOARD Keyboard_irq ;;
  ports_of (wait_status fuel 1 (inb KEYBOARD_BUFFER_PORT ;; mret tt)) ;;
  ports_of (keyboardSend fuel KEYBOARD_CMD_ENABLE) ;;
  keyboardSetLEDFlags fuel 0.
End Keyboard.
