(* ===== verification/KeyLayout.v ===== *)
(** * The German keyboard

    What the keys of the keyboard mean, written down by key and independently of the
    tables of keymap_de.c and of the code that reads them: the bytes a key sends, its
    number, what it types with the modifiers that are held, and the modifiers it
    changes; and the proof that Keyboard.v gives every key this meaning. *)

From stdpp Require Import strings.
From S2P Require Import Prelude Devices KeymapDE Keyboard.
Open Scope Z_scope.

(** ** Keys

    What the keyboard reports: a key of the first set with one byte, an extended key
    after 0xE0, the shifts it makes up around some extended keys, and keys with two
    bytes after 0xE1, such as the pause key. *)
Inductive key_event :=
  | StandardKey (code : Z) (up : bool)
  | ExtendedKey (code : Z) (up : bool)
  | FakeShift (rshift up : bool)
  | PauseKey (byte1 byte2 : Z).

Definition with_release (code : Z) (up : bool) : Z := if up then code + 128 else code.

Definition event_bytes (e : key_event) : list Z :=
  match e with
  | StandardKey c up => [with_release c up]
  | ExtendedKey c up => [0xE0; with_release c up]
  | FakeShift rshift up => [0xE0; with_release (if rshift then 0x36 else 0x2A) up]
  | PauseKey b1 b2 => [0xE1; b1; b2]
  end.

(** Codes are 7 bits, and a release is not one of the prefixes: no key has code 0x60
    or 0x61. After 0xE0 the handler does not take 0xE1 for a release, see
    [KeyboardProofs.prefixes_out_of_table]. *)
Definition event_ok (e : key_event) : Prop :=
  match e with
  | StandardKey c up => 0 ≤ c < 128 ∧ (up = true → c ≠ 0x60 ∧ c ≠ 0x61)
  | ExtendedKey c up => 0 ≤ c < 128 ∧ c ≠ 0x2A ∧ c ≠ 0x36 ∧ (up = true → c ≠ 0x61)
  | FakeShift _ _ => True
  | PauseKey b1 b2 => is_u8 b1 ∧ is_u8 b2
  end.

(** ** The meaning of the keys *)

(** The number of the key that types or is held, 0 for any other key: that of its
    code, and numbers from 96 on for Enter of the keypad, the right control key, the
    stroke of the keypad and AltGr. (The tables of the layout have the stroke at 98; the
    code takes it for 99, the print key.) *)
Definition struck (e : key_event) : Z * bool :=
  match e with
  | StandardKey c up => (if (1 <=? c) && (c <=? 82) || (c =? 86) then c else 0, up)
  | ExtendedKey c up =>
      (if c =? 0x1C then 96 else if c =? 0x1D then 97 else if c =? 0x35 then 99 else if c =? 0x38 then 100 else 0, up)
  | FakeShift _ _ | PauseKey _ _ => (0, true)
  end.

Definition chars (s : string) : list Z := (λ c, Z.of_N (Ascii.N_of_ascii c)) <$> String.list_ascii_of_string s.

(** Rows of neighbouring keys, each by the number of its first key and the characters
    on them. *)
Fixpoint printed (rows : list (Z * list Z)) (n : Z) : option Z :=
  match rows with
  | [] => None
  | (first, cs) :: rows => match nthZ cs (n - first) with Some c => Some c | None => printed rows n end
  end.

Definition plain_keys : list (Z * list Z) := [
  (1, [27]); (2, chars "1234567890"); (12, [0xDF; 0x27; 127; 9]);
  (16, chars "qwertzuiop"); (26, [0xFC; 0x2B; 10]);
  (30, chars "asdfghjkl"); (39, [0xF6; 0xE4]); (41, chars "^"); (43, chars "#");
  (86, chars "<"); (44, chars "yxcvbnm,.-"); (57, chars " ")].

Definition shifted_keys : list (Z * list Z) := [
  (1, [27]); (2, [0x21; 0x22]); (4, chars "#$%&/()=?`"); (14, [127]);
  (16, chars "QWERTZUIOP"); (26, [0xDC; 0x2A; 10]);
  (30, chars "ASDFGHJKL"); (39, [0xD6; 0xC4]); (41, chars "~"); (43, chars "'");
  (86, chars ">"); (44, chars "YXCVBNM;:_"); (57, chars " ")].

(** With AltGr, the keypad types the numbers of the hexadecimal digits it would
    contribute to a character code, counted from 10. *)
Definition altgr_keys : list (Z * list Z) := [
  (3, chars "23"); (8, chars "{[]}\");
  (16, chars "@w"); (18, [0x80]); (19, chars "rtzuiop"); (27, [0x7E; 10]);
  (30, chars "asdfghjkl"); (44, chars "yx"); (46, [0xA2]); (47, chars "vbn"); (50, [0xB5]); (86, chars "|");
  (71, [17; 18; 19]); (75, [14; 15; 16]); (79, [11; 12; 13; 10]);
  (69, [20]); (55, [22]); (74, [23]); (78, [24]); (96, [25])].

(** With Alt it types the numbers of the decimal digits. *)
Definition alt_keys : list (Z * list Z) := [
  (71, [7; 8; 9]); (75, [4; 5; 6]); (79, [1; 2; 3; 0]); (99, [0x1C])].

Definition enter_key : list (Z * list Z) := [(28, [10])].

(** With control, a letter types its number in the alphabet. *)
Definition letter_number (n : Z) : option Z :=
  c ← printed plain_keys n; if (97 <=? c) && (c <=? 122) then Some (c - 96) else None.

Definition control_key (others : list (Z * list Z)) (n : Z) : option Z :=
  match letter_number n with Some c => Some c | None => printed (enter_key ++ others) n end.

(** The character that key [n] types while the modifiers [m] are held. Control has
    precedence over Alt and AltGr, and shift over AltGr. *)
Definition key_types (m : keyModifier) (n : Z) : option Z :=
  let shifted := shift m || shiftLocked m in
  if ctrl m then
    if shifted then control_key [(40, [0x1D]); (53, [0x1F])] n
    else if altgr m then if n =? 16 then None else control_key [(10, [0x1D]); (12, [0x1C])] n
    else control_key [(4, [0x1B]); (41, [0x1E]); (99, [0x1C])] n
  else if shifted then printed (if alt m then enter_key else shifted_keys) n
  else if altgr m then printed (if alt m then enter_key else altgr_keys) n
  else printed (if alt m then alt_keys else plain_keys) n.

(** The modifiers after key [n]. AltGr is not noticed while Alt is held alone. *)
Definition key_holds (m : keyModifier) (n : Z) (up : bool) : keyModifier :=
  let down := negb up in
  if (n =? 42) || (n =? 54) then KeyModifier down (shiftLocked m) (ctrl m) (alt m) (altgr m)
  else if (n =? 29) || (n =? 97) then KeyModifier (shift m) (shiftLocked m) down (alt m) (altgr m)
  else if n =? 56 then KeyModifier (shift m) (shiftLocked m) (ctrl m) down (altgr m)
  else if n =? 100 then
    if alt m && negb (shift m || shiftLocked m || ctrl m || altgr m) then m
    else KeyModifier (shift m) (shiftLocked m) (ctrl m) (alt m) down
  else if (n =? 58) && down then KeyModifier (shift m) (negb (shiftLocked m)) (ctrl m) (alt m) (altgr m)
  else m.

(** What an event does with the modifiers, and what it types. *)
Definition hits (m : keyModifier) (e : key_event) : keyModifier * list Z :=
  let '(n, up) := struck e in (key_holds m n up, if up then [] else option_list (key_types m n)).

Fixpoint typed (m : keyModifier) (es : list key_event) : keyModifier * list Z :=
  match es with
  | [] => (m, [])
  | e :: es =>
      let '(m1, cs) := hits m e in
      let '(m2, cs') := typed m1 es in (m2, cs ++ cs')
  end.

(** ** The code agrees *)

(** The number of the key in the tables of the code, 0 if it has none, and its
    direction. *)
Definition event_key (e : key_event) : Z * bool :=
  match e with
  | StandardKey c up => (default 0 (nthZ standardKeyCodes c), up)
  | ExtendedKey c up => (default 0 (nthZ extendedKeyCodes c), up)
  | FakeShift _ _ | PauseKey _ _ => (0, false)
  end.

(** What the code does for key [n]: the new modifiers, and what is typed. *)
Definition press (m : keyModifier) (n : Z) (up : bool) : keyModifier * list Z :=
  let keyCode := Z.land (default 0 (nthZ (decode_map m (km_maps keyMapDE)) n)) 0x0FFF in
  if (n =? 0) || (keyCode =? 0) then (m, [])
  else (update_modifiers keyCode (negb up) m, if up then [] else option_list (key_char keyCode)).

#[export] Instance keyModifier_eq_dec : EqDecision keyModifier.
Proof. solve_decision. Defined.

Definition all_modifiers : list keyModifier :=
  a ← [false; true]; b ← [false; true]; c ← [false; true]; d ← [false; true]; e ← [false; true]; [KeyModifier a b c d e].

Lemma in_all_modifiers m : m ∈ all_modifiers.
Proof. destruct m as [[] [] [] [] []]; apply (bool_decide_unpack _); vm_compute; exact I. Qed.

Definition agrees (m : keyModifier) (e : key_event) : Prop := press m (event_key e).1 (event_key e).2 = hits m e.

#[export] Instance agrees_dec m e : Decision (agrees m e).
Proof. unfold agrees. apply _. Defined.

(** All keys, in all states of the modifiers. *)
Lemma all_agree : Forall (λ m, Forall (λ c, Forall (λ up, agrees m (StandardKey c up) ∧ agrees m (ExtendedKey c up))
  [false; true]) (seqZ 0 128)) all_modifiers.
Proof. apply (bool_decide_unpack _). vm_compute. exact I. Qed.

Lemma press_hits m e : event_ok e → press m (event_key e).1 (event_key e).2 = hits m e.
Proof.
  assert (∀ c up, 0 ≤ c < 128 → agrees m (StandardKey c up) ∧ agrees m (ExtendedKey c up)) as Hall.
  { intros c up Hc. pose proof all_agree as H. rewrite Forall_forall in H. specialize (H m (in_all_modifiers m)).
    rewrite Forall_forall in H. specialize (H c). rewrite Forall_forall in H.
    apply H; [apply elem_of_seqZ; lia|destruct up; set_solver]. }
  destruct e as [c up|c up|rshift up|b1 b2]; intros He; [apply Hall, He..|done|done].
Qed.
