(* ===== verification/Syscall.v ===== *)
(** * interrupt.c: the system calls

    Models [interrupt_0x80] of src/kernelmode/kernel/interrupt/interrupt.c: the
    number of the call is in [eax], its arguments in [ebx], [ecx], [edx], [esi] and
    [edi], the result goes to [eax]. Buffers of the process are mapped into the
    kernel through [UserMemory]. One definition per group of calls, in the order
    of include/syscall.h. *)

From S2P Require Import Prelude Console LinkedList Kernel Semaphore Event Timer Pipe Handle Thread Process Elf FileSystem Dispatch.
Open Scope Z_scope.

(** ** The numbers of the calls *)

Definition SYSCALL_YIELD := 0.
Definition SYSCALL_EXIT_PROCESS := 1.
Definition SYSCALL_EXIT_THREAD := 2.
Definition SYSCALL_GET_CURRENT_PROCESS := 3.
Definition SYSCALL_GET_CURRENT_THREAD := 4.
Definition SYSCALL_GET_MONOTONIC_CLOCK := 5.
Definition SYSCALL_GET_PROCESS_INFO := 6.
Definition SYSCALL_EXECUTE_PROGRAM := 7.
Definition SYSCALL_GET_THREADLOCAL_STORAGE_BASE := 0x100.
Definition SYSCALL_GET_THREADLOCAL_STORAGE_LENGTH := 0x101.
Definition SYSCALL_GET_PROGRAM_ARGUMENTS_BASE := 0x102.
Definition SYSCALL_GET_PROGRAM_ARGUMENTS_LENGTH := 0x103.
Definition SYSCALL_GET_ENVIRONMENT_VARIABLES_BASE := 0x104.
Definition SYSCALL_GET_ENVIRONMENT_VARIABLES_LENGTH := 0x105.
Definition SYSCALL_ALLOCATE_MEMORY := 0x200.
Definition SYSCALL_RELEASE_MEMORY := 0x201.
Definition SYSCALL_FORK := 0x300.
Definition SYSCALL_CREATE_THREAD := 0x301.
Definition SYSCALL_CREATE_EVENT := 0x302.
Definition SYSCALL_CREATE_SEMAPHORE := 0x303.
Definition SYSCALL_CREATE_PIPE := 0x304.
Definition SYSCALL_CREATE_TIMER := 0x305.
Definition SYSCALL_OBJECT_DUP := 0x400.
Definition SYSCALL_OBJECT_DUP2 := 0x401.
Definition SYSCALL_OBJECT_EXISTS := 0x402.
Definition SYSCALL_OBJECT_COMPARE := 0x403.
Definition SYSCALL_OBJECT_CLOSE := 0x404.
Definition SYSCALL_OBJECT_SHUTDOWN := 0x405.
Definition SYSCALL_OBJECT_GET_STATUS := 0x406.
Definition SYSCALL_OBJECT_WAIT := 0x407.
Definition SYSCALL_OBJECT_SIGNAL := 0x408.
Definition SYSCALL_OBJECT_WRITE := 0x409.
Definition SYSCALL_OBJECT_READ := 0x40A.
Definition SYSCALL_OBJECT_ATTACH_OBJ := 0x40B.
Definition SYSCALL_OBJECT_DETACH_OBJ := 0x40C.
Definition SYSCALL_CONSOLE_WRITE := 0x500.
Definition SYSCALL_CONSOLE_WRITE_RAW := 0x501.
Definition SYSCALL_CONSOLE_CLEAR := 0x502.
Definition SYSCALL_CONSOLE_GET_SIZE := 0x503.
Definition SYSCALL_CONSOLE_SET_COLOR := 0x504.
Definition SYSCALL_CONSOLE_GET_COLOR := 0x505.
Definition SYSCALL_CONSOLE_SET_CURSOR := 0x506.
Definition SYSCALL_CONSOLE_GET_CURSOR := 0x507.
Definition SYSCALL_CONSOLE_SET_HARDWARE_CURSOR := 0x508.
Definition SYSCALL_CONSOLE_GET_HARDWARE_CURSOR := 0x509.
Definition SYSCALL_CONSOLE_SET_FLAGS := 0x50A.
Definition SYSCALL_CONSOLE_GET_FLAGS := 0x50B.
Definition SYSCALL_FILESYSTEM_SEARCH_FILE := 0x600.
Definition SYSCALL_FILESYSTEM_SEARCH_DIRECTORY := 0x601.
Definition SYSCALL_FILESYSTEM_OPEN := 0x602.

Definition sizeof_processInfo := 36.

(** The bytes of a [struct processInfo]. *)
Definition info_bytes (i : processInfo) : list Z :=
  le32 (processID i) ++ le32 (pagesPhysical i) ++ le32 (pagesShared i) ++ le32 (pagesNoFork i) ++
  le32 (pagesReserved i) ++ le32 (pagesOutpaged i) ++ le32 (pi_handleCount i) ++
  le32 (numberOfTotalThreads i) ++ le32 (numberOfBlockedThreads i).

(** The 16-bit characters of a buffer. *)
Fixpoint words16 (bs : list Z) : list Z :=
  match bs with
  | a :: b :: bs => a + 256 * b :: words16 bs
  | _ => []
  end.

Section Syscall.
Context {mem : Type} `{Memory mem} `{UserMemory mem} `{Methods mem} `{Machine mem}.
Abbreviation KM := (KM mem).

(** [t->task.eax = v] *)
Definition set_return (t : oid) (v : Z) : KM unit := modify_thread t (set_result (u32 v)).
Definition set_return_bool (t : oid) (b : bool) : KM unit := set_return t (Z.b2z b).

Definition the_process (p : option oid) : KM oid := deref p "t->process".

(** [handleGet(&p->handles, handle)] *)
Definition lookup_handle (p : option oid) (handle : Z) : KM (option oid) :=
  let* p := the_process p in
  let* table := get_table p in
  lift (handleGet table handle).

(** [t->task.eax = handleAllocate(&p->handles, &o->obj)] *)
Definition return_handle (t : oid) (p : option oid) (o : oid) : KM unit :=
  let* p := the_process p in
  let* h := handleAllocate p o in
  set_return t h.

(** Handing out an object that was just created, or nothing. *)
Definition return_new (t : oid) (p : option oid) (r : option oid) : KM unit :=
  match r with
  | Some o => return_handle t p o ;; __objectRelease o
  | None => mret tt
  end.

(** [if (ACCESS_USER_MEMORY(&k, p, ...)) { body; RELEASE_USER_MEMORY(&k); }]; the
    argument of [body] is [k.addr], the result is the condition. *)
Definition mapped (ok : bool) (k : Z * Z) (body : Z → KM unit) : KM bool :=
  when ok (body (k.1) ;; with_memory (RELEASE_USER_MEMORY k)) ;; mret ok.

Definition access (p : option oid) (addr length : Z) (rw : bool) (body : Z → KM unit) : KM bool :=
  let* p := the_process p in
  let* ' (ok, k) := with_memory (ACCESS_USER_MEMORY p addr length rw) in
  mapped ok k body.

Definition access_struct (p : option oid) (addr count size : Z) (rw : bool) (body : Z → KM unit) : KM bool :=
  let* p := the_process p in
  let* r := with_memory (ACCESS_USER_MEMORY_STRUCT p addr count size rw) in
  match r with
  | Some (ok, k) => mapped ok k body
  | None => mret false
  end.

(** ** Executing a program *)

Definition process_with_arguments (base length : Z) (p : process) : process :=
  ProcessFields (pr_exitcode p) (pr_pageDirectory p) (pr_entryPoint p) base length
    (pr_environmentVariablesBase p) (pr_environmentVariablesLength p) (pr_handles p).
Definition process_with_environment (base length : Z) (p : process) : process :=
  ProcessFields (pr_exitcode p) (pr_pageDirectory p) (pr_entryPoint p)
    (pr_programArgumentsBase p) (pr_programArgumentsLength p) base length (pr_handles p).

(** New page tables with the pages of the kernel. *)
Definition fresh_page_tables (p : oid) : KM unit :=
  let* d := with_memory (pagingAllocProcessPageTable p) in
  modify_process p (process_with_pageDirectory d) ;;
  let map dst src n rw := with_memory (pagingMapRemoteMemory (Some p) None dst src n rw false) in
  map USERMODE_KERNELSTACK_ADDRESS kernelStack 1 true ;;
  map USERMODE_GDT_ADDRESS USERMODE_GDT_ADDRESS GDT_MAX_PAGES false ;;
  map USERMODE_IDT_ADDRESS USERMODE_IDT_ADDRESS 1 false ;;
  map USERMODE_INTJMP_ADDRESS intJmpTable_user 1 false ;;
  map USERMODE_TASK_ADDRESS USERMODE_TASK_ADDRESS 1 false ;;
  mret tt.

(** Copies a buffer of the old address space into new pages of [p]; [set] stores
    where they are. *)
Definition copy_argument (p : oid) (addr length : Z) (set : Z → Z → process → process) : KM unit :=
  let* ' (ok, k2) := with_memory (ACCESS_USER_MEMORY old_p addr length true) in
  if ok : bool then
    let n := Z.shiftr (u32 (length + PAGE_MASK)) PAGE_BITS in
    let* base := with_memory (pagingTryAllocatePhysMem p n true true) in
    modify_process p (set base n) ;;
    when (negb (base =? 0))
      (access (Some p) base length true (λ k,
         let* bs := with_memory (read_bytes (k2.1) length) in
         with_memory (write_bytes k bs)) ;; mret tt) ;;
    with_memory (RELEASE_USER_MEMORY k2)
  else modify_process p (set 0 0).

(** [t] starts again with the registers of a new thread. *)
Definition restart_thread (t p : oid) : KM unit :=
  let stackLength := Z.shiftr DEFAULT_STACK_SIZE PAGE_BITS in
  let tlsLength := Z.shiftr DEFAULT_TLB_SIZE PAGE_BITS in
  let* stack := with_memory (pagingAllocatePhysMem (Some p) stackLength true true) in
  let* tls := with_memory (pagingAllocatePhysMem (Some p) tlsLength true true) in
  let* cr3 := process_cr3 p in
  let* q := pointee as_process p in
  modify_thread t (λ th, ThreadFields (th_blocked th) (th_process th) (th_exitcode th) false stack stackLength tls tlsLength
    (initial_context cr3 (pr_entryPoint q) stack stackLength) (th_fpu th)).

Definition execute_program (t : oid) (p : option oid) (r : taskContext) : KM unit :=
  let* obj := lookup_handle p (ebx r) in
  let* f := fileSystemIsValidFile obj in
  match f with
  | None => mret tt
  | Some f =>
      let* proc := the_process p in
      let* q := pointee as_process proc in
      let* th := pointee as_thread t in
      assert (negb (pr_pageDirectory q =? 0)) "p->pageDirectory" ;;
      assert (negb (th_blocked th)) "!t->blocked" ;;
      assert (bool_decide (th_process th = Some proc)) "t->process == p" ;;
      with_memory (backup_page_tables proc) ;;
      modify_process proc (process_with_pageDirectory 0) ;;
      fresh_page_tables proc ;;
      let* file := pointee as_file f in
      let buf := match f_buffer file with Some b => b_data b | None => [] end in
      let* (loaded : bool) := elfLoadBinary proc buf (f_size file) in
      if negb loaded then
        with_memory (pagingReleaseProcessPageTable proc) ;;
        with_memory (restore_page_tables proc) ;;
        modify_process proc (process_with_pageDirectory (pr_pageDirectory q)) ;;
        modify_process proc (process_with_entryPoint (pr_entryPoint q))
      else
        copy_argument proc (ecx r) (edx r) process_with_arguments ;;
        copy_argument proc (esi r) (edi r) process_with_environment ;;
        with_memory (pagingReleaseProcessPageTable old_p) ;;
        for_each_safe loop_fuel (Threads proc) (λ o _,
          (if decide (t = o) then mret tt else __objectShutdown o (u32 (-3))) ;; mret (inl tt)) tt ;;
        restart_thread t proc
  end.

(** ** The groups of calls

    [r] are the registers of the thread; the result is the status of the
    interrupt, [None] for an unknown number. *)
Definition proceed {A} (m : KM A) : KM (option Z) := m ;; mret (Some INTERRUPT_CONTINUE_EXECUTION).

Definition syscall_task (t : oid) (p : option oid) (r : taskContext) (syscall : Z) : KM (option Z) :=
  if syscall =? SYSCALL_YIELD then set_return t 0 ;; mret (Some INTERRUPT_YIELD)
  else if syscall =? SYSCALL_EXIT_PROCESS then mret (Some INTERRUPT_EXIT_PROCESS)
  else if syscall =? SYSCALL_EXIT_THREAD then mret (Some INTERRUPT_EXIT_THREAD)
  else if syscall =? SYSCALL_GET_CURRENT_PROCESS then
    proceed (let* o := the_process p in return_handle t p o)
  else if syscall =? SYSCALL_GET_CURRENT_THREAD then proceed (return_handle t p t)
  else if syscall =? SYSCALL_GET_MONOTONIC_CLOCK then
    proceed (let* now := timerGetTimestamp in set_return t now)
  else if syscall =? SYSCALL_GET_PROCESS_INFO then
    proceed (access_struct p (ebx r) (ecx r) sizeof_processInfo true (λ k,
      let* ' (infos, n) := fill_processInfo (ecx r) in
      with_memory (write_bytes k (concat (info_bytes <$> infos))) ;;
      set_return t n))
  else if syscall =? SYSCALL_EXECUTE_PROGRAM then proceed (execute_program t p r)
  else mret None.

Definition syscall_memory (t : oid) (p : option oid) (r : taskContext) (syscall : Z) : KM (option Z) :=
  let of_process (f : process → Z) : KM unit :=
    let* p := the_process p in let* q := pointee as_process p in set_return t (f q) in
  let of_thread (f : thread → Z) : KM unit := let* th := pointee as_thread t in set_return t (f th) in
  if syscall =? SYSCALL_GET_THREADLOCAL_STORAGE_BASE then proceed (of_thread th_threadLocalBase)
  else if syscall =? SYSCALL_GET_THREADLOCAL_STORAGE_LENGTH then
    proceed (of_thread (λ th, Z.shiftl (th_threadLocalLength th) PAGE_BITS))
  else if syscall =? SYSCALL_GET_PROGRAM_ARGUMENTS_BASE then proceed (of_process pr_programArgumentsBase)
  else if syscall =? SYSCALL_GET_PROGRAM_ARGUMENTS_LENGTH then
    proceed (of_process (λ q, Z.shiftl (pr_programArgumentsLength q) PAGE_BITS))
  else if syscall =? SYSCALL_GET_ENVIRONMENT_VARIABLES_BASE then proceed (of_process pr_environmentVariablesBase)
  else if syscall =? SYSCALL_GET_ENVIRONMENT_VARIABLES_LENGTH then
    proceed (of_process (λ q, Z.shiftl (pr_environmentVariablesLength q) PAGE_BITS))
  else if syscall =? SYSCALL_ALLOCATE_MEMORY then
    proceed (let* p := the_process p in
             let* a := with_memory (pagingTryAllocatePhysMem p (ebx r) true true) in set_return t a)
  else if syscall =? SYSCALL_RELEASE_MEMORY then
    proceed (let* p := the_process p in
             let* b := with_memory (pagingTryReleaseUserMem p (ebx r) (ecx r)) in set_return_bool t b)
  else mret None.

Definition syscall_fork (t : oid) (p : option oid) : KM unit :=
  let* original := the_process p in
  let* new_p := processCreate (Some original) in
  match new_p with
  | None => mret tt
  | Some new_p =>
      let* new_t := threadCreate new_p (Some t) 0 in
      match new_t with
      | None => mret tt
      | Some new_t =>
          return_handle t p new_p ;;
          set_return new_t 0 ;;
          __objectRelease new_t
      end ;;
      __objectRelease new_p
  end.

(** The four argument registers of a new thread. *)
Definition set_arguments (a c d b : Z) (t : taskContext) : taskContext :=
  TaskContext (prevTask t) (esp0 t) (ss0 t) (esp1 t) (ss1 t) (esp2 t) (ss2 t)
    (cr3 t) (eip t) (eflags t) a c d b (esp t) (ebp t) (esi t) (edi t)
    (es t) (cs t) (ss t) (ds t) (fs t) (gs t) (ldt t) (iomap t).

Definition syscall_create (t : oid) (p : option oid) (r : taskContext) (syscall : Z) : KM (option Z) :=
  if syscall =? SYSCALL_FORK then proceed (syscall_fork t p)
  else if syscall =? SYSCALL_CREATE_THREAD then
    proceed (let* q := the_process p in
             let* new_t := threadCreate q None (ebx r) in
             match new_t with
             | None => mret tt
             | Some new_t =>
                 return_handle t p new_t ;;
                 modify_thread new_t (λ th, thread_with_task (set_arguments (ecx r) (esi r) (edi r) (edx r) (th_task th)) th) ;;
                 __objectRelease new_t
             end)
  else if syscall =? SYSCALL_CREATE_EVENT then
    proceed (let* o := eventCreate (negb (ebx r =? 0)) in return_new t p o)
  else if syscall =? SYSCALL_CREATE_SEMAPHORE then
    proceed (let* o := semaphoreCreate (ebx r) in return_new t p o)
  else if syscall =? SYSCALL_CREATE_PIPE then
    proceed (let* o := pipeCreate in return_new t p o)
  else if syscall =? SYSCALL_CREATE_TIMER then
    proceed (let* o := timerCreate (negb (ebx r =? 0)) in return_new t p o)
  else mret None.

(** [struct object *obj = handleGet(...); if (!obj) break; body] *)
Definition with_handle (p : option oid) (handle : Z) (body : oid → KM unit) : KM unit :=
  let* obj := lookup_handle p handle in
  match obj with Some obj => body obj | None => mret tt end.

(** The calls on an object that do not change which handles exist. *)
Definition syscall_use (t : oid) (p : option oid) (r : taskContext) (syscall : Z) : KM (option Z) :=
  if syscall =? SYSCALL_OBJECT_SHUTDOWN then
    let* obj := lookup_handle p (ebx r) in
    set_return_bool t (bool_decide (is_Some obj)) ;;
    match obj with Some obj => __objectShutdown obj (ecx r) | None => mret tt end ;;
    mret (Some (if bool_decide (obj = Some t) || (bool_decide (is_Some p) && bool_decide (obj = p))
                then INTERRUPT_YIELD else INTERRUPT_CONTINUE_EXECUTION))
  else if syscall =? SYSCALL_OBJECT_GET_STATUS then
    proceed (with_handle p (ebx r) (λ obj, let* v := __objectGetStatus obj (ecx r) in set_return t v))
  else if syscall =? SYSCALL_OBJECT_WAIT then
    let* obj := lookup_handle p (ebx r) in
    match obj with
    | Some obj => let* status := threadWait t obj (ecx r) in mret (Some status)
    | None => mret (Some INTERRUPT_CONTINUE_EXECUTION)
    end
  else if syscall =? SYSCALL_OBJECT_SIGNAL then
    proceed (let* obj := lookup_handle p (ebx r) in
             set_return_bool t (bool_decide (is_Some obj)) ;;
             match obj with Some obj => __objectSignal obj (ecx r) | None => mret tt end)
  else if syscall =? SYSCALL_OBJECT_WRITE then
    proceed (with_handle p (ebx r) (λ obj, access p (ecx r) (edx r) false (λ k,
      let* bs := with_memory (read_bytes k (edx r)) in
      let* n := __objectWrite obj bs (edx r) in set_return t n) ;; mret tt))
  else if syscall =? SYSCALL_OBJECT_READ then
    proceed (with_handle p (ebx r) (λ obj, access p (ecx r) (edx r) true (λ k,
      let* ' (n, bs) := __objectRead obj (edx r) in
      with_memory (write_bytes k bs) ;; set_return t n) ;; mret tt))
  else if syscall =? SYSCALL_OBJECT_ATTACH_OBJ then
    proceed (let* obj := lookup_handle p (ebx r) in
             let* subObj := lookup_handle p (ecx r) in
             let* b := match obj, subObj with
                       | Some obj, Some subObj => __objectAttachObj obj subObj (edx r) (esi r)
                       | _, _ => mret false
                       end in
             set_return_bool t b)
  else if syscall =? SYSCALL_OBJECT_DETACH_OBJ then
    proceed (with_handle p (ebx r) (λ obj, let* b := __objectDetachObj obj (ecx r) in set_return_bool t b))
  else mret None.

Definition syscall_object (t : oid) (p : option oid) (r : taskContext) (syscall : Z) : KM (option Z) :=
  if syscall =? SYSCALL_OBJECT_DUP then proceed (with_handle p (ebx r) (return_handle t p))
  else if syscall =? SYSCALL_OBJECT_DUP2 then
    proceed (with_handle p (ebx r) (λ obj,
      let* q := the_process p in
      let* b := handleSet q (ecx r) obj in set_return_bool t b))
  else if syscall =? SYSCALL_OBJECT_EXISTS then
    proceed (let* obj := lookup_handle p (ebx r) in set_return_bool t (bool_decide (is_Some obj)))
  else if syscall =? SYSCALL_OBJECT_COMPARE then
    proceed (let* obj1 := lookup_handle p (ebx r) in
             let* obj2 := lookup_handle p (ecx r) in
             when (bool_decide (is_Some obj1) || bool_decide (is_Some obj2)) (set_return_bool t (bool_decide (obj1 = obj2))))
  else if syscall =? SYSCALL_OBJECT_CLOSE then
    proceed (let* q := the_process p in
             let* b := handleRelease q (ebx r) in set_return_bool t b)
  else syscall_use t p r syscall.

Definition syscall_console (t : oid) (p : option oid) (r : taskContext) (syscall : Z) : KM (option Z) :=
  if syscall =? SYSCALL_CONSOLE_WRITE then
    proceed (let* (ok : bool) := access p (ebx r) (ecx r) true (λ k,
               let* bs := with_memory (read_bytes k (ecx r)) in
               with_console (consoleWriteStringLen bs (Z.to_nat (ecx r)))) in
             when ok (set_return t (ecx r)))
  else if syscall =? SYSCALL_CONSOLE_WRITE_RAW then
    proceed (let* (ok : bool) := access_struct p (ebx r) (ecx r) 2 true (λ k,
               let* bs := with_memory (read_bytes k (2 * ecx r)) in
               with_console (consoleWriteRawLen (words16 bs) (Z.to_nat (ecx r)))) in
             when ok (set_return t (ecx r)))
  else if syscall =? SYSCALL_CONSOLE_CLEAR then proceed (with_console consoleClear)
  else if syscall =? SYSCALL_CONSOLE_GET_SIZE then proceed (set_return t consoleGetSize)
  else if syscall =? SYSCALL_CONSOLE_SET_COLOR then proceed (with_console (consoleSetColor (ebx r)))
  else if syscall =? SYSCALL_CONSOLE_GET_COLOR then
    proceed (let* v := with_console consoleGetColor in set_return t v)
  else if syscall =? SYSCALL_CONSOLE_SET_CURSOR then
    proceed (with_console (consoleSetCursorPos (ebx r) (ecx r)) ;; mret tt)
  else if syscall =? SYSCALL_CONSOLE_GET_CURSOR then
    proceed (let* v := with_console consoleGetCursorPos in set_return t v)
  else if syscall =? SYSCALL_CONSOLE_SET_HARDWARE_CURSOR then
    proceed (with_console (consoleSetHardwareCursor (ebx r) (ecx r)))
  else if syscall =? SYSCALL_CONSOLE_GET_HARDWARE_CURSOR then
    proceed (let* v := with_console consoleGetHardwareCursor in set_return t v)
  else if syscall =? SYSCALL_CONSOLE_SET_FLAGS then proceed (with_console (consoleSetFlags (ebx r)))
  else if syscall =? SYSCALL_CONSOLE_GET_FLAGS then
    proceed (let* v := with_console consoleGetFlags in set_return t v)
  else mret None.

Definition syscall_filesystem (t : oid) (p : option oid) (r : taskContext) (syscall : Z) : KM (option Z) :=
  (* the buffer stays mapped *)
  let search (find : option oid → list Z → Z → bool → KM (option oid)) : KM unit :=
    let* obj := lookup_handle p (ebx r) in
    let* directory := fileSystemIsValidDirectory obj in
    let* q := the_process p in
    let* ' (ok, k) := with_memory (ACCESS_USER_MEMORY q (ecx r) (edx r) true) in
    when ok (let* path := with_memory (read_bytes (k.1) (edx r)) in
             let* o := find directory path (edx r) (negb (esi r =? 0)) in
             return_new t p o) in
  if syscall =? SYSCALL_FILESYSTEM_SEARCH_FILE then proceed (search fileSystemSearchFile)
  else if syscall =? SYSCALL_FILESYSTEM_SEARCH_DIRECTORY then proceed (search fileSystemSearchDirectory)
  else if syscall =? SYSCALL_FILESYSTEM_OPEN then
    proceed (let* obj := lookup_handle p (ebx r) in
             let* f := fileSystemIsValidFile obj in
             match f with
             | Some f => let* o := fileOpen f in return_new t p o
             | None =>
                 let* d := fileSystemIsValidDirectory obj in
                 match d with
                 | Some d => let* o := directoryOpen d in return_new t p o
                 | None => mret tt
                 end
             end)
  else mret None.

(** The switch over the numbers. *)
Definition syscall_switch (t : oid) (p : option oid) (r : taskContext) (syscall : Z) : KM (option Z) :=
  match Z.shiftr syscall 8 with
  | 0 => syscall_task t p r syscall
  | 1 | 2 => syscall_memory t p r syscall
  | 3 => syscall_create t p r syscall
  | 4 => syscall_object t p r syscall
  | 5 => syscall_console t p r syscall
  | 6 => syscall_filesystem t p r syscall
  | _ => mret None
  end.

Definition interrupt_0x80 (t : option oid) : KM Z :=
  match t with
  | None => mret INTERRUPT_UNHANDLED
  | Some t =>
      let* th := pointee as_thread t in
      let r := th_task th in
      set_return t (-1) ;;
      let* status := syscall_switch t (th_process th) r (eax r) in
      mret (default INTERRUPT_UNHANDLED status)
  end.
End Syscall.
