(* ===== verification/Interrupt.v ===== *)
(** * interrupt.c and gdt.c: interrupts

    Models the table of handlers and the dispatcher of
    src/kernelmode/kernel/interrupt/interrupt.c, the handlers for the floating
    point unit, and the functions of hardware/gdt.c that run a thread until its
    next interrupt and handle the interrupts of the kernel itself. The processor is
    the interface [Cpu]; with it the file implements the interfaces [Machine] and
    [UserMode] of the scheduler. *)

From S2P Require Import Prelude Io Console LinkedList Kernel Timer Thread Process Elf FileSystem Dispatch PhysMem Devices Pic Keyboard Syscall.
Open Scope Z_scope.

Definition GDT_CPL_MASK := 3.
Definition GDT_CPL_RING3 := 3.
Definition USERMODE_INTJMP_ENABLE_FPU := USERMODE_INTJMP_ADDRESS + 2048.
Definition INTJMP_ENTRY_MASK := 7.
Definition INTJMP_ENTRY_BITS := 3.

(** The instructions behind the assembly of these files, and what the linker and
    [gdtInit] fix. [run_user_task] is the far jump to the task of user mode, which
    ends with the next interrupt: what the processor has stored then in the task
    segment and on the stack of the kernel. [wait_interrupt] is [hlt]: the number,
    the error code and the interrupted registers. *)
Class Cpu (pages : Type) := {
  codeRing0_offset : Z;
  usermodeTask_offset : Z;
  cpu_dataRing0 : Z;
  cpu_codeRing3 : Z;
  cpu_dataRing3 : Z;
  cpu_kernelStack : Z;
  cpu_intJmpTable_user : Z;
  KERNEL_IDLE_BEGIN : Z;
  KERNEL_IDLE_END : Z;
  clts : M pages unit;
  fnsave_fwait : M pages Z;
  frstor : Z → M pages unit;
  fninit : M pages unit;
  read_cr2 : M pages Z;
  run_user_task : Z → taskContext → list Z → M pages (taskContext * list Z);
  wait_interrupt : M pages (Z * Z * taskContext);
}.

(** The handler of page faults, [interrupt_0x0E] of paging.c, for a process. *)
Class PageFaults (pages : Type) := { page_fault : Z → option oid → Z → M pages Z }.

Section Instances.
Context {pages : Type} `{Cpu pages}.

Definition cpu {A} (m : M pages A) : KM (platform pages) A := with_memory (with_pages m).

#[export] Instance platform_machine : Machine (platform pages) := {|
  dataRing0_offset := cpu_dataRing0;
  codeRing3_offset := cpu_codeRing3;
  dataRing3_offset := cpu_dataRing3;
  kernelStack := cpu_kernelStack;
  intJmpTable_user := cpu_intJmpTable_user;
  fnsave := cpu (clts ;; fnsave_fwait);
|}.
End Instances.

Section Interrupt.
Context {pages : Type} `{Memory pages} `{UserMemory pages} `{Cpu pages} `{PageFaults pages}.
Context `{Methods (platform pages)}.
Abbreviation KM := (KM (platform pages)).

(** ** The floating point unit *)

Definition thread_with_fpuInitialized (t : thread) : thread :=
  ThreadFields (th_blocked t) (th_process t) (th_exitcode t) true (th_ring3StackBase t) (th_ring3StackLength t)
    (th_threadLocalBase t) (th_threadLocalLength t) (th_task t) (th_fpu t).

(** [fpu.statusWord &= fpu.controlWord | 0xff80]: the control word is at byte 0 of
    [struct fpuContext], the status word at byte 4. *)
Definition mask_status (f : Z) : Z :=
  let controlWord := Z.land f 0xffff in
  let statusWord := Z.land (Z.shiftr f 32) 0xffff in
  set_field 32 0xffff f (Z.land statusWord (Z.lor controlWord 0xff80)).

Definition save_fpu (o : oid) : KM unit :=
  let* f := cpu fnsave_fwait in modify_thread o (thread_with_fpu f).

Definition interrupt_0x07 (t : option oid) : KM Z :=
  match t with
  | None => mret INTERRUPT_UNHANDLED
  | Some t =>
      let* last := gets lastFPUthread in
      when (negb (bool_decide (last = Some t)))
        (cpu clts ;;
         match last with Some last => save_fpu last | None => mret tt end ;;
         let* th := pointee as_thread t in
         (if th_fpuInitialized th then
            modify_thread t (thread_with_fpu (mask_status (th_fpu th))) ;;
            cpu (frstor (mask_status (th_fpu th)))
          else
            cpu fninit ;;
            modify_thread t thread_with_fpuInitialized) ;;
         modify (set_lastFPU (Some t))) ;;
      mret INTERRUPT_CONTINUE_EXECUTION
  end.

Definition interrupt_0x10 (t : option oid) : KM Z :=
  match t with
  | None => mret INTERRUPT_UNHANDLED
  | Some t =>
      let* last := gets lastFPUthread in
      assert (bool_decide (last = Some t)) "t == lastFPUthread" ;;
      cpu clts ;;
      save_fpu t ;;
      mret INTERRUPT_UNHANDLED
  end.

Definition interrupt_0x0E (error : Z) (t : option oid) : KM Z :=
  let* p := match t with
            | Some t => let* th := pointee as_thread t in mret (th_process th)
            | None => mret None
            end in
  let* cr2 := cpu read_cr2 in
  cpu (page_fault error p cr2).

(** ** The dispatcher *)

Definition initial_interruptTable : list (option interrupt_callback) :=
  (λ i, if i =? 0x07 then Some Interrupt_0x07
        else if i =? 0x0e then Some Interrupt_0x0E
        else if i =? 0x10 then Some Interrupt_0x10
        else if i =? 0x80 then Some Interrupt_0x80
        else None) <$> seqZ 0 IDT_MAX_COUNT.

Definition call_irq (callback : irq_callback) (irq : Z) : KM Z :=
  match callback with
  | Keyboard_irq => keyboard_irq irq
  | Timer_irq => timer_irq irq
  end.

Definition call_interrupt (callback : interrupt_callback) (interrupt error : Z) (t : option oid) : KM Z :=
  match callback with
  | Interrupt_0x07 => interrupt_0x07 t
  | Interrupt_0x0E => interrupt_0x0E error t
  | Interrupt_0x10 => interrupt_0x10 t
  | Interrupt_0x80 => interrupt_0x80 t
  | Interrupt_irq => interrupt_irq call_irq interrupt
  end.

Definition set_ebx (v : Z) (t : taskContext) : taskContext :=
  set_arguments (eax t) (ecx t) (edx t) v t.

Definition dispatchInterrupt (interrupt error : Z) (t : option oid) : KM Z :=
  let* d := get_dev in
  let* callback := deref (nthZ (interruptTable d) interrupt) "interruptTable" in
  let* status := match callback with
                 | Some callback => call_interrupt callback interrupt error t
                 | None => mret INTERRUPT_UNHANDLED
                 end in
  match t with
  | Some t =>
      if status =? INTERRUPT_UNHANDLED then
        modify_thread t (λ th, thread_with_task (set_ebx (u32 (-2)) (th_task th)) th) ;;
        mret INTERRUPT_EXIT_PROCESS
      else mret status
  | None => mret status
  end.

(** ** Threads and the kernel (gdt.c) *)

(** The registers that an interrupt saves on the stack. *)
Definition set_frame_regs (ip c flags sp s : Z) (t : taskContext) : taskContext :=
  TaskContext (prevTask t) (esp0 t) (ss0 t) (esp1 t) (ss1 t) (esp2 t) (ss2 t)
    (cr3 t) ip flags (eax t) (ecx t) (edx t) (ebx t) sp (ebp t) (esi t) (edi t)
    (es t) (u16 c) (u16 s) (ds t) (fs t) (gs t) (ldt t) (iomap t).

(** Word [i] of the stack of the kernel from the address [sp] of user mode on. *)
Definition stack_word (stack : list Z) (sp i : Z) : KM Z :=
  deref (nthZ stack ((sp - USERMODE_KERNELSTACK_ADDRESS) / 4 + i)) "kernelStack".

(** The task that user mode starts with: directly, or through the code that
    enables the floating point unit and then returns with [iret]. *)
Definition start_task (fpu : bool) (task : taskContext) (stack : list Z) : taskContext * list Z :=
  if fpu then
    let sp := USERMODE_KERNELSTACK_LIMIT - 5 * 4 in
    let i := (PAGE_SIZE - 5 * 4) / 4 in
    (set_frame_regs USERMODE_INTJMP_ENABLE_FPU codeRing0_offset 0 sp cpu_dataRing0 task,
     setZ (setZ (setZ (setZ (setZ stack i (eip task)) (i + 1) (cs task)) (i + 2) (eflags task)) (i + 3) (esp task)) (i + 4) (ss task))
  else (task, stack).

Definition tssRunUsermodeThread (t : oid) : KM Z :=
  let* th := pointee as_thread t in
  let* last := gets lastFPUthread in
  let* d := get_dev in
  let ' (task, stack) := start_task (bool_decide (last = Some t)) (th_task th) (kernelStackWords d) in
  let* ' (task, stack) := cpu (run_user_task usermodeTask_offset task stack) in
  modify_dev (set_task task stack) ;;
  modify_thread t (thread_with_task task) ;;
  assert (ss task =? ss0 task) "TSS_user->ss == t->task.ss0" ;;
  let interrupt := u32 (eip task - (USERMODE_INTJMP_ADDRESS + 7)) in
  assert (Z.land interrupt INTJMP_ENTRY_MASK =? 0) "(interrupt & INTJMP_ENTRY_MASK) == 0" ;;
  let interrupt := Z.shiftr interrupt INTJMP_ENTRY_BITS in
  assert (Z.land interrupt (Z.lnot 255) =? 0) "(interrupt & ~255) == 0" ;;
  let arg := stack_word stack (esp task) in
  let restore i :=
    let* ip := arg i in let* c := arg (i + 1) in let* flags := arg (i + 2) in
    let* sp := arg (i + 3) in let* s := arg (i + 4) in
    modify_thread t (thread_with_task (set_frame_regs ip c flags sp s task)) in
  let* error :=
    (if esp task =? USERMODE_KERNELSTACK_LIMIT - 6 * 4 then let* e := arg 0 in restore 1 ;; mret e
     else if esp task =? USERMODE_KERNELSTACK_LIMIT - 5 * 4 then restore 0 ;; mret 0
     else panic "error_usermodeInterruptInvalid") in
  let* th := pointee as_thread t in
  assert (Z.land (cs (th_task th)) GDT_CPL_MASK =? GDT_CPL_RING3) "(t->task.cs & GDT_CPL_MASK) == GDT_CPL_RING3" ;;
  assert (Z.land (ss (th_task th)) GDT_CPL_MASK =? GDT_CPL_RING3) "(t->task.ss & GDT_CPL_MASK) == GDT_CPL_RING3" ;;
  dispatchInterrupt interrupt error (Some t).

Definition set_eip_eflags (ip flags : Z) (t : taskContext) : taskContext :=
  TaskContext (prevTask t) (esp0 t) (ss0 t) (esp1 t) (ss1 t) (esp2 t) (ss2 t)
    (cr3 t) ip flags (eax t) (ecx t) (edx t) (ebx t) (esp t) (ebp t) (esi t) (edi t)
    (es t) (cs t) (ss t) (ds t) (fs t) (gs t) (ldt t) (iomap t).

(** The result is the context that the kernel continues with. *)
Definition __dispatchKernelInterrupt (interrupt error : Z) (context : taskContext) : KM taskContext :=
  let* status := dispatchInterrupt interrupt error None in
  if negb (status =? INTERRUPT_CONTINUE_EXECUTION) && negb (status =? INTERRUPT_YIELD) then
    panic "error_unhandledKernelInterrupt"
  else if (KERNEL_IDLE_BEGIN <=? eip context) && (eip context <? KERNEL_IDLE_END) then
    mret (set_eip_eflags KERNEL_IDLE_END (Z.land (eflags context) (Z.lnot (Z.shiftl 1 9))) context)
  else mret context.

(** [sti], and [hlt] until the interrupted context continues behind the loop. *)
Fixpoint tssKernelIdle (fuel : nat) : KM unit :=
  match fuel with
  | O => no_fuel
  | S fuel =>
      let* ' (interrupt, error, context) := cpu wait_interrupt in
      let* context := __dispatchKernelInterrupt interrupt error context in
      if eip context =? KERNEL_IDLE_END then mret tt else tssKernelIdle fuel
  end.

#[export] Instance platform_userMode : UserMode (platform pages) := {|
  Thread.tssRunUsermodeThread := tssRunUsermodeThread;
  Thread.tssKernelIdle := tssKernelIdle loop_fuel;
|}.
End Interrupt.
