(* ===== verification/Main.v ===== *)
(** * main.c: starting the kernel

    Models src/kernelmode/kernel/main.c from the point on where the memory, the
    page tables and the descriptor tables are set up ([physMemInit], [pagingInit]
    and [gdtInit] are theorems' subjects of their own files, on their own states):
    the standard input and output, the devices, the boot archive, the first
    process, and the scheduler. *)

From S2P Require Import Prelude Io Console LinkedList Kernel Pipe Handle Thread Process Elf FileSystem Dispatch Devices Pic Keyboard Interrupt.
Open Scope Z_scope.

(** The bits of the register CR0 for the floating point unit. *)
Definition fpuInit (cr0 : Z) : Z :=
  Z.lor (Z.lor (Z.lor (Z.land cr0 (Z.lnot (Z.shiftl 1 2))) (Z.shiftl 1 5)) (Z.shiftl 1 3)) (Z.shiftl 1 1).

Section Main.
Context {pages : Type} `{Memory pages} `{UserMemory pages} `{Cpu pages} `{PageFaults pages}.
Context `{Methods (platform pages)}.
Abbreviation KM := (KM (platform pages)).

Definition loadELFModule (addr : list Z) (length : Z) : KM (option oid) :=
  let* p := processCreate None in
  match p with
  | None => mret None
  | Some p =>
      let* (ok : bool) := elfLoadBinary p addr length in
      assert ok "elfLoadBinary(p, addr, length)" ;;
      let* q := pointee as_process p in
      let* t := threadCreate p None (pr_entryPoint q) in
      match t : option oid with Some t => __objectRelease t | None => mret tt end ;;
      __objectRelease p ;;
      mret (match t with Some _ => Some p | None => None end)
  end.

(** [init] and [archive] are the two modules of the boot loader; [fuel] bounds the
    waiting for the keyboard and the passes of the scheduler. *)
Definition kernel_main (fuel : nat) (init archive : list Z) : KM unit :=
  let* stdout := stdoutCreate in
  let* stdin := pipeCreate in
  picInit 0x20 ;;
  keyboardInit fuel stdin ;;
  timerInit ;;
  fileSystemInit archive (lenZ archive) ;;
  let* initProcess := loadELFModule init (lenZ init) in
  match initProcess with
  | None => panic "initProcess"
  | Some p =>
      let* stdin := deref stdin "stdin" in
      let* stdout := deref stdout "stdout" in
      handleSet p 0 stdin ;;
      handleSet p 1 stdout ;;
      handleSet p 2 stdout ;;
      threadSchedule fuel ;;
      with_console (consoleWriteString ([10; 10] ++
        literal "The last process was terminated. You can now safely reboot your computer." ++ [10; 0]))
  end.
End Main.
