(* ===== verification/Waiting.v ===== *)
(** * Blocked threads and wait queues

    The invariant that ties the state of the threads and sub events to the
    queues they are linked in, and what [queueWakeup] does to a system that
    satisfies it. The wait queues of an event may hold sub events of other
    events; a rank that decreases along these links is what makes waking up
    end. *)

From S2P Require Import Prelude LinkedList Kernel Semaphore Event Timer Pipe Thread Dispatch.
Open Scope Z_scope.

(** The object whose [wait] method hands out a queue. *)
Definition wait_queue (l : node) : option oid :=
  match l with
  | Waiters o | WriteWaiters o | ReadWaiters o => Some o
  | _ => None
  end.

(** What the invariant needs to know of an object. *)
Inductive wstate :=
  | WThread (alive blocked : bool)
  | WSub (blocked : bool) (event : oid)
  | WEvent
  | WTimer (active : bool)
  | WOther.

Definition wstate_of (b : body) : wstate :=
  match b with
  | Thread t => WThread (bool_decide (is_Some (th_process t))) (th_blocked t)
  | SubEvent s => WSub (s_blocked s) (s_event s)
  | Event _ => WEvent
  | Timer t => WTimer (t_active t)
  | _ => WOther
  end.

Abbreviation view := (gmap oid wstate).

Definition view_of {mem} (k : kernel mem) : view := (λ x, wstate_of (obj_body x)) <$> objs k.

(** [located qs n p]: [n] is an element of queue [p], or of none. *)
Definition located (qs : queues node) (n : node) (p : option node) : Prop :=
  match p with
  | Some l => ∃ xs, qs !! l = Some xs ∧ n ∈ xs
  | None => free_node qs n
  end.

(** Where the link of an object in some state may be. [None]: anywhere, but in
    no queue the scheduler or a wait uses. *)
Definition allowed (rank : oid → nat) (v : view) (qs : queues node) (s : wstate) (p : option node) : Prop :=
  match s with
  | WThread true true => ∃ l w, p = Some l ∧ wait_queue l = Some w
  | WThread true false => p = Some ThreadList
  | WThread false _ => p = None
  | WSub true e => ∃ l w, p = Some l ∧ wait_queue l = Some w ∧ (rank e < rank w)%nat ∧
                   v !! e = Some WEvent ∧ is_Some (qs !! Waiters e)
  | WSub false _ => p = None
  | WTimer b => p = if b then Some TimerList else None
  | WEvent | WOther => True
  end.

Definition schedulable (s : wstate) : bool :=
  match s with WThread _ _ | WSub _ _ | WTimer _ => true | WEvent | WOther => false end.

Definition sched_queue (l : node) : Prop :=
  l = ThreadList ∨ l = TimerList ∨ is_Some (wait_queue l).

Record wf_view (rank : oid → nat) (v : view) (qs : queues node) : Prop := {
  wf_ok : q_ok qs;
  wf_threads : is_Some (qs !! ThreadList);
  wf_timers : is_Some (qs !! TimerList);
  wf_place o s : v !! o = Some s → schedulable s = true →
    ∃ p, located qs (Entry o) p ∧ allowed rank v qs s p;
  wf_elem l xs n : sched_queue l → qs !! l = Some xs → n ∈ xs →
    ∃ o s, n = Entry o ∧ v !! o = Some s ∧ schedulable s = true;
}.

(** The invariant of the kernel state. *)
Definition wf {mem} (rank : oid → nat) (k : kernel mem) : Prop := wf_view rank (view_of k) (qs k).

(** ** Locations *)

Lemma located_inj qs n p p' : q_ok qs → located qs n p → located qs n p' → p = p'.
Proof.
  intros [Hnd Hq] Hp Hp'. destruct p as [l|], p' as [l'|]; simpl in *.
  - destruct Hp as (xs & Hl & Hn), Hp' as (xs' & Hl' & Hn'). f_equal.
    apply (Hq l l' xs xs' n Hl Hl'); set_solver.
  - destruct Hp as (xs & Hl & Hn). apply Hp' in Hl. set_solver.
  - destruct Hp' as (xs & Hl & Hn). apply Hp in Hl. set_solver.
  - done.
Qed.

(** An element of a scheduler queue is in a state that allows it. *)
Lemma wf_elem_allowed rank v qs l xs n :
  wf_view rank v qs → sched_queue l → qs !! l = Some xs → n ∈ xs →
  ∃ o s, n = Entry o ∧ v !! o = Some s ∧ schedulable s = true ∧ allowed rank v qs s (Some l).
Proof.
  intros Hwf Hs Hl Hn. destruct (wf_elem _ _ _ Hwf l xs n Hs Hl Hn) as (o & s & -> & Ho & Hsc).
  destruct (wf_place _ _ _ Hwf o s Ho Hsc) as (p & Hp & Ha).
  exists o, s. split_and!; [done..|].
  rewrite (located_inj qs (Entry o) (Some l) p (wf_ok _ _ _ Hwf)); [done| |done]. by exists xs.
Qed.

(** Moving the link of one object and changing its state. *)
Lemma wf_move rank v qs qs' o s s' p p' :
  wf_view rank v qs → v !! o = Some s → schedulable s = true → schedulable s' = true →
  q_ok qs' → (∀ l, is_Some (qs !! l) → is_Some (qs' !! l)) →
  (∀ n q, n ≠ Entry o → located qs n q → located qs' n q) →
  (∀ l xs' n, n ≠ Entry o → qs' !! l = Some xs' → n ∈ xs' → ∃ xs, qs !! l = Some xs ∧ n ∈ xs) →
  located qs' (Entry o) p' → allowed rank v qs s' p' →
  located qs (Entry o) p →
  wf_view rank (<[o := s']> v) qs'.
Proof.
  intros Hwf Ho Hs Hs' Hok Hdom Hkeep Hback Hp' Ha Hp.
  assert (Hev : ∀ s p, allowed rank v qs s p → allowed rank (<[o := s']> v) qs' s p).
  { intros [[] []|[] e| |b|] q; simpl; try done.
    intros (l & w & ? & ? & ? & He & Hq). exists l, w. split_and!; [done..| |by apply Hdom].
    rewrite lookup_insert_ne; [done|]. intros ->. rewrite Ho in He. by simplify_eq. }
  constructor.
  - done.
  - apply Hdom. by eapply wf_threads.
  - apply Hdom. by eapply wf_timers.
  - intros o2 s2 [[<- <-]|[Hne Ho2]]%lookup_insert_Some Hs2; [eauto|].
    destruct (wf_place _ _ _ Hwf o2 s2 Ho2 Hs2) as (q & Hq & Haq).
    exists q. split; [apply Hkeep; [congruence|done]|by apply Hev].
  - intros l xs' n Hl Hxs' Hn. destruct (decide (n = Entry o)) as [->|Hne].
    + exists o, s'. by rewrite lookup_insert_eq.
    + destruct (Hback l xs' n Hne Hxs' Hn) as (xs & Hxs & Hn').
      destruct (wf_elem _ _ _ Hwf l xs n Hl Hxs Hn') as (o2 & s2 & -> & Ho2 & Hs2).
      exists o2, s2. rewrite lookup_insert_ne by congruence. done.
Qed.

Section Moves.
Context (rank : oid → nat).
Implicit Types (v : view) (qs : queues node).

(** Unlinking an object that stays unlinked. *)
Lemma wf_unlink v qs o s s' l xs ys :
  wf_view rank v qs → v !! o = Some s → schedulable s = true → schedulable s' = true →
  qs !! l = Some (xs ++ Entry o :: ys) → allowed rank v qs s' None →
  wf_view rank (<[o := s']> v) (<[l := xs ++ ys]> qs).
Proof.
  intros Hwf Ho Hs Hs' Hl Ha. pose proof (wf_ok _ _ _ Hwf) as Hok.
  apply (wf_move rank v qs _ o s s' (Some l) None); try done.
  - by eapply q_ok_removed.
  - intros l' Hl'. destruct (decide (l' = l)) as [->|]; [rewrite lookup_insert_eq; eauto|].
    by rewrite lookup_insert_ne.
  - intros n [l'|] Hne; simpl.
    + intros (zs & Hl' & Hn). destruct (decide (l' = l)) as [->|].
      * exists (xs ++ ys). rewrite lookup_insert_eq. split; [done|]. rewrite Hl in Hl'. set_solver.
      * exists zs. by rewrite lookup_insert_ne.
    + intros Hf l' zs [[<- <-]|[? Hl']]%lookup_insert_Some; [|by apply (Hf _ _ Hl')].
      specialize (Hf _ _ Hl). set_solver.
  - intros l' zs n Hne [[<- <-]|[? Hl']]%lookup_insert_Some Hn; [|eauto].
    exists (xs ++ Entry o :: ys). split; [done|set_solver].
  - by eapply free_removed.
  - exists (xs ++ Entry o :: ys). split; [done|set_solver].
Qed.

(** Linking an object that was not linked; [zs] is the queue with it. *)
Lemma wf_link v qs o s s' l xs zs :
  wf_view rank v qs → v !! o = Some s → schedulable s = true → schedulable s' = true →
  free_node qs (Entry o) → qs !! l = Some xs → zs ≡ₚ Entry o :: xs →
  allowed rank v qs s' (Some l) →
  wf_view rank (<[o := s']> v) (<[l := zs]> qs).
Proof.
  intros Hwf Ho Hs Hs' Hf Hl Hzs Ha. pose proof (wf_ok _ _ _ Hwf) as Hok.
  apply (wf_move rank v qs _ o s s' None (Some l)); try done.
  - by eapply q_ok_added.
  - intros l' Hl'. destruct (decide (l' = l)) as [->|]; [rewrite lookup_insert_eq; eauto|].
    by rewrite lookup_insert_ne.
  - intros n [l'|] Hne; simpl.
    + intros (ws & Hl' & Hn). destruct (decide (l' = l)) as [->|].
      * exists zs. rewrite lookup_insert_eq. split; [done|]. rewrite Hl in Hl'. simplify_eq.
        rewrite Hzs. set_solver.
      * exists ws. by rewrite lookup_insert_ne.
    + intros Hfn l' ws [[<- <-]|[? Hl']]%lookup_insert_Some; [|by apply (Hfn _ _ Hl')].
      specialize (Hfn _ _ Hl). rewrite Hzs. set_solver.
  - intros l' ws n Hne [[<- <-]|[? Hl']]%lookup_insert_Some Hn; [|eauto].
    exists xs. split; [done|]. rewrite Hzs in Hn. set_solver.
  - exists zs. rewrite lookup_insert_eq. split; [done|]. rewrite Hzs. set_solver.
Qed.

(** Waking up a blocked thread: from its wait queue to the end of the list of
    runnable threads. *)
Lemma wf_wake v qs o l w xs ys ts :
  wf_view rank v qs → v !! o = Some (WThread true true) → wait_queue l = Some w →
  qs !! l = Some (xs ++ Entry o :: ys) → qs !! ThreadList = Some ts →
  wf_view rank (<[o := WThread true false]> v)
    (<[ThreadList := ts ++ [Entry o]]> (<[l := xs ++ ys]> qs)).
Proof.
  intros Hwf Ho Hw Hl Ht.
  rewrite <-(insert_insert_eq v o (WThread true false) (WThread false false)).
  eapply wf_link; [|by rewrite lookup_insert_eq|done|done| | | |done].
  - by eapply wf_unlink.
  - eapply free_removed; [by eapply wf_ok|done].
  - rewrite lookup_insert_ne; [done|]. intros ->. done.
  - by rewrite Permutation_app_comm.
Qed.

(** Blocking a running thread on a wait queue. *)
Lemma wf_block v qs o l w xs ys ws :
  wf_view rank v qs → v !! o = Some (WThread true false) → wait_queue l = Some w →
  qs !! ThreadList = Some (xs ++ Entry o :: ys) → qs !! l = Some ws →
  wf_view rank (<[o := WThread true true]> v)
    (<[l := Entry o :: ws]> (<[ThreadList := xs ++ ys]> qs)).
Proof.
  intros Hwf Ho Hw Ht Hl.
  rewrite <-(insert_insert_eq v o (WThread true true) (WThread false false)).
  eapply wf_link; [|by rewrite lookup_insert_eq|done|done| | |reflexivity|by exists l, w].
  - by eapply wf_unlink.
  - eapply free_removed; [by eapply wf_ok|done].
  - rewrite lookup_insert_ne; [done|]. intros <-. done.
Qed.
End Moves.

(** ** What waking up changes *)

(** An object before and after some threads and sub events have been woken up. *)
Inductive wake_body : body → body → Prop :=
  | wake_same b : wake_body b b
  | wake_thread t eax : th_blocked t = true →
      wake_body (Thread t) (Thread (set_result eax (thread_with_blocked false t)))
  | wake_sub s :
      wake_body (SubEvent s) (SubEvent (SubEventFields false (s_event s) (s_wait s) (s_waitMode s) (s_identifier s)))
  | wake_event e v : wake_body (Event e) (Event (EventFields v (e_wakeupAll e))).

Lemma wake_body_trans b1 b2 b3 : wake_body b1 b2 → wake_body b2 b3 → wake_body b1 b3.
Proof.
  intros [] H23; [done|inversion H23; subst..]; simpl in *; try done; by constructor.
Qed.

Definition wake_object (x x' : object) : Prop :=
  refcount x' = refcount x ∧ wake_body (obj_body x) (obj_body x').

Section Woken.
Context {mem : Type}.
Implicit Types k : kernel mem.

(** Wait queues only lose elements, the list of runnable threads only gains
    some at its end, and everything else is as before. *)
Record woken k k' : Prop := {
  wk_objs o : option_Forall2 wake_object (objs k !! o) (objs k' !! o);
  wk_wait l xs : is_Some (wait_queue l) → qs k !! l = Some xs →
    ∃ xs', qs k' !! l = Some xs' ∧ xs' `sublist_of` xs;
  wk_run ts : qs k !! ThreadList = Some ts → ∃ new, qs k' !! ThreadList = Some (ts ++ new);
  wk_other l : wait_queue l = None → l ≠ ThreadList → qs k' !! l = qs k !! l;
  wk_none l : qs k !! l = None → qs k' !! l = None;
  wk_rest : currentKernelTimestamp k' = currentKernelTimestamp k ∧ lastFPUthread k' = lastFPUthread k ∧
    fileSystemRoot k' = fileSystemRoot k ∧ con k' = con k ∧ memory k' = memory k;
}.

Lemma woken_refl k : woken k k.
Proof.
  constructor; [|eauto|exists []; by rewrite app_nil_r|done..].
  intros o. destruct (objs k !! o); constructor. split; [done|constructor].
Qed.

Lemma woken_trans k1 k2 k3 : woken k1 k2 → woken k2 k3 → woken k1 k3.
Proof.
  intros H1 H2. constructor.
  - intros o. pose proof (wk_objs _ _ H2 o) as Ho2.
    destruct (wk_objs _ _ H1 o) as [x1 x2 [Hr1 Hb1]|]; inversion Ho2 as [? x3 [Hr2 Hb2]|];
      subst; constructor. split; [congruence|by eapply wake_body_trans].
  - intros l xs Hl Hx. destruct (wk_wait _ _ H1 l xs Hl Hx) as (xs2 & Hx2 & Hs2).
    destruct (wk_wait _ _ H2 l xs2 Hl Hx2) as (xs3 & Hx3 & Hs3). exists xs3. split; [done|by etrans].
  - intros ts Ht. destruct (wk_run _ _ H1 ts Ht) as (n1 & Ht1).
    destruct (wk_run _ _ H2 _ Ht1) as (n2 & Ht2). exists (n1 ++ n2). by rewrite app_assoc.
  - intros l Hl Hne. by rewrite (wk_other _ _ H2), (wk_other _ _ H1).
  - intros l Hl. by apply (wk_none _ _ H2), (wk_none _ _ H1).
  - destruct (wk_rest _ _ H1) as (?&?&?&?&?), (wk_rest _ _ H2) as (?&?&?&?&?). split_and!; congruence.
Qed.

(** A thread that has been woken up is not touched again. *)
Lemma woken_runnable k k' o r t :
  woken k k' → objs k !! o = Some (Object r (Thread t)) → th_blocked t = false →
  objs k' !! o = Some (Object r (Thread t)).
Proof.
  intros Hw Ho Hb. pose proof (wk_objs _ _ Hw o) as Hx. rewrite Ho in Hx.
  inversion Hx as [? [r' b'] [Hr Hwb] E1 E2|]; subst. simpl in *. subst r'.
  inversion Hwb; subst; [done|congruence].
Qed.

(** The three steps of waking something up. *)
Lemma woken_object k o x b :
  objs k !! o = Some x → wake_body (obj_body x) b →
  woken k (set_objs (<[o := Object (refcount x) b]> (objs k)) k).
Proof.
  intros Ho Hb. constructor; simpl; [|eauto|exists []; by rewrite app_nil_r|done..].
  intros o'. destruct (decide (o' = o)) as [->|].
  - rewrite lookup_insert_eq, Ho. by constructor.
  - rewrite lookup_insert_ne by done. destruct (objs k !! o'); constructor. split; [done|constructor].
Qed.

Lemma woken_queue k l xs ys :
  is_Some (wait_queue l) → qs k !! l = Some xs → ys `sublist_of` xs →
  woken k (set_qs (<[l := ys]> (qs k)) k).
Proof.
  intros Hl Hx Hs. constructor; simpl.
  - intros o. destruct (objs k !! o); constructor. split; [done|constructor].
  - intros l' zs Hl' Hz. destruct (decide (l' = l)) as [->|].
    + rewrite lookup_insert_eq. simplify_eq. eauto.
    + rewrite lookup_insert_ne by done. eauto.
  - intros ts Ht. exists []. rewrite app_nil_r, lookup_insert_ne; [done|]. intros ->. by destruct Hl.
  - intros l' Hl' Hne. rewrite lookup_insert_ne; [done|]. intros ->. rewrite Hl' in Hl. by destruct Hl.
  - intros l' Hl'. by rewrite lookup_insert_ne by congruence.
  - done.
Qed.

Lemma woken_append k ts new :
  qs k !! ThreadList = Some ts → woken k (set_qs (<[ThreadList := ts ++ new]> (qs k)) k).
Proof.
  intros Ht. constructor; simpl.
  - intros o. destruct (objs k !! o); constructor. split; [done|constructor].
  - intros l xs Hl Hx. rewrite lookup_insert_ne; [eauto|]. intros <-. by destruct Hl.
  - intros ts' Ht'. rewrite lookup_insert_eq. simplify_eq. eauto.
  - intros l Hl Hne. by rewrite lookup_insert_ne.
  - intros l Hl. by rewrite lookup_insert_ne by congruence.
  - done.
Qed.

(** Wait queues of objects above some rank are untouched. *)
Definition above (rank : oid → nat) (r : nat) k k' : Prop :=
  ∀ l w, wait_queue l = Some w → (r < rank w)%nat → qs k' !! l = qs k !! l.

Lemma above_trans rank r k1 k2 k3 : above rank r k1 k2 → above rank r k2 k3 → above rank r k1 k3.
Proof. intros H1 H2 l w Hl Hr. by rewrite (H2 l w), (H1 l w). Qed.

Lemma above_le rank r r' k k' : (r ≤ r')%nat → above rank r k k' → above rank r' k k'.
Proof. intros Hr Ha l w Hl Hw. apply (Ha l w); [done|lia]. Qed.

(** No wait queue is longer than the loops may run. *)
Definition small (loops : nat) k : Prop :=
  ∀ l xs, is_Some (wait_queue l) → qs k !! l = Some xs → (length xs < loops)%nat.

(** What [threadSignal] leaves of a blocked thread. *)
Definition thread_woken (eax : Z) k k' (o : oid) : Prop :=
  ∀ r t, objs k !! o = Some (Object r (Thread t)) →
    objs k' !! o = Some (Object r (Thread (set_result eax (thread_with_blocked false t)))).

(** Sub event [s] of event [e] with identifier [i] has been woken up. *)
Definition sub_woken k k' (s e : oid) (i : Z) : Prop :=
  ∃ r sub, objs k !! s = Some (Object r (SubEvent sub)) ∧ s_blocked sub = true ∧ s_event sub = e ∧ s_identifier sub = i ∧
    objs k' !! s = Some (Object r (SubEvent (SubEventFields false e (s_wait sub) (s_waitMode sub) i))).

(** The elements [taken] have been woken up with the result [eax]. Every sub event
    that has been woken up has in turn woken up the waiters of its event, or the
    first of them; and every thread that runs again is one of [taken], or has waited
    for an event and found the identifier of a sub event that woke it up. *)
Record roused (taken : list node) (eax : Z) k k' : Prop := {
  ro_thread o : Entry o ∈ taken → thread_woken eax k k' o;
  ro_sub o r sub : Entry o ∈ taken → objs k !! o = Some (Object r (SubEvent sub)) →
    sub_woken k k' o (s_event sub) (s_identifier sub);
  ro_event s e i r ev ws : sub_woken k k' s e i → objs k !! e = Some (Object r (Event ev)) →
    qs k !! Waiters e = Some ws →
    ∃ ws', qs k' !! Waiters e = Some ws' ∧
      if e_wakeupAll ev then ws' = [] else ∀ n, head ws = Some n → n ∉ ws';
  ro_cause t r th th' : objs k !! t = Some (Object r (Thread th)) → th_blocked th = true →
    objs k' !! t = Some (Object r (Thread th')) → th_blocked th' = false →
    ∃ v, thread_woken v k k' t ∧ (Entry t ∈ taken ∧ v = eax ∨
      ∃ s e ws, sub_woken k k' s e v ∧ qs k !! Waiters e = Some ws ∧ Entry t ∈ ws);
}.

Lemma view_of_update k q o x :
  view_of (set_qs q (set_objs (<[o := x]> (objs k)) k)) = <[o := wstate_of (obj_body x)]> (view_of k).
Proof. unfold view_of. simpl. by rewrite fmap_insert. Qed.

Lemma view_of_objs k o x : view_of (set_objs (<[o := x]> (objs k)) k) = <[o := wstate_of (obj_body x)]> (view_of k).
Proof. unfold view_of. simpl. by rewrite fmap_insert. Qed.

Lemma view_of_obj k o x : objs k !! o = Some x → view_of k !! o = Some (wstate_of (obj_body x)).
Proof. intros Ho. unfold view_of. by rewrite lookup_fmap, Ho. Qed.

Lemma view_of_lookup k o s :
  view_of k !! o = Some s → ∃ x, objs k !! o = Some x ∧ wstate_of (obj_body x) = s.
Proof. unfold view_of. rewrite lookup_fmap. intros (x & ? & ->)%fmap_Some. eauto. Qed.

Lemma wstate_thread b a bl : wstate_of b = WThread a bl →
  ∃ t, b = Thread t ∧ th_blocked t = bl ∧ bool_decide (is_Some (th_process t)) = a.
Proof. destruct b; simpl; naive_solver. Qed.

Lemma wstate_sub b bl e : wstate_of b = WSub bl e → ∃ s, b = SubEvent s ∧ s_blocked s = bl ∧ s_event s = e.
Proof. destruct b; simpl; naive_solver. Qed.

Lemma wstate_event b : wstate_of b = WEvent → ∃ e, b = Event e.
Proof. destruct b; simpl; naive_solver. Qed.
End Woken.

(** ** Composing what has been woken up *)

Section Roused.
Context {mem : Type}.
Implicit Types k : kernel mem.

Lemma thread_woken_later eax k k1 k2 o :
  thread_woken eax k k1 o → woken k1 k2 → thread_woken eax k k2 o.
Proof. intros Ht Hw r t Ho. by eapply woken_runnable; [|by apply Ht|]. Qed.

Lemma woken_lookup k k' o x : woken k k' → objs k !! o = Some x →
  ∃ b, objs k' !! o = Some (Object (refcount x) b) ∧ wake_body (obj_body x) b.
Proof.
  intros Hw Ho. pose proof (wk_objs _ _ Hw o) as Hf. rewrite Ho in Hf.
  inversion Hf as [? [r b] [Hr Hb]|]; subst. simpl in *. subst r. eauto.
Qed.

Lemma woken_lookup_back k k' o x : woken k k' → objs k' !! o = Some x →
  ∃ b, objs k !! o = Some (Object (refcount x) b) ∧ wake_body b (obj_body x).
Proof.
  intros Hw Ho. pose proof (wk_objs _ _ Hw o) as Hf. rewrite Ho in Hf.
  inversion Hf as [[r b] ? [Hr Hb]|]; subst. simpl in *. subst r. eauto.
Qed.

(** What is blocked in a later state was the same before. *)
Lemma woken_blocked_thread k k' o r t : woken k k' → objs k' !! o = Some (Object r (Thread t)) → th_blocked t = true →
  objs k !! o = Some (Object r (Thread t)).
Proof.
  intros Hw Ho Hb. destruct (woken_lookup_back _ _ _ _ Hw Ho) as (b & Hk & Hwb). simpl in *.
  by inversion Hwb; subst.
Qed.

Lemma woken_blocked_sub k k' o r sub : woken k k' → objs k' !! o = Some (Object r (SubEvent sub)) → s_blocked sub = true →
  objs k !! o = Some (Object r (SubEvent sub)).
Proof.
  intros Hw Ho Hb. destruct (woken_lookup_back _ _ _ _ Hw Ho) as (b & Hk & Hwb). simpl in *.
  by inversion Hwb; subst.
Qed.

Lemma woken_sub k k' o r sub : woken k k' → objs k !! o = Some (Object r (SubEvent sub)) →
  ∃ b, objs k' !! o = Some (Object r (SubEvent (SubEventFields b (s_event sub) (s_wait sub) (s_waitMode sub) (s_identifier sub)))) ∧
    (b = s_blocked sub ∨ b = false).
Proof.
  intros Hw Ho. destruct (woken_lookup _ _ _ _ Hw Ho) as (b & Hk & Hwb). simpl in *.
  inversion Hwb; subst; [exists (s_blocked sub); destruct sub; auto|eauto].
Qed.

Lemma sub_woken_later k k1 k2 s e i : sub_woken k k1 s e i → woken k1 k2 → sub_woken k k2 s e i.
Proof.
  intros (r & sub & Ho & Hb & He & Hi & Ho1) Hw. exists r, sub. split_and!; [done..|].
  destruct (woken_sub _ _ _ _ _ Hw Ho1) as (b & -> & Hbb). simpl in *. by destruct Hbb as [-> | ->].
Qed.

Lemma sub_woken_earlier k k1 k2 s e i : woken k k1 → sub_woken k1 k2 s e i → sub_woken k k2 s e i.
Proof.
  intros Hw (r & sub & Ho & Hb & He & Hi & Ho1). exists r, sub. split_and!; try done. by eapply woken_blocked_sub.
Qed.

Lemma sub_woken_split k k1 k2 s e i : woken k k1 → woken k1 k2 → sub_woken k k2 s e i →
  sub_woken k k1 s e i ∨ sub_woken k1 k2 s e i.
Proof.
  intros Hw1 Hw2 (r & sub & Ho & Hb & He & Hi & Ho2). destruct (woken_sub _ _ _ _ _ Hw1 Ho) as (b & Ho1 & Hbb).
  destruct b; [right|left].
  - eexists r, _. split; [exact Ho1|]. by split_and!.
  - exists r, sub. rewrite Ho1, He, Hi. by split_and!.
Qed.

Lemma woken_event k k' e r ev : woken k k' → objs k !! e = Some (Object r (Event ev)) →
  ∃ v, objs k' !! e = Some (Object r (Event (EventFields v (e_wakeupAll ev)))).
Proof.
  intros Hw Ho. destruct (woken_lookup _ _ _ _ Hw Ho) as (b & Hk & Hwb). simpl in *.
  inversion Hwb; subst; [exists (e_status ev); destruct ev|]; eauto.
Qed.

(** The waiters of an event after some have left: if the first is still there it is still the first. *)
Lemma sublist_head {A} (l l' : list A) n : NoDup l → l' `sublist_of` l → head l = Some n → n ∈ l' → head l' = Some n.
Proof.
  intros Hnd Hs Hh Hn. destruct l as [|x l]; [done|]. injection Hh as ->. apply NoDup_cons in Hnd as [Hx _].
  inversion Hs as [|? ? ? Hs'|? ? ? Hs']; subst; [done|]. destruct Hx. by eapply sublist_subseteq.
Qed.

(** What [roused] says of one event. *)
Definition waiters_woken k k' (e : oid) : Prop := ∀ r ev ws,
  objs k !! e = Some (Object r (Event ev)) → qs k !! Waiters e = Some ws →
  ∃ ws', qs k' !! Waiters e = Some ws' ∧ if e_wakeupAll ev then ws' = [] else ∀ n, head ws = Some n → n ∉ ws'.

Lemma waiters_woken_later k k1 k2 e : woken k1 k2 → waiters_woken k k1 e → waiters_woken k k2 e.
Proof.
  intros Hw Hk r ev ws He Hws. destruct (Hk r ev ws He Hws) as (ws1 & Hws1 & Hc).
  destruct (wk_wait _ _ Hw (Waiters e) ws1) as (ws2 & Hws2 & Hsub); [by eexists|done|]. exists ws2. split; [done|].
  destruct (e_wakeupAll ev).
  - subst ws1. by apply sublist_nil_r in Hsub.
  - intros n Hn Hin. apply (Hc n Hn). by eapply sublist_subseteq.
Qed.

Lemma waiters_woken_earlier k k1 k2 e : q_ok (qs k) → woken k k1 → woken k1 k2 → waiters_woken k1 k2 e → waiters_woken k k2 e.
Proof.
  intros Hok Hw1 Hw2 Hk r ev ws He Hws. destruct (woken_event _ _ _ _ _ Hw1 He) as (v & He1).
  destruct (wk_wait _ _ Hw1 (Waiters e) ws) as (ws1 & Hws1 & Hsub); [by eexists|done|].
  destruct (Hk r _ ws1 He1 Hws1) as (ws2 & Hws2 & Hc). exists ws2. split; [done|]. simpl in Hc.
  destruct (e_wakeupAll ev); [done|]. intros n Hn Hin.
  assert (NoDup ws) as Hnd by (by apply (proj1 Hok), NoDup_cons in Hws as [_ ?]).
  apply (Hc n); [|done]. eapply sublist_head; [done..|].
  destruct (wk_wait _ _ Hw2 (Waiters e) ws1) as (ws2' & Hws2' & Hsub2); [by eexists|done|]. simplify_eq. by eapply sublist_subseteq.
Qed.

Lemma roused_nil eax k : roused [] eax k k.
Proof.
  constructor; [by intros ? ?%not_elem_of_nil|by intros ? ? ? ?%not_elem_of_nil| |].
  - intros s e i r ev ws (r' & sub & Ho & Hb & _ & _ & Ho') _ _. exfalso. rewrite Ho in Ho'. injection Ho' as Hs.
    by rewrite Hs in Hb.
  - intros t r th th' Ho Hb Ho' Hb'. congruence.
Qed.

(** Waking up one thread. *)
Lemma roused_thread k k' o r t eax :
  objs k !! o = Some (Object r (Thread t)) →
  objs k' = <[o := Object r (Thread (set_result eax (thread_with_blocked false t)))]> (objs k) →
  roused [Entry o] eax k k'.
Proof.
  intros Ho Ho'. constructor.
  - intros o' [= ->]%list_elem_of_singleton r' t' Hk. rewrite Ho', lookup_insert_eq. congruence.
  - intros o' r' sub [= ->]%list_elem_of_singleton Hk. congruence.
  - intros s e i r' ev ws (r2 & sub & Hs & Hb & _ & _ & Hs') _ _. exfalso. rewrite Ho' in Hs'.
    rewrite lookup_insert_ne in Hs' by congruence. rewrite Hs in Hs'. injection Hs' as Hs'. by rewrite Hs' in Hb.
  - intros t' r' th th' Hk Hb Hk' Hb'. destruct (decide (t' = o)) as [->|Hne].
    + exists eax. split; [|left; set_solver]. intros r2 t2 Hk2. rewrite Ho', lookup_insert_eq. congruence.
    + rewrite Ho', lookup_insert_ne in Hk' by done. congruence.
Qed.

(** Waking up a sub event [o], in the state [k2] of which the waiters of its event are
    then woken up. *)
Lemma roused_by_sub k k2 k3 o r sub eax ev zs zs' re :
  q_ok (qs k) → q_ok (qs k2) → woken k k2 → woken k2 k3 →
  objs k !! o = Some (Object r (SubEvent sub)) → s_blocked sub = true →
  (∀ o', o' ≠ o → o' ≠ s_event sub → objs k2 !! o' = objs k !! o') → o ≠ s_event sub →
  objs k2 !! o = Some (Object r (SubEvent (SubEventFields false (s_event sub) (s_wait sub) (s_waitMode sub) (s_identifier sub)))) →
  objs k !! s_event sub = Some (Object re (Event ev)) → qs k !! Waiters (s_event sub) = Some zs →
  qs k3 !! Waiters (s_event sub) = Some zs' → zs' = (if e_wakeupAll ev then [] else tail zs) →
  roused (if e_wakeupAll ev then zs else take 1 zs) (s_identifier sub) k2 k3 →
  roused [Entry o] eax k k3.
Proof.
  intros Hok Hok2 Hw1 Hw2 Ho Hb Hsame Hne Ho2 Hev Hz Hz' -> Hr.
  assert (Hs : sub_woken k k2 o (s_event sub) (s_identifier sub)) by (exists r, sub; by split_and!).
  assert (Hs3 : sub_woken k k3 o (s_event sub) (s_identifier sub)) by by eapply sub_woken_later.
  constructor.
  - intros o' [= ->]%list_elem_of_singleton r' t' Hk. congruence.
  - intros o' r' sub' [= ->]%list_elem_of_singleton Hk. rewrite Ho in Hk. by injection Hk as _ <-.
  - intros s e i r' ev' ws Hs'. revert r' ev' ws. change (waiters_woken k k3 e).
    destruct (sub_woken_split _ _ _ _ _ _ Hw1 Hw2 Hs') as [(r2 & sub2 & Hk & Hb2 & He & Hi & Hk2)|Hk2].
    + assert (s = o) as ->.
      { destruct (decide (s = o)) as [|Hso]; [done|]. rewrite Hsame in Hk2; [|done|congruence].
        rewrite Hk in Hk2. injection Hk2 as Hk2. by rewrite Hk2 in Hb2. }
      rewrite Ho in Hk. injection Hk as -> ->. subst e. intros r' ev' ws Hev' Hws. rewrite Hev in Hev'. rewrite Hz in Hws.
      injection Hev' as <- <-. injection Hws as <-. eexists. split; [done|]. destruct (e_wakeupAll ev); [done|].
      intros n Hn. assert (NoDup zs) as Hnd by (by apply (proj1 Hok), NoDup_cons in Hz as [_ ?]).
      destruct zs as [|x zs]; [done|]. injection Hn as ->. by apply NoDup_cons in Hnd as [? _].
    + eapply waiters_woken_earlier; [done..|]. intros r' ev' ws. by eapply (ro_event _ _ _ _ Hr).
  - intros t r' th th' Hk Hbt Hk3 Hbt3. assert (Hk2 : objs k2 !! t = Some (Object r' (Thread th))).
    { rewrite Hsame; [done|congruence|congruence]. }
    destruct (ro_cause _ _ _ _ Hr t r' th th' Hk2 Hbt Hk3 Hbt3) as (v & Hv & Hcase). exists v. split.
    { intros r0 t0 Hk0. rewrite Hk in Hk0. injection Hk0 as <- <-. by apply Hv. }
    right. destruct Hcase as [[Hin ->]|(s & e & ws & Hs2 & Hws & Hin)].
    + exists o, (s_event sub), zs. split_and!; [done..|]. destruct (e_wakeupAll ev); [done|].
      eapply sublist_subseteq; [apply sublist_take|done].
    + destruct (qs k !! Waiters e) as [ws0|] eqn:Hws0; [|apply (wk_none _ _ Hw1) in Hws0; congruence].
      destruct (wk_wait _ _ Hw1 (Waiters e) ws0) as (ws1 & Hws1 & Hsub); [by eexists|done|]. simplify_eq.
      exists s, e, ws0. split_and!; [by eapply sub_woken_earlier|done|by eapply sublist_subseteq].
Qed.

(** First [taken1], then [taken2], which are still waiting in between. *)
Lemma roused_app taken1 taken2 eax k k1 k2 :
  q_ok (qs k) → woken k k1 → woken k1 k2 → roused taken1 eax k k1 → roused taken2 eax k1 k2 →
  (∀ o r t, Entry o ∈ taken2 → objs k !! o = Some (Object r (Thread t)) → objs k1 !! o = Some (Object r (Thread t))) →
  (∀ o r sub, Entry o ∈ taken2 → objs k !! o = Some (Object r (SubEvent sub)) → objs k1 !! o = Some (Object r (SubEvent sub))) →
  roused (taken1 ++ taken2) eax k k2.
Proof.
  intros Hok Hw1 Hw2 [Ht1 Hs1 He1 Hc1] [Ht2 Hs2 He2 Hc2] Hth Hsu. constructor.
  - intros o [Ho|Ho]%elem_of_app; [by eapply thread_woken_later; [apply Ht1|]|].
    intros r t Hk. apply (Ht2 o Ho), Hth; done.
  - intros o r sub [Ho|Ho]%elem_of_app Hk; [by eapply sub_woken_later; [eapply Hs1|]|].
    eapply sub_woken_earlier; [done|]. by eapply Hs2, Hsu.
  - intros s e i r ev ws Hs. revert r ev ws. change (waiters_woken k k2 e).
    destruct (sub_woken_split _ _ _ _ _ _ Hw1 Hw2 Hs) as [Hs'|Hs'].
    + eapply waiters_woken_later; [done|]. intros r ev ws. by eapply He1.
    + eapply waiters_woken_earlier; [done..|]. intros r ev ws. by eapply He2.
  - intros t r th th' Ho Hb Ho' Hb'. destruct (woken_lookup _ _ _ _ Hw1 Ho) as (b & Hk1 & Hwb). simpl in Hk1, Hwb.
    inversion Hwb as [|? eax' ? |?|?]; subst.
    + destruct (Hc2 t r th th' Hk1 Hb Ho' Hb') as (v & Hv & Hcase). exists v. split.
      { intros r0 t0 Hk. rewrite Ho in Hk. injection Hk as <- <-. by apply Hv. }
      destruct Hcase as [[Hin ->]|(s & e & ws & Hs & Hws & Hin)]; [left; set_solver|right].
      destruct (qs k !! Waiters e) as [ws0|] eqn:Hws0; [|apply (wk_none _ _ Hw1) in Hws0; congruence].
      destruct (wk_wait _ _ Hw1 (Waiters e) ws0) as (ws1 & Hws1 & Hsub); [by eexists|done|]. simplify_eq.
      exists s, e, ws0. split_and!; [by eapply sub_woken_earlier|done|by eapply sublist_subseteq].
    + destruct (Hc1 t r th _ Ho Hb Hk1 eq_refl) as (v & Hv & Hcase). exists v.
      split; [by eapply thread_woken_later|].
      destruct Hcase as [[Hin ->]|(s & e & ws & Hs & Hws & Hin)]; [left; set_solver|right].
      exists s, e, ws. split_and!; [by eapply sub_woken_later|done..].
Qed.
End Roused.

(** ** What waking up depends on

    Threads, sub events, events, the wait queues and the list of runnable threads. *)
Definition rigid (b : body) : bool :=
  match b with Thread _ | SubEvent _ | Event _ => false | _ => true end.

Section Mask.
Context {mem : Type}.
Implicit Types k : kernel mem.

Definition scheduling (l : node) : Prop := is_Some (wait_queue l) ∨ l = ThreadList.

#[local] Instance scheduling_dec l : Decision (scheduling l) := ltac:(unfold scheduling; apply _).

(** The state without all the rest. *)
Definition mask k : kernel mem :=
  set_qs (filter (λ p, scheduling p.1) (qs k)) (set_objs (filter (λ p, rigid (obj_body p.2) = false) (objs k)) k).

Lemma mask_objs k o r b : objs (mask k) !! o = Some (Object r b) ↔ objs k !! o = Some (Object r b) ∧ rigid b = false.
Proof. unfold mask. simpl. by rewrite map_lookup_filter_Some. Qed.

Lemma mask_qs k l : scheduling l → qs (mask k) !! l = qs k !! l.
Proof.
  intros Hl. unfold mask. simpl. destruct (qs k !! l) as [xs|] eqn:Hx.
  - by apply map_lookup_filter_Some.
  - apply map_lookup_filter_None. by left.
Qed.

Lemma mask_waiters k e : qs (mask k) !! Waiters e = qs k !! Waiters e.
Proof. apply mask_qs. left. by eexists. Qed.

Lemma thread_woken_mask v k k' t : thread_woken v (mask k) (mask k') t ↔ thread_woken v k k' t.
Proof.
  split; intros Hw r th Ho.
  - pose proof (Hw r th (proj2 (mask_objs _ _ _ _) (conj Ho eq_refl))) as H1. by apply mask_objs in H1 as [? _].
  - apply mask_objs in Ho as [Ho _]. apply mask_objs. split; [by apply Hw|done].
Qed.

Lemma sub_woken_mask k k' s e i : sub_woken (mask k) (mask k') s e i ↔ sub_woken k k' s e i.
Proof.
  split; intros (r & sub & Ho & Hb & He & Hi & Ho'); exists r, sub.
  - apply mask_objs in Ho as [Ho _]. apply mask_objs in Ho' as [Ho' _]. done.
  - split_and!; try done; by apply mask_objs.
Qed.

Lemma waiters_woken_mask k k' e : waiters_woken (mask k) (mask k') e ↔ waiters_woken k k' e.
Proof.
  split; intros Hw r ev ws He Hws.
  - rewrite <-mask_waiters. eapply Hw; [by apply mask_objs|by rewrite mask_waiters].
  - rewrite mask_waiters in *. eapply Hw; [|done]. by eapply mask_objs.
Qed.

Lemma q_ok_mask k : q_ok (qs k) → q_ok (qs (mask k)).
Proof.
  intros [Hnd Hd]. split.
  - intros l xs Hx. apply map_lookup_filter_Some in Hx as [Hx _]. by apply Hnd.
  - intros l1 l2 xs1 xs2 n H1 H2. apply map_lookup_filter_Some in H1 as [H1 _]. apply map_lookup_filter_Some in H2 as [H2 _]. by apply Hd.
Qed.

Lemma woken_mask k k' : woken k k' → woken (mask k) (mask k').
Proof.
  intros Hw. constructor.
  - intros o. unfold mask. simpl. rewrite !map_lookup_filter.
    destruct (wk_objs _ _ Hw o) as [x x' [Hr Hb]|]; simpl; [|constructor].
    destruct (rigid (obj_body x)) eqn:Hx, (rigid (obj_body x')) eqn:Hx'; simpl; repeat case_guard; try done;
      try (by constructor); exfalso; inversion Hb as [? E1 E2|? ? ? E1 E2|? E1 E2|? ? E1 E2]; rewrite <-?E1, <-?E2 in *; simpl in *; congruence.
  - intros l xs Hl Hx. rewrite mask_qs in * by (by left). by apply (wk_wait _ _ Hw).
  - intros ts Ht. rewrite mask_qs in * by (by right). by apply (wk_run _ _ Hw).
  - intros l Hl Hne. unfold mask. simpl. rewrite !map_lookup_filter, (wk_other _ _ Hw) by done. done.
  - intros l Hl. unfold mask in *. simpl in *. rewrite map_lookup_filter_None in *. destruct Hl as [Hl|Hl]; [left; by apply (wk_none _ _ Hw)|].
    destruct (qs k' !! l) as [xs'|] eqn:Hx'; [right|by left]. intros xs _.
    destruct (qs k !! l) as [ys|] eqn:Hy; [by apply (Hl ys)|]. apply (wk_none _ _ Hw) in Hy. congruence.
  - apply (wk_rest _ _ Hw).
Qed.

Lemma wf_event_of rank k s r sub : wf rank k → objs k !! s = Some (Object r (SubEvent sub)) → s_blocked sub = true →
  ∃ re ev, objs k !! s_event sub = Some (Object re (Event ev)).
Proof.
  intros Hwf Ho Hb. destruct (wf_place _ _ _ Hwf s (WSub true (s_event sub))) as (p & _ & Ha); [|done|].
  { rewrite (view_of_obj _ _ _ Ho). simpl. by rewrite Hb. }
  destruct Ha as (l & w & _ & _ & _ & He & _). apply view_of_lookup in He as ([re b] & He & Hev).
  apply wstate_event in Hev as [ev Hev]. simpl in Hev. subst b. eauto.
Qed.

(** A change of an object that does not matter, and of the order of the timers. *)
Lemma mask_rigid k k2 o x x' :
  objs k !! o = Some x → rigid (obj_body x) = true → rigid (obj_body x') = true → objs k2 = <[o := x']> (objs k) →
  (∀ l, l ≠ TimerList → qs k2 !! l = qs k !! l) →
  currentKernelTimestamp k2 = currentKernelTimestamp k ∧ lastFPUthread k2 = lastFPUthread k ∧
    fileSystemRoot k2 = fileSystemRoot k ∧ con k2 = con k ∧ memory k2 = memory k →
  woken (mask k) (mask k2).
Proof.
  intros Ho Hx Hx' Hobj Hq Hrest. assert (Hsch : ∀ l, scheduling l → l ≠ TimerList).
  { intros l [[w Hl]|Hl] ->; done. }
  assert (Hm : ∀ l, qs (mask k2) !! l = qs (mask k) !! l).
  { intros l. unfold mask. simpl. rewrite !map_lookup_filter. destruct (decide (scheduling l)) as [Hs|Hs].
    - by rewrite Hq by by apply Hsch.
    - destruct (qs k !! l), (qs k2 !! l); simpl; repeat case_guard; done. }
  constructor.
  - intros o'. unfold mask. simpl. rewrite !map_lookup_filter, Hobj. destruct (decide (o' = o)) as [->|].
    + rewrite lookup_insert_eq, Ho. simpl. repeat case_guard; [congruence..|]. constructor.
    + rewrite lookup_insert_ne by done. destruct (objs k !! o') as [y|]; simpl; [|constructor].
      repeat case_guard; constructor. split; [done|constructor].
  - intros l xs Hl Hxs. exists xs. by rewrite Hm.
  - intros ts Ht. exists []. by rewrite Hm, app_nil_r.
  - intros l _ _. by rewrite Hm.
  - intros l Hl. by rewrite Hm.
  - done.
Qed.

(** Waking up from a state that differs in the rest only. *)
Lemma roused_eq k k1 k' xs v :
  (∀ l, is_Some (wait_queue l) → qs k1 !! l = qs k !! l) →
  (∀ o r b, rigid b = false → objs k !! o = Some (Object r b) ↔ objs k1 !! o = Some (Object r b)) →
  roused xs v k1 k' → roused xs v k k'.
Proof.
  intros Hq Ho [Ht Hs He Hc].
  assert (Hth : ∀ v t, thread_woken v k1 k' t → thread_woken v k k' t) by (intros v' t Hw r th Hk; by apply Hw, Ho).
  assert (Hsub : ∀ s e i, sub_woken k1 k' s e i ↔ sub_woken k k' s e i).
  { intros s e i. split; intros (r & sub & Hk & Hrest); exists r, sub; (split; [by apply Ho|done]). }
  constructor.
  - intros o Hin. by apply Hth, Ht.
  - intros o r sub Hin Hk. apply Hsub, (Hs o r); [done|]. by apply Ho.
  - intros s e i r ev ws Hw Hk Hws. apply Hsub in Hw. apply (He s e i r); [done|by apply Ho|by rewrite Hq by (by eexists)].
  - intros t r th th' Hk Hb Hk' Hb'. destruct (Hc t r th th') as (u & Hu & Hcase); [by apply Ho|done..|].
    exists u. split; [by apply Hth|]. destruct Hcase as [|(s & e & ws & Hw & Hws & Hin)]; [by left|right].
    exists s, e, ws. split_and!; [by apply Hsub|by rewrite <-Hq by (by eexists)|done].
Qed.

(** What is still blocked is still in its queue. *)
Lemma still_waiting rank k k' l xs o s :
  q_ok (qs k) → wf rank k' → woken (mask k) (mask k') → is_Some (wait_queue l) → qs k !! l = Some xs → Entry o ∈ xs →
  view_of k' !! o = Some s → (s = WThread true true ∨ ∃ e, s = WSub true e) →
  ∃ xs', qs k' !! l = Some xs' ∧ Entry o ∈ xs'.
Proof.
  intros Hok Hwf Hw Hl Hx Hin Hv Hs.
  destruct (wf_place _ _ _ Hwf o s Hv) as (p & Hp & Ha); [by destruct Hs as [->|[e ->]]|].
  assert (∃ l' w, p = Some l' ∧ wait_queue l' = Some w) as (l' & w & -> & Hl').
  { destruct Hs as [->|[e ->]]; simpl in Ha; [naive_solver|]. destruct Ha as (l' & w & ? & ? & _). by exists l', w. }
  destruct Hp as (xs' & Hx' & Hin').
  destruct (qs k !! l') as [ys|] eqn:Hy.
  - destruct (wk_wait _ _ Hw l' ys) as (ys' & Hy' & Hsub); [by eexists|by rewrite mask_qs by (left; by eexists)|].
    rewrite mask_qs in Hy' by (left; by eexists). rewrite Hx' in Hy'. injection Hy' as <-.
    assert (l' = l) as ->; [|eauto]. apply (proj2 Hok l' l ys xs (Entry o)); [done|done| |];
      apply elem_of_cons; right; [by eapply sublist_subseteq|done].
  - exfalso. assert (qs (mask k') !! l' = None) as Hn by (apply (wk_none _ _ Hw); by rewrite mask_qs by (left; by eexists)).
    rewrite mask_qs in Hn by (left; by eexists). congruence.
Qed.
End Mask.

Lemma sublist_taken {A} (all : bool) (l l' : list A) n : NoDup l → l' `sublist_of` l → n ∈ l' →
  n ∈ (if all then l else take 1 l) → n ∈ (if all then l' else take 1 l').
Proof.
  intros Hnd Hs Hn Ht. destruct all; [done|]. destruct l as [|x l]; [by apply not_elem_of_nil in Ht|].
  apply list_elem_of_singleton in Ht as ->. pose proof (sublist_head _ _ x Hnd Hs eq_refl Hn) as Hh.
  destruct l'; [done|]. injection Hh as ->. set_solver.
Qed.

Section Wakeup.
Context {mem : Type} `{Memory mem} `{Machine mem}.
Context (rank : oid → nat) (loops : nat).
Implicit Types k : kernel mem.

Lemma small_woken k k' : small loops k → woken k k' → small loops k'.
Proof.
  intros Hs Hw l xs' Hl Hx'. destruct (qs k !! l) as [xs|] eqn:Hx.
  - destruct (wk_wait _ _ Hw l xs Hl Hx) as (xs2 & Hx2 & Hsub). simplify_eq.
    apply sublist_length in Hsub. specialize (Hs l xs Hl Hx). lia.
  - apply (wk_none _ _ Hw) in Hx. congruence.
Qed.

(** What the signal of the element [o] of wait queue [l] does. *)
Definition signal_post (l : node) (w : oid) (rest : list node) (eax : Z) (o : oid) k k' : Prop :=
  wf rank k' ∧ woken k k' ∧ above rank (rank w) k k' ∧ qs k' !! l = Some rest ∧ roused [Entry o] eax k k'.

Definition signal_spec (M : Methods mem) (bound : nat) : Prop :=
  ∀ k l w xs ys o eax,
    wf rank k → small loops k → wait_queue l = Some w → (rank w < bound)%nat →
    qs k !! l = Some (xs ++ Entry o :: ys) →
    wp (@__objectSignal _ M o eax) k (λ _ k', signal_post l w (xs ++ ys) eax o k k').

(** What [queueWakeup] does. *)
Definition wakeup_post (l : node) (w : oid) (all : bool) (xs : list node) (eax : Z) k k' : Prop :=
  wf rank k' ∧ woken k k' ∧ above rank (rank w) k k' ∧
  qs k' !! l = Some (if all then [] else tail xs) ∧
  roused (if all then xs else take 1 xs) eax k k'.

(** The elements of a wait queue, and how the loop goes through them. *)
Lemma wait_queue_elem k l w xs n :
  wf rank k → wait_queue l = Some w → qs k !! l = Some xs → n ∈ xs →
  ∃ o x, n = Entry o ∧ objs k !! o = Some x ∧
    ((∃ t, obj_body x = Thread t ∧ th_blocked t = true ∧ is_Some (th_process t)) ∨
     (∃ s e x', obj_body x = SubEvent s ∧ s_blocked s = true ∧ (rank (s_event s) < rank w)%nat ∧
        objs k !! s_event s = Some x' ∧ obj_body x' = Event e ∧ is_Some (qs k !! Waiters (s_event s)))).
Proof.
  intros Hwf Hl Hx Hn.
  destruct (wf_elem_allowed rank _ _ l xs n Hwf) as (o & s & -> & Ho & Hs & Ha);
    [right; right; eauto|done..|].
  apply view_of_lookup in Ho as (x & Ho & Hb). exists o, x. split_and!; [done..|].
  destruct s as [a b|b e| |b|]; simpl in Ha; try done.
  - destruct a; [|done]. destruct b; [|by simplify_eq].
    left. apply wstate_thread in Hb as (t & Hb & ? & ?%bool_decide_eq_true). eauto.
  - destruct b; [|done]. destruct Ha as (l' & w' & [= <-] & Hw & Hr & He & Hq). simplify_eq.
    right. apply wstate_sub in Hb as (s & Hb & ? & <-).
    apply view_of_lookup in He as (x' & Hx' & Hb'). apply wstate_event in Hb' as [e Hev].
    exists s, e, x'. done.
  - destruct b; [|done]. by injection Ha as ->.
Qed.

(** A thread in a wait queue of a later state is still as it was. *)
Lemma woken_still_blocked k k' l w xs o r t :
  wf rank k' → woken k k' → wait_queue l = Some w → qs k' !! l = Some xs → Entry o ∈ xs →
  objs k !! o = Some (Object r (Thread t)) → objs k' !! o = Some (Object r (Thread t)).
Proof.
  intros Hwf Hw Hl Hx Hn Ho.
  destruct (wait_queue_elem k' l w xs (Entry o) Hwf Hl Hx Hn) as (o' & x & [= <-] & Ho' & Hc).
  pose proof (wk_objs _ _ Hw o) as Hf. rewrite Ho, Ho' in Hf.
  inversion Hf as [? [r' b'] [Hr Hb]|]; subst. simpl in *. subst r'.
  inversion Hb; subst; [done|]. by destruct Hc as [(t' & [= <-] & ? & _)|(s & e & x' & [=] & _)].
Qed.

Lemma woken_still_sub k k' l w xs o r sub :
  wf rank k' → woken k k' → wait_queue l = Some w → qs k' !! l = Some xs → Entry o ∈ xs →
  objs k !! o = Some (Object r (SubEvent sub)) → objs k' !! o = Some (Object r (SubEvent sub)).
Proof.
  intros Hwf Hw Hl Hx Hn Ho.
  destruct (wait_queue_elem k' l w xs (Entry o) Hwf Hl Hx Hn) as (o' & x & [= <-] & Ho' & Hc).
  destruct (woken_sub _ _ _ _ _ Hw Ho) as (b & Hb & Hbb). rewrite Hb in Ho'. injection Ho' as <-.
  destruct Hc as [(t' & [=] & _)|(s & e & x' & [= <-] & Hbl & _)]. simpl in Hbl. subst b. rewrite Hb.
  destruct Hbb as [Hbb|]; [|done]. rewrite Hbb. by destruct sub.
Qed.

(** Nobody gets lost: who leaves a wait queue is woken up, a thread to the list of
    runnable threads. *)
Definition none_lost k k' : Prop := ∀ l xs o, is_Some (wait_queue l) → qs k !! l = Some xs → Entry o ∈ xs →
  (∃ xs', qs k' !! l = Some xs' ∧ Entry o ∈ xs') ∨
  (∃ r th v ts, objs k !! o = Some (Object r (Thread th)) ∧ thread_woken v k k' o ∧ qs k' !! ThreadList = Some ts ∧ Entry o ∈ ts) ∨
  (∃ e i, sub_woken k k' o e i).

Lemma wf_none_lost k k' : wf rank k → wf rank k' → woken (mask k) (mask k') → none_lost k k'.
Proof.
  intros Hwf Hwf' Hw l xs o [w Hl] Hx Hin.
  destruct (wait_queue_elem k l w xs (Entry o) Hwf Hl Hx Hin) as (o' & [r b] & [= <-] & Ho & Hc). simpl in Hc.
  assert (∀ s, view_of k' !! o = Some s → s = WThread true true ∨ (∃ e, s = WSub true e) →
    ∃ xs', qs k' !! l = Some xs' ∧ Entry o ∈ xs') as Hstill.
  { intros s. eapply still_waiting; [apply Hwf|done|done|by eexists|done|done]. }
  assert (rigid b = false) as Hb by (destruct Hc as [(t & -> & _)|(s & e & x' & -> & _)]; done).
  destruct (woken_lookup _ _ o _ Hw (proj2 (mask_objs _ _ _ _) (conj Ho Hb))) as (b' & Ho' & Hwb).
  apply mask_objs in Ho' as [Ho' _]. simpl in Ho', Hwb.
  destruct Hc as [(t & -> & Hbl & Hp)|(s & e & x' & -> & Hbl & _)].
  - inversion Hwb as [|? eax ? |?|?]; subst.
    + left. eapply Hstill; [by erewrite view_of_obj by done|]. left. simpl. by rewrite Hbl, bool_decide_true.
    + right; left. destruct (wf_place _ _ _ Hwf' o (WThread true false)) as (p & Hloc & Hal).
      { erewrite view_of_obj by done. simpl. by rewrite bool_decide_true. }
      { done. }
      simpl in Hal. subst p. destruct Hloc as (ts & Hts & Hot). exists r, t, eax, ts. split_and!; try done.
      intros r0 t0 Hk. rewrite Ho in Hk. by injection Hk as <- <-.
  - inversion Hwb as [| |?|?]; subst.
    + left. eapply Hstill; [by erewrite view_of_obj by done|]. right. exists (s_event s). simpl. by rewrite Hbl.
    + right; right. exists (s_event s), (s_identifier s). exists r, s. by split_and!.
Qed.

Lemma none_lost_eq k k1 k' : qs k1 = qs k →
  (∀ o r b, rigid b = false → objs k !! o = Some (Object r b) ↔ objs k1 !! o = Some (Object r b)) →
  none_lost k1 k' → none_lost k k'.
Proof.
  intros Hq Ho Hn l xs o Hl Hx Hin. rewrite <-Hq in Hx.
  destruct (Hn l xs o Hl Hx Hin) as [?|[(r & th & v & ts & Hk & Ht & ?)|(e & i & r & sub & Hk & ?)]]; [by left|right; left|right; right].
  - exists r, th, v, ts. split; [by apply Ho|]. split; [|done]. intros r0 t0 Hk0. by apply Ht, Ho.
  - exists e, i, r, sub. split; [by apply Ho|done].
Qed.

Lemma wakeup_all_loop (M : Methods mem) l w eax (Hsig : signal_spec M (S (rank w))) :
  wait_queue l = Some w →
  ∀ xs fuel k, wf rank k → small loops k → qs k !! l = Some xs → (length xs < fuel)%nat →
  wp (for_each_safe_loop fuel l (λ o _, @__objectSignal _ M o eax ;; mret (inl tt))
       (hd l xs) (hd l (tail xs)) tt) k
    (λ _ k', wakeup_post l w true xs eax k k').
Proof.
  intros Hl xs. induction xs as [|n xs IH]; intros fuel k Hwf Hsm Hx Hf;
    (destruct fuel as [|fuel]; [simpl in Hf; lia|]); simpl.
  - rewrite decide_True by done. wp_step. split_and!; [done|apply woken_refl|by intros|done|apply roused_nil].
  - destruct (wait_queue_elem k l w (n :: xs) n Hwf Hl Hx) as (o & x & -> & Ho & _); [set_solver|].
    rewrite decide_False by (intros <-; done). wp_step. apply wp_deref with o; [done|].
    wp_steps. eapply wp_mono; [apply (Hsig k l w [] xs o eax); (done || lia)|].
    intros [] k1 (Hwf1 & Hw1 & Ha1 & Hx1 & Ht1). wp_steps. simpl in Hx1.
    apply (wp_queue_next _ (hd l (tail xs))).
    { destruct xs as [|n' xs]; simpl; [by rewrite (q_next_head _ _ _ Hx1)|].
      rewrite (q_next_elem (qs k1) l [] n' xs); [done|apply Hwf1|done]. }
    eapply wp_mono; [apply IH; [done|by eapply small_woken|done|simpl in Hf; lia]|].
    intros [] k2 (Hwf2 & Hw2 & Ha2 & Hx2 & Ht2). split_and!; [done|by eapply woken_trans| |done|].
    + by eapply above_trans.
    + eapply (roused_app [Entry o] xs); [apply Hwf|done..| |].
      * intros o' r t Ho'. by eapply (woken_still_blocked k k1 l w xs).
      * intros o' r sub Ho'. by eapply (woken_still_sub k k1 l w xs).
Qed.

Lemma wakeup_one_loop (M : Methods mem) l w eax (Hsig : signal_spec M (S (rank w))) xs fuel k :
  wait_queue l = Some w → wf rank k → small loops k → qs k !! l = Some xs → (0 < fuel)%nat →
  wp (for_each_safe_loop fuel l (λ o _, @__objectSignal _ M o eax ;; mret (inr tt))
       (hd l xs) (hd l (tail xs)) tt) k
    (λ _ k', wakeup_post l w false xs eax k k').
Proof.
  intros Hl Hwf Hsm Hx Hf. destruct fuel as [|fuel]; [lia|]. destruct xs as [|n xs]; simpl.
  - rewrite decide_True by done. wp_step. split_and!; [done|apply woken_refl|by intros|done|apply roused_nil].
  - destruct (wait_queue_elem k l w (n :: xs) n Hwf Hl Hx) as (o & x & -> & Ho & _); [set_solver|].
    rewrite decide_False by (intros <-; done). wp_step. apply wp_deref with o; [done|].
    wp_steps. eapply wp_mono; [apply (Hsig k l w [] xs o eax); (done || lia)|].
    intros [] k1 (Hwf1 & Hw1 & Ha1 & Hx1 & Ht1). wp_steps. by split_and!.
Qed.

Lemma queueWakeup_spec (M : Methods mem) l w all eax xs k :
  signal_spec M (S (rank w)) → @loop_fuel _ M = loops →
  wait_queue l = Some w → wf rank k → small loops k → qs k !! l = Some xs →
  wp (@queueWakeup _ M l all eax) k (λ _ k', wakeup_post l w all xs eax k k').
Proof.
  intros Hsig Hfuel Hl Hwf Hsm Hx. unfold queueWakeup, for_each_safe. rewrite Hfuel.
  assert (length xs < loops)%nat as Hlen by (eapply Hsm; [|done]; eauto).
  wp_step. eapply wp_queue_next; [by apply q_next_head|].
  wp_step. apply (wp_queue_next _ (hd l (tail xs))).
  { destruct xs as [|n xs]; simpl; [by rewrite (q_next_head _ _ _ Hx)|].
    rewrite (q_next_elem (qs k) l [] n xs); [done|apply Hwf|done]. }
  destruct all; [by apply wakeup_all_loop|apply wakeup_one_loop; (done || lia)].
Qed.
End Wakeup.

Section Signal.
Context {mem : Type} `{Memory mem} `{Machine mem}.
Context (rank : oid → nat) (loops : nat).
Implicit Types k : kernel mem.

Lemma wp_threadSignal_blocked k l xs ys ts o r t eax :
  q_ok (qs k) → objs k !! o = Some (Object r (Thread t)) → th_blocked t = true → is_Some (th_process t) →
  qs k !! l = Some (xs ++ Entry o :: ys) → l ≠ ThreadList → qs k !! ThreadList = Some ts →
  wp (__threadSignal o eax) k (λ _ k',
    k' = set_qs (<[ThreadList := ts ++ [Entry o]]> (<[l := xs ++ ys]> (qs k)))
      (set_objs (<[o := Object r (Thread (set_result eax (thread_with_blocked false t)))]> (objs k)) k)).
Proof.
  intros Hok Ho Hb Hp Hl Hne Ht. unfold __threadSignal, modify_thread.
  wp_step. eapply wp_container; [done..|]. rewrite Hb, bool_decide_true by done. simpl.
  wp_steps. eapply wp_pointee; [done..|]. eapply wp_putBody; [done|].
  wp_steps. eapply wp_pointee; [simpl; by rewrite lookup_insert_eq|done|].
  eapply wp_putBody; [simpl; by rewrite lookup_insert_eq|].
  wp_step. eapply wp_queue_remove; [done..|]. unfold queue_add_tail.
  eapply wp_queue_add_tail; simpl.
  - by eapply q_ok_removed.
  - by rewrite lookup_insert_ne.
  - by eapply free_removed.
  - by rewrite insert_insert_eq.
Qed.

Lemma signal_thread k l w xs ys o r t eax :
  wf rank k → wait_queue l = Some w → qs k !! l = Some (xs ++ Entry o :: ys) →
  objs k !! o = Some (Object r (Thread t)) → th_blocked t = true → is_Some (th_process t) →
  wp (__threadSignal o eax) k (λ _ k', signal_post rank l w (xs ++ ys) eax o k k').
Proof.
  intros Hwf Hl Hx Ho Hb Hp. assert (l ≠ ThreadList) as Hne by (by intros ->).
  destruct (wf_threads _ _ _ Hwf) as [ts Ht].
  eapply wp_mono; [eapply wp_threadSignal_blocked; try done; apply Hwf|]. intros [] k' ->.
  split_and!.
  - unfold wf. rewrite view_of_update. simpl. rewrite bool_decide_true by done.
    eapply wf_wake; [done| |done..]. erewrite view_of_obj by done. simpl.
    by rewrite bool_decide_true, Hb.
  - eapply woken_trans; [exact (woken_object k o _ _ Ho (wake_thread t eax Hb))|].
    eapply woken_trans; [eapply (woken_queue _ l _ (xs ++ ys)); [eauto|done|]|].
    { apply sublist_app; [done|]. by constructor. }
    refine (woken_append (set_qs (<[l := xs ++ ys]> (qs k)) (set_objs _ k)) ts [Entry o] _).
    simpl. by rewrite lookup_insert_ne.
  - intros l' w' Hl' Hr. simpl. assert (l' ≠ ThreadList) by (by intros ->).
    assert (l' ≠ l) by (intros ->; simplify_eq; lia). by rewrite !lookup_insert_ne.
  - simpl. rewrite lookup_insert_ne, lookup_insert_eq; done.
  - by eapply roused_thread.
Qed.

(** Waking up a sub event is waking up the waiters of its event. *)
Lemma signal_sub (M : Methods mem) k l w xs ys o r s e x' eax :
  signal_spec rank loops M (rank w) → @loop_fuel _ M = loops →
  wf rank k → small loops k → wait_queue l = Some w → qs k !! l = Some (xs ++ Entry o :: ys) →
  objs k !! o = Some (Object r (SubEvent s)) → s_blocked s = true →
  (rank (s_event s) < rank w)%nat → objs k !! s_event s = Some x' → obj_body x' = Event e →
  is_Some (qs k !! Waiters (s_event s)) →
  wp (@__subEventSignal _ M o eax) k (λ _ k', signal_post rank l w (xs ++ ys) eax o k k').
Proof.
  intros Hsig Hfuel Hwf Hsm Hl Hx Ho Hb Hr Hx' He [zs Hz].
  assert (s_event s ≠ o) as Hne by (intros Heq; rewrite Heq, Ho in Hx'; simplify_eq).
  set (sub := SubEvent (SubEventFields false (s_event s) (s_wait s) (s_waitMode s) (s_identifier s))).
  set (k1 := set_qs (<[l := xs ++ ys]> (qs k)) (set_objs (<[o := Object r sub]> (objs k)) k)).
  set (k2 := set_objs (<[s_event s := Object (refcount x') (Event (EventFields eax (e_wakeupAll e)))]> (objs k1)) k1).
  assert (Hwf1 : wf rank k1).
  { unfold wf, k1. rewrite view_of_update.
    apply (wf_unlink rank _ _ o (WSub true (s_event s))); try done.
    erewrite view_of_obj by done. simpl. by rewrite Hb. }
  assert (Hwf2 : wf rank k2).
  { unfold wf, k2. rewrite view_of_objs. rewrite insert_id; [done|].
    rewrite (view_of_obj _ _ x'); [by rewrite He|]. simpl. by rewrite lookup_insert_ne. }
  assert (Hw : woken k k2).
  { eapply woken_trans; [exact (woken_object k o _ _ Ho (wake_sub s))|].
    eapply woken_trans; [eapply (woken_queue _ l _ (xs ++ ys)); [eauto|done|]|].
    { apply sublist_app; [done|]. by constructor. }
    apply (woken_object k1 (s_event s) x'); [simpl; by rewrite lookup_insert_ne|]. rewrite He. constructor. }
  assert (Hlz : l ≠ Waiters (s_event s)) by (intros ->; simpl in Hl; simplify_eq; lia).
  unfold __subEventSignal, set_blocked, set_status.
  wp_step. eapply wp_container; [done..|]. rewrite Hb.
  wp_steps. eapply wp_pointee; [done..|]. eapply wp_putBody; [done|].
  wp_step. eapply wp_queue_remove; [apply Hwf|done|].
  wp_step. eapply wp_pointee; [simpl; by rewrite lookup_insert_ne|by rewrite He|].
  wp_steps. eapply wp_pointee; [simpl; by rewrite lookup_insert_ne|by rewrite He|].
  eapply wp_putBody; [simpl; by rewrite lookup_insert_ne|]. fold sub. fold k1. fold k2.
  eapply wp_mono.
  - apply (queueWakeup_spec rank loops M (Waiters (s_event s)) (s_event s) _ _ zs); try done.
    + intros k' l' w'. intros. eapply Hsig; try done. lia.
    + by eapply small_woken.
    + simpl. by rewrite lookup_insert_ne.
  - intros [] k3 (Hwf3 & Hw3 & Ha3 & Hz3 & Ht3). split_and!; [done|by eapply woken_trans| | |].
    + intros l' w' Hl' Hr'. rewrite (Ha3 l' w') by (done || lia). simpl.
      rewrite lookup_insert_ne; [done|]. intros <-. simplify_eq. lia.
    + rewrite (Ha3 l w) by done. simpl. by rewrite lookup_insert_eq.
    + destruct x' as [re b]. simpl in He. subst b.
      eapply (roused_by_sub k k2 k3 o r s eax e zs); try done; [apply Hwf|apply Hwf2|..].
      * intros o2 Ho2 He2. simpl. by rewrite !lookup_insert_ne.
      * simpl. by rewrite lookup_insert_ne, lookup_insert_eq.
Qed.

(** Signals nested [depth] deep serve every queue of a lower rank. *)
Lemma methods_signal depth : signal_spec rank loops (methods loops depth) depth.
Proof.
  induction depth as [|d IH]; intros k l w xs ys o eax Hwf Hsm Hl Hr Hx; [lia|]. simpl.
  destruct (wait_queue_elem rank k l w _ (Entry o) Hwf Hl Hx) as (o' & x & [= <-] & Ho & Hc); [set_solver|].
  unfold call_signal. wp_step. eapply wp_getBody; [done|].
  destruct x as [r b]. destruct Hc as [(t & Hb & Hbl & Hp)|(s & e & x' & Hb & Hbl & Hr' & Hx' & He & Hq)];
    simpl in Hb; subst b; simpl.
  - by eapply signal_thread.
  - eapply signal_sub; try done; [|by destruct d].
    intros k' l' w'. intros. eapply IH; try done. lia.
Qed.
End Signal.
