(* ===== verification/Sample.v ===== *)
(** * A concrete machine

    The smallest memory and processor the kernel's interfaces [Memory] and
    [Machine] can be instantiated with: a heap that hands out fresh addresses
    until a budget of new blocks is used up, page functions that only number the pages they
    give away, and a processor on which every thread asks to be ended. The
    witnesses of the other files run the kernel on it. *)

From S2P Require Import Prelude Io LinkedList Console Kernel Thread Waiting.
Open Scope Z_scope.

Record heap := Heap {
  h_live : gset Z;      (* the blocks in use *)
  h_budget : nat;       (* allocations that still succeed *)
  h_page : Z;           (* the next page *)
}.

(** An address above all others. *)
Definition above_all (X : gset Z) : Z := foldr (λ a b, a `max` b) 0 (elements X) + 1.

Lemma above_all_fresh X : above_all X ∉ X.
Proof.
  intros Hin%elem_of_elements. unfold above_all in Hin.
  assert (∀ l a, a ∈ l → a ≤ foldr (λ a b, a `max` b) 0 l) as Hmax.
  { intros l a. induction l as [|b l IH]; [by intros ?%not_elem_of_nil|].
    intros [->|Ha]%elem_of_cons; simpl; [lia|]. specialize (IH Ha). lia. }
  apply Hmax in Hin. lia.
Qed.

Definition sample_alloc (size : Z) : M heap (option oid) := λ h,
  match h_budget h with
  | O => Ok (None, h)
  | S n => let a := above_all (h_live h) in Ok (Some a, Heap ({[a]} ∪ h_live h) n (h_page h))
  end.

(** Blocks grow and shrink where they are. *)
Definition sample_realloc (o size : Z) : M heap (option oid) := λ h,
  Ok (Some o, Heap ({[o]} ∪ h_live h ∖ {[o]}) (h_budget h) (h_page h)).

Definition sample_free (o : oid) : M heap unit := λ h,
  Ok (tt, Heap (h_live h ∖ {[o]}) (h_budget h) (h_page h)).

(** [n] new pages. *)
Definition sample_pages (n : Z) : M heap Z := λ h,
  Ok (h_page h * 4096, Heap (h_live h) (h_budget h) (h_page h + n)).

#[export] Instance sample_memory : Memory heap := {|
  heapAlloc := sample_alloc;
  heapReAlloc := sample_realloc;
  heapFree := sample_free;
  pagingAllocatePhysMem _ n _ _ := sample_pages n;
  pagingReleasePhysMem _ _ _ := mret tt;
  pagingGetPhysMem _ a := mret (a / 4096);
  pagingMapRemoteMemory _ _ _ _ n _ _ := sample_pages n;
  pagingAllocProcessPageTable _ := sample_pages 1;
  pagingForkProcessPageTable _ _ := sample_pages 1;
  pagingReleaseProcessPageTable _ := mret tt;
  pagingFillProcessInfo _ := mret (0, 0, 0, 0, 0);
|}.

#[export] Instance sample_laws : MemoryLaws heap.
Proof.
  refine {| live := h_live |}.
  - intros m n. unfold wp; simpl. unfold sample_alloc. destruct (h_budget m); [done|].
    split; [apply above_all_fresh|done].
  - intros m o n Ho. split; [by left|done].
  - intros m o Ho. done.
Defined.

#[export] Instance sample_machine : Machine heap := {|
  dataRing0_offset := 16;
  codeRing3_offset := 27;
  dataRing3_offset := 35;
  kernelStack := 0x200000;
  intJmpTable_user := 0x201000;
  fnsave := mret 0;
|}.

Definition sample_console : console := Console (replicate 2000 0) 0 0 15 0 0 0 (Ports [] []).

(** A kernel with some objects and queues. *)
Definition sample_kernel (objects : list (oid * object)) (queues : list (node * list node)) : kernel heap :=
  let os := list_to_map objects in
  Kernel os (list_to_map queues) 100 None None sample_console (Heap (dom os) 64 16).

(** The registers of a thread that has just been created. *)
Definition sample_registers : taskContext :=
  TaskContext 0 0 0 0 0 0 0 0 0 0 0 0 0 0 0 0 0 0 0 0 0 0 0 0 0 0.

Definition sample_thread (blocked : bool) (p : option oid) : object :=
  Object 1 (Thread (ThreadFields blocked p ERR false 0x10000 16 0x20000 1 sample_registers 0)).

(** ** Deciding the invariant

    A concrete kernel is checked by evaluation: the nodes of all its queues
    are different, every object is where its state says, and the queues of the
    scheduler hold nothing else. *)

Definition all_nodes (queues : list (node * list node)) : list node :=
  concat ((λ p, p.1 :: p.2) <$> queues).

Definition location (queues : list (node * list node)) (n : node) : option node :=
  fst <$> find (λ p, bool_decide (n ∈ p.2)) queues.

#[local] Instance wstate_eq_dec : EqDecision wstate.
Proof. solve_decision. Defined.

Definition place_check (rank : oid → nat) (v : view) (queues : list (node * list node)) (o : oid) (s : wstate) : bool :=
  match s, location queues (Entry o) with
  | WThread true true, Some l => bool_decide (is_Some (wait_queue l))
  | WThread true false, Some l => bool_decide (l = ThreadList)
  | WSub true e, Some l =>
      match wait_queue l with
      | Some w => bool_decide (rank e < rank w)%nat && bool_decide (v !! e = Some WEvent)
                  && bool_decide (Waiters e ∈ queues.*1)
      | None => false
      end
  | WTimer true, Some l => bool_decide (l = TimerList)
  | WThread false _, None | WSub false _, None | WTimer false, None => bool_decide (Entry o ∉ all_nodes queues)
  | WEvent, _ | WOther, _ => true
  | _, _ => false
  end.

Definition sched_queue_b (l : node) : bool :=
  match l with ThreadList | TimerList => true | _ => bool_decide (is_Some (wait_queue l)) end.

Definition elem_check (v : view) (n : node) : bool :=
  match n with
  | Entry o => match v !! o with Some s => schedulable s | None => false end
  | _ => false
  end.

Definition wf_check (rank : oid → nat) (v : view) (queues : list (node * list node)) : bool :=
  bool_decide (NoDup (all_nodes queues)) &&
  bool_decide (ThreadList ∈ queues.*1) && bool_decide (TimerList ∈ queues.*1) &&
  forallb (λ p, place_check rank v queues p.1 p.2) (map_to_list v) &&
  forallb (λ p, if sched_queue_b p.1 then forallb (elem_check v) p.2 else true) queues.

(** Going through the entries of a concrete map. *)
Lemma lookup_sample {A} `{Countable K} (l : list (K * A)) i x :
  (list_to_map l : gmap K A) !! i = Some x → (i, x) ∈ l.
Proof. apply elem_of_list_to_map_2. Qed.

Ltac sample_cases Ho :=
  apply lookup_sample in Ho;
  repeat (apply elem_of_cons in Ho as [Ho|Ho]; [|]); try (by apply not_elem_of_nil in Ho);
  try (injection Ho as ?; subst); try discriminate.

Section Check.
Implicit Types queues : list (node * list node).

Lemma all_nodes_elem queues l xs n : (l, xs) ∈ queues → n ∈ l :: xs → n ∈ all_nodes queues.
Proof. intros Hq Hn. apply list_elem_of_In, in_concat. exists (l :: xs). split; apply list_elem_of_In; [|done]. apply list_elem_of_fmap. by exists (l, xs). Qed.

Lemma all_nodes_keys queues : NoDup (all_nodes queues) → NoDup queues.*1.
Proof.
  induction queues as [|[l xs] queues IH]; unfold all_nodes; simpl; [constructor|].
  rewrite NoDup_cons, NoDup_app. intros (Hl & _ & _ & Hnd). constructor; [|by apply IH].
  intros ([l' ys] & Heq & Hin)%list_elem_of_fmap. simpl in Heq. subst l'.
  apply Hl, elem_of_app. right. eapply all_nodes_elem; [done|]. set_solver.
Qed.

Lemma all_nodes_unique queues l1 xs1 l2 xs2 n :
  NoDup (all_nodes queues) → (l1, xs1) ∈ queues → (l2, xs2) ∈ queues →
  n ∈ l1 :: xs1 → n ∈ l2 :: xs2 → l1 = l2.
Proof.
  induction queues as [|[l xs] queues IH]; unfold all_nodes; simpl; [by intros _ ?%not_elem_of_nil|].
  rewrite app_comm_cons, NoDup_app. intros (_ & Hdis & Hnd).
  intros [[= -> ->]|H1]%elem_of_cons [[= -> ->]|H2]%elem_of_cons Hn1 Hn2; [done| | |by apply IH].
  - destruct (Hdis n Hn1). by apply (all_nodes_elem _ l2 xs2).
  - destruct (Hdis n Hn2). by apply (all_nodes_elem _ l1 xs1).
Qed.

Lemma location_located queues n :
  NoDup (all_nodes queues) →
  match location queues n with
  | Some l => located (list_to_map queues) n (Some l)
  | None => n ∉ all_nodes queues → located (list_to_map queues) n None
  end.
Proof.
  intros Hnd. pose proof (all_nodes_keys _ Hnd) as Hk. unfold location.
  destruct (find _ queues) as [[l xs]|] eqn:E; simpl.
  - apply find_some in E as [Hin Hn]. simpl in Hn. apply bool_decide_eq_true in Hn.
    exists xs. split; [|done]. apply elem_of_list_to_map; [done|]. by apply list_elem_of_In.
  - intros Hn l xs Hl Hx. apply elem_of_list_to_map in Hl; [|done]. by eapply Hn, all_nodes_elem.
Qed.

Lemma sched_queue_b_spec l : sched_queue l → sched_queue_b l = true.
Proof. intros [->|[->|Hl]]; [done..|]. destruct l; try done; by apply bool_decide_eq_true. Qed.

Lemma nodes_q_ok queues : NoDup (all_nodes queues) → q_ok (list_to_map queues).
Proof.
  intros Hnd. pose proof (all_nodes_keys _ Hnd) as Hk. split.
  - intros l xs Hl. apply elem_of_list_to_map in Hl; [|done].
    apply list_elem_of_split in Hl as (q1 & q2 & ->). unfold all_nodes in Hnd.
    rewrite fmap_app, concat_app in Hnd. apply NoDup_app in Hnd as (_ & _ & Hnd).
    simpl in Hnd. by apply (NoDup_app (l :: xs)) in Hnd as (? & _ & _).
  - intros l1 l2 xs1 xs2 n H1 H2. apply elem_of_list_to_map in H1, H2; [|done..]. by eapply all_nodes_unique.
Qed.

Lemma wf_check_sound rank v queues : wf_check rank v queues = true → wf_view rank v (list_to_map queues).
Proof.
  unfold wf_check. rewrite !andb_true_iff, !bool_decide_eq_true, !forallb_forall.
  intros ((((Hnd & Hth) & Hti) & Hpl) & Hel). pose proof (all_nodes_keys _ Hnd) as Hk.
  assert (∀ l, l ∈ queues.*1 → is_Some ((list_to_map queues : gmap node (list node)) !! l)) as Hdom.
  { intros l ([l' xs] & -> & Hin)%list_elem_of_fmap. exists xs. by apply elem_of_list_to_map. }
  constructor; [by apply nodes_q_ok|by apply Hdom..| |].
  - intros o s Ho Hs. specialize (Hpl (o, s)). rewrite <-list_elem_of_In, elem_of_map_to_list in Hpl.
    specialize (Hpl Ho). simpl in Hpl. unfold place_check in Hpl.
    pose proof (location_located queues (Entry o) Hnd) as Hloc.
    destruct s as [[] []|[] e| |[]|]; try done; destruct (location queues (Entry o)) as [l|]; try done;
      try (exists None; split; [by apply Hloc; apply bool_decide_eq_true in Hpl|done]);
      (exists (Some l); split; [done|]); simpl.
    + apply bool_decide_eq_true in Hpl as [w Hw]. eauto.
    + by apply bool_decide_eq_true in Hpl as ->.
    + destruct (wait_queue l) as [w|] eqn:Hw; [|done].
      rewrite !andb_true_iff, !bool_decide_eq_true in Hpl. destruct Hpl as [[Hr He] Hq].
      exists l, w. split_and!; [done..|]. by apply Hdom.
    + by apply bool_decide_eq_true in Hpl as ->.
  - intros l xs n Hl Hx Hn. apply elem_of_list_to_map in Hx; [|done]. specialize (Hel (l, xs)).
    rewrite <-list_elem_of_In in Hel. specialize (Hel Hx). simpl in Hel.
    rewrite (sched_queue_b_spec l Hl), forallb_forall in Hel. specialize (Hel n).
    rewrite <-list_elem_of_In in Hel. specialize (Hel Hn). unfold elem_check in Hel.
    destruct n; try done. destruct (v !! o) as [s|] eqn:E; [|done]. eauto.
Qed.
End Check.

Definition small_check (loops : nat) (queues : list (node * list node)) : bool :=
  forallb (λ p, bool_decide (length p.2 < loops)%nat) queues.

Lemma small_check_sound loops (k : kernel heap) queues :
  qs k = list_to_map queues → small_check loops queues = true → small loops k.
Proof.
  unfold small_check. rewrite forallb_forall. intros Hk Hc l xs _ Hx. rewrite Hk in Hx.
  apply lookup_sample, list_elem_of_In, Hc in Hx. by apply bool_decide_eq_true in Hx.
Qed.
