(* ===== verification/TimerProofs.v ===== *)
(** * The list of active timers

    What the functions of Timer.v do to a well formed kernel: a timer is
    linked in [TimerList] exactly while it is active, the list stays sorted by
    timeout, and the interrupt leaves no expired timer in it. *)

From stdpp Require Import sorting.
From S2P Require Import Prelude LinkedList Kernel Timer Thread Dispatch Waiting Sample.
Open Scope Z_scope.

(** The timeout of the timer a link of the list belongs to. *)
Definition timeout_at {mem} (k : kernel mem) (n : node) : Z :=
  match container n ≫= (objs k !!.) with
  | Some (Object _ (Timer t)) => t_timeout t
  | _ => 0
  end.

Definition sorted_timers {mem} (k : kernel mem) : Prop :=
  ∀ xs, qs k !! TimerList = Some xs →
    StronglySorted (λ n m, timeout_at k n ≤ timeout_at k m) xs.

Section TimerProofs.
Context {mem : Type} `{Memory mem} (M : Methods mem) (rank : oid → nat).
Implicit Types k : kernel mem.

(** An element of the list is an active timer. *)
Lemma timer_elem k xs n :
  wf rank k → qs k !! TimerList = Some xs → n ∈ xs →
  ∃ o r t, n = Entry o ∧ objs k !! o = Some (Object r (Timer t)) ∧ t_active t = true.
Proof.
  intros Hwf Hx Hn.
  destruct (wf_elem_allowed rank _ _ TimerList xs n Hwf) as (o & s & -> & Ho & Hs & Ha);
    [right; by left|done..|].
  apply view_of_lookup in Ho as ([r b] & Ho & Hb). simpl in Hb.
  destruct b; simpl in Hb; subst s; simpl in *; try done.
  - destruct (s_blocked s0); [|done]. by destruct Ha as (l & w & [= <-] & ? & _).
  - exists o, r, t. split_and!; [done..|]. by destruct (t_active t).
  - destruct (bool_decide _), (th_blocked t); try done. by destruct Ha as (l & w & [= <-] & ?).
Qed.

(** And an inactive timer is not linked. *)
Lemma timer_place k o r t :
  wf rank k → objs k !! o = Some (Object r (Timer t)) →
  if t_active t then ∃ xs ys, qs k !! TimerList = Some (xs ++ Entry o :: ys)
  else free_node (qs k) (Entry o).
Proof.
  intros Hwf Ho. pose proof (view_of_obj _ _ _ Ho) as Hv.
  destruct (wf_place _ _ _ Hwf o _ Hv eq_refl) as (p & Hp & Ha). simpl in Ha. subst p.
  destruct (t_active t); [|done]. destruct Hp as (zs & Hz & (xs & ys & ->)%list_elem_of_split). eauto.
Qed.

(** *** __timerDeactivate *)

Definition deactivated k o r t xs ys : kernel mem :=
  set_objs (<[o := Object r (Timer (timer_with_active false t))]> (objs k))
    (set_qs (<[TimerList := xs ++ ys]> (qs k)) k).

Lemma wf_deactivated k o r t xs ys :
  wf rank k → objs k !! o = Some (Object r (Timer t)) → t_active t = true →
  qs k !! TimerList = Some (xs ++ Entry o :: ys) → wf rank (deactivated k o r t xs ys).
Proof.
  intros Hwf Ho Ha Hx. unfold wf, deactivated. rewrite (view_of_objs (set_qs _ k)). simpl.
  apply (wf_unlink rank _ _ o (WTimer true)); try done.
  change (view_of (set_qs (<[TimerList:=xs ++ ys]> (qs k)) k)) with (view_of k).
  rewrite (view_of_obj _ _ _ Ho). simpl. by rewrite Ha.
Qed.

Lemma wp_timerDeactivate k o r t (Q : unit → kernel mem → Prop) :
  wf rank k → objs k !! o = Some (Object r (Timer t)) →
  (t_active t = true → ∀ xs ys, qs k !! TimerList = Some (xs ++ Entry o :: ys) →
     Q tt (deactivated k o r t xs ys)) →
  (t_active t = false → Q tt k) →
  wp (__timerDeactivate o) k Q.
Proof.
  intros Hwf Ho Ht Hf. unfold __timerDeactivate. wp_step. eapply wp_pointee; [done..|].
  pose proof (timer_place k o r t Hwf Ho) as Hp.
  apply wp_when; intros Ha; rewrite Ha in Hp; [|by apply Hf].
  destruct Hp as (xs & ys & Hx). wp_step. eapply wp_queue_remove; [apply Hwf|done|].
  unfold modify_timer. wp_step. eapply wp_pointee; [done..|]. eapply wp_putBody; [done|]. by apply Ht.
Qed.

(** *** __timerActivate *)

Lemma wp_timer_scan k v xs ys fuel :
  wf rank k → qs k !! TimerList = Some (xs ++ ys) → (length ys < fuel)%nat →
  wp (for_each_loop fuel TimerList (λ c _,
        let* cur_t := pointee as_timer c in
        mret (if v <? t_timeout cur_t then inr tt else inl tt)) (hd TimerList ys) tt) k
    (λ p k', k' = k ∧ ∃ ys1 ys2, ys = ys1 ++ ys2 ∧ p.1 = hd TimerList ys2 ∧
       Forall (λ n, timeout_at k n ≤ v) ys1 ∧ (ys2 = [] ∨ v < timeout_at k (hd TimerList ys2))).
Proof.
  intros Hwf. revert xs fuel. induction ys as [|n ys IH]; intros xs fuel Hx Hf;
    (destruct fuel as [|fuel]; [simpl in Hf; lia|]); simpl.
  - wp_step. split; [done|]. exists [], []. split_and!; [done..|by left].
  - destruct (timer_elem k _ n Hwf Hx) as (o & r & t & -> & Ho & Ha); [set_solver|].
    rewrite decide_False by done. wp_step. apply wp_deref with o; [done|].
    assert (timeout_at k (Entry o) = t_timeout t) as Htmo by (unfold timeout_at; simpl; by rewrite Ho).
    wp_steps. eapply wp_pointee; [done..|]. wp_steps.
    destruct (Z.ltb_spec v (t_timeout t)); wp_steps.
    + split; [done|]. exists [], (Entry o :: ys). split_and!; [done..|]. right. simpl. lia.
    + eapply wp_queue_next; [eapply q_next_elem; [apply Hwf|done]|].
      eapply wp_mono; [apply (IH (xs ++ [Entry o])); [by rewrite <-app_assoc|simpl in Hf; lia]|].
      intros p k' (-> & ys1 & ys2 & -> & Hp & Hle & Hgt). split; [done|].
      exists (Entry o :: ys1), ys2. split_and!; [done..| |done]. constructor; [lia|done].
Qed.

Definition activated k o r t xs ys : kernel mem :=
  set_objs (<[o := Object r (Timer (timer_with_active true t))]> (objs k))
    (set_qs (<[TimerList := xs ++ Entry o :: ys]> (qs k)) k).

Lemma wf_activated k o r t xs ys :
  wf rank k → objs k !! o = Some (Object r (Timer t)) → t_active t = false →
  qs k !! TimerList = Some (xs ++ ys) → wf rank (activated k o r t xs ys).
Proof.
  intros Hwf Ho Ha Hx. unfold wf, activated. rewrite (view_of_objs (set_qs _ k)). simpl.
  pose proof (timer_place k o r t Hwf Ho) as Hp. rewrite Ha in Hp.
  apply (wf_link rank _ _ o (WTimer false) _ _ (xs ++ ys)); try done.
  - change (view_of (set_qs (<[TimerList:=xs ++ Entry o :: ys]> (qs k)) k)) with (view_of k).
    rewrite (view_of_obj _ _ _ Ho). simpl. by rewrite Ha.
  - by rewrite Permutation_middle.
Qed.

Lemma wp_timerActivate k o r t (Q : unit → kernel mem → Prop) :
  wf rank k → objs k !! o = Some (Object r (Timer t)) →
  (∀ xs, qs k !! TimerList = Some xs → (length xs < loop_fuel)%nat) →
  (t_active t = true → Q tt k) →
  (t_active t = false → ∀ xs ys, qs k !! TimerList = Some (xs ++ ys) →
     Forall (λ n, timeout_at k n ≤ t_timeout t) xs →
     (ys = [] ∨ t_timeout t < timeout_at k (hd TimerList ys)) →
     Q tt (activated k o r t xs ys)) →
  wp (__timerActivate o) k Q.
Proof.
  intros Hwf Ho Hlen Ht Hf. unfold __timerActivate. wp_step. eapply wp_pointee; [done..|].
  pose proof (timer_place k o r t Hwf Ho) as Hp.
  apply wp_when; intros Ha; [apply negb_true_iff in Ha|apply negb_false_iff in Ha; by apply Ht].
  rewrite Ha in Hp.
  destruct (wf_timers _ _ _ Hwf) as [zs Hz]. unfold for_each.
  wp_step. wp_step. eapply wp_queue_next; [by apply q_next_head|].
  eapply wp_mono; [apply (wp_timer_scan k (t_timeout t) [] zs); [done|done|by apply Hlen]|].
  intros [cur []] k' (-> & xs & ys & -> & Hcur & Hle & Hgt). simpl in Hcur. subst cur.
  assert (Hmod : ∀ k1, k1 = set_qs (<[TimerList := xs ++ Entry o :: ys]> (qs k)) k →
    wp (modify_timer o (timer_with_active true)) k1 Q).
  { intros k1 ->. unfold modify_timer. wp_step. eapply wp_pointee; [done..|].
    eapply wp_putBody; [done|]. by apply Hf. }
  wp_step. destruct ys as [|n ys]; simpl.
  - eapply wp_queue_add_tail; [apply Hwf|done|done|]. apply Hmod. by rewrite app_nil_r.
  - eapply wp_queue_add_before; [apply Hwf|done|done|]. by apply Hmod.
Qed.

(** *** Order *)

Lemma timeout_at_insert k o r t t' n q :
  objs k !! o = Some (Object r (Timer t)) → t_timeout t' = t_timeout t →
  timeout_at (set_objs (<[o := Object r (Timer t')]> (objs k)) (set_qs q k)) n = timeout_at k n.
Proof.
  intros Ho Ht. unfold timeout_at. destruct (container n) as [o'|]; simpl; [|done].
  destruct (decide (o' = o)) as [->|]; [by rewrite lookup_insert_eq, Ho|by rewrite lookup_insert_ne].
Qed.

Lemma StronglySorted_ext {A} (R R' : A → A → Prop) l :
  (∀ x y, R x y → R' x y) → StronglySorted R l → StronglySorted R' l.
Proof.
  intros HR. induction 1; constructor; [done|]. eapply Forall_impl; [done|auto].
Qed.

Lemma sorted_app_inv {A} (R : A → A → Prop) l1 l2 :
  StronglySorted R (l1 ++ l2) →
  StronglySorted R l1 ∧ StronglySorted R l2 ∧ (∀ x y, x ∈ l1 → y ∈ l2 → R x y).
Proof.
  induction l1 as [|a l1 IH]; simpl; intros Hs.
  - split_and!; [constructor|done|set_solver].
  - inversion_clear Hs as [|? ? Hs' Hf]. apply IH in Hs' as (H1 & H2 & H3).
    apply Forall_app in Hf as [Hf1 Hf2]. split_and!; [by constructor|done|].
    intros x y [->|Hx]%elem_of_cons Hy; [by eapply Forall_forall in Hf2|auto].
Qed.

Lemma sorted_app_intro {A} (R : A → A → Prop) l1 l2 :
  StronglySorted R l1 → StronglySorted R l2 → (∀ x y, x ∈ l1 → y ∈ l2 → R x y) →
  StronglySorted R (l1 ++ l2).
Proof.
  induction 1 as [|a l1 Hs IH Hf]; simpl; intros H2 H12; [done|]. constructor.
  - apply IH; [done|]. intros. apply H12; set_solver.
  - apply Forall_app. split; [done|]. apply Forall_forall. intros. apply H12; set_solver.
Qed.

(** [ordered k xs]: the timeouts of [xs] do not decrease. *)
Definition ordered k (xs : list node) : Prop := StronglySorted (λ n m, timeout_at k n ≤ timeout_at k m) xs.

Lemma ordered_remove k xs n ys : ordered k (xs ++ n :: ys) → ordered k (xs ++ ys).
Proof.
  intros (H1 & H2 & H3)%sorted_app_inv. inversion_clear H2 as [|? ? H2' _].
  apply sorted_app_intro; [done..|]. intros. apply H3; set_solver.
Qed.

Lemma ordered_insert k xs n ys :
  ordered k (xs ++ ys) → Forall (λ m, timeout_at k m ≤ timeout_at k n) xs →
  (ys = [] ∨ timeout_at k n < timeout_at k (hd TimerList ys)) → ordered k (xs ++ n :: ys).
Proof.
  intros (H1 & H2 & H3)%sorted_app_inv Hle Hgt.
  assert (∀ m, m ∈ ys → timeout_at k n ≤ timeout_at k m) as Hys.
  { destruct Hgt as [->|Hgt]; [set_solver|]. destruct ys as [|y ys]; [set_solver|]. simpl in Hgt.
    inversion_clear H2 as [|? ? _ Hf]. intros m [->|Hm]%elem_of_cons; [lia|].
    eapply Forall_forall in Hf; [|done]. lia. }
  apply sorted_app_intro; [done| |].
  - constructor; [done|]. by apply Forall_forall.
  - intros x y Hx [->|Hy]%elem_of_cons; [by eapply Forall_forall in Hle|auto].
Qed.

(** *** __timerUpdate: the timer is put where its timeout belongs *)

Lemma wp_timerUpdate k o r t xs ys (Q : unit → kernel mem → Prop) :
  wf rank k → objs k !! o = Some (Object r (Timer t)) → t_active t = true →
  qs k !! TimerList = Some (xs ++ Entry o :: ys) → ordered k (xs ++ ys) →
  (length (xs ++ ys) < loop_fuel)%nat →
  (∀ xs' ys', xs ++ ys = xs' ++ ys' →
     let k' := set_qs (<[TimerList := xs' ++ Entry o :: ys']> (qs k)) k in
     wf rank k' → ordered k' (xs' ++ Entry o :: ys') → Q tt k') →
  wp (__timerUpdate o) k Q.
Proof.
  intros Hwf Ho Ha Hx Hord Hlen HQ. unfold __timerUpdate. wp_step.
  apply (wp_timerDeactivate k o r t); [done..| |by rewrite Ha].
  intros _ xs0 ys0 Hx0.
  assert (xs0 = xs ∧ ys0 = ys) as [-> ->].
  { rewrite Hx in Hx0. injection Hx0 as Heq.
    pose proof (proj1 (wf_ok _ _ _ Hwf) _ _ Hx) as [_ Hnd]%NoDup_cons.
    by eapply NoDup_split_inj. }
  set (k1 := deactivated k o r t xs ys).
  assert (Hwf1 : wf rank k1) by by apply wf_deactivated.
  assert (Ho1 : objs k1 !! o = Some (Object r (Timer (timer_with_active false t)))) by (simpl; by rewrite lookup_insert_eq).
  assert (Hx1 : qs k1 !! TimerList = Some (xs ++ ys)) by (simpl; by rewrite lookup_insert_eq).
  assert (Htm : ∀ n, timeout_at k1 n = timeout_at k n) by (intros; by eapply timeout_at_insert).
  apply (wp_timerActivate k1 o r (timer_with_active false t)); [done..| |done|].
  { intros zs Hz. rewrite Hx1 in Hz. by simplify_eq. }
  intros _ xs' ys' Hx' Hle Hgt. rewrite Hx1 in Hx'. injection Hx' as Heq.
  assert (activated k1 o r (timer_with_active false t) xs' ys' =
    set_qs (<[TimerList := xs' ++ Entry o :: ys']> (qs k)) k) as E.
  { unfold activated, k1, deactivated, set_objs, set_qs; simpl.
    rewrite !insert_insert_eq. f_equal. apply insert_id. rewrite Ho. do 3 f_equal.
    destruct t; simpl in *; by subst. }
  assert (Hwf' : wf rank (activated k1 o r (timer_with_active false t) xs' ys')).
  { apply wf_activated; [done..|]. by rewrite <-Heq. }
  rewrite E in Hwf' |- *. apply HQ; [done..|].
  assert (Hto : timeout_at k (Entry o) = t_timeout t) by (unfold timeout_at; simpl; by rewrite Ho).
  apply (ordered_insert k xs' (Entry o) ys').
  - by rewrite <-Heq.
  - rewrite Hto. eapply Forall_impl; [done|]. intros n. simpl. by rewrite Htm.
  - rewrite Hto. destruct Hgt as [->|Hgt]; [by left|right]. by rewrite <-Htm.
Qed.
End TimerProofs.

(** ** The timer interrupt *)

(** The arithmetic of an expired periodic timer, where nothing overflows. *)
Definition fits (now : Z) (t : timer) : Prop :=
  is_u64 (t_timeout t) ∧ is_u32 (t_interval t) ∧
  (t_interval t ≠ 0 → now - t_timeout t + t_interval t < 4294967296 ∧
                      now + t_interval t < 18446744073709551616).

Lemma next_timeout_arith now t :
  is_u64 now → fits now t → t_timeout t ≤ now → t_interval t ≠ 0 →
  eventCount now t = (now - t_timeout t) / t_interval t + 1 ∧
  next_timeout now t = t_timeout t + eventCount now t * t_interval t ∧
  now < next_timeout now t ≤ now + t_interval t.
Proof.
  unfold fits. intros Hnow (Ht & Hi & Hfit) Hle Hne. destruct (Hfit Hne) as [H32 H64]. clear Hfit.
  unfold next_timeout, eventCount.
  set (d := now - t_timeout t) in *. set (i := t_interval t) in *.
  assert (u64 d = d) as -> by (apply u64_small; subst d; ulia).
  pose proof (Z.div_mod d i Hne) as Hdm. pose proof (Z.mod_pos_bound d i ltac:(unfold is_u32 in Hi; lia)) as Hmb.
  set (q := d / i) in *. assert (0 ≤ q) by (apply Z.div_pos; unfold is_u32 in Hi; subst d; lia).
  assert (q ≤ i * q) by (unfold is_u32 in Hi; nia).
  assert (u32 (q + 1) = q + 1) as -> by (apply u32_small; unfold is_u32 in *; lia).
  assert ((q + 1) * i = i * q + i) as Hprod by ring.
  assert (u32 ((q + 1) * i) = (q + 1) * i) as -> by (apply u32_small; unfold is_u32 in *; lia).
  assert (u64 (t_timeout t + (q + 1) * i) = t_timeout t + (q + 1) * i) as ->.
  { apply u64_small. unfold is_u64, is_u32 in *. subst d. lia. }
  subst d. lia.
Qed.

Section Irq.
Context {mem : Type} `{Memory mem} `{Machine mem} (rank : oid → nat) (loops depth : nat).
Context (Hdepth : ∀ o, (rank o < depth)%nat).
Implicit Types k : kernel mem.
#[local] Instance M : Methods mem := methods loops depth.

(** Every object that can be waited on has its list head. *)
Definition timer_heads k : Prop :=
  ∀ o r t, objs k !! o = Some (Object r (Timer t)) → is_Some (qs k !! Waiters o).

Record irq_inv (now : Z) k (zs : list node) : Prop := {
  irq_wf : wf rank k;
  irq_small : small loops k;
  irq_list : qs k !! TimerList = Some zs;
  irq_ordered : ordered k zs;
  irq_len : (length zs < loops)%nat;
  irq_heads : timer_heads k;
  irq_fits o r t : Entry o ∈ zs → objs k !! o = Some (Object r (Timer t)) → t_timeout t ≤ now → fits now t;
}.

Definition expired (now : Z) k (zs : list node) : nat := length (filter (λ n, timeout_at k n ≤ now) zs).

Lemma woken_timer k k' o r t :
  woken k k' → objs k' !! o = Some (Object r (Timer t)) ↔ objs k !! o = Some (Object r (Timer t)).
Proof.
  intros Hw. pose proof (wk_objs _ _ Hw o) as Hf.
  split; intros Ho; rewrite Ho in Hf; inversion Hf as [[r1 b1] [r2 b2] [Hr Hb] E1 E2|]; subst; simpl in *;
    inversion Hb; simplify_eq; congruence.
Qed.

Lemma woken_timeout k k' n : woken k k' → timeout_at k' n = timeout_at k n.
Proof.
  intros Hw. unfold timeout_at. destruct (container n) as [o|]; simpl; [|done].
  pose proof (wk_objs _ _ Hw o) as Hf.
  inversion Hf as [[r1 b1] [r2 b2] [Hr Hb] E1 E2|]; [|done]. simpl in Hb. by inversion Hb.
Qed.

Lemma ordered_ext k k' zs : (∀ n, n ∈ zs → timeout_at k' n = timeout_at k n) → ordered k zs → ordered k' zs.
Proof.
  unfold ordered. intros E. induction 1 as [|n zs Hs IH Hf]; constructor.
  - apply IH. intros. apply E. set_solver.
  - rewrite Forall_forall in Hf |- *. intros m Hm. rewrite !E by set_solver. auto.
Qed.

Lemma expired_ext now k k' zs : (∀ n, n ∈ zs → timeout_at k' n = timeout_at k n) → expired now k' zs = expired now k zs.
Proof.
  intros E. unfold expired. induction zs as [|n zs IH]; [done|]. rewrite !filter_cons, E by set_solver.
  case_decide; simpl; rewrite IH; [done| |done|]; intros; apply E; set_solver.
Qed.

(** Waking up threads keeps everything about the timers. *)
Lemma irq_inv_woken now k k' zs : irq_inv now k zs → wf rank k' → woken k k' → irq_inv now k' zs.
Proof.
  intros [Hwf Hsm Hl Hord Hlen Hh Hfits] Hwf' Hw. constructor.
  - done.
  - by eapply small_woken.
  - by rewrite (wk_other _ _ Hw).
  - eapply ordered_ext; [|done]. intros. by apply woken_timeout.
  - done.
  - intros o r t Ho. apply (woken_timer _ _ _ _ _ Hw) in Ho. apply Hh in Ho as [xs Hx].
    destruct (wk_wait _ _ Hw (Waiters o) xs) as (xs' & ? & _); eauto.
  - intros o r t Hz Ho. apply (woken_timer _ _ _ _ _ Hw) in Ho. eauto.
Qed.

(** Changing the timeout of a timer does not matter to the queues. *)
Definition retimed k o r t v : kernel mem :=
  set_objs (<[o := Object r (Timer (timer_with_timeout v t))]> (objs k)) k.

Lemma wf_retimed k o r t v :
  wf rank k → objs k !! o = Some (Object r (Timer t)) → wf rank (retimed k o r t v).
Proof.
  intros Hwf Ho. unfold wf, retimed. rewrite view_of_objs, insert_id; [done|].
  by rewrite (view_of_obj _ _ _ Ho).
Qed.

Lemma timeout_at_retimed k o r t v n :
  n ≠ Entry o → (∃ o', n = Entry o') → timeout_at (retimed k o r t v) n = timeout_at k n.
Proof.
  intros Hne (o' & ->). unfold timeout_at; simpl. by rewrite lookup_insert_ne by congruence.
Qed.

(** What becomes of a timer whose timeout has passed. *)
Definition elapsed (now : Z) (t : timer) : timer :=
  if t_interval t =? 0 then timer_with_active false t else timer_with_timeout (next_timeout now t) t.

(** The number of periods that its waiters are told. *)
Definition periods (now : Z) (t : timer) : Z := if t_interval t =? 0 then 1 else eventCount now t.

(** The state before the waiters of an expired timer are woken up. *)
Definition requeued (now : Z) k (ys : list node) (o r : Z) (t : timer) (k2 : kernel mem) : Prop :=
  currentKernelTimestamp k2 = currentKernelTimestamp k ∧
  objs k2 = <[o := Object r (Timer (elapsed now t))]> (objs k) ∧
  (∀ l, l ≠ TimerList → qs k2 !! l = qs k !! l) ∧
  (lastFPUthread k2 = lastFPUthread k ∧ fileSystemRoot k2 = fileSystemRoot k ∧ con k2 = con k ∧ memory k2 = memory k) ∧
  ∃ zs', irq_inv now k2 zs' ∧ expired now k2 zs' = expired now k ys.

Lemma requeue_periodic now k o r t ys Q :
  is_u64 now → irq_inv now k (Entry o :: ys) → objs k !! o = Some (Object r (Timer t)) →
  t_timeout t ≤ now → t_interval t ≠ 0 →
  (∀ k2, requeued now k ys o r t k2 → is_Some (qs k2 !! Waiters o) → Q tt k2) →
  wp (modify_timer o (timer_with_timeout (next_timeout now t)) ;; __timerUpdate o) k Q.
Proof.
  intros Hnow Hinv Ho Hle Hne HQ. pose proof Hinv as [Hwf Hsm Hl Hord Hlen Hh Hfits].
  destruct (next_timeout_arith now t Hnow) as (_ & _ & Hgt & _); [apply (Hfits o r t); [set_solver|done|done]|done|done|].
  pose proof (Hh _ _ _ Ho) as [ws Hws].
  destruct (timer_elem rank k _ (Entry o) Hwf Hl) as (o' & r' & t' & [= <-] & Ho' & Hact); [set_solver|].
  rewrite Ho in Ho'. injection Ho' as <- <-.
  pose proof (proj1 (wf_ok _ _ _ Hwf) _ _ Hl) as [_ [Hoys Hnd]%NoDup_cons]%NoDup_cons.
  set (v := next_timeout now t) in *. set (k1 := retimed k o r t v).
  assert (Ho1 : objs k1 !! o = Some (Object r (Timer (timer_with_timeout v t)))) by (simpl; by rewrite lookup_insert_eq).
  assert (Htm : ∀ n, n ∈ ys → timeout_at k1 n = timeout_at k n).
  { intros n Hn. apply timeout_at_retimed; [by intros ->|].
    destruct (timer_elem rank k _ n Hwf Hl) as (o' & _ & _ & -> & _); [set_solver|eauto]. }
  assert (Hords : ordered k1 ys).
  { eapply ordered_ext; [done|]. by inversion_clear Hord. }
  unfold modify_timer. wp_steps. eapply wp_pointee; [done..|]. eapply wp_putBody; [done|].
  change (set_objs _ k) with k1.
  eapply (wp_timerUpdate M rank k1 o r _ [] ys); [by apply wf_retimed|done|done|done|done| |].
  { simpl in *. replace (@loop_fuel _ M) with loops by (unfold M; by destruct depth). lia. }
  simpl. intros xs' ys' -> Hwf2 Hord2. set (k2 := set_qs _ k1) in *.
  apply HQ; [|simpl; by rewrite lookup_insert_ne, Hws].
  assert (Htm2 : ∀ n, timeout_at k2 n = timeout_at k1 n) by done.
  assert (Hv : timeout_at k2 (Entry o) = v) by (unfold timeout_at; simpl; by rewrite lookup_insert_eq).
  split; [done|]. split.
  { unfold elapsed. rewrite (proj2 (Z.eqb_neq _ _) Hne). reflexivity. }
  split; [intros l Hl'; simpl; by apply lookup_insert_ne|]. split; [done|].
  exists (xs' ++ Entry o :: ys'). split.
  - constructor; [done| |simpl; by rewrite lookup_insert_eq|done| | |].
    + intros l xs Hlw Hx. simpl in Hx. rewrite lookup_insert_ne in Hx; [by eapply Hsm|]. intros <-. by destruct Hlw.
    + rewrite length_app in *. simpl in *. rewrite length_app in Hlen. lia.
    + intros o2 r2 t2 Ho2. simpl in *. rewrite lookup_insert_ne by done.
      destruct (decide (o2 = o)) as [->|]; [eauto|]. rewrite lookup_insert_ne in Ho2 by done. eauto.
    + intros o2 r2 t2 Hz Ho2 Hle2. simpl in Ho2.
      destruct (decide (o2 = o)) as [->|].
      * rewrite lookup_insert_eq in Ho2. simplify_eq. simpl in Hle2. lia.
      * rewrite lookup_insert_ne in Ho2 by done. apply (Hfits o2 r2 t2); [set_solver|done|done].
  - unfold expired. rewrite filter_app, filter_cons_False by (rewrite Hv; lia). rewrite <-filter_app.
    apply (expired_ext now k k2). intros n Hn. by rewrite Htm2, Htm.
Qed.

Lemma requeue_oneshot now k o r t ys Q :
  irq_inv now k (Entry o :: ys) → objs k !! o = Some (Object r (Timer t)) → t_interval t = 0 →
  (∀ k2, requeued now k ys o r t k2 → is_Some (qs k2 !! Waiters o) → Q tt k2) →
  wp (__timerDeactivate o) k Q.
Proof.
  intros Hinv Ho Hzero HQ. pose proof Hinv as [Hwf Hsm Hl Hord Hlen Hh Hfits].
  pose proof (Hh _ _ _ Ho) as [ws Hws].
  destruct (timer_elem rank k _ (Entry o) Hwf Hl) as (o' & r' & t' & [= <-] & Ho' & Hact); [set_solver|].
  rewrite Ho in Ho'. injection Ho' as <- <-.
  pose proof (proj1 (wf_ok _ _ _ Hwf) _ _ Hl) as [_ Hnd]%NoDup_cons.
  apply (wp_timerDeactivate rank k o r t); [done..| |by rewrite Hact].
  intros _ xs0 ys0 Hx0. rewrite Hl in Hx0. injection Hx0 as Heq.
  destruct (NoDup_split_inj (Entry o) [] ys xs0 ys0 Hnd Heq) as [-> ->].
  set (k2 := deactivated k o r t [] ys). apply HQ; [|simpl; by rewrite lookup_insert_ne, Hws].
  assert (Htm : ∀ n, timeout_at k2 n = timeout_at k n) by (intros; by eapply timeout_at_insert).
  split; [done|]. split.
  { unfold elapsed. rewrite Hzero. reflexivity. }
  split; [intros l Hl'; simpl; by apply lookup_insert_ne|]. split; [done|].
  exists ys. split.
  - constructor; [by apply wf_deactivated| |simpl; by rewrite lookup_insert_eq| | | |].
    + intros l xs Hlw Hx. simpl in Hx. rewrite lookup_insert_ne in Hx; [by eapply Hsm|]. intros <-. by destruct Hlw.
    + eapply ordered_ext; [intros; apply Htm|]. by inversion_clear Hord.
    + simpl in Hlen. lia.
    + intros o2 r2 t2 Ho2. simpl in *. rewrite lookup_insert_ne by done.
      destruct (decide (o2 = o)) as [->|]; [eauto|]. rewrite lookup_insert_ne in Ho2 by done. eauto.
    + intros o2 r2 t2 Hz Ho2 Hle2. simpl in Ho2. apply NoDup_cons in Hnd as [Hoys _].
      assert (o2 ≠ o) by (by intros ->). rewrite lookup_insert_ne in Ho2 by done.
      apply (Hfits o2 r2 t2); [set_solver|done|done].
  - apply (expired_ext now k k2). intros. apply Htm.
Qed.

(** What the interrupt does. The active timers whose timeout has passed are moved on.
    Each of them wakes up its waiters, all of them or the first, with the number of
    periods that have passed; sub events wake up the waiters of their events in turn;
    and every thread that runs again has waited for such a timer or such an event.
    Nothing else changes but the order of the timers. *)
Definition due (now : Z) (t : timer) : bool := t_active t && (t_timeout t <=? now).

Definition taken (t : timer) (ws : list node) : list node := if t_wakeupAll t then ws else take 1 ws.

(** The waiter [x] has been woken up with the result [v]. *)
Definition waiter_woken (v : Z) k k' (x : oid) : Prop :=
  thread_woken v k k' x ∧
  ∀ r sub, objs k !! x = Some (Object r (SubEvent sub)) → sub_woken k k' x (s_event sub) (s_identifier sub).

(** Those who have waited for timer [t] in queue [ws]. *)
Definition timer_wakes (now : Z) k k' (o : oid) (t : timer) : Prop := ∀ ws, qs k !! Waiters o = Some ws →
  ∃ ws', qs k' !! Waiters o = Some ws' ∧ (if t_wakeupAll t then ws' = [] else ∀ n, head ws = Some n → n ∉ ws') ∧
    ∀ x, Entry x ∈ taken t ws → waiter_woken (periods now t) k k' x.

Record elapse (now : Z) k k' : Prop := {
  el_time : currentKernelTimestamp k' = currentKernelTimestamp k;
  el_timer o r t : objs k !! o = Some (Object r (Timer t)) →
    objs k' !! o = Some (Object r (Timer (if due now t then elapsed now t else t)));
  el_waiters o r t : objs k !! o = Some (Object r (Timer t)) → due now t = true → timer_wakes now k k' o t;
  el_event s e i : sub_woken k k' s e i → waiters_woken k k' e;
  el_cause x r th th' : objs k !! x = Some (Object r (Thread th)) → th_blocked th = true →
    objs k' !! x = Some (Object r (Thread th')) → th_blocked th' = false →
    ∃ v, thread_woken v k k' x ∧
      ((∃ o ro t ws, objs k !! o = Some (Object ro (Timer t)) ∧ due now t = true ∧ v = periods now t ∧
          qs k !! Waiters o = Some ws ∧ Entry x ∈ ws) ∨
       ∃ s e ws, sub_woken k k' s e v ∧ qs k !! Waiters e = Some ws ∧ Entry x ∈ ws);
  el_rest : woken (mask k) (mask k');
}.

(** One round: the first timer of the list has expired. *)
Record round (now : Z) k (ys : list node) (o r : Z) (t : timer) k' : Prop := {
  rd_time : currentKernelTimestamp k' = currentKernelTimestamp k;
  rd_timer o' r' t' : objs k !! o' = Some (Object r' (Timer t')) →
    objs k' !! o' = Some (Object r' (Timer (if decide (o' = o) then elapsed now t' else t')));
  rd_back o' r' t' : objs k' !! o' = Some (Object r' (Timer t')) →
    ∃ t0, objs k !! o' = Some (Object r' (Timer t0)) ∧ t' = if decide (o' = o) then elapsed now t0 else t0;
  rd_waiters ws : qs k !! Waiters o = Some ws →
    qs k' !! Waiters o = Some (if t_wakeupAll t then [] else tail ws) ∧ roused (taken t ws) (periods now t) k k';
  rd_rest : woken (mask k) (mask k');
  rd_inv : ∃ zs', irq_inv now k' zs' ∧ expired now k' zs' = expired now k ys;
}.

Lemma wp_timer_wake now k o r t ys k2 :
  requeued now k ys o r t k2 → objs k !! o = Some (Object r (Timer t)) → is_Some (qs k2 !! Waiters o) →
  wp (queueWakeup (Waiters o) (t_wakeupAll t) (periods now t)) k2 (λ _ k', round now k ys o r t k').
Proof.
  intros (Hts & Hobj & Hq & Hrest & zs' & Hinv2 & He) Ho [ws Hws]. eapply wp_mono.
  - apply (queueWakeup_spec rank loops M (Waiters o) o (t_wakeupAll t) (periods now t) ws);
      [|by unfold M; destruct depth|done|apply Hinv2|apply Hinv2|done].
    intros k' l' w'. intros. eapply methods_signal; [done..|apply Hdepth|done].
  - intros [] k3 (Hwf3 & Hw3 & _ & Hl3 & Hro). constructor.
    + by rewrite (proj1 (wk_rest _ _ Hw3)).
    + intros o' r' t' Ho'. apply (woken_timer _ _ _ _ _ Hw3). rewrite Hobj.
      case_decide; [subst o'; rewrite Ho in Ho'; simplify_eq; by rewrite lookup_insert_eq|].
      by rewrite lookup_insert_ne.
    + intros o' r' t' Ho'. apply (woken_timer _ _ _ _ _ Hw3) in Ho'. rewrite Hobj in Ho'.
      case_decide; [subst o'; rewrite lookup_insert_eq in Ho'; simplify_eq; eauto|].
      rewrite lookup_insert_ne in Ho' by done. eauto.
    + intros ws0 Hws0. rewrite Hq in Hws by done. rewrite Hws in Hws0. injection Hws0 as <-. split; [done|].
      eapply roused_eq; [intros l [w Hl]; apply Hq; by intros ->| |exact Hro].
      intros x r' b Hb. rewrite Hobj. destruct (decide (x = o)) as [->|Hne]; [|by rewrite lookup_insert_ne].
      rewrite Ho, lookup_insert_eq. split; intros [= <- <-]; done.
    + eapply woken_trans; [|by apply woken_mask]. apply (mask_rigid k k2 o _ (Object r (Timer (elapsed now t))) Ho); try done.
    + exists zs'. split; [by eapply irq_inv_woken|]. rewrite <-He. apply expired_ext.
      intros. by apply woken_timeout.
Qed.

Lemma wp_timer_expire now k o r t ys :
  is_u64 now → irq_inv now k (Entry o :: ys) → objs k !! o = Some (Object r (Timer t)) → t_timeout t ≤ now →
  wp (timer_expire now o) k (λ _ k', round now k ys o r t k').
Proof.
  intros Hnow Hinv Ho Hle. unfold timer_expire. wp_step. eapply wp_pointee; [done..|].
  destruct (Z.eqb_spec (t_interval t) 0) as [Hz|Hnz]; simpl; wp_step.
  - wp_step. eapply requeue_oneshot; [done..|]. intros k2 Hk2 Hq. wp_step.
    replace 1 with (periods now t) by (unfold periods; by rewrite Hz). by apply wp_timer_wake.
  - assert (∀ k0 Q, wp (modify_timer o (timer_with_timeout (next_timeout now t)) ;; __timerUpdate o) k0
       (λ _ k', Q (eventCount now t) k') →
      wp (modify_timer o (timer_with_timeout (next_timeout now t)) ;; __timerUpdate o ;; mret (eventCount now t)) k0 Q) as Hseq.
    { intros k0 Q Hq. apply wp_bind_inv in Hq. wp_step. eapply wp_mono; [exact Hq|].
      intros [] k' Hk'. by wp_step. }
    apply Hseq. eapply requeue_periodic; [done..|]. intros k2 Hk2 Hq.
    replace (eventCount now t) with (periods now t) by (unfold periods; by rewrite (proj2 (Z.eqb_neq _ _) Hnz)).
    by apply wp_timer_wake.
Qed.

(** A timer that has been moved on is not due any more. *)
Lemma elapsed_not_due now t :
  is_u64 now → fits now t → t_timeout t ≤ now → due now (elapsed now t) = false.
Proof.
  intros Hnow Hf Hle. unfold due, elapsed. destruct (Z.eqb_spec (t_interval t) 0); simpl; [done|].
  destruct (next_timeout_arith now t Hnow Hf Hle ltac:(done)) as (_ & _ & Hgt & _).
  apply andb_false_iff. right. lia.
Qed.

(** What waits for another timer is woken up later in the same way. *)
Lemma waiter_later now k k1 k2 o t ws ws1 x :
  q_ok (qs k) → wf rank k → wf rank k1 → woken (mask k) (mask k1) → woken (mask k1) (mask k2) →
  qs k !! Waiters o = Some ws → qs k1 !! Waiters o = Some ws1 → ws1 `sublist_of` ws → Entry x ∈ taken t ws →
  (∀ r th th', objs k !! x = Some (Object r (Thread th)) → th_blocked th = true →
     objs k1 !! x = Some (Object r (Thread th')) → th_blocked th' = false → False) →
  (∀ y, Entry y ∈ taken t ws1 → waiter_woken (periods now t) k1 k2 y) →
  waiter_woken (periods now t) k k2 x.
Proof.
  intros Hok Hwf Hwf1 Hw1 Hw2 Hws Hws1 Hsub Hx Hno Hlater.
  assert (NoDup ws) as Hnd by (by apply (proj1 Hok), NoDup_cons in Hws as [_ ?]).
  assert (Hin : Entry x ∈ ws).
  { unfold taken in Hx. destruct (t_wakeupAll t); [done|]. eapply sublist_subseteq; [apply sublist_take|done]. }
  assert (Hstay : ∀ s, view_of k1 !! x = Some s → (s = WThread true true ∨ ∃ e, s = WSub true e) → Entry x ∈ taken t ws1).
  { intros s Hs Hcase. destruct (still_waiting rank k k1 (Waiters o) ws x s) as (ws1' & Hws1' & Hin1); [done|done|done|by eexists|done..|].
    rewrite Hws1 in Hws1'. injection Hws1' as <-. by eapply sublist_taken. }
  destruct (wait_queue_elem rank k (Waiters o) o ws (Entry x) Hwf eq_refl Hws Hin) as (x' & [r b] & [= <-] & Hox & Hc).
  split.
  - intros r' th Hth. rewrite Hox in Hth. injection Hth as -> ->. destruct Hc as [(th' & [= <-] & Hb & Hp)|(? & ? & ? & [=] & _)].
    destruct (woken_lookup (mask k) (mask k1) x (Object r' (Thread th))) as (b & Hb1 & Hwb); [done|by apply mask_objs|].
    apply mask_objs in Hb1 as [Hb1 _]. simpl in Hb1, Hwb. inversion Hwb as [|? v Hbl|?|?]; subst; [|by exfalso; eapply Hno].
    destruct (Hlater x) as [Hthr _]; [|by apply Hthr]. eapply Hstay; [by apply view_of_obj|]. left. simpl.
    by rewrite Hb, bool_decide_true.
  - intros r' sub Hsb. rewrite Hox in Hsb. injection Hsb as -> ->. destruct Hc as [(? & [=] & _)|(s & e & x' & [= <-] & Hb & _)].
    apply sub_woken_mask. destruct (woken_sub (mask k) (mask k1) x r' sub) as (b & Hb1 & Hbb); [done|by apply mask_objs|].
    destruct b; simpl in Hb1.
    + destruct (Hlater x) as [_ Hs].
      { eapply Hstay; [eapply view_of_obj; by eapply mask_objs|]. right. simpl. eauto. }
      eapply sub_woken_earlier; [done|]. apply sub_woken_mask. apply mask_objs in Hb1 as [Hb1 _]. by apply (Hs _ _ Hb1).
    + eapply sub_woken_later; [|done]. exists r', sub. split_and!; try done; by apply mask_objs.
Qed.

Lemma elapse_round now k ys o r t k1 k2 :
  irq_inv now k (Entry o :: ys) → objs k !! o = Some (Object r (Timer t)) → due now t = true → due now (elapsed now t) = false →
  round now k ys o r t k1 → elapse now k1 k2 → elapse now k k2.
Proof.
  intros Hinv Ho Hd Hd' Hr He. pose proof (irq_wf _ _ _ Hinv) as Hwf. pose proof (wf_ok _ _ _ Hwf) as Hok.
  destruct (irq_heads _ _ _ Hinv _ _ _ Ho) as [wso Hwso]. destruct (rd_waiters _ _ _ _ _ _ _ Hr wso Hwso) as [Hwso1 Hro].
  pose proof (rd_rest _ _ _ _ _ _ _ Hr) as Hw1. pose proof (el_rest _ _ _ He) as Hw2.
  destruct (rd_inv _ _ _ _ _ _ _ Hr) as (zs1 & Hinv1 & _). pose proof (irq_wf _ _ _ Hinv1) as Hwf1.
  assert (Hqueue : ∀ l xs, is_Some (wait_queue l) → qs k !! l = Some xs → ∃ xs1, qs k1 !! l = Some xs1 ∧ xs1 `sublist_of` xs).
  { intros l xs Hl Hx. destruct (wk_wait _ _ Hw1 l xs) as (xs1 & Hx1 & Hs); [done|by rewrite mask_qs by (by left)|].
    rewrite mask_qs in Hx1 by (by left). eauto. }
  assert (Hqueue2 : ∀ l xs, is_Some (wait_queue l) → qs k1 !! l = Some xs → ∃ xs2, qs k2 !! l = Some xs2 ∧ xs2 `sublist_of` xs).
  { intros l xs Hl Hx. destruct (wk_wait _ _ Hw2 l xs) as (xs1 & Hx1 & Hs); [done|by rewrite mask_qs by (by left)|].
    rewrite mask_qs in Hx1 by (by left). eauto. }
  assert (Hback : ∀ l xs, is_Some (wait_queue l) → qs k1 !! l = Some xs → ∃ xs0, qs k !! l = Some xs0 ∧ xs `sublist_of` xs0).
  { intros l xs Hl Hx. destruct (qs k !! l) as [xs0|] eqn:Hx0.
    - destruct (Hqueue l xs0 Hl Hx0) as (xs1 & Hx1 & Hs). rewrite Hx in Hx1. injection Hx1 as <-. eauto.
    - exfalso. assert (qs (mask k1) !! l = None) as Hn by (apply (wk_none _ _ Hw1); by rewrite mask_qs by (by left)).
      rewrite mask_qs in Hn by (by left). congruence. }
  constructor.
  - by rewrite (el_time _ _ _ He), (rd_time _ _ _ _ _ _ _ Hr).
  - intros o' r' t' Ho'. rewrite (el_timer _ _ _ He _ _ _ (rd_timer _ _ _ _ _ _ _ Hr _ _ _ Ho')).
    case_decide; [|done]. subst o'. rewrite Ho in Ho'. simplify_eq. by rewrite Hd, Hd'.
  - intros o' r' t' Ho' Hdue ws Hws. destruct (Hqueue (Waiters o') ws) as (ws1 & Hws1 & Hsub); [by eexists|done|].
    destruct (decide (o' = o)) as [->|Hne].
    + rewrite Ho in Ho'. injection Ho' as <- <-. rewrite Hwso in Hws. injection Hws as <-. rewrite Hwso1 in Hws1. injection Hws1 as <-.
      destruct (Hqueue2 (Waiters o) _ ltac:(by eexists) Hwso1) as (ws2 & Hws2 & Hsub2). exists ws2. split; [done|]. split.
      * destruct (t_wakeupAll t); [by apply sublist_nil_r in Hsub2|]. intros n Hn Hin.
        assert (NoDup wso) as Hnd by (by apply (proj1 Hok), NoDup_cons in Hwso as [_ ?]).
        destruct wso as [|y wso]; [done|]. injection Hn as ->. apply NoDup_cons in Hnd as [Hn _]. apply Hn. by eapply sublist_subseteq.
      * intros x Hx. split; [|intros rx sub Hsb]; [apply thread_woken_mask|apply sub_woken_mask].
        { eapply thread_woken_later; [|done]. apply thread_woken_mask. by apply Hro. }
        { eapply sub_woken_later; [|done]. apply sub_woken_mask. by apply (ro_sub _ _ _ _ Hro x rx). }
    + pose proof (rd_timer _ _ _ _ _ _ _ Hr _ _ _ Ho') as Ho1. rewrite decide_False in Ho1 by done.
      destruct (el_waiters _ _ _ He o' r' t' Ho1 Hdue ws1 Hws1) as (ws2 & Hws2 & Hleft & Hwoken). exists ws2. split; [done|]. split.
      * destruct (t_wakeupAll t'); [done|]. intros n Hn Hin. destruct (Hqueue2 (Waiters o') _ ltac:(by eexists) Hws1) as (ws2' & Hws2' & Hsub2).
        rewrite Hws2 in Hws2'. injection Hws2' as <-.
        assert (NoDup ws) as Hnd by (by apply (proj1 Hok), NoDup_cons in Hws as [_ ?]).
        apply (Hleft n); [|done]. eapply sublist_head; [done..|]. by eapply sublist_subseteq.
      * intros x Hx. eapply (waiter_later now k k1 k2 o' t' ws ws1); try done.
        intros rx th th' Hth Hb Hth1 Hb1. assert (Hin : Entry x ∈ ws).
        { unfold taken in Hx. destruct (t_wakeupAll t'); [done|]. eapply sublist_subseteq; [apply sublist_take|done]. }
        assert (Hone : ∀ y zs, qs k !! Waiters y = Some zs → Entry x ∈ zs → y = o').
        { intros y zs Hz Hy. assert (Waiters y = Waiters o') as E; [|by injection E].
          apply (proj2 Hok _ _ zs ws (Entry x)); [done|done| |]; apply elem_of_cons; by right. }
        destruct (ro_cause _ _ _ _ Hro x rx th th' Hth Hb Hth1 Hb1) as (v & _ & [[Hinx _]|(s & e & zs & Hs & Hz & Hinx)]).
        { apply Hne. symmetry. apply (Hone o wso); [done|]. unfold taken in Hinx. destruct (t_wakeupAll t); [done|].
          eapply sublist_subseteq; [apply sublist_take|done]. }
        { assert (e = o') as -> by (by eapply Hone). destruct Hs as (rs & sub & Hos & Hbs & Hes & _).
          destruct (wf_event_of rank k s rs sub Hwf Hos Hbs) as (re & ev & Hev). rewrite Hes in Hev. congruence. }
  - intros s e i Hs. apply waiters_woken_mask. apply sub_woken_mask in Hs. destruct (sub_woken_split _ _ _ _ _ _ Hw1 Hw2 Hs) as [Hs1|Hs2].
    + eapply waiters_woken_later; [done|]. apply waiters_woken_mask. apply (proj1 (sub_woken_mask _ _ _ _ _)) in Hs1.
      intros re ev ws Hev Hws. exact (ro_event _ _ _ _ Hro s e i re ev ws Hs1 Hev Hws).
    + eapply waiters_woken_earlier; [by apply q_ok_mask|done..|]. apply waiters_woken_mask. apply (proj1 (sub_woken_mask _ _ _ _ _)) in Hs2. by eapply el_event.
  - intros x rx th th' Hx Hb Hx' Hb'.
    destruct (woken_lookup (mask k) (mask k1) x (Object rx (Thread th))) as (b & Hb1 & Hwb); [done|by apply mask_objs|].
    apply mask_objs in Hb1 as [Hb1 _]. simpl in Hb1, Hwb. inversion Hwb as [|? v Hbl|?|?]; subst.
    + destruct (el_cause _ _ _ He x rx th th' Hb1 Hb Hx' Hb') as (v & Hv & Hcase). exists v. split.
      { intros r0 t0 Hk. rewrite Hx in Hk. injection Hk as <- <-. by apply Hv. }
      destruct Hcase as [(o1 & ro1 & t1 & ws & Ho1 & Hdue & -> & Hws & Hin)|(s & e & ws & Hs & Hws & Hin)]; [left|right].
      * destruct (rd_back _ _ _ _ _ _ _ Hr o1 ro1 t1 Ho1) as (t0 & Ho0 & ->).
        destruct (decide (o1 = o)) as [->|Hne]; [rewrite Ho in Ho0; injection Ho0 as _ <-; congruence|].
        destruct (Hback (Waiters o1) ws) as (ws0 & Hws0 & Hsub); [by eexists|done|].
        exists o1, ro1, t0, ws0. split_and!; [done..|by eapply sublist_subseteq].
      * destruct (Hback (Waiters e) ws) as (ws0 & Hws0 & Hsub); [by eexists|done|].
        exists s, e, ws0. split_and!; [|done|by eapply sublist_subseteq].
        apply sub_woken_mask. eapply sub_woken_earlier; [done|by apply sub_woken_mask].
    + destruct (ro_cause _ _ _ _ Hro x rx th _ Hx Hb Hb1 eq_refl) as (u & Hu & Hcase). exists u. split.
      { apply thread_woken_mask. eapply thread_woken_later; [by apply thread_woken_mask|done]. }
      destruct Hcase as [[Hin ->]|(s & e & ws & Hs & Hws & Hin)]; [left|right].
      * exists o, r, t, wso. split_and!; try done. unfold taken in Hin. destruct (t_wakeupAll t); [done|].
        eapply sublist_subseteq; [apply sublist_take|done].
      * exists s, e, ws. split_and!; [|done..]. apply sub_woken_mask. eapply sub_woken_later; [by apply sub_woken_mask|done].
  - by eapply woken_trans.
Qed.

(** Where no timer of the list has expired, none is due. *)
Lemma elapse_none now k zs :
  irq_inv now k zs → Forall (λ n, now < timeout_at k n) zs → elapse now k k.
Proof.
  intros Hinv Hf. assert (∀ o r t, objs k !! o = Some (Object r (Timer t)) → due now t = false) as Hnd.
  { intros o r t Ho. unfold due. destruct (t_active t) eqn:Ha; [|done].
    pose proof (timer_place rank k o r t (irq_wf _ _ _ Hinv) Ho) as Hp. rewrite Ha in Hp.
    destruct Hp as (xs & ys & Hl). rewrite (irq_list _ _ _ Hinv) in Hl. injection Hl as ->.
    rewrite Forall_forall in Hf. specialize (Hf (Entry o)). unfold timeout_at in Hf. simpl in Hf.
    rewrite Ho in Hf. simpl. apply Z.leb_gt, Hf. set_solver. }
  constructor.
  - done.
  - intros o r t Ho. by rewrite (Hnd _ _ _ Ho).
  - intros o r t Ho Hd. by rewrite (Hnd _ _ _ Ho) in Hd.
  - intros s e i (r & sub & Ho & Hb & _ & _ & Ho'). rewrite Ho in Ho'. injection Ho' as Hs. by rewrite Hs in Hb.
  - intros x r th th' Ho Hb Ho' Hb'. congruence.
  - apply woken_refl.
Qed.

Definition irq_post (now : Z) k k' : Prop :=
  elapse now k k' ∧ ∃ zs', irq_inv now k' zs' ∧ Forall (λ n, now < timeout_at k' n) zs'.

Lemma wp_timer_irq_loop now n :
  is_u64 now → ∀ k zs fuel,
  irq_inv now k zs → currentKernelTimestamp k = now → expired now k zs = n → (n < fuel)%nat →
  wp (timer_irq_loop fuel) k (λ _ k', irq_post now k k').
Proof.
  intros Hnow. induction n as [n IH] using lt_wf_ind; intros k zs fuel Hinv Hts Hn Hf.
  destruct fuel as [|fuel]; [lia|]. simpl. wp_step.
  eapply wp_queue_next; [apply q_next_head, Hinv|]. destruct zs as [|z ys]; simpl.
  - wp_step. split; [by eapply elapse_none|]. by exists [].
  - destruct (timer_elem rank k _ z (irq_wf _ _ _ Hinv) (irq_list _ _ _ Hinv)) as (o & r & t & -> & Ho & Hact);
      [set_solver|].
    simpl. wp_steps. eapply wp_pointee; [done..|]. wp_steps. rewrite Hts.
    assert (Hto : timeout_at k (Entry o) = t_timeout t) by (unfold timeout_at; simpl; by rewrite Ho).
    destruct (Z.ltb_spec now (t_timeout t)) as [Hlt|Hle].
    + wp_step. assert (Forall (λ n, now < timeout_at k n) (Entry o :: ys)).
      { pose proof (irq_ordered _ _ _ Hinv) as Hord. inversion_clear Hord as [|? ? _ Hf2].
        constructor; [lia|]. eapply Forall_impl; [done|]. simpl. intros. lia. }
      split; [by eapply elapse_none|]. by exists (Entry o :: ys).
    + assert (Hexp : expired now k (Entry o :: ys) = S (expired now k ys)).
      { unfold expired. by rewrite (filter_cons_True _ (Entry o)) by lia. }
      wp_step. eapply wp_mono; [by eapply wp_timer_expire|]. intros [] k2 Hr.
      destruct (rd_inv _ _ _ _ _ _ _ Hr) as (zs' & Hinv2 & He).
      eapply wp_mono; [eapply (IH (expired now k2 zs')); [lia|done| |done|lia]|].
      { by rewrite (rd_time _ _ _ _ _ _ _ Hr). }
      intros [] k3 [Hel Hinv3]. split; [|done]. eapply elapse_round; [exact Hinv|done| | |done|done].
      * unfold due. rewrite Hact. simpl. by apply Z.leb_le.
      * apply elapsed_not_due; [done| |done]. apply (irq_fits _ _ _ Hinv o r t); [set_solver|done|done].
Qed.

(** C3: The timer interrupt, in a well formed kernel where the numbers of the timers
    that are due do not wrap around ([fits] in [irq_inv]: what has passed since the
    timeout of a periodic timer fits into 32 bits with one more period; without it
    the interrupt may not return, [timer_irq_overflow_endless]). It returns, whatever
    the number of timers: the time has advanced by one tick; each active timer whose
    timeout has passed is moved to the first of its periods after now, or deactivated
    if it has none, and no other timer changes; each of them wakes up its waiters, all
    or the first of them, with the number of periods that have passed, and the sub
    events among these the waiters of their events; no other thread runs again, and
    none that leaves a queue is lost ([none_lost]); the list that is left is sorted and
    holds no expired timer ([elapse], [irq_post]). *)
Theorem timer_irq_correct k zs irq :
  irq_inv (u64 (currentKernelTimestamp k + TIMER_INTERRUPT_DELTA)) k zs →
  wp (timer_irq irq) k (λ r k',
    let now := u64 (currentKernelTimestamp k + TIMER_INTERRUPT_DELTA) in
    r = Timer.INTERRUPT_YIELD ∧ irq_post now (set_timestamp now k) k' ∧ none_lost (set_timestamp now k) k').
Proof.
  intros Hinv. set (now := u64 _) in *. unfold timer_irq. wp_steps. eapply wp_mono.
  - eapply (wp_timer_irq_loop now (expired now k zs)); [apply u64_range| |done| |].
    + destruct Hinv. by constructor.
    + done.
    + replace (@loop_fuel _ M) with loops by (unfold M; by destruct depth).
      pose proof (irq_len _ _ _ Hinv). unfold expired.
      eapply Nat.le_lt_trans; [apply length_filter|done].
  - intros [] k' [Hel (zs' & Hinv' & Hf)]. wp_steps. split; [done|]. split; [by split; [|exists zs']|].
    eapply wf_none_lost; [exact (irq_wf _ _ _ Hinv)|apply (irq_wf _ _ _ Hinv')|apply (el_rest _ _ _ Hel)].
Qed.
End Irq.

(** A periodic timer that has expired is next due at the first of its
    periods after now, and [eventCount] tells its waiters how many periods have
    passed; the time it is due is again a 64-bit number. *)
Theorem next_timeout_correct now t :
  is_u64 now → fits now t → t_timeout t ≤ now → t_interval t ≠ 0 →
  now < next_timeout now t ∧ is_u64 (next_timeout now t) ∧
  next_timeout now t = t_timeout t + eventCount now t * t_interval t ∧
  ∀ n, 0 ≤ n → now < t_timeout t + n * t_interval t → next_timeout now t ≤ t_timeout t + n * t_interval t.
Proof.
  intros Hnow Hf Hle Hne.
  destruct (next_timeout_arith now t Hnow Hf Hle Hne) as (Hc & Hn & Hgt & Hmax).
  destruct Hf as (Ht & Hi & Hfit). destruct (Hfit Hne).
  split_and!; [done|unfold is_u64, is_u32 in *; lia|done|].
  intros n Hn0 Hlt. rewrite Hn, Hc. apply Z.add_le_mono_l, Z.mul_le_mono_nonneg_r; [unfold is_u32 in Hi; lia|].
  assert ((now - t_timeout t) / t_interval t < n); [|lia].
  apply Z.div_lt_upper_bound; unfold is_u32 in Hi; nia.
Qed.

Lemma next_timeout_correct_witness :
  112 < next_timeout 112 (TimerFields true 80 10 true) ∧
  eventCount 112 (TimerFields true 80 10 true) = 4.
Proof.
  split; [|reflexivity].
  refine (proj1 (next_timeout_correct 112 (TimerFields true 80 10 true) _ _ _ _));
    unfold fits, is_u64, is_u32; simpl; lia.
Defined.

(** *** An example

    Timer 20 is periodic, has been due for a while and has a waiter; timer 21
    is a one-shot timer of the future. *)

Definition timer_kernel : kernel heap := sample_kernel
  [(10, sample_thread true (Some 30));
   (20, Object 1 (Timer (TimerFields true 80 10 true)));
   (21, Object 1 (Timer (TimerFields true 300 0 false)))]
  [(ThreadList, []); (TimerList, [Entry 20; Entry 21]); (Waiters 20, [Entry 10]); (Waiters 21, [])].

Lemma timer_kernel_inv : irq_inv (λ _, 0%nat) 8 112 timer_kernel [Entry 20; Entry 21].
Proof.
  constructor.
  - apply wf_check_sound. vm_compute. reflexivity.
  - by eapply small_check_sound.
  - reflexivity.
  - repeat constructor; vm_compute; discriminate.
  - simpl. lia.
  - intros o r t Ho. sample_cases Ho; eexists; reflexivity.
  - intros o r t _ Ho _. sample_cases Ho; unfold fits, is_u64, is_u32; simpl; lia.
Qed.

Lemma timer_irq_correct_witness :
  wp (@timer_irq heap (methods 8 1) 32) timer_kernel (λ r k',
    r = Timer.INTERRUPT_YIELD ∧ irq_post (λ _, 0%nat) 8 112 (set_timestamp 112 timer_kernel) k' ∧
    none_lost (set_timestamp 112 timer_kernel) k').
Proof.
  exact (timer_irq_correct (λ _, 0%nat) 8 1 (λ _, Nat.lt_0_succ 0) timer_kernel _ 32 timer_kernel_inv).
Defined.

(** Without [fits]: [__timerWrite] accepts any 64-bit timeout, also one that
    wraps around to a time long ago. Where the number of periods times the
    interval is a multiple of 2^32, the timeout stays as it is. *)
Definition old_kernel : kernel heap := set_timestamp 2147483748 (sample_kernel
  [(20, Object 1 (Timer (TimerFields false 0 0 false)))]
  [(ThreadList, []); (TimerList, []); (Waiters 20, [])]).

(** The [struct timerInfo] with a timeout of -2^31 and an interval of 2^31. *)
Definition past_request : list Z := [0; 0; 0; 128; 255; 255; 255; 255; 0; 0; 0; 128].

(** After 25 days of uptime, a write to a timer that asks for a period of
    2^31 ms and a timeout 2^31 ms before now is accepted, and no interrupt
    after it returns: every round of the loop finds the timer expired again,
    whatever the number of rounds. *)
Theorem timer_irq_overflow_endless :
  ∃ k, __timerWrite (H0 := methods 8 1) 20 past_request 12 old_kernel = Ok (12, k) ∧
    ∀ fuel, timer_irq_loop (H0 := methods 8 1) fuel (set_timestamp 2147483760 k) = NoFuel.
Proof.
  eexists. split; [vm_compute; reflexivity|].
  match goal with |- ∀ fuel, timer_irq_loop fuel ?x = _ => set (k := x) end.
  assert (timer_expire (H0 := methods 8 1) (currentKernelTimestamp k) 20 k = Ok (tt, k)) as Hround
    by (vm_compute; reflexivity).
  induction fuel as [|fuel IH]; [done|].
  assert (timer_irq_loop (H0 := methods 8 1) (S fuel) k =
    (timer_expire (H0 := methods 8 1) (currentKernelTimestamp k) 20 ;;
     timer_irq_loop (H0 := methods 8 1) fuel) k) as -> by reflexivity.
  unfold mbind, M_bind. by rewrite Hround.
Qed.
