(* ===== verification/Blocking.v ===== *)
(** * Blocking on an object and waking up

    The functional behaviour of [queueWakeup], of the [wait] methods, of
    [threadWait] and of semaphores, on a well formed kernel. Sub events make
    the [wait] method of an event recurse into the objects attached to it: the
    rank of an object bounds that recursion, as it bounds the recursion of
    waking up. *)

From S2P Require Import Prelude LinkedList Kernel Semaphore Event Timer Pipe Thread Process Dispatch Waiting Sample TimerProofs.
Open Scope Z_scope.

(** The list heads inside an object that can be waited on. *)
Definition heads_of (b : body) (o : oid) : list node :=
  match b with
  | Semaphore _ | Timer _ | Thread _ => [Waiters o]
  | Process _ => [Waiters o; Threads o]
  | Event _ => [Waiters o; SubEvents o]
  | Pipe _ => [WriteWaiters o; ReadWaiters o]
  | _ => []
  end.

(** ** The invariant

    On top of [wf]: list heads are initialised, the sub events of an event
    point back to it and to an existing object of a higher rank, and loops
    may run more often than there are objects. *)
Record sys {mem} (rank : oid → nat) (loops : nat) (k : kernel mem) : Prop := {
  sys_wf : wf rank k;
  sys_size : (size (objs k) < loops)%nat;
  sys_heads o x h : objs k !! o = Some x → h ∈ heads_of (obj_body x) o → is_Some (qs k !! h);
  sys_subs e xs n : qs k !! SubEvents e = Some xs → n ∈ xs →
    ∃ s r sub, n = EntryEvent s ∧ objs k !! s = Some (Object r (SubEvent sub)) ∧ s_event sub = e ∧
      (rank e < rank (s_wait sub))%nat ∧ is_Some (objs k !! s_wait sub);
}.

Section Sizes.
Context {mem : Type} (rank : oid → nat).
Implicit Types k : kernel mem.

(** Different links of the same kind belong to different objects. *)
Lemma length_le_objs (f : oid → node) k xs :
  (∀ o o', f o = f o' → o = o') → NoDup xs → (∀ n, n ∈ xs → ∃ o, n = f o ∧ is_Some (objs k !! o)) →
  (length xs ≤ size (objs k))%nat.
Proof.
  intros Hf Hnd Hin.
  assert (∃ os, xs = f <$> os ∧ Forall (λ o, is_Some (objs k !! o)) os) as (os & -> & Hos).
  { clear Hnd. induction xs as [|n xs IH]; [by exists []|].
    destruct IH as (os & -> & Hos); [intros; apply Hin; set_solver|].
    destruct (Hin n) as (o & -> & Ho); [set_solver|]. exists (o :: os). split; [done|]. by constructor. }
  rewrite length_fmap, <-(size_dom (D := gset oid)), <-(size_list_to_set (C := gset oid) os).
  - apply subseteq_size. intros o Ho%elem_of_list_to_set. apply elem_of_dom.
    by eapply Forall_forall in Hos.
  - by apply NoDup_fmap_1 in Hnd.
Qed.

Lemma sched_queue_size k l xs :
  wf rank k → sched_queue l → qs k !! l = Some xs → (length xs ≤ size (objs k))%nat.
Proof.
  intros Hwf Hl Hx. apply (length_le_objs Entry); [by intros ?? [=]| |].
  - by apply (proj1 (wf_ok _ _ _ Hwf)), NoDup_cons in Hx as [_ ?].
  - intros n Hn. destruct (wf_elem _ _ _ Hwf l xs n Hl Hx Hn) as (o & s & -> & Ho & _).
    apply view_of_lookup in Ho as (x & Ho & _). eauto.
Qed.

Lemma sys_small loops k : sys rank loops k → small loops k.
Proof.
  intros Hs l xs Hl Hx. eapply Nat.le_lt_trans; [|apply Hs].
  apply (sched_queue_size k l); [apply Hs|right; by right|done].
Qed.

Lemma sys_subs_size loops k e xs :
  sys rank loops k → qs k !! SubEvents e = Some xs → (length xs ≤ size (objs k))%nat.
Proof.
  intros Hs Hx. apply (length_le_objs EntryEvent); [by intros ?? [=]| |].
  - by apply (proj1 (wf_ok _ _ _ (sys_wf _ _ _ Hs))), NoDup_cons in Hx as [_ ?].
  - intros n Hn. destruct (sys_subs _ _ _ Hs e xs n Hx Hn) as (s & r & sub & -> & Ho & _). eauto.
Qed.
End Sizes.

(** ** Waking up *)

Section Wake.
Context {mem : Type} `{Memory mem} `{Machine mem} (rank : oid → nat) (loops depth : nat).
Context (Hdepth : ∀ o, (rank o < depth)%nat).
Implicit Types k : kernel mem.
#[local] Instance M : Methods mem := methods loops depth.

Lemma wp_wakeup k l w all eax xs :
  wf rank k → (size (objs k) < loops)%nat → wait_queue l = Some w → qs k !! l = Some xs →
  wp (queueWakeup l all eax) k (λ _ k', wakeup_post rank l w all xs eax k k').
Proof.
  intros Hwf Hsz Hl Hx. apply (queueWakeup_spec rank loops M); try done.
  - intros k' l' w'. intros. eapply methods_signal; [done..|apply Hdepth|done].
  - unfold M. by destruct depth.
  - intros l' ys Hl' Hy. eapply Nat.le_lt_trans; [|done].
    apply (sched_queue_size rank k l'); [done|right; by right|done].
Qed.
End Wake.

(** ** What waiting changes *)

(** An object before and after [wait] methods have run: counters and time
    stamps change, sub events become blocked. *)
Inductive touched : body → body → Prop :=
  | touched_same b : touched b b
  | touched_semaphore s s' : touched (Semaphore s) (Semaphore s')
  | touched_event e v : touched (Event e) (Event (EventFields v (e_wakeupAll e)))
  | touched_sub s :
      touched (SubEvent s) (SubEvent (SubEventFields true (s_event s) (s_wait s) (s_waitMode s) (s_identifier s)))
  | touched_timer t a v : touched (Timer t) (Timer (TimerFields a v (t_interval t) (t_wakeupAll t))).

Lemma touched_trans b1 b2 b3 : touched b1 b2 → touched b2 b3 → touched b1 b3.
Proof. intros [] H23; inversion H23; subst; simpl; constructor. Qed.

Lemma touched_heads b b' o : touched b b' → heads_of b' o = heads_of b o.
Proof. by intros []. Qed.

Lemma touched_timer_inv t b : touched (Timer t) b → ∃ t', b = Timer t'.
Proof. inversion 1; eauto. Qed.

Lemma touched_event_inv e b : touched (Event e) b → ∃ v, b = Event (EventFields v (e_wakeupAll e)).
Proof. inversion 1; subst; [exists (e_status e); by destruct e|eauto]. Qed.

Lemma touched_sub_inv s b : touched (SubEvent s) b →
  ∃ s', b = SubEvent s' ∧ s_event s' = s_event s ∧ s_wait s' = s_wait s ∧
    (s_blocked s = true → s_blocked s' = true).
Proof. inversion 1; subst; eauto 6. Qed.

Section Waited.
Context {mem : Type} (rank : oid → nat) (loops : nat).
Implicit Types k : kernel mem.

Record waited k k' : Prop := {
  wt_objs o : option_Forall2 (λ x x', refcount x' = refcount x ∧ touched (obj_body x) (obj_body x'))
    (objs k !! o) (objs k' !! o);
  wt_run : qs k' !! ThreadList = qs k !! ThreadList;
  wt_subs e : qs k' !! SubEvents e = qs k !! SubEvents e;
  wt_heads l : is_Some (qs k !! l) → is_Some (qs k' !! l);
  wt_wait l xs : is_Some (wait_queue l) → qs k !! l = Some xs → ∃ new, qs k' !! l = Some (new ++ xs);
  wt_rest : currentKernelTimestamp k' = currentKernelTimestamp k ∧ lastFPUthread k' = lastFPUthread k ∧
    fileSystemRoot k' = fileSystemRoot k ∧ con k' = con k ∧ memory k' = memory k;
}.

Lemma waited_refl k : waited k k.
Proof.
  constructor; try done; [|intros l xs _ Hx; by exists []].
  intros o. destruct (objs k !! o); constructor. split; [done|constructor].
Qed.

Lemma waited_trans k1 k2 k3 : waited k1 k2 → waited k2 k3 → waited k1 k3.
Proof.
  intros H1 H2. constructor.
  - intros o. pose proof (wt_objs _ _ H2 o) as Ho2.
    destruct (wt_objs _ _ H1 o) as [x1 x2 [Hr1 Hb1]|]; inversion Ho2 as [? x3 [Hr2 Hb2]|];
      subst; constructor. split; [congruence|by eapply touched_trans].
  - by rewrite (wt_run _ _ H2), (wt_run _ _ H1).
  - intros e. by rewrite (wt_subs _ _ H2), (wt_subs _ _ H1).
  - intros l Hl. by apply (wt_heads _ _ H2), (wt_heads _ _ H1).
  - intros l xs Hl Hx. destruct (wt_wait _ _ H1 l xs Hl Hx) as [n1 Hx1].
    destruct (wt_wait _ _ H2 l _ Hl Hx1) as [n2 Hx2]. exists (n2 ++ n1). by rewrite <-app_assoc.
  - destruct (wt_rest _ _ H1) as (?&?&?&?&?), (wt_rest _ _ H2) as (?&?&?&?&?). split_and!; congruence.
Qed.

(** Steps: an object and one queue change, where the link of the object is
    moved in or out of a queue that is not fixed. *)
Lemma waited_step k o x b l ys :
  objs k !! o = Some x → touched (obj_body x) b → l ≠ ThreadList → (∀ e, l ≠ SubEvents e) →
  (∀ xs, is_Some (wait_queue l) → qs k !! l = Some xs → ∃ new, ys = new ++ xs) →
  waited k (set_objs (<[o := Object (refcount x) b]> (objs k)) (set_qs (<[l := ys]> (qs k)) k)).
Proof.
  intros Ho Hb Hl Hs Hy. constructor; simpl; try done.
  - intros o'. destruct (decide (o' = o)) as [->|].
    + rewrite lookup_insert_eq, Ho. by constructor.
    + rewrite lookup_insert_ne by done. destruct (objs k !! o'); constructor. split; [done|constructor].
  - by rewrite lookup_insert_ne.
  - intros e. by rewrite lookup_insert_ne.
  - intros l' Hl'. destruct (decide (l' = l)) as [->|]; [rewrite lookup_insert_eq; eauto|].
    by rewrite lookup_insert_ne.
  - intros l' xs Hl' Hx. destruct (decide (l' = l)) as [->|].
    + destruct (Hy xs Hl' Hx) as [new ->]. exists new. by rewrite lookup_insert_eq.
    + exists []. by rewrite lookup_insert_ne.
Qed.

Lemma waited_body k o x b :
  objs k !! o = Some x → touched (obj_body x) b →
  waited k (set_objs (<[o := Object (refcount x) b]> (objs k)) k).
Proof.
  intros Ho Hb. constructor; simpl; try done; [|intros l xs _ Hx; by exists []].
  intros o'. destruct (decide (o' = o)) as [->|].
  - rewrite lookup_insert_eq, Ho. by constructor.
  - rewrite lookup_insert_ne by done. destruct (objs k !! o'); constructor. split; [done|constructor].
Qed.

Lemma waited_lookup k k' o x :
  waited k k' → objs k !! o = Some x →
  ∃ b, objs k' !! o = Some (Object (refcount x) b) ∧ touched (obj_body x) b.
Proof.
  intros Hw Ho. pose proof (wt_objs _ _ Hw o) as Hf. rewrite Ho in Hf.
  inversion Hf as [? [r b] [Hr Hb]|]; subst. simpl in *. subst r. eauto.
Qed.

Lemma waited_dom k k' : waited k k' → dom (objs k') = dom (objs k).
Proof.
  intros Hw. apply set_eq. intros o. rewrite !elem_of_dom.
  destruct (wt_objs _ _ Hw o); split; by intros [? ?].
Qed.

(** An object that waits for nothing and is no sub event is as before, if it is a thread. *)
Lemma waited_thread k k' o r t :
  waited k k' → objs k !! o = Some (Object r (Thread t)) → objs k' !! o = Some (Object r (Thread t)).
Proof. intros Hw Ho. apply (waited_lookup _ _ _ _ Hw) in Ho as (b & -> & Hb). by inversion Hb; subst. Qed.

Lemma waited_sys k k' : sys rank loops k → waited k k' → wf rank k' → sys rank loops k'.
Proof.
  intros Hs Hw Hwf'. constructor; [done| | |].
  - rewrite <-size_dom, (waited_dom _ _ Hw), size_dom. apply Hs.
  - intros o x h Ho Hh. apply (wt_heads _ _ Hw). pose proof (wt_objs _ _ Hw o) as Hf. rewrite Ho in Hf.
    inversion Hf as [x0 ? [_ Hb] Hx0|]; subst. symmetry in Hx0. apply (sys_heads _ _ _ Hs o x0 h Hx0).
    by rewrite <-(touched_heads _ _ o Hb).
  - intros e xs n Hx Hn. rewrite (wt_subs _ _ Hw) in Hx.
    destruct (sys_subs _ _ _ Hs e xs n Hx Hn) as (s & r & sub & -> & Ho & He & Hr & Hwt).
    apply (waited_lookup _ _ _ _ Hw) in Ho as (b & Ho & Hb). simpl in *.
    assert (is_Some (objs k' !! s_wait sub)).
    { apply elem_of_dom. rewrite (waited_dom _ _ Hw). by apply elem_of_dom. }
    inversion Hb; subst; eexists s, _, _; split_and!; try done.
Qed.

(** Sub events of events below some rank are as before. *)
Definition framed (n : nat) k k' : Prop := ∀ s r sub,
  objs k !! s = Some (Object r (SubEvent sub)) → (rank (s_event sub) < n)%nat →
  objs k' !! s = Some (Object r (SubEvent sub)).

(** What every step of a [wait] method ensures. *)
Definition waits (n : nat) k k' : Prop := sys rank loops k' ∧ waited k k' ∧ framed n k k'.

Lemma waits_trans n k1 k2 k3 : waits n k1 k2 → waits n k2 k3 → waits n k1 k3.
Proof.
  intros (_ & H1 & Hf1) (? & H2 & Hf2). split; [done|]. split; [by eapply waited_trans|].
  intros s r sub Ho Hn. by apply Hf2, Hn; apply Hf1.
Qed.

Lemma waits_le n m k1 k2 : (m ≤ n)%nat → waits n k1 k2 → waits m k1 k2.
Proof. intros Hm (? & ? & Hf). split_and!; [done..|]. intros s r sub Ho Hn. apply Hf; [done|lia]. Qed.

Lemma waits_refl n k : sys rank loops k → waits n k k.
Proof. intros. split_and!; [done|apply waited_refl|by intros ????]. Qed.

Definition is_sub (b : body) : bool := match b with SubEvent _ => true | _ => false end.

Lemma framed_step n k o x x' q :
  objs k !! o = Some x → is_sub (obj_body x) = false → framed n k (set_objs (<[o := x']> (objs k)) (set_qs q k)).
Proof. intros Ho Hs s r sub Hsub _. simpl. rewrite lookup_insert_ne; [done|]. intros <-. by simplify_eq. Qed.

(** A change that the queues do not depend on. *)
Lemma waits_body n k o x b :
  sys rank loops k → objs k !! o = Some x → touched (obj_body x) b → wstate_of b = wstate_of (obj_body x) →
  is_sub (obj_body x) = false →
  waits n k (set_objs (<[o := Object (refcount x) b]> (objs k)) k).
Proof.
  intros Hs Ho Hb Hv Hi. assert (waited k (set_objs (<[o := Object (refcount x) b]> (objs k)) k)) as Hw
    by by apply waited_body.
  split_and!; [|done|].
  - apply (waited_sys k); [done..|]. unfold wf. rewrite view_of_objs. simpl.
    rewrite Hv, insert_id; [apply Hs|]. by apply view_of_obj.
  - intros s r sub Hsub _. simpl. rewrite lookup_insert_ne; [done|]. intros <-. by simplify_eq.
Qed.
End Waited.

(** Other objects are not changed by waking up. *)
Lemma woken_rigid {mem} (k k' : kernel mem) o r b :
  woken k k' → objs k !! o = Some (Object r b) → rigid b = true → objs k' !! o = Some (Object r b).
Proof.
  intros Hw Ho Hb. pose proof (wk_objs _ _ Hw o) as Hf. rewrite Ho in Hf.
  inversion Hf as [? [r' b'] [Hr Hwb] E1 E2|]; subst; simpl in *. subst r'. by inversion Hwb; subst.
Qed.

(** ** What waiting for an object means

    [no_wait]: the object in state [b] need not be waited for; the result, and the
    object afterwards. *)
Inductive no_wait {mem} (k : kernel mem) (o : oid) (mode : Z) : body → option Z → body → Prop :=
  | semaphore_free s : value s ≠ 0 →
      no_wait k o mode (Semaphore s) (Some (u32 (value s - 1))) (Semaphore (SemaphoreFields (u32 (value s - 1))))
  | timer_periodic t : t_timeout t ≤ currentKernelTimestamp k → t_interval t ≠ 0 →
      no_wait k o mode (Timer t) (Some (eventCount (currentKernelTimestamp k) t))
        (Timer (TimerFields true (next_timeout (currentKernelTimestamp k) t) (t_interval t) (t_wakeupAll t)))
  | timer_elapsed t : t_timeout t ≤ currentKernelTimestamp k → t_interval t = 0 →
      no_wait k o mode (Timer t) (Some (if t_active t then 1 else 0))
        (Timer (TimerFields false (t_timeout t) 0 (t_wakeupAll t)))
  | pipe_has_bytes p : mode = 0 → used p ≠ 0 → no_wait k o mode (Pipe p) (Some (used p)) (Pipe p)
  | pipe_at_end p : mode = 0 → used p = 0 → p_writeable p = false → no_wait k o mode (Pipe p) (Some ERR) (Pipe p)
  | pipe_has_room p : mode ≠ 0 → p_writeable p = true → used p < MAX_PIPE_BUFFER_SIZE →
      no_wait k o mode (Pipe p) (Some (u32 (MAX_PIPE_BUFFER_SIZE - used p))) (Pipe p)
  | pipe_closed p : mode ≠ 0 → p_writeable p = false → no_wait k o mode (Pipe p) (Some ERR) (Pipe p)
  | thread_ended t : th_process t = None → no_wait k o mode (Thread t) (Some (th_exitcode t)) (Thread t)
  | process_ended p : qs k !! Threads o = Some [] → no_wait k o mode (Process p) (Some (pr_exitcode p)) (Process p)
  | not_waitable b : match b with
        SubEvent _ | Stdout | Directory _ | File _ | OpenedFile _ | OpenedDirectory _ => True | _ => False end →
      no_wait k o mode b None b.

(** [must_wait]: the queue to wait in, and the object afterwards. *)
Inductive must_wait {mem} (k : kernel mem) (o : oid) (mode : Z) : body → node → body → Prop :=
  | semaphore_taken s : value s = 0 → must_wait k o mode (Semaphore s) (Waiters o) (Semaphore s)
  | timer_pending t : currentKernelTimestamp k < t_timeout t →
      must_wait k o mode (Timer t) (Waiters o) (Timer (TimerFields true (t_timeout t) (t_interval t) (t_wakeupAll t)))
  | pipe_is_empty p : mode = 0 → used p = 0 → p_writeable p = true → must_wait k o mode (Pipe p) (ReadWaiters o) (Pipe p)
  | pipe_is_full p : mode ≠ 0 → p_writeable p = true → MAX_PIPE_BUFFER_SIZE ≤ used p →
      must_wait k o mode (Pipe p) (WriteWaiters o) (Pipe p)
  | thread_alive t : is_Some (th_process t) → must_wait k o mode (Thread t) (Waiters o) (Thread t)
  | process_alive p t ts : qs k !! Threads o = Some (t :: ts) → must_wait k o mode (Process p) (Waiters o) (Process p).

(** Only object [o], and the order of the timers, have changed. *)
Definition only {mem} (o : oid) (x : object) (k k' : kernel mem) : Prop :=
  objs k' = <[o := x]> (objs k) ∧ ∀ l, l ≠ TimerList → qs k' !! l = qs k !! l.

Definition sub_blocked {mem} (k : kernel mem) (n : node) : Prop :=
  ∃ s r sub, n = EntryEvent s ∧ objs k !! s = Some (Object r (SubEvent sub)) ∧ s_blocked sub = true.

(** What waiting for object [o] in state [k] gives, and the state afterwards. An
    event asks the objects attached to it in their order: the first that need not be
    waited for gives its identifier; if there is none, each of them has its sub event
    in the queue that the object asks for. *)
Inductive outcome {mem} : kernel mem → oid → Z → waitResult → kernel mem → Prop :=
  | outcome_now k k' o mode r b v b' :
      objs k !! o = Some (Object r b) → no_wait k o mode b v b' → only o (Object r b') k k' →
      outcome k o mode (Done v) k'
  | outcome_queue k k' o mode r b l b' :
      objs k !! o = Some (Object r b) → must_wait k o mode b l b' → only o (Object r b') k k' →
      outcome k o mode (Queue l) k'
  | outcome_event_now k k1 k2 k' e mode r ev xs s rs sub ys v :
      objs k !! e = Some (Object r (Event ev)) → qs k !! SubEvents e = Some (xs ++ EntryEvent s :: ys) →
      objs k !! s = Some (Object rs (SubEvent sub)) → s_blocked sub = false →
      waited k k1 → Forall (sub_blocked k1) xs →
      outcome k1 (s_wait sub) (s_waitMode sub) (Done v) k2 → waited k2 k' →
      (∀ x, v = Some x → objs k' !! e = Some (Object r (Event (EventFields x (e_wakeupAll ev))))) →
      outcome k e mode (Done (Some (s_identifier sub))) k'
  | outcome_event_queue k k' e mode r ev xs :
      objs k !! e = Some (Object r (Event ev)) → qs k !! SubEvents e = Some xs → Forall (sub_blocked k') xs →
      (∀ s rs sub, EntryEvent s ∈ xs → objs k !! s = Some (Object rs (SubEvent sub)) → s_blocked sub = false →
         ∃ k1 k2 l ws, waited k k1 ∧ outcome k1 (s_wait sub) (s_waitMode sub) (Queue l) k2 ∧ waited k2 k' ∧
           qs k' !! l = Some ws ∧ Entry s ∈ ws) →
      outcome k e mode (Queue (Waiters e)) k'.

(** ** The wait methods *)

Section Wait.
Context {mem : Type} `{Memory mem} `{Machine mem} (rank : oid → nat) (loops : nat).
Implicit Types k : kernel mem.

(** A [wait] method has the outcome that the object asks for; a queue it returns is
    one of its object. *)
Definition wait_post (o : oid) (mode : Z) k (r : waitResult) k' : Prop :=
  waits rank loops (rank o) k k' ∧ outcome k o mode r k' ∧
  match r with
  | Queue l => wait_queue l = Some o ∧ is_Some (qs k' !! l)
  | Done _ => True
  end.

Lemma only_refl k o x : objs k !! o = Some x → only o x k k.
Proof. intros Ho. split; [by rewrite insert_id|done]. Qed.

Lemma only_trans o x y k1 k2 k3 : only o x k1 k2 → only o y k2 k3 → only o y k1 k3.
Proof.
  intros [Ho1 Hq1] [Ho2 Hq2]. split; [by rewrite Ho2, Ho1, insert_insert_eq|]. intros l Hl. by rewrite Hq2, Hq1.
Qed.

Lemma wait_queue_post k o r b l mode :
  sys rank loops k → objs k !! o = Some (Object r b) → must_wait k o mode b l b → wait_queue l = Some o → l ∈ heads_of b o →
  wait_post o mode k (Queue l) k.
Proof.
  intros Hs Ho Hm Hl Hh. split; [by apply waits_refl|]. split; [|split; [done|by eapply sys_heads]].
  eapply outcome_queue; [done..|by apply only_refl].
Qed.

(** *** Timers *)

Section TimerWait.
Context (M : Methods mem) (Hfuel : @loop_fuel _ M = loops).

Lemma only_timers k o x xs : only o x k (set_objs (<[o := x]> (objs k)) (set_qs (<[TimerList := xs]> (qs k)) k)).
Proof. split; [done|]. intros l Hl. simpl. by rewrite lookup_insert_ne. Qed.

Lemma wp_timerActivate_waits n k o r t :
  sys rank loops k → objs k !! o = Some (Object r (Timer t)) →
  wp (__timerActivate o) k (λ _ k', waits rank loops n k k' ∧ only o (Object r (Timer (timer_with_active true t))) k k').
Proof.
  intros Hs Ho. pose proof (sys_wf _ _ _ Hs) as Hwf.
  apply (wp_timerActivate M rank k o r t); [done..| | |].
  - intros xs Hx. rewrite Hfuel. eapply Nat.le_lt_trans; [|apply Hs].
    apply (sched_queue_size rank k TimerList); [done|right; by left|done].
  - intros Ha. split; [by apply waits_refl|]. apply only_refl. rewrite Ho. by destruct t; simpl in Ha; subst.
  - intros Ha xs ys Hx _ _.
    assert (waited k (activated k o r t xs ys)) as Hw
      by (apply (waited_step k o (Object r (Timer t))); [done|constructor|done|done|by intros ? []]).
    split; [split_and!; [|done|by eapply framed_step]|by apply only_timers]. eapply waited_sys; [done..|]. by apply wf_activated.
Qed.

Lemma wp_timerDeactivate_waits n k o r t :
  sys rank loops k → objs k !! o = Some (Object r (Timer t)) →
  wp (__timerDeactivate o) k (λ _ k', waits rank loops n k k' ∧ only o (Object r (Timer (timer_with_active false t))) k k').
Proof.
  intros Hs Ho. pose proof (sys_wf _ _ _ Hs) as Hwf.
  apply (wp_timerDeactivate rank k o r t); [done..| |].
  - intros Ha xs ys Hx.
    assert (waited k (deactivated k o r t xs ys)) as Hw
      by (apply (waited_step k o (Object r (Timer t))); [done|constructor|done|done|by intros ? []]).
    split; [split_and!; [|done|by eapply framed_step]|by apply only_timers]. eapply waited_sys; [done..|]. by apply wf_deactivated.
  - intros Ha. split; [by apply waits_refl|]. apply only_refl. rewrite Ho. by destruct t; simpl in Ha; subst.
Qed.

(** Updating a timer, with its list in any order. *)
Lemma wp_timerUpdate_waits n k o r t :
  sys rank loops k → objs k !! o = Some (Object r (Timer t)) →
  wp (__timerUpdate o) k (λ _ k', waits rank loops n k k' ∧ only o (Object r (Timer (timer_with_active true t))) k k').
Proof.
  intros Hs Ho. unfold __timerUpdate. wp_step.
  eapply wp_mono; [by eapply wp_timerDeactivate_waits|]. intros [] k1 [Hk1 Hon1].
  assert (Ho1 : objs k1 !! o = Some (Object r (Timer (timer_with_active false t)))) by (rewrite (proj1 Hon1); apply lookup_insert_eq).
  eapply wp_mono; [eapply wp_timerActivate_waits; [apply Hk1|done]|]. intros [] k2 [Hw2 Hon2].
  split; [by eapply waits_trans|]. by eapply only_trans.
Qed.

Lemma timerWait_spec k o r t mode :
  sys rank loops k → objs k !! o = Some (Object r (Timer t)) →
  wp (__timerWait o mode) k (wait_post o mode k).
Proof.
  intros Hs Ho. unfold __timerWait. wp_step. eapply wp_container; [done..|]. wp_steps.
  destruct (Z.ltb_spec (currentKernelTimestamp k) (t_timeout t)) as [Hlt|Hge]; [|destruct (Z.eqb_spec (t_interval t) 0) as [Hi|Hi]; cbn [negb]]; wp_step.
  - eapply wp_mono; [by eapply wp_timerActivate_waits|]. intros [] k1 [Hw1 Hon]. wp_step.
    split; [done|]. split; [by eapply outcome_queue; [done|by apply timer_pending|]|]. split; [done|].
    destruct Hw1 as (_ & Hw1 & _). apply (wt_heads _ _ Hw1). eapply sys_heads; [done..|]. simpl. set_solver.
  - eapply wp_mono; [by eapply wp_timerDeactivate_waits|]. intros [] k1 [Hw1 Hon]. wp_step. split; [done|]. split; [|done].
    eapply outcome_now; [done|by apply timer_elapsed|]. by rewrite <-Hi.
  - unfold modify_timer. wp_step. eapply wp_pointee; [done..|]. eapply wp_putBody; [done|].
    wp_step. set (t1 := timer_with_timeout _ t). set (k1 := set_objs _ k).
    pose proof (waits_body rank loops (rank o) k o _ (Timer t1) Hs Ho (touched_timer _ _ _) eq_refl eq_refl) as Hw1.
    assert (Hon1 : only o (Object r (Timer t1)) k k1) by done.
    eapply wp_mono; [eapply (wp_timerUpdate_waits _ k1 o r t1); [apply Hw1|by simpl; rewrite lookup_insert_eq]|].
    intros [] k2 [Hw2 Hon2]. wp_step. split; [by eapply waits_trans|]. split; [|done].
    eapply outcome_now; [done|by apply timer_periodic|]. by eapply only_trans.
Qed.
End TimerWait.

(** *** Semaphores, pipes, threads and processes *)

Lemma wait_done_post k o r b v mode : sys rank loops k → objs k !! o = Some (Object r b) → no_wait k o mode b v b →
  wait_post o mode k (Done v) k.
Proof.
  intros Hs Ho Hn. split; [by apply waits_refl|]. split; [|done]. eapply outcome_now; [done..|by apply only_refl].
Qed.

Lemma semaphoreWait_spec k o r s mode :
  sys rank loops k → objs k !! o = Some (Object r (Semaphore s)) →
  wp (__semaphoreWait o mode) k (wait_post o mode k).
Proof.
  intros Hs Ho. unfold __semaphoreWait. wp_step. eapply wp_container; [done..|].
  destruct (Z.eqb_spec (value s) 0) as [Hv|Hv]; wp_steps.
  - eapply wait_queue_post; [done..|by constructor|done|simpl; set_solver].
  - eapply wp_putBody; [done|]. wp_step. split; [|split; [|done]].
    + eapply waits_body; (done || constructor).
    + eapply outcome_now; [done|by constructor|done].
Qed.

Lemma pipeWait_spec k o r p mode :
  sys rank loops k → objs k !! o = Some (Object r (Pipe p)) →
  wp (__pipeWait o mode) k (wait_post o mode k).
Proof.
  intros Hs Ho. unfold __pipeWait. wp_step. eapply wp_container; [done..|].
  destruct (Z.eqb_spec mode 0) as [Hm|Hm], (p_writeable p) eqn:Hw; cbn [negb andb].
  - destruct (Z.eqb_spec (used p) 0) as [Hu|Hu]; wp_step; [eapply wait_queue_post|eapply wait_done_post];
      (done || by constructor || simpl; set_solver).
  - destruct (Z.eqb_spec (used p) 0) as [Hu|Hu]; wp_step; eapply wait_done_post; (done || by constructor).
  - destruct (Z.leb_spec MAX_PIPE_BUFFER_SIZE (used p)) as [Hu|Hu]; wp_step; [eapply wait_queue_post|eapply wait_done_post];
      (done || by constructor || simpl; set_solver).
  - wp_step. eapply wait_done_post; (done || by constructor).
Qed.

Lemma threadWait_spec k o r t mode :
  sys rank loops k → objs k !! o = Some (Object r (Thread t)) →
  wp (__threadWait o mode) k (wait_post o mode k).
Proof.
  intros Hs Ho. unfold __threadWait. wp_step. eapply wp_container; [done..|]. wp_step.
  destruct (th_process t) eqn:Hp; [|by eapply wait_done_post; [..|constructor]].
  eapply wait_queue_post; [done..|by constructor; eexists|done|simpl; set_solver].
Qed.

Lemma processWait_spec k o r p mode :
  sys rank loops k → objs k !! o = Some (Object r (Process p)) →
  wp (__processWait o mode) k (wait_post o mode k).
Proof.
  intros Hs Ho. unfold __processWait. wp_step. eapply wp_container; [done..|].
  destruct (sys_heads _ _ _ Hs o _ (Threads o) Ho) as [xs Hx]; [simpl; set_solver|].
  wp_step. eapply wp_queue_empty; [done|]. wp_step.
  case_bool_decide as Hxs; [subst xs; by eapply wait_done_post; [..|constructor]|].
  destruct xs as [|t ts]; [done|]. eapply wait_queue_post; [done..|by econstructor|done|simpl; set_solver].
Qed.

(** *** Events *)

Section EventWait.
Context (M : Methods mem) (Hfuel : @loop_fuel _ M = loops) (e : oid).
Context (Hrec : ∀ k o mode, (rank e < rank o)%nat → sys rank loops k → is_Some (objs k !! o) →
  wp (@__objectWait _ M o mode) k (wait_post o mode k)).

(** Sub event [n] of [k0] is blocked in [k]: it was, or it has been put into the
    queue of its object. *)
Definition queued k0 k (n : node) : Prop :=
  sub_blocked k n ∧ ∀ s r sub, n = EntryEvent s → objs k0 !! s = Some (Object r (SubEvent sub)) → s_blocked sub = false →
    ∃ k1 k2 l ws, waited k0 k1 ∧ outcome k1 (s_wait sub) (s_waitMode sub) (Queue l) k2 ∧ waited k2 k ∧
      qs k !! l = Some ws ∧ Entry s ∈ ws.

Lemma sub_blocked_waited k k' n : waited k k' → sub_blocked k n → sub_blocked k' n.
Proof.
  intros Hw (s & r & sub & -> & Ho & Hb). destruct (waited_lookup _ _ _ _ Hw Ho) as (b & Ho' & Ht).
  simpl in *. destruct (touched_sub_inv _ _ Ht) as (sub' & -> & _ & _ & Hb'). exists s, r, sub'. auto.
Qed.

Lemma outcome_wait_queue k o mode l k' : outcome k o mode (Queue l) k' → is_Some (wait_queue l).
Proof. inversion 1 as [|? ? ? ? ? ? ? ? _ Hm| |]; subst; [|by eexists]. inversion Hm; subst; by eexists. Qed.

Lemma queued_waited k0 k k' n : waited k k' → queued k0 k n → queued k0 k' n.
Proof.
  intros Hw [Hb Hq]. split; [by eapply sub_blocked_waited|]. intros s r sub Hn Ho Hbl.
  destruct (Hq s r sub Hn Ho Hbl) as (k1 & k2 & l & ws & H1 & Hout & H2 & Hws & Hin).
  destruct (wt_wait _ _ Hw l ws) as [new Hnew]; [by eapply outcome_wait_queue|done|].
  exists k1, k2, l, (new ++ ws). split_and!; [done..|by eapply waited_trans|done|set_solver].
Qed.

Lemma wp_set_status k v x ev (Q : unit → kernel mem → Prop) :
  sys rank loops k → objs k !! e = Some x → obj_body x = Event ev →
  (∀ k', waits rank loops (rank e) k k' → waits rank loops (S (rank e)) k k' →
     objs k' !! e = Some (Object (refcount x) (Event (EventFields v (e_wakeupAll ev)))) → Q tt k') →
  wp (set_status e v) k Q.
Proof.
  intros Hs Ho He HQ. unfold set_status. wp_step. eapply wp_pointee; [done|by rewrite He|].
  eapply wp_putBody; [done|].
  assert (∀ n, waits rank loops n k (set_objs (<[e := Object (refcount x) (Event (EventFields v (e_wakeupAll ev)))]> (objs k)) k)) as Hw.
  { intros n. eapply waits_body; rewrite ?He; (done || constructor). }
  apply HQ; [done..|]. simpl. by rewrite lookup_insert_eq.
Qed.

(** Blocking a sub event on the queue that the object attached returned. *)
Lemma wp_block_sub k s r sub l ys ev x (Q : unit → kernel mem → Prop) :
  sys rank loops k → objs k !! s = Some (Object r (SubEvent sub)) → s_blocked sub = false → s_event sub = e →
  objs k !! e = Some x → obj_body x = Event ev →
  wait_queue l = Some (s_wait sub) → (rank e < rank (s_wait sub))%nat → qs k !! l = Some ys →
  (∀ k', waits rank loops (rank e) k k' → sub_blocked k' (EntryEvent s) → qs k' !! l = Some (Entry s :: ys) →
     (∀ o, o ≠ s → objs k' !! o = objs k !! o) → Q tt k') →
  wp (set_blocked s true ;; queue_add_after l (Entry s)) k Q.
Proof.
  intros Hs Ho Hb He Hxe Hev Hl Hr Hy HQ. pose proof (sys_wf _ _ _ Hs) as Hwf.
  set (sub' := SubEvent (SubEventFields true (s_event sub) (s_wait sub) (s_waitMode sub) (s_identifier sub))).
  assert (Hv : view_of k !! s = Some (WSub false e)).
  { erewrite view_of_obj by done. simpl. by rewrite Hb, He. }
  destruct (wf_place _ _ _ Hwf s _ Hv eq_refl) as (p & Hp & Ha). simpl in Ha. subst p.
  assert (Hqe : is_Some (qs k !! Waiters e)).
  { eapply sys_heads; [done..|]. rewrite Hev. simpl. set_solver. }
  assert (Hne : s ≠ e) by (intros ->; rewrite Ho in Hxe; by simplify_eq).
  unfold set_blocked. wp_steps. eapply wp_pointee; [done..|]. eapply wp_putBody; [done|]. simpl. fold sub'.
  eapply wp_queue_add_head; [apply Hwf|done|done|]. simpl.
  match goal with |- Q tt ?x => set (k1 := x) end.
  assert (Hw : waited k k1).
  { apply (waited_step k s (Object r (SubEvent sub)) sub' l (Entry s :: ys)); [done|constructor|by intros ->| |].
    - intros e' ->. done.
    - intros zs _ Hz. exists [Entry s]. rewrite Hy in Hz. by injection Hz as <-. }
  apply HQ; [|exists s, r; eexists; split_and!; [done|simpl; by rewrite lookup_insert_eq|done]|simpl; by rewrite lookup_insert_eq
     |intros o Hne2; simpl; by rewrite lookup_insert_ne].
  split_and!; [|done|].
  - apply (waited_sys rank loops k); [done..|]. unfold wf, k1. rewrite view_of_update.
    eapply (wf_link rank _ _ s (WSub false e) _ l ys); (try done).
    simpl. exists l, (s_wait sub). rewrite He. split_and!; try done.
    erewrite view_of_obj by done. by rewrite Hev.
  - intros s' r' sub2 Ho2 Hn. simpl. rewrite lookup_insert_ne; [done|]. intros <-.
    rewrite Ho in Ho2. simplify_eq. lia.
Qed.

(** One sub event. *)
Lemma eventWait_step_spec k s r sub acc ev x :
  sys rank loops k → objs k !! s = Some (Object r (SubEvent sub)) → s_event sub = e →
  (rank e < rank (s_wait sub))%nat → is_Some (objs k !! s_wait sub) →
  objs k !! e = Some x → obj_body x = Event ev →
  wp (@eventWait_step _ M e s acc) k (λ res k',
    waits rank loops (rank e) k k' ∧
    (∀ s' r' sub', s' ≠ s → objs k !! s' = Some (Object r' (SubEvent sub')) → s_event sub' = e →
       objs k' !! s' = Some (Object r' (SubEvent sub'))) ∧
    match res with
    | inl a => a = None ∧ queued k k' (EntryEvent s)
    | inr a => a = Some (s_identifier sub) ∧ s_blocked sub = false ∧ ∃ k1 k2 v, waited k k1 ∧
        outcome k1 (s_wait sub) (s_waitMode sub) (Done v) k2 ∧ waited k2 k' ∧
        ∀ y, v = Some y → objs k' !! e = Some (Object (refcount x) (Event (EventFields y (e_wakeupAll ev))))
    end).
Proof.
  intros Hs Ho He Hr Hw Hxe Hev. unfold eventWait_step. wp_step. eapply wp_pointee; [done..|].
  destruct (s_blocked sub) eqn:Hb; wp_steps.
  { split; [by apply waits_refl|]. split; [done|]. split; [done|]. split; [by exists s, r, sub|].
    intros s' r' sub' [= <-] Hk' Hb'. rewrite Ho in Hk'. injection Hk' as <- <-. congruence. }
  { by rewrite bool_decide_true. }
  eapply wp_set_status; [done..|]. intros k1 Hw1 Hw1' He1.
  assert (Hk1 : ∀ s' r' sub', objs k !! s' = Some (Object r' (SubEvent sub')) → s_event sub' = e →
    objs k1 !! s' = Some (Object r' (SubEvent sub'))).
  { intros s' r' sub' Hk' He'. apply (proj2 (proj2 Hw1')); [done|rewrite He'; lia]. }
  wp_steps. eapply wp_mono.
  { apply Hrec; [done|apply Hw1|]. apply elem_of_dom. rewrite (waited_dom k k1) by apply Hw1.
    by apply elem_of_dom. }
  intros res k2 (Hw2 & Hout & Hres). pose proof (waits_le _ _ _ _ _ _ (Nat.lt_le_incl _ _ Hr) Hw2) as Hw2'.
  assert (Hw02 : waits rank loops (rank e) k k2) by by eapply waits_trans.
  destruct Hw2 as (Hs2 & Hwt2 & Hf2).
  assert (Hk2 : ∀ s' r' sub', objs k !! s' = Some (Object r' (SubEvent sub')) → s_event sub' = e →
    objs k2 !! s' = Some (Object r' (SubEvent sub'))).
  { intros s' r' sub' Hk' He'. apply Hf2; [by apply Hk1|by rewrite He']. }
  destruct (waited_lookup _ _ _ _ Hwt2 He1) as (b & He2 & Ht). simpl in He2, Ht.
  destruct (touched_event_inv _ _ Ht) as [v ->]. pose proof (proj1 (proj2 Hw1)) as Hwd1.
  destruct res as [l|res].
  - destruct Hres as (Hl & [ys Hy]). pose proof (Hk2 s r sub Ho He) as Ho2.
    assert (∀ A (m1 m2 : Prelude.M (kernel mem) unit) (a : A) kk QQ,
      wp (m1 ;; m2) kk (λ _ k', QQ a k') → wp (m1 ;; m2 ;; mret a) kk QQ) as Hseq.
    { intros A m1 m2 a kk QQ Hm. apply wp_bind_inv in Hm. wp_step. eapply wp_mono; [exact Hm|].
      intros [] k' Hk'. wp_step. eapply wp_mono; [exact Hk'|]. intros [] k'' Hk''. by wp_step. }
    apply Hseq. eapply (wp_block_sub k2 s r sub l ys); try done. intros k3 Hw3 Hsb Hq3 Hsame.
    split; [by eapply waits_trans|]. split; [intros s' r' sub' Hne Hk' He'; rewrite Hsame by done; by apply Hk2|].
    split; [done|]. split; [done|]. intros s' r' sub' [= <-] Hk' _. rewrite Ho in Hk'. injection Hk' as <- <-.
    exists k1, k2, l, (Entry s :: ys). split_and!; [done..|apply Hw3|done|set_solver].
  - wp_step. destruct res as [v'|].
    + eapply wp_set_status; [done..|]. intros k3 Hw3 Hw3' He3. wp_step. split; [by eapply waits_trans|].
      split; [|split; [done|]; split; [done|]].
      * intros s' r' sub' Hne Hk' He'. apply (proj2 (proj2 Hw3')); [by apply Hk2|rewrite He'; lia].
      * exists k1, k2, (Some v'). split_and!; [done..|apply Hw3|]. by intros y [= <-].
    + wp_steps. split; [done|]. split; [intros s' r' sub' _; apply Hk2|]. split; [done|]. split; [done|].
      exists k1, k2, None. split_and!; [done..|apply waited_refl|done].
Qed.

(** All of them, from [k0] on. *)
Lemma eventWait_loop vis rest fuel k0 k acc r ev :
  sys rank loops k → qs k !! SubEvents e = Some (vis ++ rest) → (length rest < fuel)%nat →
  objs k0 !! e = Some (Object r (Event ev)) → waited k0 k → Forall (queued k0 k) vis → acc = None →
  (∀ s, EntryEvent s ∈ rest → objs k !! s = objs k0 !! s) → qs k0 !! SubEvents e = Some (vis ++ rest) →
  wp (for_each_loop fuel (SubEvents e) (@eventWait_step _ M e) (hd (SubEvents e) rest) acc) k
    (λ res k', waits rank loops (rank e) k k' ∧
      match res.2 with
      | None => Forall (queued k0 k') (vis ++ rest)
      | Some i => ∀ mode, outcome k0 e mode (Done (Some i)) k'
      end).
Proof.
  revert vis fuel k. induction rest as [|n rest IH]; intros vis fuel k Hs Hx Hf He Hw0 Hvis -> Hsame Hx0;
    (destruct fuel as [|fuel]; [simpl in Hf; lia|]); simpl.
  - rewrite decide_True by done. wp_step. split; [by apply waits_refl|]. by rewrite app_nil_r.
  - destruct (sys_subs _ _ _ Hs e _ n Hx) as (s & rs & sub & -> & Ho & Hse & Hr & Hw); [set_solver|].
    assert (Ho0 : objs k0 !! s = Some (Object rs (SubEvent sub))) by (rewrite <-Hsame by set_solver; done).
    destruct (waited_lookup _ _ _ _ Hw0 He) as (b & Hek & Ht). simpl in Hek, Ht.
    destruct (touched_event_inv _ _ Ht) as [v ->].
    rewrite decide_False by done. wp_step. apply wp_deref with s; [done|].
    wp_step. eapply wp_mono; [by eapply (eventWait_step_spec k s rs sub)|].
    intros [a|a] k1 (Hw1 & Hoth & Hres).
    + destruct Hres as [-> Hb]. pose proof Hw1 as (Hs1 & Hwt1 & Hf1).
      assert (Hx1 : qs k1 !! SubEvents e = Some (vis ++ EntryEvent s :: rest)) by by rewrite (wt_subs _ _ Hwt1).
      wp_step. eapply wp_queue_next; [eapply q_next_elem; [apply Hs1|done]|].
      assert (Hnd : NoDup (vis ++ EntryEvent s :: rest)).
      { by apply (proj1 (wf_ok _ _ _ (sys_wf _ _ _ Hs1))), NoDup_cons in Hx1 as [_ ?]. }
      eapply wp_mono.
      { eapply (IH (vis ++ [EntryEvent s]) fuel k1); [done|by rewrite <-app_assoc|simpl in Hf; lia|done|by eapply waited_trans| |done| |by rewrite <-app_assoc].
        - apply Forall_app. split; [eapply Forall_impl; [done|]; intros n; by apply queued_waited|].
          repeat constructor; [apply Hb|]. intros s' r' sub' [= <-] Hk' Hbl. rewrite Ho0 in Hk'. injection Hk' as <- <-.
          destruct (proj2 Hb s rs sub eq_refl Ho Hbl) as (k2 & k3 & l & ws & H2 & Hrest). exists k2, k3, l, ws.
          split; [by eapply waited_trans|done].
        - intros s' Hin. rewrite <-Hsame by set_solver.
          destruct (sys_subs _ _ _ Hs e _ (EntryEvent s') Hx) as (s2 & r2 & sub2 & [= <-] & Ho2 & He2 & _); [set_solver|].
          rewrite Ho2. apply (Hoth s' r2 sub2); [|done|done]. intros ->.
          apply NoDup_app in Hnd as (_ & _ & Hnd). apply NoDup_cons in Hnd as [Hnd _]. done. }
      intros res k2 (Hw2 & Hall). rewrite <-app_assoc in Hall. split; [by eapply waits_trans|done].
    + wp_step. split; [done|]. destruct Hres as (-> & Hbl & k2 & k3 & v' & H2 & Hout & H3 & Hst). intros mode.
      eapply (outcome_event_now k0 k2 k3 k1 e mode r ev vis s rs sub rest v'); try done; [by eapply waited_trans|].
      eapply Forall_impl; [done|]. intros n Hn. eapply sub_blocked_waited; [exact H2|apply Hn].
Qed.

Lemma eventWait_spec k r ev mode :
  sys rank loops k → objs k !! e = Some (Object r (Event ev)) →
  wp (@__eventWait _ M e mode) k (wait_post e mode k).
Proof.
  intros Hs Ho. unfold __eventWait. wp_step. eapply wp_container; [done..|]. wp_step.
  destruct (sys_heads _ _ _ Hs e _ (SubEvents e) Ho) as [xs Hx]; [simpl; set_solver|].
  unfold for_each. wp_step. eapply wp_queue_next; [by apply q_next_head|].
  eapply wp_mono.
  { eapply (eventWait_loop [] xs _ k k); try done; [|apply waited_refl]. rewrite Hfuel. eapply Nat.le_lt_trans; [|apply Hs].
    by eapply sys_subs_size. }
  intros [n [i|]] k1 (Hw1 & Hall); wp_step; [by split_and!|].
  pose proof Hw1 as (Hs1 & Hwt1 & _). simpl in Hall. split; [done|]. split.
  - eapply outcome_event_queue; [done..| |].
    + eapply Forall_impl; [done|]. by intros n' [? _].
    + intros s rs sub Hin. eapply Forall_forall in Hall; [|done]. by apply (proj2 Hall).
  - split; [done|]. apply (wt_heads _ _ Hwt1). eapply sys_heads; [done..|]. simpl. set_solver.
Qed.
End EventWait.
End Wait.

(** ** The system of calls *)

Section System.
Context {mem : Type} `{Memory mem} `{Machine mem} (rank : oid → nat) (loops top : nat).
Context (Htop : ∀ o, (rank o < top)%nat).
Implicit Types k : kernel mem.

Lemma methods_fuel depth : @loop_fuel _ (methods loops depth) = loops.
Proof. by destruct depth. Qed.

(** Waits nested [depth] deep reach the objects of the highest rank. *)
Lemma methods_wait depth k o mode :
  (top ≤ depth + rank o)%nat → sys rank loops k → is_Some (objs k !! o) →
  wp (@__objectWait _ (methods loops depth) o mode) k (wait_post rank loops o mode k).
Proof.
  revert k o mode. induction depth as [|d IH]; intros k o mode Hd Hs [[r b] Ho]; [specialize (Htop o); lia|].
  simpl. unfold call_wait. wp_step. eapply wp_getBody; [done|]. simpl.
  destruct b; try (wp_step; by eapply wait_done_post; [..|constructor]).
  - by eapply semaphoreWait_spec.
  - eapply eventWait_spec; [by rewrite methods_fuel| |done|done].
    intros k' o' mode' Hr Hs' Ho'. apply IH; [lia|done|done].
  - eapply timerWait_spec; [by rewrite methods_fuel|done..].
  - by eapply pipeWait_spec.
  - by eapply threadWait_spec.
  - by eapply processWait_spec.
Qed.

(** A thread that is not waiting: it is alive and in the list of runnable threads. *)
Definition runnable k (t : oid) (r : Z) (th : thread) : Prop :=
  objs k !! t = Some (Object r (Thread th)) ∧ th_blocked th = false ∧ is_Some (th_process th).

Lemma runnable_linked k t r th :
  wf rank k → runnable k t r th → ∃ xs ys, qs k !! ThreadList = Some (xs ++ Entry t :: ys).
Proof.
  intros Hwf (Ho & Hb & Hp).
  destruct (wf_place _ _ _ Hwf t (WThread true false)) as (p & Hl & Ha); [|done|].
  { rewrite (view_of_obj _ _ _ Ho). simpl. by rewrite Hb, bool_decide_true. }
  simpl in Ha. subst p. destruct Hl as (zs & Hz & (xs & ys & ->)%list_elem_of_split). eauto.
Qed.

(** Changing the registers of a thread. *)
Lemma sys_thread k t r th c :
  sys rank loops k → objs k !! t = Some (Object r (Thread th)) →
  sys rank loops (set_objs (<[t := Object r (Thread (thread_with_task c th))]> (objs k)) k).
Proof.
  intros Hs Ho. constructor; simpl.
  - unfold wf. rewrite view_of_objs, insert_id; [apply Hs|]. by rewrite (view_of_obj _ _ _ Ho).
  - rewrite map_size_insert_Some by done. apply Hs.
  - intros o x h [[<- <-]|[_ Hx]]%lookup_insert_Some Hh; eapply sys_heads; done.
  - intros e xs n Hx Hn. destruct (sys_subs _ _ _ Hs e xs n Hx Hn) as (s & r' & sub & -> & Hsub & He & Hr & [y Hy]).
    exists s, r', sub. rewrite lookup_insert_ne by (intros <-; by simplify_eq). split_and!; [done..|].
    destruct (decide (s_wait sub = t)) as [->|]; [rewrite lookup_insert_eq; eauto|].
    rewrite lookup_insert_ne by done. eauto.
Qed.

(** Thread [t] with its result register set. *)
Definition with_result k (t : oid) r (th : thread) (v : Z) : kernel mem :=
  set_objs (<[t := Object r (Thread (set_result v th))]> (objs k)) k.

(** From [k] to [k'] the runnable thread [t] has been blocked at the head of [l]. *)
Definition blocks k k' (t : oid) r (th : thread) (l : node) : Prop :=
  ∃ xs ys ws, qs k !! ThreadList = Some (xs ++ Entry t :: ys) ∧ qs k !! l = Some ws ∧
    qs k' = <[l := Entry t :: ws]> (<[ThreadList := xs ++ ys]> (qs k)) ∧
    objs k' = <[t := Object r (Thread (thread_with_blocked true th))]> (objs k).

Lemma wp_block_thread k t r th l w (Q : Z → kernel mem → Prop) :
  sys rank loops k → runnable k t r th → wait_queue l = Some w → is_Some (qs k !! l) →
  (∀ k', sys rank loops k' → blocks k k' t r th l → Q INTERRUPT_YIELD k') →
  wp (modify_thread t (thread_with_blocked true) ;; queue_remove (Entry t) ;;
      queue_add_after l (Entry t) ;; mret INTERRUPT_YIELD) k Q.
Proof.
  intros Hs Hrun Hl [ws Hw] HQ. pose proof (sys_wf _ _ _ Hs) as Hwf.
  destruct (runnable_linked _ _ _ _ Hwf Hrun) as (xs & ys & Ht). destruct Hrun as (Ho & Hb & Hp).
  assert (l ≠ ThreadList) as Hne by (by intros ->).
  unfold modify_thread. wp_steps. eapply wp_pointee; [done..|]. eapply wp_putBody; [done|].
  wp_step. eapply wp_queue_remove; [apply Hwf|done|].
  wp_step. eapply wp_queue_add_head; simpl.
  - by eapply q_ok_removed; [apply Hwf|].
  - by rewrite lookup_insert_ne.
  - eapply free_removed; [apply Hwf|done].
  - wp_step. match goal with |- Q _ ?x => set (k1 := x) end.
    apply (HQ k1); [|by exists xs, ys, ws].
    constructor.
    + unfold wf, k1. simpl.
      match goal with |- wf_view _ (view_of ?x) _ => change (view_of x) with
        (view_of (set_objs (<[t := Object r (Thread (thread_with_blocked true th))]> (objs k)) k)) end.
      rewrite view_of_objs. simpl. rewrite bool_decide_true by done.
      eapply wf_block; [done| |done..]. rewrite (view_of_obj _ _ _ Ho). simpl. by rewrite Hb, bool_decide_true.
    + simpl. rewrite map_size_insert_Some by done. apply Hs.
    + intros o x h Hx Hh. assert (is_Some (qs k !! h)) as Hq.
      { simpl in Hx. apply lookup_insert_Some in Hx as [[<- <-]|[_ Hx]]; by eapply sys_heads. }
      simpl. destruct (decide (h = l)) as [->|]; [rewrite lookup_insert_eq; eauto|].
      rewrite lookup_insert_ne by done.
      destruct (decide (h = ThreadList)) as [->|]; [rewrite lookup_insert_eq; eauto|]. by rewrite lookup_insert_ne.
    + intros e zs n Hx Hn. simpl in Hx. rewrite !lookup_insert_ne in Hx; [|done|by intros ->].
      destruct (sys_subs _ _ _ Hs e zs n Hx Hn) as (s & r' & sub & -> & Hsub & He & Hr & [y Hy]).
      exists s, r', sub. simpl. rewrite lookup_insert_ne by (intros <-; by simplify_eq). split_and!; [done..|].
      destruct (decide (s_wait sub = t)) as [->|]; [rewrite lookup_insert_eq; eauto|].
      rewrite lookup_insert_ne by done. eauto.
Qed.

(** C1: Waiting for an object, in a consistent system, in which events are attached to
    each other without cycles ([sys]). The call of a runnable thread [t] returns, and
    what happens is the outcome that the object asks for ([outcome], [no_wait],
    [must_wait]): if it has to be waited for, [t] and nothing else is moved from the
    list of runnable threads to the head of the queue that the object names, blocked
    and with a result of 0 for now, and the scheduler has to run
    (INTERRUPT_YIELD); otherwise [t] goes on with the result of the object
    (INTERRUPT_CONTINUE_EXECUTION). The system stays consistent. *)
Theorem threadWait_correct depth k t obj mode r th :
  (top ≤ depth)%nat → sys rank loops k → runnable k t r th → is_Some (objs k !! obj) →
  wp (@threadWait _ (methods loops depth) t obj mode) k (λ status k',
    sys rank loops k' ∧ ∃ k1 res, outcome (with_result k t r th 0) obj mode res k1 ∧
    match res with
    | Queue l => status = INTERRUPT_YIELD ∧ wait_queue l = Some obj ∧ blocks k1 k' t r (set_result 0 th) l
    | Done v => status = INTERRUPT_CONTINUE_EXECUTION ∧ k' = with_result k1 t r th (default 0 v)
    end).
Proof.
  intros Hd Hs (Ho & Hb & Hp) Hobj.
  unfold threadWait. wp_step. unfold modify_thread at 1. wp_step. eapply wp_pointee; [done..|].
  eapply wp_putBody; [done|]. change (set_objs _ k) with (with_result k t r th 0). set (k0 := with_result k t r th 0).
  assert (Hs0 : sys rank loops k0) by by apply sys_thread.
  assert (Ho0 : objs k0 !! t = Some (Object r (Thread (set_result 0 th)))) by (simpl; by rewrite lookup_insert_eq).
  wp_step. eapply wp_mono.
  { apply methods_wait; [lia|done|]. simpl. destruct (decide (obj = t)) as [->|];
      [rewrite lookup_insert_eq; eauto|by rewrite lookup_insert_ne]. }
  intros res k1 ((Hs1 & Hw1 & _) & Hout & Hres).
  pose proof (waited_thread _ _ _ _ _ Hw1 Ho0) as Ho1.
  destruct res as [l|res].
  - destruct Hres as (Hl & Hq). wp_step. eapply wp_pointee; [done..|].
    wp_steps; [simpl; by rewrite Hb|]. apply wp_bind_inv.
    eapply wp_block_thread; [done..|]. intros k2 Hs2 Hblk. split; [done|]. by exists k1, (Queue l).
  - wp_step. destruct res as [v|]; wp_steps.
    + unfold modify_thread. wp_step. eapply wp_pointee; [done..|]. eapply wp_putBody; [done|]. wp_step.
      split; [by eapply sys_thread|]. by exists k1, (Done (Some v)).
    + split; [done|]. exists k1, (Done None). split; [done|]. split; [done|].
      unfold with_result. simpl. by rewrite insert_id; [destruct k1|].
Qed.

(** C2: [queueWakeup] on a wait queue of a consistent system. It returns;
    waking everybody empties the queue, otherwise exactly its first element is
    taken; every thread taken is runnable, with [eax] as its result, behind
    the threads that could already run. Every sub event taken wakes up the waiters
    of its event in turn, all of them or the first, and so on for the sub events
    among these; a thread that runs again is one of those taken or has waited for
    such an event, and its result is then the identifier of a sub event that woke
    it up ([roused]). Nobody who leaves a queue is lost: a thread is then in the list
    of runnable threads ([none_lost]). Queues of objects of a higher rank, and everything else, are
    as before ([above], [woken]). *)
Theorem queueWakeup_correct k l w all eax xs depth :
  (top ≤ depth)%nat → wf rank k → (size (objs k) < loops)%nat →
  wait_queue l = Some w → qs k !! l = Some xs →
  wp (@queueWakeup _ (methods loops depth) l all eax) k (λ _ k',
    wf rank k' ∧ woken k k' ∧ above rank (rank w) k k' ∧
    qs k' !! l = Some (if all then [] else tail xs) ∧
    roused (if all then xs else take 1 xs) eax k k' ∧ none_lost k k').
Proof.
  intros Hd Hwf Hsz Hl Hx. eapply wp_mono.
  { apply (wp_wakeup rank loops depth); try done. intros o. specialize (Htop o). lia. }
  intros [] k' (Hwf' & Hw & Ha & Hq & Hr). split_and!; try done. by eapply wf_none_lost, woken_mask.
Qed.

(** ** Semaphores

    The invariant: nobody waits for a semaphore that could be taken. *)
Definition sem_ok k (o : oid) : Prop :=
  ∀ r s xs, objs k !! o = Some (Object r (Semaphore s)) → qs k !! Waiters o = Some xs → xs = [] ∨ value s = 0.

(** Signalling a semaphore. If nobody waits its value goes up by one,
    modulo 2^32; otherwise the value stays 0 and the first waiter, and nobody
    else, leaves the queue, a thread with the result 0. The assertion in the
    code holds and the invariant of the semaphore is kept. *)
Theorem semaphoreSignal_correct depth k o r s xs result :
  (top ≤ depth)%nat → wf rank k → (size (objs k) < loops)%nat → sem_ok k o →
  objs k !! o = Some (Object r (Semaphore s)) → qs k !! Waiters o = Some xs →
  wp (@__objectSignal _ (methods loops (S depth)) o result) k (λ _ k',
    wf rank k' ∧ sem_ok k' o ∧ qs k' !! Waiters o = Some (tail xs) ∧
    objs k' !! o = Some (Object r (Semaphore (SemaphoreFields (if bool_decide (xs = []) then u32 (value s + 1) else 0)))) ∧
    ∀ t, head xs = Some (Entry t) → thread_woken 0 k k' t).
Proof.
  intros Hd Hwf Hsz Hok Ho Hx. simpl. unfold call_signal. wp_step. eapply wp_getBody; [done|]. simpl.
  unfold __semaphoreSignal. wp_step. eapply wp_container; [done..|].
  wp_step. eapply wp_queue_empty; [done|].
  case_bool_decide as Hxs.
  - subst xs. eapply wp_putBody; [done|]. simpl. split_and!.
    + unfold wf. rewrite view_of_objs, insert_id; [done|]. by rewrite (view_of_obj _ _ _ Ho).
    + intros r' s' xs' Ho' Hx'. left. simpl in Hx'. congruence.
    + done.
    + by rewrite lookup_insert_eq.
    + done.
  - destruct (Hok r s xs Ho Hx) as [|Hv]; [done|]. wp_steps; [by apply Z.eqb_eq|].
    assert (∀ o', (rank o' < depth)%nat) as Hdp by (intros o'; specialize (Htop o'); lia).
    eapply wp_mono; [by apply (wp_wakeup rank loops depth Hdp k (Waiters o) o false 0 xs)|].
    intros [] k' (Hwf' & Hw' & _ & Hx' & Ht').
    assert (Ho' : objs k' !! o = Some (Object r (Semaphore s))).
    { by eapply woken_rigid. }
    split_and!; [done| |done| |].
    + intros r' s' xs' Hs' _. right. congruence.
    + rewrite Ho', <-Hv. by destruct s.
    + intros t Hh. eapply ro_thread; [exact Ht'|]. destruct xs; [done|]. simpl in *. set_solver.
Qed.

(** Waiting for a semaphore takes it if its value is not 0, which is then
    one less and the result; otherwise it returns the queue of the semaphore
    and changes nothing. The invariant of the semaphore is kept, also by a
    thread that then blocks, since the value is 0. *)
Theorem semaphoreWait_correct depth k o r s mode :
  objs k !! o = Some (Object r (Semaphore s)) → sem_ok k o → is_u32 (value s) →
  wp (@__objectWait _ (methods loops (S depth)) o mode) k (λ res k',
    sem_ok k' o ∧
    if decide (value s = 0) then res = Queue (Waiters o) ∧ k' = k
    else res = Done (Some (value s - 1)) ∧ qs k' = qs k ∧
         objs k' = <[o := Object r (Semaphore (SemaphoreFields (value s - 1)))]> (objs k)).
Proof.
  intros Ho Hok Hu. simpl. unfold call_wait. wp_step. eapply wp_getBody; [done|]. simpl.
  unfold __semaphoreWait. wp_step. eapply wp_container; [done..|].
  destruct (Z.eqb_spec (value s) 0) as [Hz|Hz]; wp_steps.
  - by rewrite decide_True.
  - rewrite u32_small by (unfold is_u32 in *; lia). eapply wp_putBody; [done|]. wp_step.
    rewrite decide_False by done. split; [|done].
    intros r' s' xs Ho' Hx. simpl in *. left. destruct (Hok r s xs Ho Hx); [done|lia].
Qed.
End System.

(** ** Destruction *)

Lemma wf_delete_queue rank v qs l :
  wf_view rank v qs → qs !! l = Some [] → l ≠ ThreadList → l ≠ TimerList →
  (∀ e, l = Waiters e → v !! e ≠ Some WEvent) → wf_view rank v (delete l qs).
Proof.
  intros Hwf Hl Hn1 Hn2 Hev. destruct (wf_ok _ _ _ Hwf) as [Hnd Hdis]. constructor.
  - split.
    + intros l' xs [_ Hx]%lookup_delete_Some. by apply Hnd.
    + intros l1 l2 xs1 xs2 x [_ H1]%lookup_delete_Some [_ H2]%lookup_delete_Some. by apply Hdis.
  - rewrite lookup_delete_ne by done. by eapply wf_threads.
  - rewrite lookup_delete_ne by done. by eapply wf_timers.
  - intros o s Ho Hs. destruct (wf_place _ _ _ Hwf o s Ho Hs) as (p & Hp & Ha). exists p. split.
    + destruct p as [l'|]; simpl in *.
      * destruct Hp as (xs & Hx & Hin). exists xs. rewrite lookup_delete_ne; [done|].
        intros <-. rewrite Hl in Hx. set_solver.
      * intros l' xs [_ Hx]%lookup_delete_Some. by apply Hp.
    + destruct s as [[] []|[] e| |b|]; simpl in *; try done.
      destruct Ha as (l' & w & ? & ? & ? & He & Hq). exists l', w. split_and!; [done..|].
      rewrite lookup_delete_ne; [done|]. intros ->. by apply (Hev e).
  - intros l' xs n Hl' [_ Hx]%lookup_delete_Some Hn. by eapply wf_elem.
Qed.

Lemma wf_delete_object rank v qs o s :
  wf_view rank v qs → v !! o = Some s → schedulable s = false → s ≠ WEvent → wf_view rank (delete o v) qs.
Proof.
  intros Hwf Ho Hs Hne. constructor; [apply Hwf..| |].
  - intros o' s' [Hne' Ho']%lookup_delete_Some Hs'.
    destruct (wf_place _ _ _ Hwf o' s' Ho' Hs') as (p & Hp & Ha). exists p. split; [done|].
    destruct s' as [[] []|[] e| |b|]; simpl in *; try done.
    destruct Ha as (l' & w & ? & ? & ? & He & Hq). exists l', w. split_and!; [done..| |done].
    rewrite lookup_delete_ne; [done|]. intros <-. congruence.
  - intros l xs n Hl Hx Hn. destruct (wf_elem _ _ _ Hwf l xs n Hl Hx Hn) as (o' & s' & -> & Ho' & Hs').
    exists o', s'. split_and!; [done| |done]. rewrite lookup_delete_ne; [done|]. intros <-. congruence.
Qed.

Section Destroy.
Context {mem : Type} `{MemoryLaws mem} `{!Machine mem} (rank : oid → nat) (loops top : nat).
Context (Htop : ∀ o, (rank o < top)%nat).
Implicit Types k : kernel mem.

(** C27: Releasing the last reference of a semaphore. Its waiters are woken up
    with the error result, the assertion that nobody waits holds, and the
    object, its queue and its memory are gone: the block is freed once, and
    nothing else is. What remains is well formed. *)
Theorem semaphoreRelease_correct depth k o s xs :
  (top ≤ depth)%nat → wf rank k → (size (objs k) < loops)%nat →
  objs k !! o = Some (Object 1 (Semaphore s)) → qs k !! Waiters o = Some xs → o ∈ live (memory k) →
  wp (@__objectRelease _ (methods loops (S depth)) o) k (λ _ k',
    wf rank k' ∧ objs k' !! o = None ∧ qs k' !! Waiters o = None ∧
    live (memory k') = live (memory k) ∖ {[o]} ∧
    ∀ t, Entry t ∈ xs → thread_woken ERR k k' t).
Proof.
  intros Hd Hwf Hsz Ho Hx Hlive. assert (∀ o', (rank o' < depth)%nat) as Hdp by (intros o'; specialize (Htop o'); lia).
  simpl. unfold call_release. wp_step. eapply wp_getObject; [done|]. simpl. unfold putObject. wp_steps.
  set (k0 := set_objs _ k). assert (Ho0 : objs k0 !! o = Some (Object 0 (Semaphore s))) by (simpl; by rewrite lookup_insert_eq).
  assert (Hwf0 : wf rank k0).
  { unfold wf, k0. rewrite view_of_objs, insert_id; [done|]. by rewrite (view_of_obj _ _ _ Ho). }
  unfold call_destroy. wp_step. eapply wp_getBody; [done|]. simpl.
  unfold __semaphoreDestroy. wp_step. eapply wp_container; [done..|]. wp_step. eapply wp_mono.
  { apply (wp_wakeup rank loops depth Hdp k0 (Waiters o) o true ERR xs); try done.
    simpl. by rewrite map_size_insert_Some. }
  intros [] k1 (Hwf1 & Hw1 & _ & Hx1 & Ht1).
  assert (Ho1 : objs k1 !! o = Some (Object 0 (Semaphore s))) by by eapply woken_rigid.
  wp_step. eapply wp_queue_empty; [done|]. wp_steps; [done|]. unfold freeObject. wp_steps.
  apply wp_zoom. eapply wp_mono.
  { apply heapFree_spec. simpl. destruct (wk_rest _ _ Hw1) as (_ & _ & _ & _ & ->). done. }
  intros [] m Hm. simpl in Hm |- *. split_and!.
  - unfold wf, view_of. simpl. rewrite fmap_delete. apply wf_delete_queue; [|done..|].
    + apply (wf_delete_object rank (view_of k1) _ o WOther); [done|by rewrite (view_of_obj _ _ _ Ho1)|done|done].
    + intros e [= <-]. by rewrite lookup_delete_eq.
  - by rewrite lookup_delete_eq.
  - by rewrite lookup_delete_eq.
  - rewrite Hm. by destruct (wk_rest _ _ Hw1) as (_ & _ & _ & _ & ->).
  - intros t Hin r th Hth. assert (t ≠ o) by (intros ->; simplify_eq). simpl.
    rewrite lookup_delete_ne by done. apply (ro_thread _ _ _ _ Ht1 t Hin r th). simpl. by rewrite lookup_insert_ne.
Qed.
End Destroy.

(** ** An example

    Thread 10 runs, thread 11 waits for semaphore 40; semaphore 41 can be
    taken three times; event 50 has semaphore 40 attached to it. *)

Definition block_rank (o : oid) : nat := if decide (o = 50) then 0 else 1.

Lemma block_rank_lt o : (block_rank o < 2)%nat.
Proof. unfold block_rank. case_decide; lia. Qed.

Definition block_kernel : kernel heap := sample_kernel
  [(10, sample_thread false (Some 30)); (11, sample_thread true (Some 30));
   (40, Object 1 (Semaphore (SemaphoreFields 0))); (41, Object 1 (Semaphore (SemaphoreFields 3)));
   (50, Object 1 (Event (EventFields 0 true)));
   (60, Object 1 (SubEvent (SubEventFields false 50 40 0 7)))]
  [(ThreadList, [Entry 10]); (TimerList, []); (Waiters 10, []); (Waiters 11, []);
   (Waiters 40, [Entry 11]); (Waiters 41, []); (Waiters 50, []); (SubEvents 50, [EntryEvent 60])].

Lemma block_kernel_wf : wf block_rank block_kernel.
Proof. apply wf_check_sound. vm_compute. reflexivity. Qed.

Lemma block_kernel_sys : sys block_rank 16 block_kernel.
Proof.
  constructor.
  - apply block_kernel_wf.
  - vm_compute. lia.
  - intros o x h Ho Hh. sample_cases Ho; simpl in Hh;
      repeat (apply elem_of_cons in Hh as [->|Hh]); try (by apply not_elem_of_nil in Hh);
      vm_compute; by eexists.
  - intros e xs n Hx Hn. sample_cases Hx; apply list_elem_of_singleton in Hn as ->.
    exists 60, 1, (SubEventFields false 50 40 0 7). split_and!; [done..| |by eexists].
    unfold block_rank; simpl. lia.
Qed.

Definition block_thread : thread := ThreadFields false (Some 30) ERR false 0x10000 16 0x20000 1 sample_registers 0.

Lemma block_kernel_runnable : runnable block_kernel 10 1 block_thread.
Proof. by split_and!; [|done|eexists]. Qed.

(** Thread 10 waits for event 50: sub event 60 goes to the queue of semaphore 40. *)
Lemma threadWait_correct_witness :
  wp (@threadWait _ (methods 16 2) 10 50 0) block_kernel (λ status k',
    sys block_rank 16 k' ∧ ∃ k1 res, outcome (with_result block_kernel 10 1 block_thread 0) 50 0 res k1 ∧
    match res with
    | Queue l => status = INTERRUPT_YIELD ∧ wait_queue l = Some 50 ∧ blocks k1 k' 10 1 (set_result 0 block_thread) l
    | Done v => status = INTERRUPT_CONTINUE_EXECUTION ∧ k' = with_result k1 10 1 block_thread (default 0 v)
    end).
Proof.
  exact (threadWait_correct block_rank 16 2 block_rank_lt 2 block_kernel 10 50 0 1 block_thread
    (Nat.le_refl 2) block_kernel_sys block_kernel_runnable (ex_intro _ _ eq_refl)).
Defined.

(** Semaphore 40 wakes up thread 12 and, by sub event 61, thread 11, which waits for
    event 50. *)
Definition rouse_kernel : kernel heap := sample_kernel
  [(11, sample_thread true (Some 30)); (12, sample_thread true (Some 30)); (40, Object 1 (Semaphore (SemaphoreFields 0)));
   (50, Object 1 (Event (EventFields 0 true))); (61, Object 1 (SubEvent (SubEventFields true 50 40 0 7)))]
  [(ThreadList, []); (TimerList, []); (Waiters 11, []); (Waiters 12, []);
   (Waiters 40, [Entry 12; Entry 61]); (Waiters 50, [Entry 11]); (SubEvents 50, [EntryEvent 61])].

Lemma queueWakeup_correct_witness :
  wp (@queueWakeup _ (methods 16 2) (Waiters 40) true 5) rouse_kernel (λ _ k',
    wf block_rank k' ∧ qs k' !! Waiters 40 = Some [] ∧ thread_woken 5 rouse_kernel k' 12 ∧
    sub_woken rouse_kernel k' 61 50 7 ∧ qs k' !! Waiters 50 = Some []).
Proof.
  eapply wp_mono; [eapply (queueWakeup_correct block_rank 16 2 block_rank_lt rouse_kernel (Waiters 40) 40 true 5 [Entry 12; Entry 61] 2)|].
  - done.
  - apply wf_check_sound. vm_compute. reflexivity.
  - vm_compute. lia.
  - done.
  - done.
  - intros [] k' (Hwf & _ & _ & Hq & Hr & _). split; [done|]. split; [done|]. split; [apply (ro_thread _ _ _ _ Hr); set_solver|].
    assert (Hsub : sub_woken rouse_kernel k' 61 50 7) by (by apply (ro_sub _ _ _ _ Hr 61 1 (SubEventFields true 50 40 0 7)); [set_solver|]).
    split; [done|]. by destruct (ro_event _ _ _ _ Hr 61 50 7 1 (EventFields 0 true) [Entry 11] Hsub eq_refl eq_refl) as (ws & Hws & ->).
Defined.

Lemma semaphoreSignal_correct_witness :
  wp (@__objectSignal _ (methods 16 3) 40 0) block_kernel (λ _ k',
    wf block_rank k' ∧ sem_ok k' 40 ∧ qs k' !! Waiters 40 = Some [] ∧
    objs k' !! 40 = Some (Object 1 (Semaphore (SemaphoreFields 0))) ∧
    ∀ t, head [Entry 11] = Some (Entry t) → thread_woken 0 block_kernel k' t).
Proof.
  refine (semaphoreSignal_correct block_rank 16 2 block_rank_lt 2 block_kernel 40 1 (SemaphoreFields 0) [Entry 11] 0
    (Nat.le_refl 2) block_kernel_wf (sys_size _ _ _ block_kernel_sys) _ eq_refl eq_refl).
  intros r s xs [= <- <-] _. by right.
Defined.

Lemma semaphoreWait_correct_witness :
  wp (@__objectWait _ (methods 16 1) 41 0) block_kernel (λ res k',
    sem_ok k' 41 ∧ res = Done (Some 2) ∧ qs k' = qs block_kernel ∧
    objs k' = <[41 := Object 1 (Semaphore (SemaphoreFields 2))]> (objs block_kernel)).
Proof.
  refine (semaphoreWait_correct 16 0 block_kernel 41 1 (SemaphoreFields 3) 0 eq_refl _ _).
  - intros r s xs [= <- <-] [= <-]. by left.
  - done.
Defined.

Lemma semaphoreRelease_correct_witness :
  wp (@__objectRelease _ (methods 16 3) 40) block_kernel (λ _ k',
    wf block_rank k' ∧ objs k' !! 40 = None ∧ qs k' !! Waiters 40 = None ∧
    live (memory k') = live (memory block_kernel) ∖ {[40]} ∧
    ∀ t, Entry t ∈ [Entry 11] → thread_woken ERR block_kernel k' t).
Proof.
  refine (semaphoreRelease_correct block_rank 16 2 block_rank_lt 2 block_kernel 40 (SemaphoreFields 0) [Entry 11]
    (Nat.le_refl 2) block_kernel_wf (sys_size _ _ _ block_kernel_sys) eq_refl eq_refl _).
  by apply elem_of_dom.
Defined.

(** ** Events attached to themselves

    Nothing in [__eventAttachObj] prevents an event from being attached to
    itself, which no rank allows. *)

Definition self_kernel : kernel heap := sample_kernel
  [(50, Object 1 (Event (EventFields 0 true)))]
  [(ThreadList, []); (TimerList, []); (Waiters 50, []); (SubEvents 50, [])].

Lemma bind_Ok {S A B} (m : Prelude.M S A) (f : A → Prelude.M S B) s a s' :
  m s = Ok (a, s') → (m ≫= f) s = f a s'.
Proof. unfold mbind, M_bind. by intros ->. Qed.

Lemma bind_NoFuel {S A B} (m : Prelude.M S A) (f : A → Prelude.M S B) s :
  m s = NoFuel → (m ≫= f) s = NoFuel.
Proof. unfold mbind, M_bind. by intros ->. Qed.

(** C30: An event can be attached to itself, and waiting for it then recurses
    without end: no bound on the nesting of the calls is enough. *)
Theorem eventWait_cycle_endless :
  ∃ k, __objectAttachObj 50 50 0 7 self_kernel = Ok (true, k) ∧
    ∀ depth, @__objectWait _ (methods 16 depth) 50 0 k = NoFuel.
Proof.
  eexists. split; [vm_compute; reflexivity|].
  match goal with |- ∀ depth, _ ?x = _ => set (k := x) end.
  induction depth as [|d IH]; [done|].
  assert (∀ (m : Methods heap) n, loop_fuel = S n → __objectWait 50 0 k = NoFuel → call_wait 50 0 k = NoFuel) as Hstep.
  { intros m n Hf Hw. assert (call_wait 50 0 k = __eventWait 50 0 k) as -> by reflexivity.
    unfold __eventWait. erewrite bind_Ok by (vm_compute; reflexivity). apply bind_NoFuel.
    unfold for_each. rewrite Hf. erewrite bind_Ok by (vm_compute; reflexivity). cbn [for_each_loop].
    rewrite decide_False by done.
    erewrite bind_Ok by reflexivity. apply bind_NoFuel.
    unfold eventWait_step. erewrite bind_Ok by (vm_compute; reflexivity). cbn [s_blocked].
    erewrite bind_Ok by (vm_compute; reflexivity). erewrite bind_Ok by (vm_compute; reflexivity).
    by apply bind_NoFuel. }
  simpl. apply (Hstep _ 15%nat); [by destruct d|done].
Qed.
