(* ===== verification/HandleProofs.v ===== *)
(** * Handle tables as maps

    A handle table represents a partial map from numbers to objects. This file
    states the invariant of the tables of handle.c and shows what each
    operation does to the map. *)

From S2P Require Import Prelude LinkedList Kernel Thread Handle Dispatch Sample.
Open Scope Z_scope.

(** The object a slot holds. *)
Definition entry (l : slots) (h : Z) : option oid := mjoin (nthZ l h).

(** The invariant: the array has [h_count] slots, nothing is stored from
    [h_free_end] on, and no handle from 3 to below [h_free_begin] is free. *)
Record table_ok (t : handleTable) (l : slots) : Prop := {
  tb_slots : table_slots t = Some l;
  tb_count : h_count t = lenZ l;
  tb_range : MIN_HANDLES ≤ lenZ l ≤ MAX_HANDLES;
  tb_end : 0 ≤ h_free_end t ≤ lenZ l;
  tb_begin : 0 ≤ h_free_begin t ≤ Z.max 3 (h_free_end t);
  tb_unused h : h_free_end t ≤ h → entry l h = None;
  tb_used h : 3 ≤ h < h_free_begin t → is_Some (entry l h);
}.

(** ** Slots *)

Lemma entry_setZ_eq l h o : 0 ≤ h < lenZ l → entry (setZ l h o) h = o.
Proof. intros Hh. unfold entry. by rewrite nthZ_setZ_eq. Qed.

Lemma entry_setZ_ne l h h' o : h ≠ h' → entry (setZ l h o) h' = entry l h'.
Proof. intros Hh. unfold entry. by rewrite nthZ_setZ_ne. Qed.

Lemma entry_None_free l h : 0 ≤ h < lenZ l → entry l h = None → nthZ l h = Some None.
Proof. intros Hh He. destruct (nthZ_is_Some l h Hh) as [[o|] Hx]; [|done]. unfold entry in He. by rewrite Hx in He. Qed.

Lemma entry_range l h o : entry l h = Some o → 0 ≤ h < lenZ l.
Proof. unfold entry. destruct (nthZ l h) eqn:E; [|done]. intros _. by eapply nthZ_Some_lt. Qed.

Lemma entry_resize n l h : lenZ l ≤ n → entry (resize_slots n l) h = entry l h.
Proof.
  intros Hn. unfold entry, resize_slots, nthZ. destruct (h <? 0) eqn:E; [done|].
  destruct (decide (Z.to_nat h < length l)%nat) as [Hlt|Hge].
  - by rewrite lookup_resize by lia.
  - rewrite (lookup_ge_None_2 l) by lia. simpl. destruct (decide (Z.to_nat h < Z.to_nat n)%nat).
    + by rewrite lookup_resize_new by lia.
    + rewrite lookup_ge_None_2; [done|]. rewrite length_resize. lia.
Qed.

Lemma entry_cut n l h : 0 ≤ h < n → entry (resize_slots n l) h = entry l h.
Proof.
  intros Hn. destruct (decide (lenZ l ≤ n)) as [Hl|Hl]; [by apply entry_resize|].
  unfold entry, resize_slots, nthZ. destruct (h <? 0) eqn:E; [done|].
  by rewrite resize_le, lookup_take_lt by lia.
Qed.

Lemma length_resize_slots n l : 0 ≤ n → lenZ (resize_slots n l) = n.
Proof. intros. unfold resize_slots. rewrite length_resize. lia. Qed.

(** ** The searches and the growth of the array *)

Lemma first_free_Some l i n r :
  first_free l i n = Some r →
  i ≤ r < i + Z.of_nat n ∧ nthZ l r = Some None ∧ ∀ j, i ≤ j < r → nthZ l j ≠ Some None.
Proof.
  revert i. induction n as [|n IH]; intros i; [done|]. cbn [first_free].
  assert (nthZ l i = Some None ∨ nthZ l i ≠ Some None) as [E|E].
  { destruct (nthZ l i) as [[?|]|]; auto. }
  - rewrite E. intros [= <-]. split_and!; [lia..|done|]. intros. lia.
  - intros Hr. assert (first_free l (i + 1) n = Some r) as Hr' by (by destruct (nthZ l i) as [[?|]|]).
    destruct (IH _ Hr') as (H1 & H2 & H3). split_and!; [lia..|done|].
    intros j Hj. destruct (decide (j = i)) as [->|]; [done|]. apply H3. lia.
Qed.

Lemma first_free_None l i n j :
  first_free l i n = None → i ≤ j < i + Z.of_nat n → nthZ l j ≠ Some None.
Proof.
  revert i. induction n as [|n IH]; intros i; [lia|]. cbn [first_free]. intros Hn Hj.
  destruct (decide (j = i)) as [->|].
  - intros E. by rewrite E in Hn.
  - apply (IH (i + 1)); [|lia]. by destruct (nthZ l i) as [[?|]|].
Qed.

Lemma double_count_spec fuel count n :
  0 < count → n ≤ count * 2 ^ Z.of_nat fuel → n ≤ 2147483648 →
  ∃ k, 0 ≤ k ∧ double_count (S fuel) count n = Some (count * 2 ^ k) ∧ n ≤ count * 2 ^ k ∧
    (k = 0 ∨ count * 2 ^ (k - 1) < n).
Proof.
  revert count. induction fuel as [|fuel IH]; intros count Hc Hn Hmax.
  - exists 0. simpl in Hn. cbn [double_count]. destruct (Z.ltb_spec count n); [lia|].
    split_and!; [lia|f_equal; lia|lia|by left].
  - cbn [double_count]. destruct (Z.ltb_spec count n) as [Hlt|Hge].
    + rewrite u32_small by (unfold is_u32; lia).
      destruct (IH (count * 2)) as (k & Hk & Hd & Hle & Hor); [lia| |done|].
      { rewrite Nat2Z.inj_succ, Z.pow_succ_r in Hn by lia. lia. }
      change (if count * 2 <? n then double_count fuel (u32 (count * 2 * 2)) n else Some (count * 2))
        with (double_count (S fuel) (count * 2) n).
      rewrite Hd. exists (k + 1). assert (2 ^ (k + 1) = 2 * 2 ^ k) as E by (rewrite Z.pow_add_r by lia; lia).
      rewrite E. split_and!; [lia|f_equal; lia|lia|]. right. replace (k + 1 - 1) with k by lia.
      destruct Hor as [->|Hor]; [simpl; lia|].
      replace k with (k - 1 + 1) by lia. destruct (decide (k = 0)) as [->|]; [simpl in *; lia|].
      rewrite Z.pow_add_r by lia. lia.
    + exists 0. split_and!; [lia|f_equal; lia|lia|by left].
Qed.

(** The array grows to the first size [count * 2^k], [k >= 1], that is not
    below [i], or to [MAX_HANDLES]. *)
Lemma grown_count_spec count i :
  MIN_HANDLES ≤ count ≤ MAX_HANDLES → i ≤ MAX_HANDLES →
  ∃ k, 1 ≤ k ∧ i ≤ count * 2 ^ k ∧ grown_count count i = Some (Z.min (count * 2 ^ k) MAX_HANDLES).
Proof.
  intros Hc Hi. unfold MIN_HANDLES, MAX_HANDLES in *. unfold grown_count.
  rewrite u32_small by (unfold is_u32; lia).
  destruct (double_count_spec 32 (2 * count) i) as (k & Hk & Hd & Hle & _); [lia| |lia|].
  { change (2 ^ Z.of_nat 32) with 4294967296. lia. }
  rewrite Hd. simpl. exists (k + 1). rewrite Z.pow_add_r by lia. change (2 ^ 1) with 2.
  split_and!; [lia..|]. unfold MAX_HANDLES. f_equal.
  replace (count * (2 ^ k * 2)) with (2 * count * 2 ^ k) by ring.
  destruct (Z.ltb_spec 65536 (2 * count * 2 ^ k)); lia.
Qed.

(** ** Updates of the table

    Storing an object in a free slot [h], where the table now starts being
    free at [b] and ends at [e]. *)
Lemma table_ok_store t l addr h o b e :
  table_ok t l → 0 ≤ h < lenZ l → 0 ≤ b ≤ Z.max 3 e → 0 ≤ e ≤ lenZ l → h < e → h_free_end t ≤ e →
  (∀ j, 3 ≤ j < b → j ≠ h → is_Some (entry l j)) →
  table_ok (set_slots t (lenZ l) b e addr (setZ l h (Some o))) (setZ l h (Some o)).
Proof.
  intros Hok Hh Hb He Hhe Hend Hused. constructor; simpl; rewrite ?length_setZ; try done.
  - apply Hok.
  - intros j Hj. destruct (decide (j = h)) as [->|]; [lia|]. rewrite entry_setZ_ne by done.
    apply (tb_unused _ _ Hok). lia.
  - intros j Hj. destruct (decide (j = h)) as [->|]; [rewrite entry_setZ_eq by done; eauto|].
    rewrite entry_setZ_ne by done. by apply Hused.
Qed.

(** Growing the array. *)
Lemma table_ok_grow t l addr count :
  table_ok t l → lenZ l ≤ count ≤ MAX_HANDLES →
  table_ok (set_slots t count (h_free_begin t) (h_free_end t) addr (resize_slots count l)) (resize_slots count l).
Proof.
  intros Hok Hc. destruct Hok as [? ? Hr He Hb Hu Hs].
  assert (lenZ (resize_slots count l) = count) as Hl by (apply length_resize_slots; unfold MIN_HANDLES in *; lia).
  constructor; simpl; rewrite ?Hl; try done; try lia.
  - intros h Hh. rewrite entry_resize by lia. by apply Hu.
  - intros h Hh. rewrite entry_resize by lia. by apply Hs.
Qed.

(** ** handleAllocate *)

(** The first slot the search looks at. *)
Definition search_start (t : handleTable) (minHandle : Z) : Z :=
  if minHandle <? h_free_begin t then h_free_begin t else minHandle.

Lemma used_below_start t l minHandle j :
  table_ok t l → minHandle = 0 ∨ minHandle = 3 → 3 ≤ j < search_start t minHandle → is_Some (entry l j).
Proof.
  unfold search_start. intros Hok Hmin Hj. apply (tb_used _ _ Hok).
  destruct (Z.ltb_spec minHandle (h_free_begin t)); lia.
Qed.

(** Slots that are not empty. *)
Lemma not_free_used l j : 0 ≤ j < lenZ l → nthZ l j ≠ Some None → is_Some (entry l j).
Proof. intros Hj Hn. destruct (entry l j) eqn:E; [eauto|]. by apply entry_None_free in E. Qed.

Definition place_post (t : handleTable) (l : slots) (minHandle : Z) (p : placement) : Prop :=
  let used_to i := ∀ j, 3 ≤ j < i → is_Some (entry l j) in
  match p with
  | InTable i => minHandle ≤ i < h_free_end t ∧ entry l i = None ∧ used_to i
  | AtEnd i => minHandle ≤ i < lenZ l ∧ h_free_end t ≤ i ∧ used_to i
  | Grow i count => i = lenZ l ∧ h_free_end t = i ∧ count = Z.min (2 * lenZ l) MAX_HANDLES ∧ i < count ∧ used_to i
  | Full => lenZ l = MAX_HANDLES ∧ used_to MAX_HANDLES
  end.

Lemma grown_count_self n :
  MIN_HANDLES ≤ n ≤ MAX_HANDLES → grown_count n n = Some (Z.min (2 * n) MAX_HANDLES).
Proof.
  unfold MIN_HANDLES, MAX_HANDLES. intros Hn. unfold grown_count. rewrite u32_small by (unfold is_u32; lia).
  cbn [double_count]. destruct (Z.ltb_spec (2 * n) n); [lia|]. simpl. unfold MAX_HANDLES. f_equal.
  destruct (Z.ltb_spec 65536 (2 * n)); lia.
Qed.

Lemma place_spec t l minHandle :
  table_ok t l → minHandle = 0 ∨ minHandle = 3 → ∃ p, place t l minHandle = Some p ∧ place_post t l minHandle p.
Proof.
  intros Hok Hmin. pose proof Hok as [_ Hcnt Hr He Hb Hun _]. unfold place. fold (search_start t minHandle).
  set (s := search_start t minHandle) in *.
  assert (minHandle ≤ s ∧ s ≤ Z.max 3 (h_free_end t)) as Hs.
  { subst s. unfold search_start. destruct (Z.ltb_spec minHandle (h_free_begin t)); lia. }
  assert (Hbelow : ∀ j, 3 ≤ j < s → is_Some (entry l j)) by (intros j; by apply used_below_start).
  destruct (first_free l s _) as [i|] eqn:Hf.
  - apply first_free_Some in Hf as (Hi & Hfree & Hno). exists (InTable i). split; [done|]. simpl.
    split; [lia|]. split; [unfold entry; by rewrite Hfree|]. intros j Hj.
    destruct (decide (j < s)); [apply Hbelow; lia|]. apply not_free_used; [lia|]. apply Hno. lia.
  - assert (∀ j, 3 ≤ j < h_free_end t → is_Some (entry l j)) as Hall.
    { intros j Hj. destruct (decide (j < s)); [apply Hbelow; lia|]. apply not_free_used; [lia|].
      eapply first_free_None; [done|]. lia. }
    set (i := if s <? h_free_end t then h_free_end t else s).
    assert (minHandle ≤ i ∧ h_free_end t ≤ i ∧ i ≤ lenZ l ∧ (i = lenZ l → h_free_end t = i) ∧
      ∀ j, 3 ≤ j < i → is_Some (entry l j)) as (Hi & Hie & Hil & Hieq & Hused).
    { unfold MIN_HANDLES in Hr. subst i. destruct (Z.ltb_spec s (h_free_end t)); split_and!; try lia; [done|].
      intros j Hj. apply Hbelow. lia. }
    rewrite Hcnt. destruct (Z.leb_spec (lenZ l) i).
    + assert (i = lenZ l) as E by lia. rewrite E, grown_count_self by done. simpl.
      destruct (Z.leb_spec (Z.min (2 * lenZ l) MAX_HANDLES) (lenZ l)); eexists; (split; [done|]); simpl.
      * assert (lenZ l = MAX_HANDLES) as El by (unfold MIN_HANDLES in Hr; lia). split; [done|].
        rewrite <-El, <-E. done.
      * split_and!; [done|lia|done|lia|]. by rewrite <-E.
    + exists (AtEnd i). split; [done|]. simpl. split_and!; (done || lia).
Qed.

(** The table after a placement that is not [Full]. *)
Lemma placed_spec t l minHandle addr o p :
  table_ok t l → minHandle = 0 ∨ minHandle = 3 → place_post t l minHandle p → p ≠ Full →
  ∃ h t' l', placed t l addr o p = Some t' ∧ table_ok t' l' ∧
    (match p with InTable i | AtEnd i | Grow i _ => h = i | Full => False end) ∧
    minHandle ≤ h ∧ entry l h = None ∧ (∀ j, 3 ≤ j < h → is_Some (entry l j)) ∧
    entry l' h = Some o ∧ (∀ j, j ≠ h → entry l' j = entry l j).
Proof.
  intros Hok Hmin Hp Hne. pose proof Hok as [_ Hcnt Hr He Hb Hun _]. destruct p as [i|i|i c|]; [..|done]; simpl in *.
  - destruct Hp as (Hi & Hfree & Hused). rewrite Hcnt. do 3 eexists. split; [done|]. split.
    { apply table_ok_store; (done || lia || eauto). intros j Hj Hne'. apply Hused. lia. }
    split_and!; [done|lia|done|done|apply entry_setZ_eq; lia|]. intros. by apply entry_setZ_ne.
  - destruct Hp as (Hi & Hend & Hused). rewrite Hcnt, (proj2 (Z.ltb_lt _ _)) by lia. do 3 eexists. split; [done|]. split.
    { apply table_ok_store; (done || lia || eauto). intros j Hj Hne'. apply Hused. lia. }
    split_and!; [done|lia|by apply Hun|done|apply entry_setZ_eq; lia|]. intros. by apply entry_setZ_ne.
  - destruct Hp as (-> & Hend & -> & Hlt & Hused). set (c := Z.min _ _) in *.
    rewrite (proj2 (Z.ltb_lt _ _)) by done. do 3 eexists. split; [done|].
    assert (lenZ (resize_slots c l) = c) as Hl by (apply length_resize_slots; lia).
    pose proof (table_ok_grow t l addr c Hok ltac:(lia)) as Hg.
    assert (∀ j, entry (resize_slots c l) j = entry l j) as Hen by (intros; apply entry_resize; lia).
    split.
    { rewrite <-Hl at 1. eapply (table_ok_store _ _ addr _ o _ _ Hg); rewrite ?Hl; simpl; try lia.
      intros j Hj Hne'. rewrite Hen. apply Hused. lia. }
    split_and!; [reflexivity|unfold MIN_HANDLES in Hr; lia|apply Hun; lia|assumption|apply entry_setZ_eq; lia|].
    intros j Hj. by rewrite entry_setZ_ne, Hen.
Qed.

(** ** The operations on the kernel state *)

(** Process [p] has handle table [t]. *)
Definition has_table {mem} (k : kernel mem) (p : oid) (t : handleTable) : Prop :=
  ∃ r q, objs k !! p = Some (Object r (Process q)) ∧ pr_handles q = t.

Definition process_with_handles (t : handleTable) (q : process) : process :=
  ProcessFields (pr_exitcode q) (pr_pageDirectory q) (pr_entryPoint q)
    (pr_programArgumentsBase q) (pr_programArgumentsLength q)
    (pr_environmentVariablesBase q) (pr_environmentVariablesLength q) t.

Definition refs {mem} (k : kernel mem) (o : oid) : option Z := refcount <$> objs k !! o.

(** Two states that differ in the table of [p], the number of references to
    [object] and the memory only. *)
Record only_table {mem} (p object : oid) (k k' : kernel mem) : Prop := {
  ot_objs o : o ≠ p → o ≠ object → objs k' !! o = objs k !! o;
  ot_process r q : objs k !! p = Some (Object r (Process q)) →
    ∃ r' t', objs k' !! p = Some (Object r' (Process (process_with_handles t' q)));
  ot_body x : objs k !! object = Some x → object ≠ p →
    ∃ r', objs k' !! object = Some (Object r' (obj_body x));
  ot_queues : qs k' = qs k;
}.

Section HandleOps.
Context {mem : Type} `{Memory mem} `{Methods mem}.
Implicit Types k : kernel mem.

Lemma wp_get_table k p t (Q : handleTable → kernel mem → Prop) :
  has_table k p t → Q t k → wp (get_table p) k Q.
Proof. intros (r & q & Ho & <-) HQ. unfold get_table. wp_step. eapply wp_pointee; [done..|]. by wp_step. Qed.

Lemma set_memory_same k : set_memory (memory k) k = k.
Proof. by destruct k. Qed.

(** Storing a table and adding a reference, in either order. *)
Lemma set_table_only k p object t t' :
  has_table k p t → is_Some (objs k !! object) →
  ∃ k1, wp (set_table p t') k (λ _ k', k' = k1) ∧
    ∀ k2, objs k2 = alter (λ x, Object (u32 (refcount x + 1)) (obj_body x)) object (objs k1) → qs k2 = qs k1 →
      has_table k2 p t' ∧ refs k2 object = (λ n, u32 (n + 1)) <$> refs k object ∧ only_table p object k k2.
Proof.
  intros (r & q & Ho & Ht) [x Hx].
  exists (set_objs (<[p := Object r (Process (process_with_handles t' q))]> (objs k)) k). split.
  { unfold set_table. wp_step. eapply wp_pointee; [done..|]. by eapply wp_putBody. }
  intros k2 Hk2 Hq. simpl in Hk2. destruct (decide (object = p)) as [->|Hne].
  - assert (objs k2 !! p = Some (Object (u32 (r + 1)) (Process (process_with_handles t' q)))) as Hp.
    { by rewrite Hk2, lookup_alter_eq, lookup_insert_eq. }
    split; [by do 2 eexists|]. split; [unfold refs; by rewrite Hp, Ho|]. constructor.
    + intros o Hop _. by rewrite Hk2, lookup_alter_ne, lookup_insert_ne.
    + intros r' q' Ho'. rewrite Ho in Ho'. simplify_eq. eauto.
    + done.
    + done.
  - assert (objs k2 !! p = Some (Object r (Process (process_with_handles t' q)))) as Hp.
    { by rewrite Hk2, lookup_alter_ne, lookup_insert_eq. }
    assert (objs k2 !! object = Some (Object (u32 (refcount x + 1)) (obj_body x))) as Ho2.
    { by rewrite Hk2, lookup_alter_eq, lookup_insert_ne, Hx. }
    split; [by do 2 eexists|]. split; [unfold refs; by rewrite Ho2, Hx|]. constructor.
    + intros o Hop Hoo. by rewrite Hk2, lookup_alter_ne, lookup_insert_ne.
    + intros r' q' Ho'. rewrite Ho in Ho'. simplify_eq. eauto.
    + intros x' Hx' _. rewrite Hx in Hx'. simplify_eq. eauto.
    + done.
Qed.

Lemma wp_addref k o x (Q : oid → kernel mem → Prop) :
  objs k !! o = Some x →
  Q o (set_objs (alter (λ x, Object (u32 (refcount x + 1)) (obj_body x)) o (objs k)) k) → wp (__objectAddRef o) k Q.
Proof.
  intros Ho HQ. unfold __objectAddRef. wp_step. eapply wp_getObject; [done|]. unfold putObject. wp_steps.
  replace (<[o := _]> (objs k)) with (alter (λ x, Object (u32 (refcount x + 1)) (obj_body x)) o (objs k)); [done|].
  apply map_eq. intros o'. destruct (decide (o' = o)) as [->|].
  - by rewrite lookup_alter_eq, lookup_insert_eq, Ho.
  - by rewrite lookup_alter_ne, lookup_insert_ne.
Qed.

Lemma wp_store_handle {A} (a : A) k p object t t' (Q : A → kernel mem → Prop) :
  has_table k p t → is_Some (objs k !! object) →
  (∀ k', has_table k' p t' → refs k' object = (λ n, u32 (n + 1)) <$> refs k object → only_table p object k k' → Q a k') →
  wp (set_table p t' ;; __objectAddRef object ;; mret a) k Q.
Proof.
  intros Ht Ho HQ. destruct (set_table_only k p object t t' Ht Ho) as (k1 & Hk1 & Hk2).
  assert (is_Some (objs k1 !! object)) as [x1 Hx1].
  { destruct Ht as (r & q & Hp & _). unfold set_table in Hk1. apply wp_bind_inv in Hk1.
    unfold pointee, wp, getBody, putBody, getObject, putObject, modify, mbind, M_bind, get, mret, M_ret, deref in Hk1.
    rewrite Hp in Hk1. simpl in Hk1. rewrite Hp in Hk1. simpl in Hk1. subst k1. simpl.
    destruct (decide (object = p)) as [->|]; [rewrite lookup_insert_eq; eauto|by rewrite lookup_insert_ne]. }
  wp_step. eapply wp_mono; [done|]. intros [] k' ->. wp_step. eapply wp_addref; [done|]. wp_step.
  destruct (Hk2 (set_objs (alter (λ x, Object (u32 (refcount x + 1)) (obj_body x)) object (objs k1)) k1)) as (? & ? & ?); [done..|].
  by apply HQ.
Qed.

(** Reallocation has no failure in this state. *)
Definition can_realloc k : Prop := ∀ a n, wp (heapReAlloc a n) (memory k) (λ r _, is_Some r).

Lemma wp_realloc_array k a n (Q : oid → kernel mem → Prop) :
  can_realloc k → (∀ a' m, Q a' (set_memory m k)) → wp (realloc_array a n) k Q.
Proof.
  intros Hr HQ. unfold realloc_array, with_memory. wp_step. apply wp_zoom.
  eapply wp_mono; [apply Hr|]. intros r m [a' ->]. eapply wp_deref; [done|]. apply HQ.
Qed.

Definition min_handle (b : body) : Z := match b with Pipe _ | Stdout => 0 | _ => 3 end.

(** C32: Allocating a handle, as long as memory lasts. The table stays well
    formed. Either all handles up to 0xFFFF from 3 on are taken, and the
    result is the error value with nothing changed, or the result is a handle
    that was free, holds the object afterwards and is the only one that
    changes; no handle from 3 to below it is free, so it is the lowest
    possible one unless the object may take handles below 3; the object has
    one reference more. The array is grown when it is full, and never
    accessed outside. *)
Theorem handleAllocate_correct k p object t l x :
  has_table k p t → table_ok t l → objs k !! object = Some x → can_realloc k →
  wp (handleAllocate p object) k (λ h k',
    (h = ERR ∧ k' = k ∧ ∀ j, 3 ≤ j < MAX_HANDLES → is_Some (entry l j)) ∨
    ∃ t' l', has_table k' p t' ∧ table_ok t' l' ∧
      min_handle (obj_body x) ≤ h < MAX_HANDLES ∧ entry l h = None ∧ (∀ j, 3 ≤ j < h → is_Some (entry l j)) ∧
      entry l' h = Some object ∧ (∀ j, j ≠ h → entry l' j = entry l j) ∧
      refs k' object = Some (u32 (refcount x + 1)) ∧ only_table p object k k').
Proof.
  intros Ht Hok Ho Hmem. unfold handleAllocate. wp_step. unfold __objectGetMinHandle. wp_step.
  eapply wp_getBody; [done|]. wp_step. fold (min_handle (obj_body x)).
  assert (Hmin : min_handle (obj_body x) = 0 ∨ min_handle (obj_body x) = 3) by (destruct (obj_body x); simpl; auto).
  destruct (place_spec t l _ Hok Hmin) as (pl & Hpl & Hpost).
  wp_step. eapply wp_get_table; [done|]. wp_step.
  assert (∃ b, h_handles t = Some b ∧ b_data b = l) as (b & Hb & Hl).
  { pose proof (tb_slots _ _ Hok) as Hs. unfold table_slots in Hs. destruct (h_handles t); [|done].
    exists b. by injection Hs. }
  unfold get_array. eapply wp_deref; [done|]. rewrite Hl, Hpl. wp_step.
  change (wp (lift (Ok pl)) k ?Q) with (Q pl k). cbv beta. wp_step.
  assert (Hstore : ∀ addr m, pl ≠ Full → ∀ h, (match pl with InTable i | AtEnd i | Grow i _ => h = i | Full => False end) →
    wp (let* t' := deref (placed t l addr object pl) "handleAllocate: out of the array" in
        set_table p t' ;; __objectAddRef object ;; mret h) (set_memory m k) (λ h k',
    (h = ERR ∧ k' = k ∧ ∀ j, 3 ≤ j < MAX_HANDLES → is_Some (entry l j)) ∨
    ∃ t' l', has_table k' p t' ∧ table_ok t' l' ∧
      min_handle (obj_body x) ≤ h < MAX_HANDLES ∧ entry l h = None ∧ (∀ j, 3 ≤ j < h → is_Some (entry l j)) ∧
      entry l' h = Some object ∧ (∀ j, j ≠ h → entry l' j = entry l j) ∧
      refs k' object = Some (u32 (refcount x + 1)) ∧ only_table p object k k')).
  { intros addr m Hne h Hh.
    destruct (placed_spec t l _ addr object pl Hok Hmin Hpost Hne) as (h' & t' & l' & Hpd & Hok' & Hh' & Hmin' & Hfree & Hused & He & Hoth).
    assert (h' = h) as -> by (destruct pl; by subst). wp_step. eapply wp_deref; [done|].
    eapply wp_store_handle; [exact Ht|by eexists|]. intros k' Hk' Hr Hot. right. exists t', l'.
    pose proof (entry_range _ _ _ He). pose proof (tb_range _ _ Hok').
    split_and!; try done; [lia|unfold refs in *; simpl in Hr; by rewrite Hr, Ho|].
    by destruct Hot. }
  destruct pl as [i|i|i c|].
  - wp_step. rewrite <-(set_memory_same k) at 1. by apply (Hstore (b_addr b) (memory k)).
  - wp_step. rewrite <-(set_memory_same k) at 1. by apply (Hstore (b_addr b) (memory k)).
  - apply wp_realloc_array; [done|]. intros a' m. by apply Hstore.
  - wp_step. wp_step. left. split_and!; [done..|]. by destruct Hpost.
Qed.

(** *** handleSet *)

Lemma set_handle_spec t l addr h o :
  table_ok t l → 0 ≤ h < lenZ l →
  ∃ t', set_handle t l addr h o = Some t' ∧ table_ok t' (setZ l h (Some o)).
Proof.
  intros Hok Hh. unfold set_handle. rewrite (proj2 (Z.ltb_lt _ _)) by lia. eexists. split; [done|].
  pose proof (tb_end _ _ Hok). pose proof (tb_begin _ _ Hok).
  apply table_ok_store; try done.
  - destruct (Z.eqb_spec h (h_free_begin t)), (Z.leb_spec (h_free_end t) h); lia.
  - destruct (Z.leb_spec (h_free_end t) h); lia.
  - destruct (Z.leb_spec (h_free_end t) h); lia.
  - destruct (Z.leb_spec (h_free_end t) h); lia.
  - intros j Hj Hne. apply (tb_used _ _ Hok). destruct (Z.eqb_spec h (h_free_begin t)); lia.
Qed.

Lemma h_handles_slots t l : table_ok t l → ∃ b, h_handles t = Some b ∧ b_data b = l.
Proof.
  intros Hok. pose proof (tb_slots _ _ Hok) as Hs. unfold table_slots in Hs. destruct (h_handles t) as [b|]; [|done].
  exists b. by injection Hs.
Qed.

(** What the old object of a slot is still owed. *)
Definition release_old (s : option oid) : KM mem bool :=
  match s with Some old => __objectRelease old | None => mret tt end ;; mret true.

Definition handle_post k p object l h o (k1 : kernel mem) : Prop :=
  ∃ t' l', has_table k1 p t' ∧ table_ok t' l' ∧ entry l' h = o ∧
    (∀ j, j ≠ h → entry l' j = entry l j) ∧ only_table p object k k1.

Lemma handleSet_store k p object t t' l l0 addr h x m :
  has_table k p t → set_handle t l addr h object = Some t' → table_ok t' (setZ l h (Some object)) →
  objs k !! object = Some x → 0 ≤ h < lenZ l → (∀ j, entry l j = entry l0 j) →
  leads (let* t' := deref (set_handle t l addr h object) "handleSet: out of the array" in
      __objectAddRef object ;; set_table p t' ;; 
      match nthZ l h with Some (Some old) => __objectRelease old | _ => mret tt end ;; mret true)
    (set_memory m k) (release_old (entry l0 h)) (λ k1,
      handle_post k p object l0 h (Some object) k1 ∧ refs k1 object = Some (u32 (refcount x + 1))).
Proof.
  intros Ht Hs Hok' Ho Hh Hl0. apply leads_bind. eapply wp_deref; [done|]. apply leads_bind. eapply wp_addref; [done|].
  set (add := λ x, Object (u32 (refcount x + 1)) (obj_body x)).
  match goal with |- leads _ ?s _ _ => set (k0 := s) end.
  assert (Hk0 : has_table k0 p t).
  { destruct Ht as (r & q & Hp & <-). destruct (decide (object = p)) as [->|Hne].
    - exists (u32 (r + 1)), q. simpl. by rewrite lookup_alter_eq, Hp.
    - exists r, q. simpl. by rewrite lookup_alter_ne. }
  destruct Hk0 as (r & q & Hp & Hq). apply leads_bind. unfold set_table. wp_step.
  eapply wp_pointee; [done..|]. eapply wp_putBody; [done|].
  match goal with |- leads (match ?s with _ => _ end ;; _) ?k1 _ _ =>
    assert (∀ P : kernel mem → Prop, P k1 → leads (match s with Some (Some old) => __objectRelease old | _ => mret tt end ;; mret true)
      k1 (release_old (entry l0 h)) P) as Hlast; [|apply Hlast; clear Hlast; set (k2 := k1)] end.
  { intros P HP. rewrite <-Hl0. unfold entry, release_old. destruct (nthZ l h) as [[old|]|]; by apply leads_here. }
  change (ProcessFields _ _ _ _ _ _ _ _) with (process_with_handles t' q) in k2.
  destruct (decide (object = p)) as [->|Hne].
  - assert (objs k2 !! p = Some (Object (u32 (refcount x + 1)) (Process (process_with_handles t' q)))) as Hp2.
    { simpl in Hp. rewrite lookup_alter_eq, Ho in Hp. injection Hp as Hr Hbq. subst k2. simpl.
      by rewrite lookup_insert_eq, Hr. }
    split; [|unfold refs; by rewrite Hp2]. exists t', (setZ l h (Some p)). split; [by do 2 eexists|].
    split_and!; [done|by apply entry_setZ_eq|intros; rewrite <-Hl0; by apply entry_setZ_ne|]. constructor.
    + intros o Hop _. subst k2. simpl. by rewrite lookup_insert_ne, lookup_alter_ne.
    + intros r' q' Ho'. simpl in Hp. rewrite lookup_alter_eq, Ho' in Hp. injection Hp as _ ->. eauto.
    + done.
    + done.
  - simpl in Hp. rewrite lookup_alter_ne in Hp by done.
    assert (objs k2 !! p = Some (Object r (Process (process_with_handles t' q)))) as Hp2
      by (simpl; by rewrite lookup_insert_eq).
    assert (objs k2 !! object = Some (Object (u32 (refcount x + 1)) (obj_body x))) as Ho2.
    { simpl. by rewrite lookup_insert_ne, lookup_alter_eq, Ho. }
    split; [|unfold refs; by rewrite Ho2]. exists t', (setZ l h (Some object)). split; [by do 2 eexists|].
    split_and!; [done|by apply entry_setZ_eq|intros; rewrite <-Hl0; by apply entry_setZ_ne|]. constructor.
    + intros o Hop Hoo. simpl. by rewrite lookup_insert_ne, lookup_alter_ne.
    + intros r' q' Ho'. rewrite Hp in Ho'. simplify_eq. eauto.
    + intros x' Hx' _. rewrite Ho in Hx'. simplify_eq. eauto.
    + done.
Qed.

(** Any other handle below 0x10000. *)
Lemma handleSet_in_array k p h object t l x :
  has_table k p t → table_ok t l → objs k !! object = Some x → can_realloc k → 0 ≤ h → h < MAX_HANDLES →
  (∀ n, 1 ≤ n → h ≠ lenZ l * 2 ^ n) →
  leads (handleSet p h object) k (release_old (entry l h)) (λ k1,
    handle_post k p object l h (Some object) k1 ∧ refs k1 object = Some (u32 (refcount x + 1))).
Proof.
  intros Ht Hok Ho Hmem Hh Hlt Hpow. unfold handleSet. rewrite (proj2 (Z.leb_gt _ _)) by lia. apply leads_bind. eapply wp_get_table; [done|].
  destruct (h_handles_slots _ _ Hok) as (b & Hb & Hl). apply leads_bind. unfold get_array.
  eapply wp_deref; [done|]. rewrite Hl. rewrite (tb_count _ _ Hok). pose proof (tb_range _ _ Hok) as Hr.
  apply leads_bind. destruct (Z.leb_spec (lenZ l) h) as [Hge|Hin].
  - destruct (grown_count_spec (lenZ l) h Hr ltac:(lia)) as (n & Hn & Hle & Hg). rewrite Hg.
    set (c := Z.min _ _). assert (h < c ∧ lenZ l < c ∧ c ≤ MAX_HANDLES) as (Hc1 & Hc2 & Hc3).
    { pose proof (Hpow n Hn). subst c. unfold MIN_HANDLES in Hr.
      assert (2 ^ 1 ≤ 2 ^ n) by (apply Z.pow_le_mono_r; lia). change (2 ^ 1) with 2 in *. nia. }
    wp_step. change (wp (lift (Ok c)) k ?Q) with (Q c k). cbv beta.
    wp_steps; [by apply Z.ltb_lt|]. apply wp_realloc_array; [done|]. intros a' m. wp_step.
    assert (lenZ (resize_slots c l) = c) as Hlc by (apply length_resize_slots; unfold MIN_HANDLES in Hr; lia).
    pose proof (table_ok_grow t l a' c Hok ltac:(lia)) as Hokg.
    assert (∀ j, entry (resize_slots c l) j = entry l j) as He by (intros; apply entry_resize; lia).
    assert (table_ok (set_slots t (lenZ (resize_slots c l)) (h_free_begin t) (h_free_end t) a' (resize_slots c l))
      (resize_slots c l)) as Hokg' by by rewrite Hlc.
    destruct (set_handle_spec _ _ a' h object Hokg' ltac:(lia)) as (t' & Hs & Hok').
    eapply handleSet_store; (done || lia).
  - wp_step. rewrite <-(set_memory_same k) at 1. destruct (set_handle_spec t l (b_addr b) h object Hok ltac:(lia)) as (t' & Hs & Hok').
    eapply handleSet_store; (done || lia).
Qed.

(** A handle below 0x10000 that is the size of the array times a power of two. The
    array is grown to exactly that many slots, and the handle's slot lies just
    behind it. *)
Theorem handleSet_out_of_array k p object t l n :
  has_table k p t → table_ok t l → can_realloc k → 1 ≤ n → lenZ l * 2 ^ n < MAX_HANDLES →
  handleSet p (lenZ l * 2 ^ n) object k = Undef "handleSet: out of the array".
Proof.
  intros Ht Hok Hmem Hn Hlt. set (h := lenZ l * 2 ^ n) in *. pose proof (tb_range _ _ Hok) as Hr.
  unfold MIN_HANDLES, MAX_HANDLES in *.
  assert (2 ^ n = 2 * 2 ^ (n - 1)) as Epow by (rewrite <-Z.pow_succ_r by lia; f_equal; lia).
  assert (0 < 2 ^ (n - 1)) by (apply Z.pow_pos_nonneg; lia).
  assert (Hg : grown_count (lenZ l) h = Some h).
  { unfold grown_count. rewrite u32_small by (unfold is_u32; lia).
    destruct (double_count_spec 32 (2 * lenZ l) h) as (m & Hm & Hd & Hle & Hor); [lia| |lia|].
    { change (2 ^ Z.of_nat 32) with 4294967296. lia. }
    rewrite Hd. simpl. assert (m = n - 1) as ->.
    { assert (2 ^ (n - 1) ≤ 2 ^ m) as Hp1 by (subst h; nia). apply Z.pow_le_mono_r_iff in Hp1; [|lia..].
      destruct Hor as [->|Hor]; [lia|].
      assert (2 ^ (m - 1) < 2 ^ (n - 1)) as Hp2 by (subst h; nia).
      destruct (decide (m = 0)) as [->|]; [lia|]. apply Z.pow_lt_mono_r_iff in Hp2; lia. }
    replace (2 * lenZ l * 2 ^ (n - 1)) with h by (subst h; rewrite Epow; ring).
    unfold MAX_HANDLES. destruct (Z.ltb_spec 65536 h); [lia|done]. }
  assert (Hrun : get_table p k = Ok (t, k)).
  { destruct Ht as (r & q & Ho & <-). unfold get_table, pointee, getBody, getObject, mbind, M_bind, get, deref.
    by rewrite Ho. }
  destruct (h_handles_slots _ _ Hok) as (b & Hb & Hl).
  specialize (Hmem (b_addr b) (u32 (h * sizeof_pointer))). apply wp_run in Hmem as (ra & m & Hre & [a ->]).
  assert (lenZ l < h) as Hlh by (subst h; nia).
  unfold handleSet, MAX_HANDLES. rewrite (proj2 (Z.leb_gt _ _)) by lia.
  unfold mbind, M_bind. rewrite Hrun. unfold get_array. rewrite Hb. cbn [deref]. unfold mret, M_ret at 1.
  rewrite (tb_count _ _ Hok), Hl, Hg. rewrite (proj2 (Z.leb_le _ _)) by lia. cbn [lift].
  unfold assert. rewrite (proj2 (Z.ltb_lt _ _)) by done. unfold realloc_array, with_memory, zoom, mbind, M_bind, mret, M_ret.
  rewrite Hre. cbn [deref]. unfold mret, M_ret. unfold set_handle.
  rewrite length_resize_slots by lia. rewrite Z.ltb_irrefl. done.
Qed.

(** C33: Replacing the object of a handle. A handle from 0x10000 on is refused
    with nothing changed. For a smaller one that is the size of the array times a
    power of two the array does not grow enough, and the code writes behind it. For
    any other handle the table stays well formed and holds the object under the
    handle, grown to hold it if necessary, no other handle changes, the object has
    one reference more, and last the previous object of the handle is released. *)
Theorem handleSet_correct k p h object t l x :
  has_table k p t → table_ok t l → objs k !! object = Some x → can_realloc k → 0 ≤ h →
  (MAX_HANDLES ≤ h → handleSet p h object k = Ok (false, k)) ∧
  (h < MAX_HANDLES → (∃ n, 1 ≤ n ∧ h = lenZ l * 2 ^ n) → handleSet p h object k = Undef "handleSet: out of the array") ∧
  (h < MAX_HANDLES → (∀ n, 1 ≤ n → h ≠ lenZ l * 2 ^ n) →
   leads (handleSet p h object) k (release_old (entry l h)) (λ k1,
     handle_post k p object l h (Some object) k1 ∧ refs k1 object = Some (u32 (refcount x + 1)))).
Proof.
  intros Ht Hok Ho Hmem Hh. split_and!.
  - intros Hge. unfold handleSet. by rewrite (proj2 (Z.leb_le _ _)).
  - intros Hlt (n & Hn & ->). by apply (handleSet_out_of_array k p object t).
  - intros Hlt Hpow. by eapply handleSet_in_array.
Qed.

(** *** handleRelease *)

Lemma trim_end_spec l n :
  (n ≤ length l)%nat →
  0 ≤ trim_end l n ≤ Z.of_nat n ∧ ∀ j, trim_end l n ≤ j < Z.of_nat n → entry l j = None.
Proof.
  induction n as [|n IH]; intros Hn; [simpl; split; [lia|intros; lia]|]. cbn [trim_end].
  destruct (lookup_lt_is_Some_2 l n ltac:(lia)) as [[o|] Hx]; rewrite Hx; [split; [lia|intros; lia]|].
  destruct (IH ltac:(lia)) as [H1 H2]. split; [lia|]. intros j Hj.
  destruct (decide (j = Z.of_nat n)) as [->|]; [|apply H2; lia].
  unfold entry, nthZ. destruct (Z.ltb_spec (Z.of_nat n) 0); [lia|]. by rewrite Nat2Z.id, Hx.
Qed.

Lemma table_ok_release t l addr h o :
  table_ok t l → 0 ≤ h → entry l h = Some o → table_ok (release_slot t l addr h) (setZ l h None).
Proof.
  intros Hok Hh Ho. pose proof (entry_range _ _ _ Ho) as Hr. pose proof Hok as [_ Hc Hcr He Hb Hun Hus].
  assert (h < h_free_end t) as Hlt by (destruct (decide (h < h_free_end t)); [done|]; rewrite Hun in Ho; [done|lia]).
  destruct (trim_end_spec (setZ l h None) (Z.to_nat (h_free_end t))) as [Ht1 Ht2]; [rewrite length_setZ; lia|].
  rewrite Z2Nat.id in Ht1, Ht2 by lia. set (e := trim_end _ _) in *.
  assert (Hfb : ∀ j, 3 ≤ j → j < h → j < h_free_begin t → is_Some (entry (setZ l h None) j)).
  { intros j Hj1 Hj2 Hj3. rewrite entry_setZ_ne by lia. apply Hus. lia. }
  constructor; simpl; rewrite ?length_setZ; fold e; try done.
  - destruct (Z.eqb_spec h (h_free_end t - 1)); lia.
  - destruct (Z.eqb_spec h (h_free_end t - 1)), (Z.ltb_spec h (h_free_begin t)); try lia.
    + destruct (decide (h ≤ Z.max 3 e)) as [|Hgt]; [lia|].
      destruct (Hfb (Z.max 3 e)) as [? Hx]; [lia..|]. rewrite Ht2 in Hx; [done|lia].
    + destruct (decide (h_free_begin t ≤ Z.max 3 e)) as [|Hgt]; [lia|].
      destruct (Hfb (Z.max 3 e)) as [? Hx]; [lia..|]. rewrite Ht2 in Hx; [done|lia].
  - intros j Hj. destruct (decide (j = h)) as [->|Hne]; [by rewrite entry_setZ_eq|].
    destruct (decide (j < h_free_end t)); [|rewrite entry_setZ_ne by done; apply Hun; lia].
    destruct (Z.eqb_spec h (h_free_end t - 1)); [apply Ht2; lia|lia].
  - intros j Hj. destruct (Z.ltb_spec h (h_free_begin t)); apply Hfb; lia.
Qed.

Lemma table_ok_shrink t l addr count :
  table_ok t l → shrink_count t = Some count →
  table_ok (shrunk t l addr count) (resize_slots count l) ∧ ∀ h, entry (resize_slots count l) h = entry l h.
Proof.
  intros Hok. pose proof Hok as [_ Hc Hcr He Hb Hun Hus]. unfold shrink_count. rewrite Hc. set (n := lenZ l / 4).
  destruct (Z.ltb_spec MIN_HANDLES (h_free_end t)), (Z.ltb_spec (h_free_end t) n); try done.
  unfold MIN_HANDLES in *. destruct (Z.ltb_spec n 256); [lia|]. intros [= <-].
  assert (256 < n ≤ lenZ l) as Hn by (split; [lia|subst n; apply Z.div_le_upper_bound; lia]).
  assert (lenZ (resize_slots n l) = n) as Hlen by (apply length_resize_slots; lia).
  assert (∀ h, entry (resize_slots n l) h = entry l h) as Hent.
  { intros h. destruct (decide (0 ≤ h < n)); [by apply entry_cut|].
    transitivity (@None oid); [|symmetry].
    - destruct (entry (resize_slots n l) h) eqn:E; [|done]. apply entry_range in E. lia.
    - destruct (entry l h) eqn:E; [|done]. rewrite <-E. apply Hun. apply entry_range in E. lia. }
  split; [|done]. constructor; simpl; rewrite ?Hlen; try done; try lia.
  - unfold MIN_HANDLES. lia.
  - intros h Hh. rewrite Hent. by apply Hun.
  - intros h Hh. rewrite Hent. by apply Hus.
Qed.

(** C34: Releasing a handle. A number without an object is refused with nothing
    changed. Otherwise the handle is free afterwards, no other handle changes,
    the table stays well formed, also when its array is cut, and last the
    object's reference is released. *)
Theorem handleRelease_correct k p h t l :
  has_table k p t → table_ok t l → can_realloc k → 0 ≤ h →
  match entry l h with
  | None => handleRelease p h k = Ok (false, k)
  | Some o => leads (handleRelease p h) k (__objectRelease o ;; mret true) (λ k1,
      ∃ t' l', has_table k1 p t' ∧ table_ok t' l' ∧ entry l' h = None ∧
        (∀ j, j ≠ h → entry l' j = entry l j) ∧ qs k1 = qs k ∧
        ∀ o', o' ≠ p → objs k1 !! o' = objs k !! o')
  end.
Proof.
  intros Ht Hok Hmem Hh. destruct (h_handles_slots _ _ Hok) as (b & Hb & Hl).
  assert (Hget : handleGet t h = Ok (entry l h)).
  { unfold handleGet. rewrite (tb_slots _ _ Hok). destruct (Z.leb_spec (h_free_end t) h).
    - by rewrite (tb_unused _ _ Hok).
    - destruct (nthZ_is_Some l h) as [s Hs]; [pose proof (tb_end _ _ Hok); lia|].
      unfold entry. by rewrite Hs. }
  assert (Hrun : get_table p k = Ok (t, k)).
  { destruct Ht as (r & q & Ho & <-). unfold get_table, pointee, getBody, getObject, mbind, M_bind, get, deref.
    by rewrite Ho. }
  destruct (entry l h) as [o|] eqn:Ho.
  2: { unfold handleRelease, mbind, M_bind. rewrite Hrun. unfold lift. by rewrite Hget. }
  unfold handleRelease. apply leads_bind. eapply wp_get_table; [done|]. apply leads_bind. rewrite Hget.
  change (wp (lift (Ok (Some o))) k ?Q) with (Q (Some o) k). cbv beta iota.
  apply leads_bind. unfold get_array. eapply wp_deref; [done|]. rewrite Hl.
  pose proof (table_ok_release t l (b_addr b) h o Hok Hh Ho) as Hok1.
  pose proof (entry_range _ _ _ Ho) as Hr.
  assert (Hend : ∀ t' l' m, table_ok t' l' → (∀ j, entry l' j = entry (setZ l h None) j) →
    wp (set_table p t') (set_memory m k) (λ _ k1, leads (__objectRelease o ;; mret true) k1 (__objectRelease o ;; mret true) (λ k1,
      ∃ t' l', has_table k1 p t' ∧ table_ok t' l' ∧ entry l' h = None ∧
        (∀ j, j ≠ h → entry l' j = entry l j) ∧ qs k1 = qs k ∧
        ∀ o', o' ≠ p → objs k1 !! o' = objs k !! o'))).
  { intros t' l' m Hok' He. destruct Ht as (r & q & Hp & <-). unfold set_table. wp_step.
    eapply wp_pointee; [done..|]. eapply wp_putBody; [done|]. apply leads_here. exists t', l'. simpl.
    split_and!; [|done|by rewrite He, entry_setZ_eq|intros; by rewrite He, entry_setZ_ne|done|].
    - eexists _, _. simpl. rewrite lookup_insert_eq. done.
    - intros o' Hne. by rewrite lookup_insert_ne. }
  apply leads_bind. destruct (if h =? h_free_end t - 1 then _ else None) as [count|] eqn:Hs.
  - assert (shrink_count (release_slot t l (b_addr b) h) = Some count) as Hsc by (by destruct (h =? h_free_end t - 1)).
    wp_step. apply wp_zoom. eapply wp_mono; [apply Hmem|]. intros r m [a ->].
    destruct (table_ok_shrink _ _ a count Hok1 Hsc) as [Hok2 He]. by eapply Hend.
  - rewrite <-(set_memory_same k) at 1. by eapply Hend.
Qed.
End HandleOps.

(** ** An example

    Process 30 has the three standard streams and three handles of semaphore 40. *)

Definition table_check (t : handleTable) (l : slots) : bool :=
  bool_decide (table_slots t = Some l) && bool_decide (h_count t = lenZ l) &&
  bool_decide (MIN_HANDLES ≤ lenZ l ≤ MAX_HANDLES) && bool_decide (0 ≤ h_free_end t ≤ lenZ l) &&
  bool_decide (0 ≤ h_free_begin t ≤ Z.max 3 (h_free_end t)) &&
  bool_decide (Forall (eq None) (drop (Z.to_nat (h_free_end t)) l)) &&
  forallb (λ h, bool_decide (is_Some (entry l h))) (seqZ 3 (h_free_begin t - 3)).

Lemma table_check_sound t l : table_check t l = true → table_ok t l.
Proof.
  unfold table_check. rewrite !andb_true_iff, !bool_decide_eq_true, forallb_forall.
  intros ((((((Hs & Hc) & Hr) & He) & Hb) & Hun) & Hus). constructor; try done.
  - intros h Hh. unfold entry, nthZ. destruct (h <? 0) eqn:E; [done|].
    destruct (l !! Z.to_nat h) as [[o|]|] eqn:Hx; [|done..].
    rewrite Forall_lookup in Hun. specialize (Hun (Z.to_nat h - Z.to_nat (h_free_end t))%nat (Some o)).
    rewrite lookup_drop in Hun. replace (_ + _)%nat with (Z.to_nat h) in Hun by lia. by specialize (Hun Hx).
  - intros h Hh. specialize (Hus h). rewrite bool_decide_eq_true in Hus. apply Hus, list_elem_of_In, elem_of_seqZ. lia.
Qed.

Definition sample_slots : slots := [Some 70; Some 70; Some 70; Some 40; Some 40; Some 40] ++ replicate 250 None.
Definition sample_table : handleTable := HandleTable 256 6 6 (Some (Block 80 sample_slots)).

Definition sample_process (t : handleTable) : object :=
  Object 2 (Process (ProcessFields ERR 0x100000 0x1000000 0 0 0 0 t)).

Definition handle_kernel (t : handleTable) : kernel heap := sample_kernel
  [(30, sample_process t); (40, Object 4 (Semaphore (SemaphoreFields 1))); (70, Object 4 Stdout);
   (90, Object 1 (Pipe (PipeFields None 0 0 0 true)))]
  [(ThreadList, []); (TimerList, []); (Waiters 30, []); (Threads 30, []); (Waiters 40, [])].

Lemma sample_table_ok : table_ok sample_table sample_slots.
Proof. apply table_check_sound. vm_compute. reflexivity. Qed.

Lemma handle_kernel_has t : has_table (handle_kernel t) 30 t.
Proof. by do 2 eexists. Qed.

Lemma handle_kernel_realloc t : can_realloc (handle_kernel t).
Proof. intros a n. unfold wp; simpl. eauto. Qed.

Lemma handleAllocate_correct_witness :
  wp (handleAllocate 30 40) (handle_kernel sample_table) (λ h k',
    (h = ERR ∧ k' = handle_kernel sample_table ∧ ∀ j, 3 ≤ j < MAX_HANDLES → is_Some (entry sample_slots j)) ∨
    ∃ t' l', has_table k' 30 t' ∧ table_ok t' l' ∧
      3 ≤ h < MAX_HANDLES ∧ entry sample_slots h = None ∧ (∀ j, 3 ≤ j < h → is_Some (entry sample_slots j)) ∧
      entry l' h = Some 40 ∧ (∀ j, j ≠ h → entry l' j = entry sample_slots j) ∧
      refs k' 40 = Some 5 ∧ only_table 30 40 (handle_kernel sample_table) k').
Proof.
  exact (handleAllocate_correct (handle_kernel sample_table) 30 40 sample_table sample_slots _
    (handle_kernel_has _) sample_table_ok eq_refl (handle_kernel_realloc _)).
Defined.

Lemma handleSet_correct_witness :
  let k := handle_kernel sample_table in
  leads (handleSet (H0 := Dispatch.methods 8 2) 30 1000 40) k (release_old (H0 := Dispatch.methods 8 2) None) (λ k1,
    handle_post k 30 40 sample_slots 1000 (Some 40) k1 ∧ refs k1 40 = Some 5) ∧
  handleSet (H0 := Dispatch.methods 8 2) 30 512 40 k = Undef "handleSet: out of the array" ∧
  handleSet (H0 := Dispatch.methods 8 2) 30 0x10000 40 k = Ok (false, k).
Proof.
  intros k.
  pose proof (λ h, handleSet_correct (H0 := Dispatch.methods 8 2) k 30 h 40 sample_table sample_slots _
    (handle_kernel_has _) sample_table_ok eq_refl (handle_kernel_realloc _)) as Hset.
  split_and!.
  - apply (Hset 1000); [lia|done|]. intros n Hn. change (lenZ sample_slots) with 256. destruct (decide (n ≤ 1)) as [|Hgt].
    + replace n with 1 by lia. lia.
    + intros E. assert (4 ≤ 2 ^ n) by (change 4 with (2 ^ 2); apply Z.pow_le_mono_r; lia). lia.
  - apply (Hset 512); [lia|done|]. by exists 1.
  - apply (Hset 0x10000); [lia|done].
Defined.

Lemma handleRelease_correct_witness :
  leads (handleRelease (H0 := Dispatch.methods 8 2) 30 5) (handle_kernel sample_table)
    (@__objectRelease _ (Dispatch.methods 8 2) 40 ;; mret true) (λ k1,
      ∃ t' l', has_table k1 30 t' ∧ table_ok t' l' ∧ entry l' 5 = None ∧
        (∀ j, j ≠ 5 → entry l' j = entry sample_slots j) ∧ qs k1 = qs (handle_kernel sample_table) ∧
        ∀ o', o' ≠ 30 → objs k1 !! o' = objs (handle_kernel sample_table) !! o').
Proof.
  refine (handleRelease_correct (H0 := Dispatch.methods 8 2) (handle_kernel sample_table) 30 5 sample_table sample_slots
    (handle_kernel_has _) sample_table_ok (handle_kernel_realloc _) _). lia.
Defined.

Lemma handleSet_out_of_array_witness :
  handleSet (H0 := Dispatch.methods 8 2) 30 512 40 (handle_kernel sample_table) = Undef "handleSet: out of the array".
Proof.
  exact (handleSet_out_of_array (H0 := Dispatch.methods 8 2) (handle_kernel sample_table) 30 40 sample_table sample_slots 1
    (handle_kernel_has _) sample_table_ok (handle_kernel_realloc _) (Z.le_refl 1) eq_refl).
Defined.

(** The lowest handle of an object that may take handles below 3 is not
    always the one it gets: after an object of another kind has been given
    handle 3 of an empty table, a pipe is given handle 4, while 0, 1 and 2 are
    free. *)
Theorem handleAllocate_not_lowest :
  let empty := HandleTable 256 0 0 (Some (Block 80 (replicate 256 None))) in
  ∃ k1 k2 t l,
    handleAllocate 30 40 (handle_kernel empty) = Ok (3, k1) ∧
    handleAllocate 30 90 k1 = Ok (4, k2) ∧
    has_table k2 30 t ∧ table_slots t = Some l ∧ entry l 0 = None ∧ entry l 1 = None ∧ entry l 2 = None.
Proof.
  eexists _, _, _, _. split; [vm_compute; reflexivity|]. split; [vm_compute; reflexivity|].
  split; [do 2 eexists; split; reflexivity|]. split; [reflexivity|]. by split_and!.
Qed.
