(* ===== verification/PipeProofs.v ===== *)
(** * Pipes as queues of bytes

    A pipe represents the sequence of the bytes written to it and not read
    yet. The buffer moves and grows behind that. *)

From S2P Require Import Prelude LinkedList Kernel Pipe Thread Dispatch Waiting Sample Blocking.
Open Scope Z_scope.

(** The sizes the buffer doubles through. *)
Definition sizes : list Z := [0x1000; 0x2000; 0x4000; 0x8000; 0x10000].

Record pipe_ok (p : pipe) (b : block Z) : Prop := {
  pp_buffer : p_buffer p = Some b;
  pp_size : p_size p ∈ sizes;
  pp_length : lenZ (b_data b) = p_size p;
  pp_pos : 0 ≤ p_readPos p ≤ p_writePos p ∧ p_writePos p ≤ p_size p;
}.

(** The bytes of the pipe. *)
Definition contents (p : pipe) (b : block Z) : list Z :=
  take (Z.to_nat (p_writePos p - p_readPos p)) (drop (Z.to_nat (p_readPos p)) (b_data b)).

Lemma sizes_range s : s ∈ sizes → 4096 ≤ s ≤ 65536.
Proof. unfold sizes. intros Hs. repeat (apply elem_of_cons in Hs as [->|Hs]; [lia|]). by apply not_elem_of_nil in Hs. Qed.

Lemma used_contents p b : pipe_ok p b → used p = lenZ (contents p b).
Proof.
  intros [_ Hs Hl Hp]. apply sizes_range in Hs. unfold used, contents.
  rewrite u32_small by (unfold is_u32; lia). rewrite length_take, length_drop. lia.
Qed.

Lemma used_pos p b : pipe_ok p b → used p = p_writePos p - p_readPos p ∧ 0 ≤ used p ≤ 65536.
Proof. intros [_ Hs _ Hp]. apply sizes_range in Hs. unfold used. rewrite u32_small by (unfold is_u32; lia). lia. Qed.

(** ** Making room *)

Lemma compact_ok p b :
  pipe_ok p b → ∃ b', pipe_ok (compact p b) b' ∧ b_addr b' = b_addr b ∧ contents (compact p b) b' = contents p b ∧
    p_writePos (compact p b) = used p ∧ p_size (compact p b) = p_size p ∧ p_writeable (compact p b) = p_writeable p.
Proof.
  intros Hok. pose proof (used_pos _ _ Hok) as [Hu _]. unfold compact. destruct (Z.eqb_spec (p_readPos p) 0) as [Hz|Hz].
  { exists b. split_and!; (done || lia). }
  destruct Hok as [Hb Hs Hl Hp]. pose proof (sizes_range _ Hs). set (n := Z.to_nat (used p)).
  set (data := take n (drop (Z.to_nat (p_readPos p)) (b_data b)) ++ drop n (b_data b)).
  assert (length (take n (drop (Z.to_nat (p_readPos p)) (b_data b))) = n) as Hn
    by (rewrite length_take, length_drop; lia).
  exists (Block (b_addr b) data). rewrite u32_small by (unfold is_u32; lia). split_and!; try done.
  - constructor; simpl; [done..| |lia]. rewrite <-Hl. unfold data. rewrite length_app, Hn, length_drop. lia.
  - unfold contents, data. simpl. rewrite drop_0, Z.sub_0_r, <-Hu. fold n. by rewrite take_app_length'.
Qed.

Lemma double_until_ok s need :
  s ∈ sizes → s < need ≤ 65536 → ∃ s', double_until 64 (u32 (s * 2)) need = Ok s' ∧ s' ∈ sizes ∧ need ≤ s'.
Proof.
  assert (Hstep : ∀ fuel s need, s ∈ sizes → need ≤ 65536 → (5 ≤ fuel + Z.to_nat (Z.log2 s) - 12)%nat →
    ∃ s', double_until fuel s need = Ok s' ∧ s' ∈ sizes ∧ need ≤ s').
  { clear. induction fuel as [|fuel IH]; intros s need Hs Hn Hf.
    - exfalso. unfold sizes in Hs. repeat (apply elem_of_cons in Hs as [->|Hs]; [vm_compute in Hf; lia|]).
      by apply not_elem_of_nil in Hs.
    - simpl. destruct (Z.ltb_spec s need); [|eauto].
      assert (u32 (s * 2) ∈ sizes ∧ Z.log2 (u32 (s * 2)) = Z.log2 s + 1 ∧ 0 ≤ Z.log2 s) as (Hs' & Hl & Hl0).
      { unfold sizes in Hs. repeat (apply elem_of_cons in Hs as [->|Hs]; [|]);
          [..|by apply not_elem_of_nil in Hs]; try lia;
          (split; [vm_compute; set_solver|split; [reflexivity|vm_compute; discriminate]]). }
      apply IH; [done|done|lia]. }
  intros Hs Hn. apply Hstep; [|lia|].
  - unfold sizes in Hs. repeat (apply elem_of_cons in Hs as [->|Hs]; [|]);
      [..|by apply not_elem_of_nil in Hs]; try lia; vm_compute; set_solver.
  - unfold sizes in Hs. repeat (apply elem_of_cons in Hs as [->|Hs]; [|]);
      [..|by apply not_elem_of_nil in Hs]; try lia; vm_compute; lia.
Qed.

(** Storing bytes behind the last one. *)
Lemma blit_ok p b buf n :
  pipe_ok p b → 0 ≤ n ≤ lenZ buf → p_writePos p + n ≤ p_size p →
  let p' := set_buffer p (Block (b_addr b) (blit (b_data b) (p_writePos p) (take (Z.to_nat n) buf)))
              (p_size p) (p_writePos p + n) (p_readPos p) in
  let b' := Block (b_addr b) (blit (b_data b) (p_writePos p) (take (Z.to_nat n) buf)) in
  pipe_ok p' b' ∧ contents p' b' = contents p b ++ take (Z.to_nat n) buf.
Proof.
  intros [Hb Hs Hl Hp] Hn Hfit p' b'. split.
  - constructor; simpl; [done..| |lia]. unfold blit. rewrite !length_app, !length_take, length_drop. lia.
  - unfold contents. simpl. unfold blit. set (rp := Z.to_nat (p_readPos p)). set (wp := Z.to_nat (p_writePos p)).
    replace (Z.to_nat (p_writePos p + n - p_readPos p)) with ((wp - rp) + Z.to_nat n)%nat by lia.
    replace (Z.to_nat (p_writePos p - p_readPos p)) with (wp - rp)%nat by lia.
    assert (length (take wp (b_data b)) = wp) as Hw by (rewrite length_take; lia).
    rewrite drop_app_le by lia. rewrite app_assoc, take_app_le.
    2: { rewrite length_app, length_drop, Hw, length_take. lia. }
    rewrite take_app_ge by (rewrite length_drop; lia). rewrite skipn_firstn_comm.
    f_equal. rewrite length_take, length_drop, firstn_all2; [done|]. rewrite length_take. lia.
Qed.

(** ** The operations *)

Section PipeOps.
Context {mem : Type} `{Memory mem} `{Machine mem} (rank : oid → nat) (loops depth : nat).
Context (Hdepth : ∀ o, (rank o < depth)%nat).
Context (Hmem : ∀ m a n, wp (heapReAlloc a n) m (λ r _, is_Some r)).
Implicit Types k : kernel mem.
#[local] Instance M : Methods mem := methods loops depth.

(** Pipe [o] holds the bytes [q] in buffer [b], in a consistent system. *)
Record holds k (o : oid) (p : pipe) (b : block Z) (q : list Z) : Prop := {
  hl_wf : wf rank k;
  hl_size : (size (objs k) < loops)%nat;
  hl_pipe : ∃ r, objs k !! o = Some (Object r (Pipe p));
  hl_readers : is_Some (qs k !! ReadWaiters o);
  hl_writers : is_Some (qs k !! WriteWaiters o);
  hl_ok : pipe_ok p b;
  hl_open : p_writeable p = true;
  hl_contents : contents p b = q;
}.

(** Replacing the fields of the pipe and the memory. *)
Lemma holds_put k o p b q r p' b' q' m :
  holds k o p b q → objs k !! o = Some (Object r (Pipe p)) →
  pipe_ok p' b' → p_writeable p' = true → contents p' b' = q' →
  holds (set_objs (<[o := Object r (Pipe p')]> (objs k)) (set_memory m k)) o p' b' q'.
Proof.
  intros [Hwf Hsz [r0 Ho0] Hr Hw _ _ _] Ho Hok Hop Hc. constructor; simpl; try done.
  - unfold wf. rewrite (view_of_objs (set_memory m k)). simpl.
    change (view_of (set_memory m k)) with (view_of k). rewrite insert_id; [done|].
    by rewrite (view_of_obj _ _ _ Ho).
  - by rewrite map_size_insert_Some.
  - exists r. by rewrite lookup_insert_eq.
Qed.

Lemma holds_body k o p b q r p' b' q' :
  holds k o p b q → objs k !! o = Some (Object r (Pipe p)) →
  pipe_ok p' b' → p_writeable p' = true → contents p' b' = q' →
  holds (set_objs (<[o := Object r (Pipe p')]> (objs k)) k) o p' b' q'.
Proof. intros Hh Ho Hok Hop Hc. destruct k. exact (holds_put _ o p b q r p' b' q' _ Hh Ho Hok Hop Hc). Qed.

(** All waiters of queue [l] have been woken up with the result [v]: the queue is empty,
    and the threads that were in it can run. *)
Definition wakes (l : node) (v : Z) k k' : Prop :=
  qs k' !! l = Some [] ∧ none_lost k k' ∧ ∀ xs, qs k !! l = Some xs → roused xs v k k' ∧
    ∀ t r th, Entry t ∈ xs → objs k !! t = Some (Object r (Thread th)) → ∃ ts, qs k' !! ThreadList = Some ts ∧ Entry t ∈ ts.

(** Nothing but the pipe has changed. *)
Definition quiet (o : oid) k k' : Prop :=
  qs k' = qs k ∧ (∀ o', o' ≠ o → objs k' !! o' = objs k !! o').

Lemma quiet_trans o k1 k2 k3 : quiet o k1 k2 → quiet o k2 k3 → quiet o k1 k3.
Proof. intros [Hq1 Ho1] [Hq2 Ho2]. split; [congruence|]. intros o' Hne. by rewrite Ho2, Ho1. Qed.

Lemma quiet_put o x k m : quiet o k (set_objs (<[o := x]> (objs k)) (set_memory m k)).
Proof. split; [done|]. intros o' Hne. simpl. by rewrite lookup_insert_ne. Qed.

Lemma quiet_body o x k : quiet o k (set_objs (<[o := x]> (objs k)) k).
Proof. destruct k. apply quiet_put. Qed.

Lemma wakes_quiet o k k1 k' r p r1 p1 l v :
  objs k !! o = Some (Object r (Pipe p)) → objs k1 !! o = Some (Object r1 (Pipe p1)) → quiet o k k1 →
  wakes l v k1 k' → wakes l v k k'.
Proof.
  intros Ho Ho1 [Hq Hsame] (Hl & Hn & Hw).
  assert (Heq : ∀ o r b, rigid b = false → objs k !! o = Some (Object r b) ↔ objs k1 !! o = Some (Object r b)).
  { intros o' r' b Hb. destruct (decide (o' = o)) as [->|Hne]; [|by rewrite Hsame].
    rewrite Ho, Ho1. split; intros [= <- <-]; done. }
  split; [done|]. split; [by eapply none_lost_eq|]. intros xs Hx.
  destruct (Hw xs) as [Hr Hrun]; [by rewrite Hq|]. split; [eapply roused_eq; [intros l' _; by rewrite Hq|done..]|].
  intros t r' th Hin Hk. apply (Hrun t r' th); [done|]. by apply Heq.
Qed.

(** Waking up the waiters of a pipe leaves it alone. *)
Lemma holds_wakeup k o p b q l eax (Q : unit → kernel mem → Prop) :
  holds k o p b q → wait_queue l = Some o → is_Some (qs k !! l) →
  (∀ k', holds k' o p b q → wakes l eax k k' → Q tt k') →
  wp (queueWakeup l true eax) k Q.
Proof.
  intros [Hwf Hsz [r Ho] [rs Hr] [ws Hw] Hok Hop Hc] Hl [xs Hx] HQ. eapply wp_mono.
  { by apply (wp_wakeup rank loops depth Hdepth k l o true eax xs). }
  intros [] k' (Hwf' & Hwk & _ & Hx' & Hro). apply HQ.
  2: { split; [done|]. split; [by eapply wf_none_lost, woken_mask|]. intros ys Hy. rewrite Hx in Hy. injection Hy as <-. split; [done|].
    intros t rt th Hin Ht. destruct (wait_queue_elem rank k l o xs (Entry t) Hwf Hl Hx Hin) as (t' & x & [= <-] & Ht' & Hcase).
    rewrite Ht in Ht'. injection Ht' as <-. destruct Hcase as [(th' & [= <-] & _ & Hp)|(s & e & x' & [=] & _)].
    pose proof (ro_thread _ _ _ _ Hro t Hin rt th Ht) as Hwt.
    destruct (runnable_linked rank k' t rt _ Hwf' (conj Hwt (conj eq_refl Hp))) as (ys & zs & Hts).
    exists (ys ++ Entry t :: zs). split; [done|set_solver]. }
  destruct (wk_wait _ _ Hwk (ReadWaiters o) rs) as (rs' & Hr' & _); [by eexists|done|].
  destruct (wk_wait _ _ Hwk (WriteWaiters o) ws) as (ws' & Hw' & _); [by eexists|done|].
  constructor; try done; [|exists r; by eapply woken_rigid|by eexists..].
  assert (dom (objs k') = dom (objs k)) as Hdom.
  { apply set_eq. intros o'. rewrite !elem_of_dom. destruct (wk_objs _ _ Hwk o'); split; by intros [? ?]. }
  by rewrite <-size_dom, Hdom, size_dom.
Qed.

(** Making room for [n] bytes. *)
Lemma wp_make_room k o p b q n (Q : unit → kernel mem → Prop) :
  holds k o p b q → 0 ≤ n ≤ MAX_PIPE_BUFFER_SIZE - used p →
  (∀ k' p' b', holds k' o p' b' q → used p' = used p → p_writePos p' + n ≤ p_size p' → quiet o k k' → Q tt k') →
  wp (when (u32 (p_size p - p_writePos p) <? n)
      (match p_buffer p with
       | Some b => putBody o (Pipe (compact p b))
       | None => undef "memmove from a null pointer"
       end ;; grow o n)) k Q.
Proof.
  intros Hh Hn HQ. pose proof Hh as [_ _ [r Ho] _ _ Hok Hop Hc].
  pose proof (used_pos _ _ Hok) as [Hu _]. pose proof (sizes_range _ (pp_size _ _ Hok)) as Hs.
  pose proof (pp_pos _ _ Hok) as Hp. unfold MAX_PIPE_BUFFER_SIZE in Hn.
  rewrite u32_small by (unfold is_u32; lia).
  apply wp_when; [intros _|intros Hroom; apply (HQ k p b); [done|done|lia|done]].
  rewrite (pp_buffer _ _ Hok). destruct (compact_ok p b Hok) as (b1 & Hok1 & Ha1 & Hc1 & Hw1 & Hs1 & Ho1).
  set (p1 := compact p b) in *. wp_step. eapply wp_putBody; [done|]. simpl.
  pose proof (holds_body k o p b q r p1 b1 q Hh Ho Hok1 (eq_trans Ho1 Hop) (eq_trans Hc1 Hc)) as Hh1.
  set (k1 := set_objs _ k) in *.
  assert (Hob1 : objs k1 !! o = Some (Object r (Pipe p1))) by (simpl; by rewrite lookup_insert_eq).
  assert (Hu1 : used p1 = used p) by (by rewrite (used_contents _ _ Hok1), (used_contents _ _ Hok), Hc1).
  pose proof (sizes_range _ (pp_size _ _ Hok1)) as Hsr1. pose proof (pp_pos _ _ Hok1) as Hp1.
  unfold grow. wp_step. eapply wp_pointee; [done..|]. rewrite (u32_small (p_size p1 - _)) by (unfold is_u32; lia).
  apply wp_when; [intros Hlt|intros Hroom; apply (HQ k1 p1 b1); [done|done|lia|apply quiet_body]].
  rewrite (u32_small (p_writePos p1 + n)) by (unfold is_u32; lia).
  destruct (double_until_ok (p_size p1) (p_writePos p1 + n)) as (s' & -> & Hs' & Hle);
    [apply Hok1|lia|].
  pose proof (sizes_range _ Hs') as Hsr'. rewrite (pp_buffer _ _ Hok1). wp_step. eapply wp_deref; [done|].
  wp_step. apply wp_zoom. eapply wp_mono; [apply Hmem|]. intros a m [addr ->]. wp_steps.
  eapply wp_putBody; [done|]. simpl.
  pose proof (pp_length _ _ Hok1) as Hl1. set (data := resize (Z.to_nat s') 0 (b_data b1)).
  assert (Hpre : data = b_data b1 ++ replicate (Z.to_nat s' - length (b_data b1)) 0) by (apply resize_ge; lia).
  eapply (HQ _ (set_buffer p1 (Block addr data) s' (p_writePos p1) (p_readPos p1)) (Block addr data)); [|done|simpl; lia|].
  2: { eapply quiet_trans; [apply quiet_body|apply (quiet_put o _ k1)]. }
  apply (holds_put k1 o p1 b1 q r _ _ q m Hh1 Hob1); [|simpl; congruence|].
  - constructor; simpl; [done..| |lia]. unfold data. rewrite length_resize. lia.
  - rewrite <-Hc, <-Hc1. unfold contents. simpl. rewrite Hpre.
    rewrite drop_app_le by lia. rewrite take_app_le; [done|]. rewrite length_drop. lia.
Qed.

(** What a write does to a pipe that holds [q]. *)
Lemma wp_pipeWrite k o p b q buf len :
  holds k o p b q → is_u32 len → len ≤ lenZ buf →
  wp (__pipeWrite o buf len) k (λ n k',
    n = Z.min len (MAX_PIPE_BUFFER_SIZE - lenZ q) ∧
    ∃ p' b', holds k' o p' b' (q ++ take (Z.to_nat n) buf) ∧
      (q ++ take (Z.to_nat n) buf ≠ [] → wakes (ReadWaiters o) (lenZ (q ++ take (Z.to_nat n) buf)) k k')).
Proof.
  intros Hh Hlen Hbuf. pose proof Hh as [_ _ [r Ho] _ _ Hok Hop Hc].
  pose proof (used_pos _ _ Hok) as [_ Hu]. pose proof (used_contents _ _ Hok) as Huc. rewrite Hc in Huc.
  unfold __pipeWrite. wp_step. eapply wp_container; [done..|]. rewrite Hop. cbn [negb].
  wp_steps; [by rewrite (pp_buffer _ _ Hok), bool_decide_true by eauto|].
  unfold MAX_PIPE_BUFFER_SIZE in *. rewrite (u32_small (65536 - _)) by (unfold is_u32; lia).
  set (n := if 65536 - used p <? len then 65536 - used p else len).
  assert (Hn : n = Z.min len (65536 - lenZ q)).
  { subst n. destruct (Z.ltb_spec (65536 - used p) len); lia. }
  assert (Hnr : 0 ≤ n ≤ len) by (unfold is_u32 in Hlen; lia).
  eapply (wp_make_room k o p b q n); [done|unfold MAX_PIPE_BUFFER_SIZE; lia|]. intros k1 p1 b1 Hh1 Hu1 Hfit Hqu1.
  pose proof Hh1 as [_ _ [r1 Ho1] _ _ Hok1 Hop1 Hc1].
  assert (Hpost : ∀ k2 p2 b2, holds k2 o p2 b2 (q ++ take (Z.to_nat n) buf) → quiet o k k2 →
    wp (let used := if 0 <? n then u32 (used p + n) else used p in
        when (negb (used =? 0)) (queueWakeup (ReadWaiters o) true used) ;; mret (i32 n)) k2 (λ n k',
      n = Z.min len (65536 - lenZ q) ∧ ∃ p' b', holds k' o p' b' (q ++ take (Z.to_nat n) buf) ∧
      (q ++ take (Z.to_nat n) buf ≠ [] → wakes (ReadWaiters o) (lenZ (q ++ take (Z.to_nat n) buf)) k k'))).
  { intros k2 p2 b2 Hh2 Hqu2. pose proof Hh2 as [_ _ [r2 Ho2] _ _ _ _ _]. cbv zeta. set (u := if 0 <? n then _ else _).
    assert (i32 n = n) as -> by (unfold i32; rewrite u32_small by (unfold is_u32 in *; lia);
      destruct (Z.ltb_spec n 2147483648); lia).
    assert (u = lenZ (q ++ take (Z.to_nat n) buf)) as Hu2.
    { rewrite length_app, length_take. subst u. destruct (Z.ltb_spec 0 n); [rewrite u32_small by (unfold is_u32; lia)|]; lia. }
    wp_step. apply wp_when; intros Hz.
    - eapply holds_wakeup; [done..|apply Hh2|]. intros k3 Hh3 Hq3. wp_step. split; [done|].
      exists p2, b2. split; [done|]. intros _. rewrite <-Hu2. by eapply wakes_quiet.
    - wp_step. split; [done|]. exists p2, b2. split; [done|]. intros Hne. destruct (Hne).
      apply length_zero_iff_nil. apply negb_false_iff, Z.eqb_eq in Hz. lia. }
  wp_step. apply wp_when; intros Hpos.
  - wp_step. eapply wp_pointee; [done..|]. rewrite (pp_buffer _ _ Hok1). wp_step. eapply wp_deref; [done|].
    rewrite (pp_length _ _ Hok1).
    rewrite (proj2 (Z.leb_le n (lenZ buf))), (proj2 (Z.leb_le (p_writePos p1 + n) (p_size p1))) by lia. simpl.
    eapply wp_putBody; [done|]. simpl. pose proof (sizes_range _ (pp_size _ _ Hok1)). pose proof (pp_pos _ _ Hok1).
    rewrite (u32_small (p_writePos p1 + n)) by (unfold is_u32; lia).
    destruct (blit_ok p1 b1 buf n Hok1 ltac:(lia) Hfit) as [Hok2 Hc2].
    eapply Hpost; [|eapply quiet_trans; [done|apply quiet_body]].
    apply (holds_body k1 o p1 b1 q r1 _ _ _ Hh1 Ho1 Hok2); [done|]. by rewrite Hc2, Hc1.
  - apply (Hpost k1 p1 b1); [|done]. apply Z.ltb_ge in Hpos. replace (Z.to_nat n) with 0%nat by lia. by rewrite app_nil_r.
Qed.

(** Taking bytes from the front, and starting again at the front of an empty buffer. *)
Lemma skip_ok p b n :
  pipe_ok p b → 0 ≤ n ≤ used p →
  let p' := set_buffer p b (p_size p) (p_writePos p) (p_readPos p + n) in
  pipe_ok p' b ∧ contents p' b = drop (Z.to_nat n) (contents p b) ∧
  take (Z.to_nat n) (drop (Z.to_nat (p_readPos p)) (b_data b)) = take (Z.to_nat n) (contents p b).
Proof.
  intros Hok Hn p'. pose proof (used_pos _ _ Hok) as [Hu _]. destruct Hok as [Hb Hs Hl Hp]. split_and!.
  - constructor; simpl; try done. lia.
  - unfold contents. simpl. rewrite skipn_firstn_comm, drop_drop. f_equal; [lia|f_equal; lia].
  - unfold contents. rewrite take_take. f_equal. lia.
Qed.

Lemma rewind_ok p b :
  pipe_ok p b → p_readPos p = p_writePos p → contents p b = [] ∧
  pipe_ok (PipeFields (p_buffer p) (p_size p) 0 0 (p_writeable p)) b ∧
  contents (PipeFields (p_buffer p) (p_size p) 0 0 (p_writeable p)) b = [].
Proof.
  intros [Hb Hs Hl Hp] Heq. pose proof (sizes_range _ Hs). unfold contents. simpl. rewrite Heq, Z.sub_diag.
  split_and!; [done| |done]. constructor; simpl; (done || lia).
Qed.

Lemma wp_pipeRead k o p b q len :
  holds k o p b q → is_u32 len →
  wp (__pipeRead o len) k (λ res k',
    res = (Z.min len (lenZ q), take (Z.to_nat len) q) ∧
    ∃ p' b', holds k' o p' b' (drop (Z.to_nat len) q) ∧
      (lenZ (drop (Z.to_nat len) q) < MAX_PIPE_BUFFER_SIZE → wakes (WriteWaiters o) (MAX_PIPE_BUFFER_SIZE - lenZ (drop (Z.to_nat len) q)) k k')).
Proof.
  intros Hh Hlen. pose proof Hh as [_ _ [r Ho] _ _ Hok Hop Hc].
  pose proof (used_pos _ _ Hok) as [Hup Hu]. pose proof (used_contents _ _ Hok) as Huc. rewrite Hc in Huc.
  pose proof (sizes_range _ (pp_size _ _ Hok)) as Hs. pose proof (pp_pos _ _ Hok) as Hp.
  unfold __pipeRead. wp_step. eapply wp_container; [done..|]. rewrite Hop, (pp_buffer _ _ Hok). cbn [negb andb].
  wp_steps. set (n := if used p <? len then used p else len).
  assert (Hn : n = Z.min len (lenZ q)) by (subst n; destruct (Z.ltb_spec (used p) len); lia).
  assert (Hn0 : 0 ≤ n) by (unfold is_u32 in Hlen; lia).
  assert (Htake : take (Z.to_nat n) q = take (Z.to_nat len) q).
  { rewrite Hn. destruct (decide (len ≤ lenZ q)); [by rewrite Z.min_l|].
    rewrite Z.min_r by lia. rewrite !firstn_all2; [done|lia..]. }
  assert (Hdrop : drop (Z.to_nat n) q = drop (Z.to_nat len) q).
  { rewrite Hn. destruct (decide (len ≤ lenZ q)); [by rewrite Z.min_l|].
    rewrite Z.min_r by lia. rewrite !skipn_all2; [done|lia..]. }
  assert (Hi : i32 n = n).
  { unfold i32. rewrite u32_small by (unfold is_u32 in *; lia). destruct (Z.ltb_spec n 2147483648); lia. }
  assert (Hu' : (if 0 <? n then u32 (used p - n) else used p) = lenZ (drop (Z.to_nat n) q)).
  { rewrite length_drop. destruct (Z.ltb_spec 0 n); [rewrite u32_small by (unfold is_u32; lia)|]; lia. }
  destruct (skip_ok p b n Hok ltac:(lia)) as (Hok1 & Hc1 & Hdata). set (p1 := set_buffer _ _ _ _ _) in *.
  set (u := if 0 <? n then _ else _) in *.
  (* the rest, from the state in which the bytes have been taken *)
  assert (Hrest : ∀ k1 p1 data, holds k1 o p1 b (drop (Z.to_nat n) q) → quiet o k k1 → data = take (Z.to_nat n) q →
    wp (let* p := pointee as_pipe o in
        when (p_readPos p =? p_writePos p)
          (if negb (p_writeable p) then freeBuffer (p_buffer p) ;; putBody o (Pipe (PipeFields None 0 0 0 (p_writeable p)))
           else putBody o (Pipe (PipeFields (p_buffer p) (p_size p) 0 0 (p_writeable p)))) ;;
        when (u <? MAX_PIPE_BUFFER_SIZE)
          (let* p := pointee as_pipe o in
           queueWakeup (WriteWaiters o) true (if p_writeable p then u32 (MAX_PIPE_BUFFER_SIZE - u) else 0)) ;;
        mret (i32 n, data)) k1 (λ res k',
    res = (Z.min len (lenZ q), take (Z.to_nat len) q) ∧
    ∃ p' b', holds k' o p' b' (drop (Z.to_nat len) q) ∧
      (lenZ (drop (Z.to_nat len) q) < MAX_PIPE_BUFFER_SIZE → wakes (WriteWaiters o) (MAX_PIPE_BUFFER_SIZE - lenZ (drop (Z.to_nat len) q)) k k'))).
  { clear p1 Hok1 Hc1. intros k1 p1 data Hh1 Hqu1 ->. pose proof Hh1 as [_ _ [r1 Ho1] _ _ Hok1 Hop1 Hc1].
    assert (Hfin : ∀ k2 p2, holds k2 o p2 b (drop (Z.to_nat n) q) → quiet o k k2 →
      wp (when (u <? MAX_PIPE_BUFFER_SIZE)
          (let* p := pointee as_pipe o in
           queueWakeup (WriteWaiters o) true (if p_writeable p then u32 (MAX_PIPE_BUFFER_SIZE - u) else 0)) ;;
        mret (i32 n, take (Z.to_nat n) q)) k2 (λ res k',
        res = (Z.min len (lenZ q), take (Z.to_nat len) q) ∧
        ∃ p' b', holds k' o p' b' (drop (Z.to_nat len) q) ∧
          (lenZ (drop (Z.to_nat len) q) < MAX_PIPE_BUFFER_SIZE → wakes (WriteWaiters o) (MAX_PIPE_BUFFER_SIZE - lenZ (drop (Z.to_nat len) q)) k k'))).
    { intros k2 p2 Hh2 Hqu2. pose proof Hh2 as [_ _ [r2 Ho2] _ _ _ Hop2 _]. rewrite Hi, Htake, Hn, <-Hdrop.
      wp_step. apply wp_when; intros Hlt.
      - wp_step. eapply wp_pointee; [done..|]. eapply holds_wakeup; [done..|apply Hh2|]. intros k3 Hh3 Hq3.
        wp_step. split; [done|]. exists p2, b. split; [done|]. intros _. rewrite Hop2 in Hq3.
        rewrite Hu', Hdrop in Hq3. rewrite u32_small in Hq3 by (unfold is_u32, MAX_PIPE_BUFFER_SIZE; rewrite length_drop; lia).
        rewrite <-Hdrop in *. by eapply wakes_quiet.
      - wp_step. split; [done|]. exists p2, b. split; [done|]. intros Hl. apply Z.ltb_ge in Hlt. lia. }
    wp_step. eapply wp_pointee; [done..|]. wp_step. apply wp_when; intros Heq; [|by eapply (Hfin _ p1)].
    apply Z.eqb_eq in Heq. destruct (rewind_ok p1 b Hok1 Heq) as (He1 & Hok2 & He2).
    rewrite Hop1. cbn [negb]. eapply wp_putBody; [done|]. eapply Hfin; [|eapply quiet_trans; [done|apply quiet_body]].
    apply (holds_body k1 o p1 b _ r1 _ _ _ Hh1 Ho1); [by rewrite Hop1 in Hok2|done|].
    rewrite Hop1 in He2. rewrite <-Hc1, He1. exact He2. }
  destruct (Z.ltb_spec 0 n) as [Hpos|Hneg].
  - rewrite (pp_length _ _ Hok), (proj2 (Z.leb_le _ _)) by lia.
    rewrite (u32_small (p_readPos p + n)) by (unfold is_u32; lia). fold p1.
    wp_steps. eapply wp_putBody; [done|]. wp_step. eapply Hrest; [|apply quiet_body|by rewrite Hdata, Hc].
    apply (holds_body k o p b q r _ _ _ Hh Ho Hok1); [done|]. by rewrite Hc1, Hc.
  - apply wp_ret. eapply (Hrest k p []); [|done|by replace (Z.to_nat n) with 0%nat by lia].
    by replace (Z.to_nat n) with 0%nat by lia.
Qed.

(** ** The abstract queue *)

Inductive pipe_call :=
  | WriteCall (buf : list Z)
  | ReadCall (len : Z).

(** What the caller gets: the result, and the bytes read. *)
Definition run_call (o : oid) (c : pipe_call) : KM mem (Z * list Z) :=
  match c with
  | WriteCall buf => let* n := __objectWrite o buf (lenZ buf) in mret (n, [])
  | ReadCall len => __objectRead o len
  end.

Fixpoint run_calls (o : oid) (cs : list pipe_call) : KM mem (list (Z * list Z)) :=
  match cs with
  | [] => mret []
  | c :: cs => let* r := run_call o c in let* rs := run_calls o cs in mret (r :: rs)
  end.
End PipeOps.

(** A queue of at most 0x10000 bytes: writing appends what fits, reading takes
    from the front. *)
Definition queue_call (q : list Z) (c : pipe_call) : (Z * list Z) * list Z :=
  match c with
  | WriteCall buf =>
      let n := Z.min (lenZ buf) (MAX_PIPE_BUFFER_SIZE - lenZ q) in
      ((n, []), q ++ take (Z.to_nat n) buf)
  | ReadCall len => ((Z.min len (lenZ q), take (Z.to_nat len) q), drop (Z.to_nat len) q)
  end.

Fixpoint queue_calls (q : list Z) (cs : list pipe_call) : list (Z * list Z) * list Z :=
  match cs with
  | [] => ([], q)
  | c :: cs => let '(r, q') := queue_call q c in let '(rs, q'') := queue_calls q' cs in (r :: rs, q'')
  end.

(** The arguments are 32-bit numbers. *)
Definition call_ok (c : pipe_call) : Prop :=
  match c with WriteCall buf => is_u32 (lenZ buf) | ReadCall len => is_u32 len end.

Section Refinement.
Context {mem : Type} `{Memory mem} `{Machine mem} (rank : oid → nat) (loops depth : nat).
Context (Hdepth : ∀ o, (rank o < depth)%nat).
Context (Hmem : ∀ m a n, wp (heapReAlloc a n) m (λ r _, is_Some r)).
Implicit Types k : kernel mem.

Lemma run_call_refines k o p b q c :
  holds rank loops k o p b q → call_ok c →
  wp (run_call loops depth o c) k (λ r k', ∃ p' b', r = (queue_call q c).1 ∧ holds rank loops k' o p' b' (queue_call q c).2).
Proof.
  intros Hh Hc. pose proof Hh as [_ _ [r Ho] _ _ _ _ _]. destruct c as [buf|len]; simpl.
  - wp_step. unfold __objectWrite. wp_step. eapply wp_getBody; [done|]. simpl.
    eapply wp_mono; [by eapply (wp_pipeWrite rank loops depth Hdepth Hmem)|].
    intros n k' (-> & p' & b' & Hh' & _). wp_step. eauto.
  - unfold __objectRead. wp_step. eapply wp_getBody; [done|]. simpl.
    eapply wp_mono; [by eapply (wp_pipeRead rank loops depth Hdepth)|].
    intros res k' (-> & p' & b' & Hh' & _). eauto.
Qed.

(** C35: A pipe is a queue. Any sequence of writes and reads on an open pipe,
    in a consistent system where reallocation does not fail, returns what the
    same sequence returns on a queue of at most 0x10000 bytes: every byte
    accepted is read once and in order, whatever happens to the buffer. The
    invariants of the pipe and of the system hold afterwards. *)
Theorem pipe_refines_queue k o p b q cs :
  holds rank loops k o p b q → Forall call_ok cs →
  wp (run_calls loops depth o cs) k (λ rs k', ∃ p' b',
    rs = (queue_calls q cs).1 ∧ holds rank loops k' o p' b' (queue_calls q cs).2).
Proof.
  intros Hh Hcs. revert k p b q Hh. induction Hcs as [|c cs Hc Hcs IH]; intros k p b q Hh; simpl; wp_step; [eauto|].
  eapply wp_mono; [by eapply run_call_refines|]. intros r k1 (p1 & b1 & -> & Hh1).
  destruct (queue_call q c) as [r q1]. simpl in *. wp_step.
  eapply wp_mono; [by eapply IH|]. intros rs k2 (p2 & b2 & -> & Hh2).
  destruct (queue_calls q1 cs) as [rs q2]. wp_step. eauto.
Qed.
End Refinement.

(** ** Blocking on a full or an empty pipe *)

(** C36: Waking up the other side of an open pipe, in a consistent system where
    reallocation does not fail. A write that leaves bytes in the pipe wakes up every
    waiter that waits to read, with the number of bytes as its result; a read that
    leaves room in it every waiter that waits to write, with the room: the queue is
    empty, the threads that were in it are in the list of runnable threads, and the
    sub events that were in it have woken up the waiters of their events ([wakes],
    [roused]). *)
Theorem pipe_wakes_up {mem} `{Memory mem} `{Machine mem} (rank : oid → nat) loops depth (k : kernel mem) o p b q buf len :
  (∀ o, (rank o < depth)%nat) → (∀ m a n, wp (heapReAlloc a n) m (λ r _, is_Some r)) →
  holds rank loops k o p b q → is_u32 (lenZ buf) → is_u32 len →
  wp (@__pipeWrite _ _ (methods loops depth) o buf (lenZ buf)) k (λ n k',
    q ++ take (Z.to_nat n) buf ≠ [] → wakes (ReadWaiters o) (lenZ (q ++ take (Z.to_nat n) buf)) k k') ∧
  wp (@__pipeRead _ _ (methods loops depth) o len) k (λ _ k',
    lenZ (drop (Z.to_nat len) q) < MAX_PIPE_BUFFER_SIZE →
    wakes (WriteWaiters o) (MAX_PIPE_BUFFER_SIZE - lenZ (drop (Z.to_nat len) q)) k k').
Proof.
  intros Hdepth Hmem Hh Hbuf Hlen. split.
  - eapply wp_mono; [by eapply (wp_pipeWrite rank loops depth Hdepth Hmem)|]. by intros n k' (_ & p' & b' & _ & Hq).
  - eapply wp_mono; [by eapply (wp_pipeRead rank loops depth Hdepth)|]. by intros res k' (_ & p' & b' & _ & Hq).
Qed.

(** ** An example

    Pipe 90 holds two bytes; thread 11 waits to read from it. *)

Definition pipe_block : block Z := Block 91 (7 :: 8 :: 9 :: replicate 4093 0).
Definition pipe_fields : pipe := PipeFields (Some pipe_block) 0x1000 3 1 true.

Definition pipe_kernel : kernel heap := sample_kernel
  [(11, sample_thread true (Some 30)); (90, Object 1 (Pipe pipe_fields))]
  [(ThreadList, []); (TimerList, []); (Waiters 11, []); (WriteWaiters 90, []); (ReadWaiters 90, [Entry 11])].

Lemma pipe_kernel_holds : holds (λ _, 0%nat) 16 pipe_kernel 90 pipe_fields pipe_block [8; 9].
Proof.
  constructor; try done; try (by eexists).
  - apply wf_check_sound. vm_compute. reflexivity.
  - vm_compute. lia.
  - constructor; simpl; [done|unfold sizes; set_solver|by vm_compute|lia].
Qed.

Lemma sample_realloc_ok (m : heap) a n : wp (heapReAlloc a n) m (λ r _, is_Some r).
Proof. unfold wp. simpl. eauto. Qed.

Lemma pipe_refines_queue_witness :
  wp (run_calls 16 1 90 [ReadCall 1; WriteCall [5; 6]; ReadCall 10]) pipe_kernel (λ rs k', ∃ p' b',
    rs = [(1, [8]); (2, []); (3, [9; 5; 6])] ∧ holds (λ _, 0%nat) 16 k' 90 p' b' []).
Proof.
  refine (pipe_refines_queue (λ _, 0%nat) 16 1 (λ _, Nat.lt_0_succ 0) sample_realloc_ok pipe_kernel 90 pipe_fields
    pipe_block [8; 9] [ReadCall 1; WriteCall [5; 6]; ReadCall 10] pipe_kernel_holds _).
  repeat constructor; vm_compute; discriminate.
Defined.

Lemma pipe_wakes_up_witness :
  wp (@__pipeWrite _ _ (methods 16 1) 90 [5; 6] 2) pipe_kernel (λ n k',
    [8; 9] ++ take (Z.to_nat n) [5; 6] ≠ [] → wakes (ReadWaiters 90) (lenZ ([8; 9] ++ take (Z.to_nat n) [5; 6])) pipe_kernel k') ∧
  wp (@__pipeRead _ _ (methods 16 1) 90 1) pipe_kernel (λ _ k',
    lenZ (drop 1 [8; 9]) < MAX_PIPE_BUFFER_SIZE → wakes (WriteWaiters 90) (MAX_PIPE_BUFFER_SIZE - lenZ (drop 1 [8; 9])) pipe_kernel k').
Proof.
  refine (pipe_wakes_up (λ _, 0%nat) 16 1 pipe_kernel 90 pipe_fields pipe_block [8; 9] [5; 6] 1
    (λ _, Nat.lt_0_succ 0) sample_realloc_ok pipe_kernel_holds _ _); vm_compute; split; (done || discriminate).
Defined.
