(* ===== verification/FileProofs.v ===== *)
(** * Opened files as positions in one sequence of bytes

    Several openings of one file share its bytes and have a position each. The
    file's bytes are in a buffer of the heap, in the boot module or nowhere, and
    the buffer moves when the file grows; the specification only has the bytes. *)

From S2P Require Import Prelude LinkedList Console Kernel Thread FileSystem Dispatch Waiting Sample.
Open Scope Z_scope.

(** ** The specification *)

Record afile := AFile {
  a_bytes : list Z;
  a_pos : gmap oid Z;       (* the position of every opening *)
}.

Inductive file_call :=
  | FWrite (h : oid) (buf : list Z)
  | FRead (h : oid) (len : Z)
  | FSeek (h : oid) (pos : Z)
  | FTruncate (h : oid)
  | FSize (h : oid)
  | FTell (h : oid).

(** Bytes written behind the end leave a gap of zeros. *)
Definition file_write (bytes : list Z) (pos : Z) (buf : list Z) : list Z :=
  match buf with
  | [] => bytes
  | _ =>
      let n := Z.to_nat pos in
      let padded := resize (length bytes `max` (n + length buf)) 0 bytes in
      take n padded ++ buf ++ drop (n + length buf) padded
  end.

Definition file_read (bytes : list Z) (pos len : Z) : list Z := take (Z.to_nat len) (drop (Z.to_nat pos) bytes).

(** A call with its result and the bytes it hands out. When the memory for a file
    that has to grow is not there, and [plenty] memory was not promised, the
    bytes that still fit are written, or none. *)
Inductive file_step (plenty : bool) : afile → file_call → Z * list Z → afile → Prop :=
  | step_write bs ps h pos buf : ps !! h = Some pos →
      file_step plenty (AFile bs ps) (FWrite h buf) (i32 (lenZ buf), [])
        (AFile (file_write bs pos buf) (<[h := pos + lenZ buf]> ps))
  | step_write_short bs ps h pos buf n : ps !! h = Some pos → plenty = false →
      lenZ bs < pos + lenZ buf → n = 0 ∨ n = lenZ bs - pos → 0 ≤ n →
      file_step plenty (AFile bs ps) (FWrite h buf) (i32 n, [])
        (AFile (file_write bs pos (take (Z.to_nat n) buf)) (<[h := pos + n]> ps))
  | step_read bs ps h pos len : ps !! h = Some pos → pos < lenZ bs →
      file_step plenty (AFile bs ps) (FRead h len) (i32 (lenZ (file_read bs pos len)), file_read bs pos len)
        (AFile bs (<[h := pos + lenZ (file_read bs pos len)]> ps))
  | step_read_end bs ps h pos len : ps !! h = Some pos → lenZ bs ≤ pos →
      file_step plenty (AFile bs ps) (FRead h len) (-1, []) (AFile bs ps)
  | step_seek bs ps h p pos : ps !! h = Some p →
      file_step plenty (AFile bs ps) (FSeek h pos) (0, []) (AFile bs (<[h := pos]> ps))
  | step_truncate bs ps h pos : ps !! h = Some pos →
      file_step plenty (AFile bs ps) (FTruncate h) (0, []) (AFile (take (Z.to_nat pos) bs) ps)
  | step_size bs ps h pos : ps !! h = Some pos →
      file_step plenty (AFile bs ps) (FSize h) (i32 (lenZ bs), []) (AFile bs ps)
  | step_tell bs ps h pos : ps !! h = Some pos →
      file_step plenty (AFile bs ps) (FTell h) (i32 pos, []) (AFile bs ps).

Inductive file_steps (plenty : bool) : afile → list file_call → list (Z * list Z) → afile → Prop :=
  | steps_nil a : file_steps plenty a [] [] a
  | steps_cons a c r a' cs rs a'' : file_step plenty a c r a' → file_steps plenty a' cs rs a'' →
      file_steps plenty a (c :: cs) (r :: rs) a''.

(** The calls use openings of the file and 32-bit numbers, and no write ends
    behind the last address that 32 bits can count. *)
Definition call_ok (a : afile) (c : file_call) : Prop :=
  match c with
  | FWrite h buf => ∃ pos, a_pos a !! h = Some pos ∧ pos + lenZ buf < 2 ^ 32
  | FRead h len => is_Some (a_pos a !! h) ∧ is_u32 len
  | FSeek h pos => is_Some (a_pos a !! h) ∧ is_u32 pos
  | FTruncate h | FSize h | FTell h => is_Some (a_pos a !! h)
  end.

Fixpoint calls_ok (plenty : bool) (a : afile) (cs : list file_call) : Prop :=
  match cs with
  | [] => True
  | c :: cs => call_ok a c ∧ ∀ r a', file_step plenty a c r a' → calls_ok plenty a' cs
  end.

(** ** Bytes *)

Lemma length_file_write bytes pos buf : 0 ≤ pos → buf ≠ [] →
  lenZ (file_write bytes pos buf) = lenZ bytes `max` (pos + lenZ buf).
Proof.
  intros Hp Hb. unfold file_write. destruct buf as [|x buf]; [done|]. set (l := x :: buf).
  rewrite !length_app, length_take, length_drop, length_resize. lia.
Qed.

(** Writing inside the file. *)
Lemma file_write_inside bytes pos buf : 0 ≤ pos → pos + lenZ buf ≤ lenZ bytes →
  file_write bytes pos buf = take (Z.to_nat pos) bytes ++ buf ++ drop (Z.to_nat pos + length buf) bytes.
Proof.
  intros Hp Hl. unfold file_write. destruct buf as [|x buf]; [by rewrite Nat.add_0_r; simpl; rewrite take_drop|].
  set (l := x :: buf) in *. by rewrite Nat.max_l, resize_all by lia.
Qed.

(** Writing over the end. *)
Lemma file_write_over bytes pos buf : 0 ≤ pos → buf ≠ [] → lenZ bytes ≤ pos + lenZ buf →
  file_write bytes pos buf = take (Z.to_nat pos) (resize (Z.to_nat (pos + lenZ buf)) 0 bytes) ++ buf.
Proof.
  intros Hp Hb Hl. unfold file_write. destruct buf as [|x buf]; [done|]. set (l := x :: buf) in *.
  rewrite Nat.max_r by lia. replace (Z.to_nat (pos + lenZ l)) with (Z.to_nat pos + length l)%nat by lia.
  rewrite (drop_ge _ (Z.to_nat pos + _)) by (rewrite length_resize; lia). by rewrite app_nil_r.
Qed.

(** What is read back is what was written. *)
Lemma file_read_write bytes pos buf : 0 ≤ pos → file_read (file_write bytes pos buf) pos (lenZ buf) = buf.
Proof.
  intros Hp. unfold file_read, file_write. destruct buf as [|x buf]; [done|]. set (l := x :: buf).
  rewrite drop_app_ge by (rewrite length_take; lia). rewrite length_take, length_resize.
  replace (Z.to_nat pos - _)%nat with 0%nat by lia. rewrite drop_0, take_app_le by lia. by rewrite Nat2Z.id, firstn_all.
Qed.

(** ** The representation *)

Record represents (fl : file) (bs : list Z) : Prop := {
  rp_size : f_size fl = lenZ bs;
  rp_u32 : is_u32 (f_size fl);
  rp_bytes : match f_buffer fl with
             | Some b => f_size fl ≤ lenZ (b_data b) ∧ take (Z.to_nat (f_size fl)) (b_data b) = bs
             | None => bs = []
             end;
}.

(** Growing the buffer. *)
Lemma represents_grow fl bs a need : represents fl bs → is_u32 need → f_size fl < need →
  represents (file_with_data true (Some (Block a (grown_data bs need))) need fl) (resize (Z.to_nat need) 0 bs).
Proof.
  intros [Hs _ _] Hn Hlt. unfold is_u32, grown_data in *. constructor; simpl; [rewrite length_resize; lia|done|].
  rewrite length_resize. split; [lia|]. rewrite firstn_all2; [done|]. rewrite length_resize. lia.
Qed.

(** Overwriting bytes of the buffer. *)
Lemma represents_overwrite fl bs b pos buf : represents fl bs → f_buffer fl = Some b → 0 ≤ pos → pos + lenZ buf ≤ lenZ bs →
  ∃ data, overwrite (b_data b) pos buf = Some data ∧
    represents (file_with_data (f_isHeap fl) (Some (Block (b_addr b) data)) (f_size fl) fl) (file_write bs pos buf).
Proof.
  intros [Hs Hu Hb] Eb Hp Hl. rewrite Eb in Hb. destruct Hb as [Hd <-].
  rewrite length_take in Hl. assert (pos + lenZ buf ≤ f_size fl) as Hfit by lia.
  unfold overwrite. rewrite (proj2 (Z.leb_le 0 pos)), (proj2 (Z.leb_le (pos + _) _)) by lia. simpl.
  eexists. split; [done|]. rewrite file_write_inside by (rewrite ?length_take; lia).
  constructor; simpl; [|done|].
  - rewrite !length_app, !length_take, length_drop, length_take. lia.
  - split; [rewrite !length_app, length_take, length_drop; lia|].
    rewrite take_app_ge by (rewrite length_take; lia). rewrite take_app_ge by (rewrite length_take; lia).
    rewrite take_take, length_take, skipn_firstn_comm. f_equal; [f_equal; lia|]. f_equal. f_equal. lia.
Qed.

Section Calls.
Context {mem : Type} `{Memory mem} `{Machine mem} `{Methods mem} (plenty : bool).
Context (Halloc : ∀ (m : mem) n, wp (heapAlloc n) m (λ r _, plenty = true → is_Some r)).
Context (Hrealloc : ∀ (m : mem) a n, wp (heapReAlloc a n) m (λ r _, plenty = true → n ≠ 0 → is_Some r)).
Implicit Types k : kernel mem.

(** File [f] and its openings in the kernel. *)
Record holds_file k (f : oid) (a : afile) : Prop := {
  hf_file : ∃ r fl, objs k !! f = Some (Object r (File fl)) ∧ represents fl (a_bytes a);
  hf_opened : ∀ h pos, a_pos a !! h = Some pos →
    is_u32 pos ∧ ∃ r, objs k !! h = Some (Object r (OpenedFile (OpenedFileFields f pos)));
}.

(** Nothing but the file and its openings is different. *)
Definition others_kept (f : oid) (a : afile) k k' : Prop :=
  qs k' = qs k ∧ ∀ o, o ≠ f → a_pos a !! o = None → objs k' !! o = objs k !! o.

Lemma holds_objs k k' f a : objs k' = objs k → holds_file k f a → holds_file k' f a.
Proof. intros E [Hf Ho]. split; by rewrite E. Qed.

Lemma holds_put_file k f r fl fl' bs bs' ps m : holds_file k f (AFile bs ps) → objs k !! f = Some (Object r (File fl)) →
  represents fl' bs' →
  holds_file (set_objs (<[f := Object r (File fl')]> (objs k)) (set_memory m k)) f (AFile bs' ps).
Proof.
  intros [_ Ho] Hf Hr. constructor; simpl.
  - exists r, fl'. by rewrite lookup_insert_eq.
  - intros h pos Hh. destruct (Ho h pos Hh) as (Hu & rh & Hh'). split; [done|]. exists rh.
    rewrite lookup_insert_ne; [done|]. intros <-. by simplify_eq.
Qed.

Lemma holds_put_pos k f r bs ps h pos pos' : holds_file k f (AFile bs ps) → ps !! h = Some pos →
  objs k !! h = Some (Object r (OpenedFile (OpenedFileFields f pos))) → is_u32 pos' →
  holds_file (set_objs (<[h := Object r (OpenedFile (OpenedFileFields f pos'))]> (objs k)) k) f (AFile bs (<[h := pos']> ps)).
Proof.
  intros [(rf & fl & Hf & Hr) Ho] Hh Hoh Hu. constructor; simpl.
  - exists rf, fl. rewrite lookup_insert_ne; [done|]. intros ->. by simplify_eq.
  - intros g p [[-> ->]|[Hne Hg]]%lookup_insert_Some; [split; [done|]; exists r; by rewrite lookup_insert_eq|].
    rewrite lookup_insert_ne by done. by apply (Ho g p Hg).
Qed.

(** The bytes are copied, and the position moves on. *)
Lemma wp_store_bytes k f r bs ps h pos n buf (Q : Z → kernel mem → Prop) :
  holds_file k f (AFile bs ps) → ps !! h = Some pos →
  objs k !! h = Some (Object r (OpenedFile (OpenedFileFields f pos))) → 
  0 < n ≤ lenZ buf → pos + n ≤ lenZ bs →
  (∀ k', holds_file k' f (AFile (file_write bs pos (take (Z.to_nat n) buf)) (<[h := pos + n]> ps)) →
     others_kept f (AFile bs ps) k k' → Q (i32 n) k') →
  wp (let* f' := pointee as_file f in
      let* b := deref (f_buffer f') "memcpy to a null pointer" in
      if n <=? lenZ buf then
        let* data := deref (overwrite (b_data b) pos (take (Z.to_nat n) buf)) "memcpy: out of the file" in
        modify_file f (file_with_data (f_isHeap f') (Some (Block (b_addr b) data)) (f_size f')) ;;
        putBody h (OpenedFile (OpenedFileFields f (u32 (pos + n)))) ;;
        mret (i32 n)
      else undef "memcpy: out of the source") k Q.
Proof.
  intros Hk Hh Hoh Hn Hl HQ. pose proof Hk as [(rf & fl & Hf & Hr) Ho]. simpl in Hr.
  destruct (Ho h pos Hh) as [Hu _]. unfold is_u32 in Hu.
  wp_step. eapply wp_pointee; [done|done|]. pose proof Hr as [Hs Hsu Hb]. unfold is_u32 in Hsu.
  destruct (f_buffer fl) as [b|] eqn:Eb; [|subst bs; simpl in Hl; lia].
  destruct (represents_overwrite fl bs b pos (take (Z.to_nat n) buf) Hr Eb) as (data & Ed & Hr');
    [lia|rewrite length_take; lia|].
  wp_step. eapply wp_deref; [done|]. rewrite (proj2 (Z.leb_le _ _)) by lia.
  wp_step. eapply wp_deref; [exact Ed|]. unfold modify_file.
  wp_step. wp_step. eapply wp_pointee; [done|done|]. eapply wp_putBody; [done|]. cbn [refcount].
  pose proof (holds_put_file k f rf fl _ bs _ ps (memory k) Hk Hf Hr') as Hk1.
  set (k1 := set_objs _ k). change (holds_file k1 f (AFile (file_write bs pos (take (Z.to_nat n) buf)) ps)) in Hk1.
  assert (h ≠ f) as Hne by (intros ->; by simplify_eq).
  assert (objs k1 !! h = Some (Object r (OpenedFile (OpenedFileFields f pos)))) as Hoh1 by (simpl; by rewrite lookup_insert_ne).
  wp_step. eapply wp_putBody; [exact Hoh1|]. cbn [refcount]. rewrite (u32_small (pos + n)) by (unfold is_u32; lia).
  wp_step. apply HQ.
  - by apply holds_put_pos with (pos := pos); [..|unfold is_u32; lia].
  - split; [done|]. simpl. intros o Hof Hps. rewrite !lookup_insert_ne; [done|done|]. intros ->. congruence.
Qed.

(** Writing. *)
Lemma wp_openedFileWrite k f a h pos buf :
  holds_file k f a → a_pos a !! h = Some pos → pos + lenZ buf < 2 ^ 32 →
  wp (__openedFileWrite h buf (lenZ buf)) k (λ n k', ∃ a',
    file_step plenty a (FWrite h buf) (n, []) a' ∧ holds_file k' f a' ∧ others_kept f a k k').
Proof.
  destruct a as [bs ps]. intros Hk Hh Hfit. simpl in Hh. pose proof Hk as [(rf & fl & Hf & Hr) Ho]. simpl in Hr.
  destruct (Ho h pos Hh) as (Hu & r & Hoh). unfold is_u32 in Hu. pose proof Hr as [Hs Hsu Hb]. unfold is_u32 in Hsu.
  unfold __openedFileWrite. wp_step. eapply wp_container; [done|done|]. cbn [of_file of_pos].
  wp_step. eapply wp_pointee; [done|done|]. destruct (Z.eqb_spec (lenZ buf) 0) as [Hz|Hz].
  { wp_step. exists (AFile bs ps). destruct buf; [|by simpl in Hz]. split; [|by split].
    pose proof (step_write plenty bs ps h pos [] Hh) as Hstep. simpl in Hstep.
    by rewrite Z.add_0_r, insert_id in Hstep. }
  rewrite (u32_small (pos + _)) by (unfold is_u32; lia). wp_step.
  destruct (Z.ltb_spec (f_size fl) (pos + lenZ buf)) as [Hgrow|Hin].
  2: { wp_step. apply (wp_store_bytes k f r bs ps h pos (lenZ buf) buf); [done..|lia|lia|]. intros k' Hk' Hoth.
       rewrite Nat2Z.id, firstn_all in Hk'. eexists. split; [by constructor|done]. }
  wp_step. eapply (wp_mono _ _ (λ r k', (plenty = true → is_Some r) ∧ ∃ m, k' = set_memory m k)).
  { destruct (f_buffer fl) as [b|]; [destruct (f_isHeap fl)|]; apply wp_zoom;
      (eapply wp_mono; [apply Halloc || apply Hrealloc|]); intros x m Hx; (split; [|by eexists]); intros Hpl; apply Hx; (done || lia). }
  intros [addr|] ? [Hok [m ->]].
  - wp_step. unfold modify_file. wp_step. eapply wp_pointee; [done|done|]. eapply wp_putBody; [done|]. cbn [refcount].
    wp_step. pose proof (represents_grow fl bs addr (pos + lenZ buf) Hr ltac:(unfold is_u32; lia) ltac:(lia)) as Hr'.
    assert (match f_buffer fl with Some b => take (Z.to_nat (f_size fl)) (b_data b) | None => [] end = bs) as ->
      by (destruct (f_buffer fl); [by destruct Hb|done]).
    pose proof (holds_put_file k f rf fl _ bs _ ps m Hk Hf Hr') as Hk1.
    assert (h ≠ f) as Hne by (intros ->; by simplify_eq).
    eapply wp_store_bytes; [exact Hk1|exact Hh|simpl; by rewrite lookup_insert_ne|lia|rewrite length_resize; lia|].
    intros k' Hk' [Hq Hoth]. eexists. split; [by constructor|]. split.
    + rewrite Nat2Z.id, firstn_all in Hk'. rewrite file_write_over by (try lia; intros ->; done).
      rewrite file_write_inside in Hk' by (rewrite ?length_resize; lia).
      rewrite (drop_ge _ (_ + _)) in Hk' by (rewrite length_resize; lia). by rewrite app_nil_r in Hk'.
    + split; [done|]. intros o Hof Hps. rewrite Hoth by done. simpl. by rewrite lookup_insert_ne.
  - assert (plenty = false) as Hpl by (destruct plenty; [by destruct Hok|done]). set (k1 := set_memory m k).
    assert (holds_file k1 f (AFile bs ps)) as Hk1 by (by apply (holds_objs k)).
    destruct (f_isHeap fl && (pos <? f_size fl)) eqn:E.
    + apply andb_true_iff in E as [_ E%Z.ltb_lt]. wp_step. wp_step; [apply Z.ltb_lt; lia|]. wp_step.
      apply (wp_store_bytes k1 f r bs ps h pos (f_size fl - pos) buf); [done..|lia|lia|]. intros k' Hk' Hoth.
      eexists. split; [|split; [exact Hk'|exact Hoth]]. constructor; try done; lia.
    + wp_step. wp_step. exists (AFile bs ps). split; [|by split].
      pose proof (step_write_short plenty bs ps h pos buf 0 Hh Hpl ltac:(lia) (or_introl eq_refl) ltac:(lia)) as Hstep.
      simpl in Hstep. by rewrite Z.add_0_r, insert_id in Hstep.
Qed.

Lemma others_kept_put k f bs ps h pos r b :
  ps !! h = Some pos → others_kept f (AFile bs ps) k (set_objs (<[h := Object r b]> (objs k)) k).
Proof. intros Hh. split; [done|]. simpl. intros o _ Hps. rewrite lookup_insert_ne; [done|]. intros ->. congruence. Qed.

(** Reading. *)
Lemma wp_openedFileRead k f a h len :
  holds_file k f a → is_Some (a_pos a !! h) → is_u32 len →
  wp (__openedFileRead h len) k (λ res k', ∃ a',
    file_step plenty a (FRead h len) res a' ∧ holds_file k' f a' ∧ others_kept f a k k').
Proof.
  destruct a as [bs ps]. intros Hk [pos Hh] Hlen. simpl in Hh. pose proof Hk as [(rf & fl & Hf & Hr) Ho]. simpl in Hr.
  destruct (Ho h pos Hh) as (Hu & r & Hoh). unfold is_u32 in Hu, Hlen. pose proof Hr as [Hs Hsu Hb]. unfold is_u32 in Hsu.
  unfold __openedFileRead. wp_step. eapply wp_container; [done|done|]. cbn [of_file of_pos].
  wp_step. eapply wp_pointee; [done|done|]. destruct (Z.leb_spec (f_size fl) pos) as [Hend|Hin].
  { wp_step. exists (AFile bs ps). split; [|by split]. apply (step_read_end plenty bs ps h pos len Hh). lia. }
  rewrite u32_small by (unfold is_u32; lia). set (n := if f_size fl - pos <? len then f_size fl - pos else len).
  assert (n = lenZ (file_read bs pos len) ∧ 0 ≤ n) as [En Hn].
  { unfold file_read, n. rewrite length_take, length_drop. destruct (Z.ltb_spec (f_size fl - pos) len); lia. }
  pose proof (step_read plenty bs ps h pos len Hh ltac:(lia)) as Hstep. rewrite <-En in Hstep.
  assert (n ≤ f_size fl - pos) as Hle by (subst n; destruct (Z.ltb_spec (f_size fl - pos) len); lia).
  destruct (Z.ltb_spec 0 n) as [Hpos|Hneg].
  - destruct (f_buffer fl) as [b|] eqn:Eb; [|subst bs; simpl in Hs; lia]. destruct Hb as [Hd Hbs].
    wp_step. eapply wp_deref; [done|]. rewrite (proj2 (Z.leb_le _ _)) by lia.
    wp_step. eapply wp_putBody; [exact Hoh|]. rewrite (u32_small (pos + n)) by (unfold is_u32; lia). wp_step.
    assert (take (Z.to_nat n) (drop (Z.to_nat pos) (b_data b)) = file_read bs pos len) as ->.
    { transitivity (take (Z.to_nat n) (drop (Z.to_nat pos) bs)).
      - rewrite <-Hbs, skipn_firstn_comm, take_take. f_equal. lia.
      - unfold file_read, n. destruct (Z.ltb_spec (f_size fl - pos) len); [|done].
        rewrite !firstn_all2; [done|rewrite length_drop; lia..]. }
    eexists. split; [exact Hstep|]. split; [eapply holds_put_pos; [done..|unfold is_u32; lia]|].
    by eapply others_kept_put.
  - wp_step. eexists. assert (n = 0) as E0 by lia. rewrite E0 in En, Hstep |- *.
    assert (file_read bs pos len = []) as Er by (apply length_zero_iff_nil; lia). rewrite Er in Hstep.
    rewrite Z.add_0_r, insert_id in Hstep by done. split; [exact Hstep|by split].
Qed.

(** Truncating. *)
Lemma wp_openedFileShutdown k f a h mode :
  holds_file k f a → is_Some (a_pos a !! h) →
  wp (__openedFileShutdown h mode) k (λ _ k', ∃ a',
    file_step plenty a (FTruncate h) (0, []) a' ∧ holds_file k' f a' ∧ others_kept f a k k').
Proof.
  destruct a as [bs ps]. intros Hk [pos Hh]. simpl in Hh. pose proof Hk as [(rf & fl & Hf & Hr) Ho]. simpl in Hr.
  destruct (Ho h pos Hh) as (Hu & r & Hoh). unfold is_u32 in Hu. pose proof Hr as [Hs Hsu Hb]. unfold is_u32 in Hsu.
  unfold __openedFileShutdown. wp_step. eapply wp_container; [done|done|]. cbn [of_file of_pos].
  wp_step. eapply wp_pointee; [done|done|]. pose proof (step_truncate plenty bs ps h pos Hh) as Hstep.
  apply wp_when; [intros Hlt%Z.ltb_lt|intros Hge%Z.ltb_ge].
  2: { eexists. split; [exact Hstep|]. rewrite firstn_all2 by lia. by split. }
  wp_step. eapply (wp_mono _ _ (λ b' k', (∃ m, k' = set_memory m k) ∧ represents (file_with_data (f_isHeap fl) b' pos fl) (take (Z.to_nat pos) bs))).
  { assert (∀ b, pos ≤ lenZ (b_data b) → take (Z.to_nat pos) (b_data b) = take (Z.to_nat pos) bs →
      represents (file_with_data (f_isHeap fl) (Some b) pos fl) (take (Z.to_nat pos) bs)) as Hrep.
    { intros b Hl Eb. constructor; simpl; [rewrite length_take; lia|done|by split]. }
    assert (∀ m : mem, ∃ m', set_memory m k = set_memory m' k) as Hm by (intros m; by exists m).
    destruct (f_buffer fl) as [b|] eqn:Eb; [|subst bs; simpl in Hs; lia]. destruct Hb as [Hd Hbs].
    assert (take (Z.to_nat pos) (b_data b) = take (Z.to_nat pos) bs) as Hpre by (rewrite <-Hbs, take_take; f_equal; lia).
    destruct (f_isHeap fl); [|wp_step; split; [by exists (memory k); destruct k|apply Hrep; [lia|done]]].
    wp_step. apply wp_zoom. eapply wp_mono; [apply Hrealloc|]. intros [a|] m _; wp_step; (split; [apply Hm|]).
    - apply Hrep; simpl; [rewrite length_take; lia|]. by rewrite take_take, Nat.min_id.
    - destruct (Z.eqb_spec pos 0) as [->|]; [|apply Hrep; [lia|done]]. by constructor. }
  intros b' ? [[m ->] Hr']. unfold modify_file. wp_step. eapply wp_pointee; [done|done|]. eapply wp_putBody; [done|]. cbn [refcount].
  eexists. split; [exact Hstep|]. split; [exact (holds_put_file k f rf fl _ bs _ ps m Hk Hf Hr')|].
  split; [done|]. simpl. intros o Hof _. by rewrite lookup_insert_ne.
Qed.

(** ** The refinement *)

(** The calls as the file operations of a process make them, through the function
    tables. Calls without a result return 0 here. *)
Definition run_file_call (c : file_call) : KM mem (Z * list Z) :=
  match c with
  | FWrite h buf => let* n := __objectWrite h buf (lenZ buf) in mret (n, [])
  | FRead h len => __objectRead h len
  | FSeek h pos => call_signal h pos ;; mret (0, [])
  | FTruncate h => call_shutdown h 0 ;; mret (0, [])
  | FSize h => let* n := __objectGetStatus h 0 in mret (n, [])
  | FTell h => let* n := __objectGetStatus h 1 in mret (n, [])
  end.

Fixpoint run_file_calls (cs : list file_call) : KM mem (list (Z * list Z)) :=
  match cs with
  | [] => mret []
  | c :: cs => let* r := run_file_call c in let* rs := run_file_calls cs in mret (r :: rs)
  end.

Lemma run_file_call_refines k f a c :
  holds_file k f a → call_ok a c →
  wp (run_file_call c) k (λ r k', ∃ a', file_step plenty a c r a' ∧ holds_file k' f a' ∧ others_kept f a k k').
Proof.
  intros Hk Hc. pose proof Hk as [(rf & fl & Hf & Hr) Ho].
  assert (∀ h pos, a_pos a !! h = Some pos → ∃ r, objs k !! h = Some (Object r (OpenedFile (OpenedFileFields f pos)))) as Hop
    by (intros h pos Hh; by destruct (Ho h pos Hh) as [_ ?]).
  destruct c as [h buf|h len|h pos|h|h|h]; simpl in Hc.
  - destruct Hc as (pos & Hh & Hfit). destruct (Hop h pos Hh) as [r Hoh].
    unfold run_file_call, __objectWrite. wp_step. wp_step. eapply wp_getBody; [done|]. simpl.
    eapply wp_mono; [by eapply wp_openedFileWrite|]. intros n k' (a' & Hstep & Hk'). wp_step. eauto.
  - destruct Hc as [[pos Hh] Hlen]. destruct (Hop h pos Hh) as [r Hoh].
    unfold run_file_call, __objectRead. wp_step. eapply wp_getBody; [done|]. simpl. by apply wp_openedFileRead.
  - destruct Hc as [[p Hh] Hpos]. destruct (Hop h p Hh) as [r Hoh]. destruct a as [bs ps].
    unfold run_file_call, call_signal, __openedFileSignal. wp_step. wp_step. eapply wp_getBody; [done|]. simpl.
    wp_step. eapply wp_container; [done..|]. eapply wp_putBody; [done|]. cbn [refcount of_file]. wp_step.
    eexists. split; [by eapply step_seek|]. split; [by eapply holds_put_pos|by eapply others_kept_put].
  - destruct Hc as [pos Hh]. destruct (Hop h pos Hh) as [r Hoh].
    unfold run_file_call, call_shutdown. wp_step. wp_step. eapply wp_getBody; [done|]. simpl.
    eapply wp_mono; [by eapply wp_openedFileShutdown|]. intros n k' (a' & Hstep & Hk'). wp_step. eauto.
  - destruct Hc as [pos Hh]. destruct (Hop h pos Hh) as [r Hoh]. destruct a as [bs ps].
    unfold run_file_call, __objectGetStatus, __openedFileGetStatus. wp_step. wp_step. eapply wp_getBody; [done|]. simpl.
    wp_step. eapply wp_container; [done..|]. wp_step. eapply wp_pointee; [done..|]. wp_step. wp_step.
    rewrite (rp_size _ _ Hr). eexists. split; [by eapply step_size|by split].
  - destruct Hc as [pos Hh]. destruct (Hop h pos Hh) as [r Hoh]. destruct a as [bs ps].
    unfold run_file_call, __objectGetStatus, __openedFileGetStatus. wp_step. wp_step. eapply wp_getBody; [done|]. simpl.
    wp_step. eapply wp_container; [done..|]. wp_step. wp_step. eexists. split; [by eapply step_tell|by split].
Qed.

Lemma file_step_dom a c r a' o : file_step plenty a c r a' → a_pos a' !! o = None ↔ a_pos a !! o = None.
Proof.
  assert (∀ (ps : gmap oid Z) (h p q : Z), ps !! h = Some p → <[h := q]> ps !! o = None ↔ ps !! o = None) as Hi.
  { intros ps h p q Hh. rewrite lookup_insert_None. split; [by intros [? _]|]. intros Hn. split; [done|]. intros ->. congruence. }
  destruct 1; simpl; try done; by eapply Hi.
Qed.

(** C11: An opened file is a position in a sequence of bytes. Any sequence of
    writes, reads, seeks, truncations and queries through any openings of a file,
    made through the function tables, returns what the same sequence returns on
    one list of bytes with a position per opening, whether the bytes were in the
    boot module, in the heap or nowhere, and wherever the buffer moves. If the
    heap does not fail every write is complete; a write for which the file cannot
    grow writes the bytes that fit or none. No other object and no queue changes. *)
Theorem file_refines_bytes k f a cs :
  holds_file k f a → calls_ok plenty a cs →
  wp (run_file_calls cs) k (λ rs k', ∃ a', file_steps plenty a cs rs a' ∧ holds_file k' f a' ∧ others_kept f a k k').
Proof.
  revert k a. induction cs as [|c cs IH]; intros k a Hk Hcs; simpl.
  { wp_step. exists a. split; [constructor|by split]. }
  destruct Hcs as [Hc Hcs]. wp_step. eapply wp_mono; [by apply run_file_call_refines|].
  intros r k1 (a1 & Hstep & Hk1 & Hq1 & Ho1). wp_step. eapply wp_mono; [by apply IH; [|eapply Hcs]|].
  intros rs k2 (a2 & Hsteps & Hk2 & Hq2 & Ho2). wp_step. exists a2. split; [by econstructor|]. split; [done|].
  split; [congruence|]. intros o Hof Hps. rewrite Ho2, Ho1; [done..|]. by apply (file_step_dom _ _ _ _ _ Hstep).
Qed.
End Calls.

(** ** Writing through one opening and reading through another *)

Definition write_read (h1 h2 : oid) (pos : Z) (buf : list Z) : list file_call :=
  [FWrite h1 buf; FSeek h2 pos; FRead h2 (lenZ buf); FTell h2; FSize h1].

Lemma insert_keeps (ps : gmap oid Z) h h' p : is_Some (ps !! h) → is_Some (<[h' := p]> ps !! h).
Proof. intros Hh. destruct (decide (h = h')) as [->|]; [by rewrite lookup_insert_eq|by rewrite lookup_insert_ne]. Qed.

Lemma write_read_ok bs ps h1 h2 pos buf : ps !! h1 = Some pos → is_Some (ps !! h2) → 0 ≤ pos → pos + lenZ buf < 2 ^ 31 →
  calls_ok true (AFile bs ps) (write_read h1 h2 pos buf).
Proof.
  intros Hh1 Hh2 Hp Hfit. assert (is_Some (ps !! h1)) as Hh1' by eauto.
  split; [exists pos; split; [done|lia]|]. intros r a1 S1. inversion S1; subst; [|done].
  split; [split; [by apply insert_keeps|unfold is_u32; lia]|]. intros r a2 S2. inversion S2; subst.
  split; [split; [by apply insert_keeps, insert_keeps|unfold is_u32; lia]|]. intros r a3 S3.
  inversion S3; subst; (split; [by repeat apply insert_keeps|]); intros r a4 S4; inversion S4; subst;
    (split; [by repeat apply insert_keeps|done]).
Qed.

Lemma write_read_steps bs ps h1 h2 pos buf rs a' : ps !! h1 = Some pos → 0 ≤ pos → buf ≠ [] →
  file_steps true (AFile bs ps) (write_read h1 h2 pos buf) rs a' →
  rs = [(i32 (lenZ buf), []); (0, []); (i32 (lenZ buf), buf); (i32 (pos + lenZ buf), []);
        (i32 (lenZ bs `max` (pos + lenZ buf)), [])] ∧
  a' = AFile (file_write bs pos buf) (<[h2 := pos + lenZ buf]> (<[h2 := pos]> (<[h1 := pos + lenZ buf]> ps))).
Proof.
  intros Hh1 Hp Hne S. assert (0 < lenZ buf) as Hpos by (destruct buf; [done|simpl; lia]).
  pose proof (length_file_write bs pos buf Hp Hne) as Hlen. pose proof (file_read_write bs pos buf Hp) as Hback.
  inversion S as [|? ? ? ? ? ? ? S1 T1]; subst. inversion S1; subst; [|done].
  inversion T1 as [|? ? ? ? ? ? ? S2 T2]; subst. inversion S2; subst.
  inversion T2 as [|? ? ? ? ? ? ? S3 T3]; subst. inversion T3 as [|? ? ? ? ? ? ? S4 T4]; subst.
  inversion T4 as [|? ? ? ? ? ? ? S5 T5]; subst. inversion T5; subst.
  match goal with H : ps !! h1 = Some ?p |- _ => assert (p = pos) as -> by congruence end.
  inversion S3; subst; match goal with H : <[h2 := _]> _ !! h2 = Some _ |- _ => rewrite lookup_insert_eq in H; injection H as <- end; [|lia].
  inversion S4; subst; match goal with H : <[h2 := _]> _ !! h2 = Some _ |- _ => rewrite lookup_insert_eq in H; injection H as <- end.
  inversion S5; subst. by rewrite Hback, Hlen.
Qed.

(** C13: With memory for the file, what is written at a position through one
    opening is what another opening reads at the same position, and this opening
    stands behind it afterwards; a file that was shorter ends there. *)
Theorem file_write_read_roundtrip {mem} `{Memory mem} `{Machine mem} `{Methods mem} (k : kernel mem) f a h1 h2 pos buf :
  (∀ (m : mem) n, wp (heapAlloc n) m (λ r _, is_Some r)) →
  (∀ (m : mem) a n, wp (heapReAlloc a n) m (λ r _, n ≠ 0 → is_Some r)) →
  holds_file k f a → a_pos a !! h1 = Some pos → is_Some (a_pos a !! h2) → buf ≠ [] →
  lenZ (a_bytes a) < 2 ^ 31 → pos + lenZ buf < 2 ^ 31 →
  wp (run_file_calls (write_read h1 h2 pos buf)) k (λ rs k',
    rs = [(lenZ buf, []); (0, []); (lenZ buf, buf); (pos + lenZ buf, []); (lenZ (a_bytes a) `max` (pos + lenZ buf), [])] ∧
    holds_file k' f (AFile (file_write (a_bytes a) pos buf) (<[h2 := pos + lenZ buf]> (<[h2 := pos]> (<[h1 := pos + lenZ buf]> (a_pos a)))))).
Proof.
  intros Ha Hr Hk Hh1 Hh2 Hne Hs Hfit. destruct a as [bs ps]. simpl in *.
  destruct (hf_opened _ _ _ Hk h1 pos Hh1) as [Hu _]. unfold is_u32 in Hu.
  assert (∀ (m : mem) n, wp (heapAlloc n) m (λ r _, true = true → is_Some r)) as Ha' by (intros; by eapply wp_mono).
  assert (∀ (m : mem) a n, wp (heapReAlloc a n) m (λ r _, true = true → n ≠ 0 → is_Some r)) as Hr'
    by (intros; eapply wp_mono; [apply Hr|]; eauto).
  eapply wp_mono; [apply (file_refines_bytes true Ha' Hr' k f _ (write_read h1 h2 pos buf) Hk); apply write_read_ok; (done || lia)|].
  intros rs k' (a' & S & Hk' & _). apply write_read_steps in S as [-> ->]; [|done|lia|done].
  split; [|exact Hk']. by rewrite !i32_small by lia.
Qed.

(** ** An example

    File 50 is part of the boot module and has two openings, 51 at its start and
    52 at its end; the heap never fails. *)

Definition endless_memory : Memory heap := {|
  heapAlloc _ := λ h, let a := above_all (h_live h) in Ok (Some a, Heap ({[a]} ∪ h_live h) (h_budget h) (h_page h));
  heapReAlloc := sample_realloc;
  heapFree := sample_free;
  pagingAllocatePhysMem _ n _ _ := sample_pages n;
  pagingReleasePhysMem _ _ _ := mret tt;
  pagingGetPhysMem _ a := mret (a / 4096);
  pagingMapRemoteMemory _ _ _ _ n _ _ := sample_pages n;
  pagingAllocProcessPageTable _ := sample_pages 1;
  pagingForkProcessPageTable _ _ := sample_pages 1;
  pagingReleaseProcessPageTable _ := mret tt;
  pagingFillProcessInfo _ := mret (0, 0, 0, 0, 0);
|}.
#[local] Existing Instance endless_memory.
#[local] Instance file_methods : Methods heap := methods 16 1.

Definition file_kernel : kernel heap := sample_kernel
  [(50, Object 3 (File (FileFields None None false (Some (Block 0 [1; 2; 3])) 3)));
   (51, Object 1 (OpenedFile (OpenedFileFields 50 0))); (52, Object 1 (OpenedFile (OpenedFileFields 50 3)))]
  [(ThreadList, []); (TimerList, []); (OpenedFiles 50, [Entry 51; Entry 52])].

Definition file_model : afile := AFile [1; 2; 3] {[ 51 := 0; 52 := 3 ]}.

Lemma file_kernel_holds : holds_file file_kernel 50 file_model.
Proof.
  constructor.
  - eexists _, _. split; [reflexivity|]. constructor; simpl; [done|unfold is_u32; lia|by split].
  - intros h pos Hh. unfold file_model in Hh. cbn [a_pos] in Hh. apply lookup_insert_Some in Hh as [[<- <-]|[_ [<- <-]%lookup_singleton_Some]];
      (split; [unfold is_u32; lia|by eexists]).
Qed.

Lemma file_write_read_roundtrip_witness :
  wp (run_file_calls (write_read 52 51 3 [7; 8])) file_kernel (λ rs k',
    rs = [(2, []); (0, []); (2, [7; 8]); (5, []); (5, [])] ∧
    holds_file k' 50 (AFile [1; 2; 3; 7; 8] (<[51 := 5]> (<[51 := 3]> (<[52 := 5]> (a_pos file_model)))))).
Proof.
  refine (file_write_read_roundtrip file_kernel 50 file_model 52 51 3 [7; 8] _ _ file_kernel_holds eq_refl _ _ eq_refl eq_refl);
    [intros m n; unfold wp; simpl; by eauto|intros m a n; unfold wp; simpl; by eauto|by eexists|done].
Defined.

Lemma file_refines_bytes_witness : calls_ok true file_model (write_read 52 51 3 [7; 8]) ∧
  wp (run_file_calls (write_read 52 51 3 [7; 8])) file_kernel (λ rs _,
    rs = [(2, []); (0, []); (2, [7; 8]); (5, []); (5, [])]).
Proof.
  assert (calls_ok true file_model (write_read 52 51 3 [7; 8])) as Hok by (by apply write_read_ok; [|eexists| |]).
  split; [exact Hok|]. eapply wp_mono;
    [refine (file_refines_bytes true _ _ file_kernel 50 file_model _ file_kernel_holds Hok);
     [intros m n; unfold wp; simpl; by eauto|intros m a n; unfold wp; simpl; by eauto]|].
  intros rs k' (a' & S & _). by apply write_read_steps in S as [-> _].
Defined.
