(* ===== verification/ElfProofs.v ===== *)
(** * The loader of executables is correct

    The ranges of pages that the sections need, and the loader over any memory
    that keeps the laws of paging.c's interface. *)

From S2P Require Import Prelude LinkedList Console Kernel Handle Thread Process Elf Sample.
Open Scope Z_scope.

(** ** Ranges of pages *)

(** Not empty, sorted, and with a page between any two. *)
Fixpoint ranges_from (lo : Z) (l : list requiredPages) : Prop :=
  match l with
  | [] => True
  | r :: l => lo < rp_start r ∧ rp_start r < rp_stop r ∧ ranges_from (rp_stop r) l
  end.

Definition ranges_ok (l : list requiredPages) : Prop := ranges_from (-1) l.

Definition covers (l : list requiredPages) (i : Z) : Prop := ∃ r, r ∈ l ∧ rp_start r ≤ i < rp_stop r.

Definition pages_of (l : list requiredPages) : Z := foldr (λ r n, rp_stop r - rp_start r + n) 0 l.
Definition blocks_of (l : list requiredPages) : list oid := rp_node <$> l.

Lemma blocks_cons r l o : o ∈ blocks_of (r :: l) ↔ o = rp_node r ∨ o ∈ blocks_of l.
Proof. unfold blocks_of. by rewrite fmap_cons, elem_of_cons. Qed.

Lemma in_ranges_nil i : ¬ covers [] i.
Proof. by intros (r & ?%not_elem_of_nil & _). Qed.

Lemma in_ranges_app l l' i : covers (l ++ l') i ↔ covers l i ∨ covers l' i.
Proof.
  unfold covers. split.
  - intros (r & [Hr|Hr]%elem_of_app & Hi); [left|right]; eauto.
  - intros [(r & Hr & Hi)|(r & Hr & Hi)]; exists r; rewrite elem_of_app; eauto.
Qed.

Lemma in_ranges_cons r l i : covers (r :: l) i ↔ rp_start r ≤ i < rp_stop r ∨ covers l i.
Proof.
  unfold covers. split.
  - intros (r' & [->|Hr]%elem_of_cons & Hi); [by left|right; eauto].
  - intros [Hi|(r' & Hr & Hi)]; eexists; rewrite elem_of_cons; eauto.
Qed.

Lemma pages_of_app l l' : pages_of (l ++ l') = pages_of l + pages_of l'.
Proof. induction l as [|r l IH]; simpl; lia. Qed.

Lemma ranges_from_le lo lo' l : lo' ≤ lo → ranges_from lo l → ranges_from lo' l.
Proof. destruct l; simpl; [done|]. intros ? (? & ? & ?). split_and!; [lia|done|done]. Qed.

(** The last stop of the ranges in front. *)
Fixpoint end_of (lo : Z) (l : list requiredPages) : Z :=
  match l with [] => lo | r :: l => end_of (rp_stop r) l end.

Lemma ranges_from_app lo l l' : ranges_from lo (l ++ l') ↔ ranges_from lo l ∧ ranges_from (end_of lo l) l'.
Proof. revert lo. induction l as [|r l IH]; intros lo; simpl; [tauto|]. rewrite IH. tauto. Qed.

Lemma end_of_app lo l r : end_of lo (l ++ [r]) = rp_stop r.
Proof. revert lo. induction l as [|x l IH]; intros lo; simpl; [done|apply IH]. Qed.

Lemma pages_of_pos lo l : ranges_from lo l → 0 ≤ pages_of l.
Proof. revert lo. induction l as [|r l IH]; intros lo; simpl; [lia|]. intros (? & ? & Hl). specialize (IH _ Hl). lia. Qed.

#[local] Instance in_ranges_dec l i : Decision (covers l i).
Proof.
  induction l as [|r l IH]; [right; apply in_ranges_nil|].
  destruct (decide (rp_start r ≤ i < rp_stop r)); [left; apply in_ranges_cons; tauto|].
  destruct IH; [left|right]; rewrite in_ranges_cons; tauto.
Defined.

Section Insert.
Context {mem : Type} `{MemoryLaws mem}.
Context (enough : nat → mem → Prop).
Context (Hmore : ∀ n m, enough (S n) m → enough n m).
Context (Halloc : ∀ m n k, enough (S n) m → wp (heapAlloc k) m (λ r m', is_Some r ∧ enough n m')).
Context (Hfree : ∀ m n o, enough n m → o ∈ live m → wp (heapFree o) m (λ _ m', enough n m')).

(** The ranges and their blocks in memory [m]. *)
Record ranges_in (m : mem) (rest : gset oid) (l : list requiredPages) : Prop := {
  ri_ok : ranges_ok l;
  ri_nodup : NoDup (blocks_of l);
  ri_live : ∀ o, o ∈ live m ↔ o ∈ blocks_of l ∨ o ∈ rest;
  ri_apart : ∀ o, o ∈ blocks_of l → o ∉ rest;
}.

Lemma blocks_middle l r l' o : o ∈ blocks_of (l ++ r :: l') ↔ o = rp_node r ∨ o ∈ blocks_of (l ++ l').
Proof. unfold blocks_of. rewrite !fmap_app, fmap_cons, !elem_of_app, elem_of_cons. tauto. Qed.

Lemma nodup_middle l r l' : NoDup (blocks_of (l ++ r :: l')) ↔ (rp_node r ∉ blocks_of (l ++ l')) ∧ NoDup (blocks_of (l ++ l')).
Proof.
  unfold blocks_of. rewrite !fmap_app, fmap_cons, !NoDup_app, NoDup_cons, elem_of_app. setoid_rewrite elem_of_cons.
  split; [intros (? & Hd & ? & ?)|intros (? & ? & Hd & ?)]; naive_solver.
Qed.

Lemma wp_insert_here m n rest seen it start stop (Q : list requiredPages → mem → Prop) :
  ranges_in m rest (seen ++ it) → enough (S n) m →
  end_of (-1) seen < start → start < stop → ranges_from stop it →
  (∀ r m', ranges_in m' rest (seen ++ r :: it) → enough n m' → rp_start r = start → rp_stop r = stop →
     Q (seen ++ r :: it) m') →
  wp (insert_here seen it start stop) m Q.
Proof.
  intros [Hok Hnd Hl Ha] He Hs Hlt Hit HQ. unfold insert_here. wp_step.
  eapply wp_mono; [apply wp_and; [by apply Halloc|apply heapAlloc_spec]|].
  intros [o|] m' [[Hso He'] Ho]; [|by destruct Hso]. destruct Ho as [Hfresh Hl']. wp_step.
  apply HQ; [|done..]. rewrite Hl in Hfresh. constructor.
  - apply ranges_from_app in Hok as [Hok _]. apply ranges_from_app. by split.
  - apply nodup_middle. simpl. tauto.
  - intros o'. rewrite Hl', elem_of_union, elem_of_singleton, Hl, blocks_middle. simpl. tauto.
  - intros o'. rewrite blocks_middle. simpl. intros [->|Ho]; [tauto|by apply Ha].
Qed.

(** A range that is replaced. *)
Lemma wp_drop_range m n rest seen r it (Q : unit → mem → Prop) :
  ranges_in m rest (seen ++ r :: it) → enough n m →
  (∀ m', ranges_in m' rest (seen ++ it) → enough n m' → Q tt m') → wp (heapFree (rp_node r)) m Q.
Proof.
  intros [Hok Hnd Hl Ha] He HQ. apply nodup_middle in Hnd as [Hr Hnd].
  assert (rp_node r ∈ live m) as Hlive by (rewrite Hl, blocks_middle; tauto).
  eapply wp_mono; [apply wp_and; [by apply Hfree|by apply heapFree_spec]|]. intros [] m' [He' Hl'].
  apply HQ; [|done]. constructor; [|done| |].
  - apply ranges_from_app in Hok as (Hok1 & Hs & Ht & Hok2). apply ranges_from_app. split; [done|].
    eapply ranges_from_le; [|done]. lia.
  - intros o. rewrite Hl', elem_of_difference, elem_of_singleton, Hl, blocks_middle.
    split; [tauto|]. intros Ho. split; [tauto|]. intros ->. destruct Ho as [Ho|Ho]; [done|].
    eapply Ha; [|done]. rewrite blocks_middle. tauto.
  - intros o Ho. apply Ha. rewrite blocks_middle. tauto.
Qed.

Lemma wp_insert_pages n rest it : ∀ m seen start stop (Q : list requiredPages → mem → Prop),
  ranges_in m rest (seen ++ it) → enough (S n) m → end_of (-1) seen < start → start < stop →
  (∀ l m', ranges_in m' rest l → enough n m' → (∀ i, covers l i ↔ covers (seen ++ it) i ∨ start ≤ i < stop) →
     pages_of l ≤ pages_of (seen ++ it) + (stop - start) → Q l m') →
  wp (insert_pages seen it start stop) m Q.
Proof.
  induction it as [|r it IH]; intros m seen start stop Q Hin He Hs Hlt HQ; simpl.
  { eapply wp_insert_here; [done..|]. intros r m' Hin' He' <- <-. apply HQ; [done|done| |].
    - intros i. rewrite !in_ranges_app, in_ranges_cons. tauto.
    - rewrite !pages_of_app. simpl. lia. }
  pose proof (ri_ok _ _ _ Hin) as Hok. apply ranges_from_app in Hok as [Hok1 (Hr1 & Hr2 & Hok2)].
  destruct (Z.ltb_spec stop (rp_start r)) as [Hbefore|Hnb].
  { eapply wp_insert_here; [done..|by simpl|]. intros r' m' Hin' He' <- <-. apply HQ; [done|done| |].
    - intros i. rewrite !in_ranges_app, !in_ranges_cons. tauto.
    - rewrite !pages_of_app. simpl. lia. }
  destruct (Z.ltb_spec (rp_stop r) start) as [Hafter|Hna].
  { eapply IH; [|done|by rewrite end_of_app|done|]; rewrite <-?app_assoc; [done|]. exact HQ. }
  destruct ((rp_start r <=? start) && (stop <=? rp_stop r)) eqn:Hinside.
  { apply andb_true_iff in Hinside as [Hle1%Z.leb_le Hle2%Z.leb_le].
    wp_step. apply HQ; [done|by apply Hmore| |lia]. intros i. rewrite in_ranges_app, in_ranges_cons. split; [tauto|].
    intros [?|?]; [done|right; left; lia]. }
  wp_step. eapply wp_drop_range; [done..|]. intros m1 Hin1 He1.
  set (start' := if _ <? start then _ else start). set (stop' := if stop <? _ then _ else stop).
  assert (start' = Z.min (rp_start r) start) as -> by (subst start'; destruct (Z.ltb_spec (rp_start r) start); lia).
  assert (stop' = Z.max (rp_stop r) stop) as -> by (subst stop'; destruct (Z.ltb_spec stop (rp_stop r)); lia).
  eapply IH; [exact Hin1|exact He1|lia|lia|]. intros l m' Hin' He' Hc Hp.
  apply HQ; [done|done| |rewrite !pages_of_app in *; simpl in *; lia].
  intros i. rewrite Hc, !in_ranges_app, in_ranges_cons.
  destruct (decide (covers seen i)); [tauto|]. destruct (decide (covers it i)); [tauto|].
  assert (Z.min (rp_start r) start ≤ i < Z.max (rp_stop r) stop ↔ (rp_start r ≤ i < rp_stop r) ∨ start ≤ i < stop) by lia. tauto.
Qed.
End Insert.

(** ** The memory of a process, as the loader relies on it *)

(** Bytes stored in a memory that is known by its bytes. *)
Definition write_at (addr : Z) (bs : list Z) (u : Z → option Z) : Z → option Z := λ a,
  if (addr <=? a) && (a <? addr + lenZ bs) then bs !! Z.to_nat (a - addr) else u a.

(** The end of the addresses a section can use: the last page is never mapped for one. *)
Definition USER_END : Z := (PAGE_COUNT - 1) * PAGE_SIZE.

(** The promises of paging.c. [enough n m]: the memory [m] has [n] more pages, or
    blocks of the heap; a page that is mapped may need another one for its table. [user m p] are the bytes that process [p] may write,
    [unused m p] the pages it does not use, and [shows m k p addr size]: the
    mapping [k] is the part of it from [addr] on. *)
Class UserMemoryLaws (mem : Type) `{MemoryLaws mem, UserMemory mem} := {
  enough : nat → mem → Prop;
  user : mem → oid → Z → option Z;
  unused : mem → oid → Z → Prop;
  shows : mem → Z * Z → oid → Z → Z → Prop;
  enough_less n m : enough (S n) m → enough n m;
  heapAlloc_user m n k p : enough (S n) m → wp (heapAlloc k) m (λ r m',
    is_Some r ∧ enough n m' ∧ (∀ a, user m' p a = user m p a) ∧ (∀ i, unused m' p i ↔ unused m p i));
  heapFree_user m n o p : enough n m → o ∈ live m → wp (heapFree o) m (λ _ m',
    enough n m' ∧ (∀ a, user m' p a = user m p a) ∧ (∀ i, unused m' p i ↔ unused m p i));
  allocateFixed_user m n p start cnt : 0 ≤ start → 0 < cnt → start + cnt ≤ PAGE_COUNT →
    enough (2 * Z.to_nat cnt + n) m → (∀ i, start ≤ i < start + cnt → unused m p i) →
    wp (pagingAllocatePhysMemFixed p (start * PAGE_SIZE) cnt true true) m (λ _ m',
      enough n m' ∧ live m' = live m ∧ (∀ i, unused m' p i ↔ unused m p i ∧ ¬ start ≤ i < start + cnt) ∧
      (∀ a, if decide (start ≤ a / PAGE_SIZE < start + cnt) then is_Some (user m' p a) else user m' p a = user m p a));
  access_user m n p addr size : 0 ≤ addr → 0 ≤ size → addr + size ≤ USER_END →
    enough (S (Z.to_nat (size / PAGE_SIZE) + n)) m → (∀ a, addr ≤ a < addr + size → is_Some (user m p a)) →
    wp (ACCESS_USER_MEMORY p addr size true) m (λ r m',
      r.1 = true ∧ shows m' r.2 p addr size ∧ enough n m' ∧ live m' = live m ∧ (∀ a, user m' p a = user m p a));
  write_user m n k p addr size bs : shows m k p addr size → lenZ bs = size → enough n m →
    wp (write_bytes (k.1) bs) m (λ _ m',
      shows m' k p addr size ∧ enough n m' ∧ live m' = live m ∧ (∀ a, user m' p a = write_at addr bs (user m p) a));
  release_user m n k p addr size : shows m k p addr size → enough n m →
    wp (RELEASE_USER_MEMORY k) m (λ _ m', enough n m' ∧ live m' = live m ∧ (∀ a, user m' p a = user m p a));
}.

(** ** What an executable says *)

(** The section table as the format has it: [n] headers from [off] on. *)
Fixpoint section_table (n : nat) (buf : list Z) (shentsize off : Z) : option (list elfSection) :=
  match n with
  | O => Some []
  | S n =>
      if off + sizeof_elfSectionTable <=? lenZ buf then
        s ← read_section buf off; ss ← section_table n buf shentsize (off + shentsize); Some (s :: ss)
      else None
  end.

(** The headers the loader reads: from the second of the table to one behind its
    last. *)
Fixpoint sections_at (n : nat) (buf : list Z) (shentsize section : Z) : option (list elfSection) :=
  match n with
  | O => Some []
  | S n =>
      let section := section + shentsize in
      if section + sizeof_elfSectionTable <=? lenZ buf then
        s ← read_section buf section; ss ← sections_at n buf shentsize section; Some (s :: ss)
      else None
  end.

Definition section_ok (buf : list Z) (s : elfSection) : Prop :=
  es_addr s = 0 ∨
  (0 < es_addr s ∧ 0 ≤ es_size s ∧ es_addr s + es_size s ≤ USER_END ∧ 0 ≤ es_offset s ∧
   (es_type s = ELF_STYPE_NOBITS ∨ es_offset s + es_size s ≤ lenZ buf)).

(** The pages of a section. *)
Definition in_section (s : elfSection) (i : Z) : Prop :=
  es_addr s ≠ 0 ∧ es_addr s / PAGE_SIZE ≤ i < (es_addr s + es_size s + PAGE_MASK) / PAGE_SIZE.

(** The memory with all sections stored one after the other. *)
Definition loaded (buf : list Z) (ss : list elfSection) (u : Z → option Z) : Z → option Z :=
  foldl (λ u s, if es_addr s =? 0 then u else write_at (es_addr s) (default [] (section_bytes buf s)) u) u ss.

(** The pages and blocks that loading needs at most. *)
Definition page_count (ss : list elfSection) : Z :=
  foldr (λ s n, (if es_addr s =? 0 then 0 else section_stop s - section_start s) + n) 0 ss.
Definition fill_cost (ss : list elfSection) : Z :=
  foldr (λ s n, (if es_addr s =? 0 then 0 else 1 + es_size s / PAGE_SIZE) + n) 0 ss.
Definition load_cost (ss : list elfSection) : nat :=
  (length ss + 2 * Z.to_nat (page_count ss) + Z.to_nat (fill_cost ss))%nat.

Lemma section_pages buf s : section_ok buf s → es_addr s ≠ 0 →
  section_start s = es_addr s / PAGE_SIZE ∧ section_stop s = (es_addr s + es_size s + PAGE_MASK) / PAGE_SIZE ∧
  0 ≤ section_start s ≤ section_stop s ∧ section_stop s < PAGE_COUNT.
Proof.
  unfold section_ok, section_start, section_stop, USER_END, PAGE_COUNT, PAGE_SIZE, PAGE_MASK, PAGE_BITS, u64.
  intros [?|(H1 & H2 & H3 & _)] Hne; [done|]. rewrite !Z.shiftr_div_pow2 by lia. change (2 ^ 12) with 4096.
  rewrite (Z.mod_small (es_addr s + es_size s)), Z.mod_small by lia.
  rewrite u32_small by (unfold is_u32; Z.to_euclidean_division_equations; lia).
  destruct (Z.leb_spec 1048576 ((es_addr s + es_size s + 4095) / 4096)); Z.to_euclidean_division_equations; lia.
Qed.

Lemma any_section_cons s ss i : (∃ s', s' ∈ s :: ss ∧ in_section s' i) ↔ in_section s i ∨ ∃ s', s' ∈ ss ∧ in_section s' i.
Proof.
  split.
  - intros (s' & [->|Hs']%elem_of_cons & Hi); [by left|right; eauto].
  - intros [Hi|(s' & Hs' & Hi)]; eexists; rewrite elem_of_cons; eauto.
Qed.

Section Load.
Context {mem : Type} `{UserMemoryLaws mem} (p : oid) (buf : list Z).
Implicit Types m : mem.

(** The memory of the process is as in [m0]. *)
Definition as_in (m0 : mem) (n : nat) (m : mem) : Prop :=
  enough n m ∧ (∀ a, user m p a = user m0 p a) ∧ (∀ i, unused m p i ↔ unused m0 p i).

Lemma enough_le n n' m : (n' ≤ n)%nat → enough n m → enough n' m.
Proof. induction 1; [done|]. intros He. apply IHle. by apply enough_less. Qed.

Lemma wp_insertRequiredPage m0 m n rest l start stop (Q : list requiredPages → mem → Prop) :
  ranges_in m rest l → as_in m0 (S n) m → 0 ≤ start ≤ stop →
  (∀ l' m', ranges_in m' rest l' → as_in m0 n m' → (∀ i, covers l' i ↔ covers l i ∨ start ≤ i < stop) →
     pages_of l' ≤ pages_of l + (stop - start) → Q l' m') →
  wp (__insertRequiredPage l start stop) m Q.
Proof.
  intros Hl (He & Hu & Hn) Hs HQ. unfold __insertRequiredPage. destruct (Z.leb_spec stop start) as [Hle|Hlt].
  { wp_step. apply HQ; [done| | |lia]; [split_and!; [by apply enough_less|done..]|]. intros i. split; [tauto|].
    intros [?|?]; [done|lia]. }
  apply (wp_insert_pages (as_in m0)) with (n := n) (rest := rest); [| | |exact Hl|by split|simpl; lia|done|exact HQ].
  - intros n' m' (? & ? & ?). split_and!; [by apply enough_less|done..].
  - intros m1 n1 k (He1 & Hu1 & Hn1). eapply wp_mono; [by apply (heapAlloc_user m1 n1 k p)|].
    intros r m2 (Hr & He2 & Hu2 & Hn2). split; [done|]. split_and!; [done| |].
    + intros a. by rewrite Hu2, Hu1.
    + intros i. by rewrite Hn2, Hn1.
  - intros m1 n1 o (He1 & Hu1 & Hn1) Ho. eapply wp_mono; [by apply (heapFree_user m1 n1 o p)|].
    intros [] m2 (He2 & Hu2 & Hn2). split_and!; [done| |].
    + intros a. by rewrite Hu2, Hu1.
    + intros i. by rewrite Hn2, Hn1.
Qed.

(** Reading the sections. *)
Lemma wp_scan_sections m0 rest shentsize num : ∀ section ss l m n (Q : option (list requiredPages) → mem → Prop),
  sections_at num buf shentsize section = Some ss → Forall (section_ok buf) ss →
  0 ≤ section → 0 ≤ shentsize → is_u32 (lenZ buf) →
  ranges_in m rest l → as_in m0 (length ss + n) m →
  (∀ l' m', ranges_in m' rest l' → as_in m0 n m' → (∀ i, covers l' i ↔ covers l i ∨ ∃ s, s ∈ ss ∧ in_section s i) →
     pages_of l' ≤ pages_of l + page_count ss → Q (Some l') m') →
  wp (scan_sections num buf (lenZ buf) shentsize section l) m Q.
Proof.
  induction num as [|num IH]; intros section ss l m n Q Hss Hok Hsec Hsh Hlen Hl Ha HQ; simpl in *.
  { injection Hss as <-. wp_step. apply HQ; [done|done| |simpl; lia]. intros i. split; [tauto|].
    intros [?|(s & Hs & _)]; [done|by apply not_elem_of_nil in Hs]. }
  unfold is_u32, sizeof_elfSectionTable in *. destruct (Z.leb_spec (section + shentsize + 40) (lenZ buf)) as [Hle|]; [|done].
  rewrite (u32_small (section + shentsize)), u32_small by (unfold is_u32; lia).
  destruct (Z.ltb_spec (lenZ buf) (section + shentsize + 40)); [lia|].
  destruct (read_section buf (section + shentsize)) as [s|] eqn:Es; [|done]. simpl in Hss.
  destruct (sections_at num buf shentsize (section + shentsize)) as [ss'|] eqn:Ess; [|done]. injection Hss as <-.
  apply Forall_cons in Hok as [Hs Hok]. wp_step. eapply wp_deref; [done|]. simpl in Ha, HQ.
  assert (Hnext : as_in m0 (length ss' + n) m) by (destruct Ha as (? & ? & ?); split_and!; [by apply enough_less|done..]).
  destruct (Z.eqb_spec (es_addr s) 0) as [Hz|Hz].
  { eapply IH; [exact Ess|done|lia|done|exact Hlen|exact Hl|exact Hnext|]. intros l' m' Hl' Ha' Hc Hp. apply HQ; [done|done| |lia].
    intros i. rewrite Hc, any_section_cons. unfold in_section at 2. tauto. }
  destruct (section_pages buf s Hs Hz) as (E1 & E2 & Hr1 & Hr2).
  replace (negb (es_type s =? ELF_STYPE_NOBITS) && (lenZ buf <? u64 (es_offset s + es_size s))) with false.
  2: { symmetry. destruct Hs as [?|(_ & ? & ? & ? & [->|?])]; [done|by rewrite Z.eqb_refl|]. unfold u64.
       rewrite Z.mod_small by lia. apply andb_false_iff. right. apply Z.ltb_ge. lia. }
  wp_step. wp_step; [apply Z.leb_le; lia|]. wp_step.
  eapply wp_insertRequiredPage; [exact Hl|exact Ha|lia|]. intros l1 m1 Hl1 Ha1 Hc1 Hp1.
  eapply IH; [exact Ess|done|lia|done|exact Hlen|exact Hl1|exact Ha1|]. intros l' m' Hl' Ha' Hc Hp. apply HQ; [done|done| |].
  - intros i. rewrite Hc, Hc1, any_section_cons. unfold in_section at 2. rewrite E1, E2. tauto.
  - lia.
Qed.
(** Mapping the pages. *)
Lemma wp_allocate_required rest l : ∀ m n (Q : unit → mem → Prop),
  ranges_in m rest l → (∀ i, covers l i → i < PAGE_COUNT) → (∀ i, covers l i → unused m p i) →
  enough (2 * Z.to_nat (pages_of l) + n) m →
  (∀ m', live m' = rest → enough n m' →
     (∀ a, if decide (covers l (a / PAGE_SIZE)) then is_Some (user m' p a) else user m' p a = user m p a) → Q tt m') →
  wp (allocate_required p l) m Q.
Proof.
  assert (∀ lo, -1 ≤ lo → ∀ m n (Q : unit → mem → Prop), ranges_from lo l → NoDup (blocks_of l) →
    (∀ o, o ∈ live m ↔ o ∈ blocks_of l ∨ o ∈ rest) → (∀ o, o ∈ blocks_of l → o ∉ rest) →
    (∀ i, covers l i → i < PAGE_COUNT) → (∀ i, covers l i → unused m p i) → enough (2 * Z.to_nat (pages_of l) + n) m →
    (∀ m', live m' = rest → enough n m' →
       (∀ a, if decide (covers l (a / PAGE_SIZE)) then is_Some (user m' p a) else user m' p a = user m p a) → Q tt m') →
    wp (allocate_required p l) m Q) as Hgen.
  2: { intros m n Q [Hok Hnd Hl Ha]. by apply (Hgen (-1)). }
  induction l as [|r l IH]; intros lo Hlo m n Q Hok Hnd Hl Ha Hb Hun He HQ; cbn [allocate_required].
  { wp_step. apply HQ; [|done|].
    - apply set_eq. intros o. rewrite Hl. split; [intros [?%not_elem_of_nil|?]; done|tauto].
    - intros a. rewrite decide_False by apply in_ranges_nil. done. }
  destruct Hok as (Hr1 & Hr2 & Hok). simpl in Hnd. apply NoDup_cons in Hnd as [Hrn Hnd].
  assert (rp_stop r ≤ PAGE_COUNT) as Hmax by (specialize (Hb (rp_stop r - 1)); rewrite in_ranges_cons in Hb; lia).
  pose proof (pages_of_pos _ _ Hok) as Hpos. unfold PAGE_COUNT in *. simpl in He.
  rewrite (u32_small (rp_stop r - rp_start r)) by (unfold is_u32; lia).
  rewrite Z.shiftl_mul_pow2 by (unfold PAGE_BITS; lia). change (2 ^ PAGE_BITS) with PAGE_SIZE.
  rewrite u32_small by (unfold is_u32, PAGE_SIZE; lia).
  wp_step. eapply wp_mono; [apply (allocateFixed_user m (2 * Z.to_nat (pages_of l) + n) p (rp_start r) (rp_stop r - rp_start r))|].
  1, 2, 3: unfold PAGE_COUNT; lia.
  1: { eapply enough_le; [|exact He]. lia. }
  1: { intros i Hi. apply Hun, in_ranges_cons. left. lia. }
  intros base m1 (He1 & Hl1 & Hn1 & Hu1). replace (rp_start r + (rp_stop r - rp_start r)) with (rp_stop r) in * by lia.
  assert (rp_node r ∈ live m1) as Hrl by (rewrite Hl1, Hl, blocks_cons; tauto).
  wp_step. eapply wp_mono; [apply wp_and; [by eapply (heapFree_user m1 _ _ p)|by apply heapFree_spec]|].
  intros [] m2 ((He2 & Hu2 & Hn2) & Hl2).
  assert (∀ i, covers l i → rp_stop r < i) as Hafter.
  { clear -Hok. revert Hok. generalize (rp_stop r). induction l as [|r' l IH]; intros lo; simpl; [by intros _ i ?%in_ranges_nil|].
    intros (Hs & Ht & Hok) i [Hi|Hi]%in_ranges_cons; [lia|]. specialize (IH _ Hok i Hi). lia. }
  eapply (IH (rp_stop r)); [lia|exact Hok|exact Hnd| | | | |exact He2|].
  - intros o. rewrite Hl2, Hl1, elem_of_difference, elem_of_singleton, Hl, blocks_cons.
    split; [tauto|]. intros Ho. split; [tauto|]. intros ->. destruct Ho as [Ho|Ho]; [done|]. eapply Ha; [|done]. rewrite blocks_cons. tauto.
  - intros o Ho. apply Ha. rewrite blocks_cons. tauto.
  - intros i Hi. apply Hb, in_ranges_cons. tauto.
  - intros i Hi. rewrite Hn2, Hn1. split; [apply Hun, in_ranges_cons; tauto|]. specialize (Hafter i Hi). lia.
  - intros m' Hl' He' Hu'. apply HQ; [done|done|]. intros a. specialize (Hu' a). specialize (Hu1 a). rewrite Hu2 in Hu'.
    destruct (decide (covers (r :: l) (a / PAGE_SIZE))) as [Hc|Hc]; rewrite in_ranges_cons in Hc;
      destruct (decide (covers l (a / PAGE_SIZE))); [done| |tauto|].
    + rewrite decide_True in Hu1 by tauto. by rewrite Hu'.
    + rewrite decide_False in Hu1 by tauto. by rewrite Hu'.
Qed.

Lemma write_at_some addr bs (u : Z → option Z) a : is_Some (u a) → is_Some (write_at addr bs u a).
Proof.
  intros Hu. unfold write_at. destruct (Z.leb_spec addr a); [|done]. destruct (Z.ltb_spec a (addr + lenZ bs)); [|done].
  simpl. apply lookup_lt_is_Some. lia.
Qed.

Lemma length_section_bytes s : section_ok buf s → es_addr s ≠ 0 →
  ∃ bs, section_bytes buf s = Some bs ∧ lenZ bs = es_size s.
Proof.
  intros [?|(_ & Hs & _ & Ho & Hf)] Hne; [done|]. unfold section_bytes.
  destruct (Z.eqb_spec (es_type s) ELF_STYPE_NOBITS); [eexists; split; [done|rewrite length_replicate; lia]|].
  destruct Hf as [?|Hf]; [done|]. rewrite (proj2 (Z.leb_le _ _)) by done. eexists. split; [done|].
  rewrite length_take, length_drop. lia.
Qed.

(** Storing the sections. *)
Lemma wp_fill_sections rest shentsize num : ∀ section ss m n (Q : bool → mem → Prop),
  sections_at num buf shentsize section = Some ss → Forall (section_ok buf) ss →
  0 ≤ section → 0 ≤ shentsize → is_u32 (lenZ buf) → live m = rest →
  enough (Z.to_nat (fill_cost ss) + n) m →
  (∀ s, s ∈ ss → es_addr s ≠ 0 → ∀ a, es_addr s ≤ a < es_addr s + es_size s → is_Some (user m p a)) →
  (∀ m', live m' = rest → enough n m' → (∀ a, user m' p a = loaded buf ss (user m p) a) → Q true m') →
  wp (fill_sections num p buf (lenZ buf) shentsize section) m Q.
Proof.
  induction num as [|num IH]; intros section ss m n Q Hss Hok Hsec Hsh Hlen Hl He Hmap HQ; simpl in *.
  { injection Hss as <-. wp_step. by apply HQ. }
  unfold is_u32, sizeof_elfSectionTable in *. destruct (Z.leb_spec (section + shentsize + 40) (lenZ buf)) as [Hle|]; [|done].
  rewrite (u32_small (section + shentsize)), u32_small by (unfold is_u32; lia).
  destruct (Z.ltb_spec (lenZ buf) (section + shentsize + 40)); [lia|].
  destruct (read_section buf (section + shentsize)) as [s|] eqn:Es; [|done]. simpl in Hss.
  destruct (sections_at num buf shentsize (section + shentsize)) as [ss'|] eqn:Ess; [|done]. injection Hss as <-.
  apply Forall_cons in Hok as [Hs Hok]. wp_step. eapply wp_deref; [done|]. simpl in He, HQ.
  assert (Hmap' : ∀ s, s ∈ ss' → es_addr s ≠ 0 → ∀ a, es_addr s ≤ a < es_addr s + es_size s → is_Some (user m p a))
    by (intros s' Hs'; apply Hmap, elem_of_cons; tauto).
  assert (0 ≤ fill_cost ss') as Hrest.
  { clear -Hok. induction Hok as [|s ss' Hs _ IH]; simpl; [done|]. destruct (Z.eqb_spec (es_addr s) 0); [lia|].
    destruct Hs as [?|(_ & ? & _)]; [done|]. assert (0 ≤ es_size s / PAGE_SIZE) by (apply Z.div_pos; [done|unfold PAGE_SIZE; lia]). lia. }
  destruct (Z.eqb_spec (es_addr s) 0) as [Hz|Hz].
  { eapply IH; [exact Ess|done|lia|done|exact Hlen|done|exact He|done|exact HQ]. }
  destruct (length_section_bytes s Hs Hz) as (bs & Ebs & Hbl). rewrite Ebs in HQ. simpl in HQ.
  pose proof Hs as [?|(Ha1 & Ha2 & Ha3 & _)]; [done|].
  assert (0 ≤ es_size s / PAGE_SIZE) as Hdiv by (apply Z.div_pos; [done|unfold PAGE_SIZE; lia]).
  set (left := Z.to_nat (fill_cost ss')) in *.
  wp_step. eapply wp_mono; [apply (access_user m (left + n) p (es_addr s) (es_size s)); [lia|done|done| |]|].
  { eapply enough_le; [|exact He]. lia. }
  { apply (Hmap s); [apply elem_of_cons; tauto|done]. }
  intros [ok k] m1 (Hk & Hsh1 & He1 & Hl1 & Hu1). simpl in Hk, Hsh1. subst ok. rewrite Ebs.
  wp_step. eapply wp_deref; [done|]. wp_step. eapply wp_mono; [by eapply write_user|].
  intros [] m2 (Hsh2 & He2 & Hl2 & Hu2). wp_step. eapply wp_mono; [by eapply release_user|].
  intros [] m3 (He3 & Hl3 & Hu3).
  assert (∀ a, user m3 p a = write_at (es_addr s) bs (user m p) a) as Hu.
  { intros a. rewrite Hu3, Hu2. unfold write_at. by rewrite Hu1. }
  eapply IH; [exact Ess|done|lia|done|exact Hlen|congruence|exact He3| |].
  - intros s' Hs' Hne a Ha. rewrite Hu. by apply write_at_some, (Hmap' s').
  - intros m' Hl' He' Hu'. apply HQ; [done|done|]. intros a. rewrite Hu'. clear -Hu. unfold loaded.
    assert (∀ u v : Z → option Z, (∀ a, u a = v a) → ∀ a, foldl (λ u s, if es_addr s =? 0 then u else
      write_at (es_addr s) (default [] (section_bytes buf s)) u) u ss' a = foldl (λ u s, if es_addr s =? 0 then u else
      write_at (es_addr s) (default [] (section_bytes buf s)) u) v ss' a) as Hext.
    { induction ss' as [|s' ss' IH]; intros u v Huv b; simpl; [done|]. apply IH. intros c.
      destruct (es_addr s' =? 0); [done|]. unfold write_at. by rewrite Huv. }
    by apply Hext.
Qed.
(** ** The loader *)

(** A file with a header. *)
Definition headed (h : elfHeader) : Prop :=
  is_u32 (lenZ buf) ∧ sizeof_elfHeader ≤ lenZ buf ∧ read_header buf = Some h ∧ ident h = ELF_MAG ∧
  0 ≤ shoff h ≤ lenZ buf ∧ 0 ≤ shentsize h.

(** An executable with its section table, whose first header is the null section. *)
Definition executable (h : elfHeader) (tbl : list elfSection) : Prop :=
  headed h ∧ section_table (Z.to_nat (shnum h)) buf (shentsize h) (shoff h) = Some tbl ∧
  (∃ null ss, tbl = null :: ss ∧ es_addr null = 0) ∧ Forall (section_ok buf) tbl.

(** Behind its section table, one more header would fit into the file, and what is
    there does not look like a section with an address. *)
Definition padded (h : elfHeader) : Prop :=
  let off := shoff h + shnum h * shentsize h in
  off + sizeof_elfSectionTable ≤ lenZ buf ∧ ∃ s, read_section buf off = Some s ∧ es_addr s = 0.

(** The sections as the loader reads them. *)
Definition readable (h : elfHeader) (ss : list elfSection) : Prop :=
  headed h ∧ sections_at (Z.to_nat (shnum h)) buf (shentsize h) (shoff h) = Some ss ∧ Forall (section_ok buf) ss.

Lemma table_shifted e b n : ∀ off ss,
  section_table n buf e (off + e) = Some ss → off + e + Z.of_nat n * e + sizeof_elfSectionTable ≤ lenZ buf →
  read_section buf (off + e + Z.of_nat n * e) = Some b → sections_at (S n) buf e off = Some (ss ++ [b]).
Proof.
  induction n as [|n IH]; intros off ss Ht Hle Hb.
  - injection Ht as <-. cbn [sections_at]. change (Z.of_nat 0 * e) with 0 in *. rewrite Z.add_0_r in *.
    rewrite (proj2 (Z.leb_le _ _)) by done. by rewrite Hb.
  - cbn [section_table] in Ht. destruct (Z.leb_spec (off + e + sizeof_elfSectionTable) (lenZ buf)) as [Hl|]; [|done].
    cbn [sections_at] in IH |- *. rewrite (proj2 (Z.leb_le _ _)) by done.
    destruct (read_section buf (off + e)) as [s|]; [|done]. cbn [mbind option_bind] in Ht |- *.
    destruct (section_table n buf e (off + e + e)) as [ss'|] eqn:E; [|done]. injection Ht as <-.
    rewrite (IH (off + e) ss' E); [done| |].
    + lia.
    + replace (off + e + e + Z.of_nat n * e) with (off + e + Z.of_nat (S n) * e) by lia. done.
Qed.

(** Sections without an address do not matter. *)
Lemma page_count_app ss b : es_addr b = 0 → page_count (ss ++ [b]) = page_count ss.
Proof. intros Hb. induction ss as [|s ss IH]; simpl; [by rewrite Hb|]. unfold page_count in *. by rewrite IH. Qed.

Lemma fill_cost_app ss b : es_addr b = 0 → fill_cost (ss ++ [b]) = fill_cost ss.
Proof. intros Hb. induction ss as [|s ss IH]; simpl; [by rewrite Hb|]. unfold fill_cost in *. by rewrite IH. Qed.

Lemma executable_readable h tbl : executable h tbl → padded h → ∃ ss, readable h ss ∧ load_cost ss = load_cost tbl ∧
  (∀ u, loaded buf ss u = loaded buf tbl u) ∧ ∀ i, (∃ s, s ∈ ss ∧ in_section s i) ↔ ∃ s, s ∈ tbl ∧ in_section s i.
Proof.
  intros (Hh & Ht & (null & ss & -> & Hnull) & Hok) (Hle & b & Eb & Hb). exists (ss ++ [b]).
  apply Forall_cons in Hok as [_ Hok]. destruct (Z.to_nat (shnum h)) as [|n] eqn:En; [done|]. cbn [section_table] in Ht.
  destruct (Z.leb_spec (shoff h + sizeof_elfSectionTable) (lenZ buf)); [|done].
  destruct (read_section buf (shoff h)) as [s|]; [|done]. cbn [mbind option_bind] in Ht.
  destruct (section_table n _ _ _) as [ss'|] eqn:E; [|done]. injection Ht as <- <-.
  assert (shnum h = Z.of_nat (S n)) as Hn by lia.
  replace (shoff h + shnum h * shentsize h) with (shoff h + shentsize h + Z.of_nat n * shentsize h) in Hle, Eb by lia.
  split_and!.
  - split; [done|]. split; [by rewrite En; apply table_shifted|]. apply Forall_app. split; [done|]. constructor; [by left|done].
  - unfold load_cost. rewrite page_count_app, fill_cost_app, length_app by done. simpl. rewrite Hnull. simpl. lia.
  - intros u. unfold loaded. rewrite foldl_app. simpl. by rewrite Hb, Hnull.
  - intros i. rewrite any_section_cons. setoid_rewrite elem_of_app. setoid_rewrite list_elem_of_singleton. split.
    + intros (s' & [Hs'| ->] & Hi); [right; eauto|]. by destruct Hi.
    + intros [[Hi _]|(s' & ? & ?)]; [done|eauto].
Qed.

(** The page of a byte of a section is a page of this section. *)
Lemma in_section_byte s a : section_ok buf s → es_addr s ≠ 0 → es_addr s ≤ a < es_addr s + es_size s → in_section s (a / PAGE_SIZE).
Proof.
  intros [?|(H1' & H2' & _)] Hne Ha; [done|]. split; [done|]. unfold PAGE_SIZE, PAGE_MASK in *.
  Z.to_euclidean_division_equations. lia.
Qed.

Lemma wp_load_binary m h ss n : readable h ss →
  (∀ s i, s ∈ ss → in_section s i → unused m p i) → enough (load_cost ss + n) m →
  wp (load_binary p buf (lenZ buf)) m (λ r m',
    r = Some (eh_entry h) ∧ live m' = live m ∧ enough n m' ∧ ∃ u,
      (∀ a, user m' p a = loaded buf ss u a) ∧
      (∀ a, (∃ s, s ∈ ss ∧ in_section s (a / PAGE_SIZE)) → is_Some (u a)) ∧
      (∀ a, (∀ s, s ∈ ss → ¬ in_section s (a / PAGE_SIZE)) → u a = user m p a)).
Proof.
  intros ((Hlen & Hhl & Hh & Hid & Hoff & Hent) & Hss & Hok) Hun He. unfold load_binary, load_sections.
  rewrite (proj2 (Z.ltb_ge _ _) Hhl). wp_step. eapply wp_deref; [done|].
  rewrite bool_decide_true by done. cbn [negb]. rewrite (proj2 (Z.ltb_ge _ _)) by lia.
  assert (ranges_in m (live m) []) as Hempty.
  { constructor; [done|constructor|intros o; split; [tauto|intros [?%not_elem_of_nil|?]; done]|by intros o ?%not_elem_of_nil]. }
  wp_step. eapply (wp_scan_sections m (live m)); [exact Hss|exact Hok|lia|done|exact Hlen|exact Hempty| |].
  { split_and!; [|done..]. unfold load_cost in He. rewrite <-!Nat.add_assoc in He. exact He. }
  intros l m1 Hl (He1 & Hu1 & Hn1) Hc Hp. simpl in Hp.
  assert (∀ i, covers l i → ∃ s, s ∈ ss ∧ in_section s i) as Hc'.
  { intros i Hi. apply Hc in Hi as [?%in_ranges_nil|?]; done. }
  wp_step. eapply (wp_allocate_required (live m) l m1 (Z.to_nat (fill_cost ss) + n)); [exact Hl| | | |].
  - intros i (s & Hs & Hi)%Hc'. pose proof (proj1 (Forall_forall _ _) Hok s Hs) as Hoks. destruct Hi as [Hne Hi].
    destruct (section_pages buf s Hoks Hne) as (_ & E2 & _ & Hm). rewrite E2 in Hm. lia.
  - intros i (s & Hs & Hi)%Hc'. apply Hn1. by eapply Hun.
  - eapply enough_le; [|exact He1]. lia.
  - intros m2 Hl2 He2 Hu2. wp_step.
    eapply (wp_fill_sections (live m)); [exact Hss|exact Hok|lia|done|exact Hlen|exact Hl2|exact He2| |].
    + intros s Hs Hne a Ha. specialize (Hu2 a). rewrite decide_True in Hu2; [done|]. apply Hc. right. exists s.
      split; [done|]. apply in_section_byte; [by eapply Forall_forall in Hok|done|done].
    + intros m3 Hl3 He3 Hu3. wp_step. split; [done|]. split; [done|]. split; [done|]. exists (user m2 p).
      split; [done|]. split; intros a Ha; specialize (Hu2 a).
      * rewrite decide_True in Hu2; [done|]. apply Hc. by right.
      * rewrite decide_False in Hu2; [by rewrite Hu2, Hu1|]. intros (s & Hs & Hi)%Hc'. by eapply Ha.
Qed.
End Load.

(** C12: Loading an executable into a process: a file with a header and a section
    table that starts with the null section, behind which the file has room for one
    more header, without an address. (The loader reads the headers from the second
    to one behind the last, see [elf_table_last].) When the pages of the sections
    with an address are unused in the process and the memory suffices, the loader
    returns true and sets the entry point; the pages of all these sections, which may
    share pages and come in any order, are mapped once each, and then hold the bytes
    of the sections, or zeros for the sections without bits, stored one after the
    other; all other memory of the process, the other objects and the queues are as
    before, and every block the loader took from the heap is free again. *)
Theorem elfLoadBinary_correct {mem} `{UserMemoryLaws mem} (k : kernel mem) p r pr buf h tbl n :
  executable buf h tbl → padded buf h → objs k !! p = Some (Object r (Process pr)) →
  (∀ s i, s ∈ tbl → in_section s i → unused (memory k) p i) → enough (load_cost tbl + n) (memory k) →
  wp (elfLoadBinary p buf (lenZ buf)) k (λ ok k',
    ok = true ∧ objs k' = <[p := Object r (Process (process_with_entryPoint (eh_entry h) pr))]> (objs k) ∧ qs k' = qs k ∧
    live (memory k') = live (memory k) ∧ enough n (memory k') ∧ ∃ u,
      (∀ a, user (memory k') p a = loaded buf tbl u a) ∧
      (∀ a, (∃ s, s ∈ tbl ∧ in_section s (a / PAGE_SIZE)) → is_Some (u a)) ∧
      (∀ a, (∀ s, s ∈ tbl → ¬ in_section s (a / PAGE_SIZE)) → u a = user (memory k) p a)).
Proof.
  intros Hex Hpad Hp Hun He. destruct (executable_readable buf h tbl Hex Hpad) as (ss & Hss & Hcost & Hload & Hpages).
  unfold elfLoadBinary. wp_step. apply wp_zoom.
  eapply wp_mono; [apply (wp_load_binary p buf (memory k) h ss n Hss); [|by rewrite Hcost]|].
  { intros s i Hs Hi. destruct (proj1 (Hpages i)) as (s' & ? & ?); eauto. }
  intros ? m (-> & Hl & He' & u & Hu1 & Hu2 & Hu3). unfold modify_process. wp_step. wp_step.
  eapply wp_pointee; [done|done|]. eapply wp_putBody; [done|]. wp_step. split_and!; try done. exists u. split_and!.
  - intros a. by rewrite <-Hload.
  - intros a (s & ? & ?). apply Hu2, Hpages. eauto.
  - intros a Ha. apply Hu3. intros s Hs Hi. destruct (proj1 (Hpages (a / PAGE_SIZE))) as (s' & Hs' & Hi'); [eauto|]. by eapply Ha.
Qed.

(** Whatever else the bytes are, a file that is shorter than the header of an
    executable or does not start with its magic number is refused, and nothing changes. *)
Theorem elfLoadBinary_refuses {mem} `{Memory mem} `{UserMemory mem} (k : kernel mem) p buf :
  lenZ buf < sizeof_elfHeader ∨ take 4 buf ≠ ELF_MAG →
  wp (elfLoadBinary p buf (lenZ buf)) k (λ ok k', ok = false ∧ k' = k).
Proof.
  intros Hbad. assert (load_binary p buf (lenZ buf) (memory k) = Ok (None, memory k)) as E.
  { unfold load_binary, sizeof_elfHeader in *. destruct (Z.ltb_spec (lenZ buf) 52) as [|Hl]; [done|].
    destruct Hbad as [?|Hmag]; [lia|].
    assert (∀ n off, 0 ≤ off → off + Z.of_nat n ≤ 52 → is_Some (read_le n buf off)) as Hread.
    { intros n off H1 H2. unfold read_le. rewrite (proj2 (Z.leb_le 0 off)), (proj2 (Z.leb_le _ _)) by lia. by eexists. }
    unfold read_header. destruct (Hread 4%nat 24) as [e ->]; [lia..|]. destruct (Hread 4%nat 32) as [o ->]; [lia..|].
    destruct (Hread 2%nat 46) as [z ->]; [lia..|]. destruct (Hread 2%nat 48) as [c ->]; [lia..|].
    cbn [mbind option_bind deref]. unfold mbind, M_bind, deref, mret, M_ret. cbn [ident]. by rewrite bool_decide_false. }
  unfold elfLoadBinary. wp_step. apply wp_zoom. unfold wp at 1. rewrite E. split; [done|]. by destruct k.
Qed.

(** ** An example

    A memory with one process, in which the kernel sees every byte at its own
    address, and an executable with one section of three bytes. *)

Record flat := Flat { fl_heap : heap; fl_user : Z → option Z }.

Definition with_heap {A} (m : M heap A) : M flat A := zoom fl_heap (λ h f, Flat h (fl_user f)) m.

#[local] Instance flat_memory : Memory flat := {|
  heapAlloc _ := with_heap (λ h, let a := above_all (h_live h) in Ok (Some a, Heap ({[a]} ∪ h_live h) (h_budget h) (h_page h)));
  heapReAlloc o n := with_heap (sample_realloc o n);
  heapFree o := with_heap (sample_free o);
  pagingAllocatePhysMem _ n _ _ := with_heap (sample_pages n);
  pagingReleasePhysMem _ _ _ := mret tt;
  pagingGetPhysMem _ a := mret (a / 4096);
  pagingMapRemoteMemory _ _ _ _ n _ _ := with_heap (sample_pages n);
  pagingAllocProcessPageTable _ := with_heap (sample_pages 1);
  pagingForkProcessPageTable _ _ := with_heap (sample_pages 1);
  pagingReleaseProcessPageTable _ := mret tt;
  pagingFillProcessInfo _ := mret (0, 0, 0, 0, 0);
|}.

#[local] Instance flat_laws : MemoryLaws flat.
Proof.
  refine {| live m := h_live (fl_heap m) |}; intros; unfold wp; simpl.
  - split; [apply above_all_fresh|done].
  - split; [by left|done].
  - done.
Defined.

#[local] Instance flat_userMemory : UserMemory flat := {|
  pagingAllocatePhysMemFixed _ a n _ _ := λ f,
    Ok (a, Flat (fl_heap f) (λ x, if decide (a / PAGE_SIZE ≤ x / PAGE_SIZE < a / PAGE_SIZE + n) then Some 0 else fl_user f x));
  pagingTryAllocatePhysMem _ _ _ _ := mret 0;
  pagingTryReleaseUserMem _ _ _ := mret false;
  ACCESS_USER_MEMORY _ a n _ := mret (true, (a, n));
  ACCESS_USER_MEMORY_STRUCT _ a n size _ := mret (Some (true, (a, n * size)));
  RELEASE_USER_MEMORY _ := mret tt;
  read_bytes a n := λ f, Ok ((λ x, default 0 (fl_user f x)) <$> seqZ a n, f);
  write_bytes a bs := modify (λ f, Flat (fl_heap f) (write_at a bs (fl_user f)));
  Elf.old_p := 0;
  backup_page_tables _ := mret tt;
  restore_page_tables _ := mret tt;
|}.

#[local] Instance flat_userLaws : UserMemoryLaws flat.
Proof.
  refine {| enough _ _ := True; user m _ := fl_user m; unused m _ i := ∀ a, a / PAGE_SIZE = i → fl_user m a = None;
            shows _ k _ addr _ := k.1 = addr |}; intros; unfold wp; simpl; try by eauto.
  - rewrite Z.div_mul by done. split_and!; try done.
    + intros i. split.
      * intros Hi. split; [|intros Hc].
        -- intros a Ha. specialize (Hi a Ha). by destruct (decide _).
        -- specialize (Hi (i * PAGE_SIZE)). rewrite Z.div_mul, decide_True in Hi by done. by specialize (Hi eq_refl).
      * intros [Hi Hc] a Ha. rewrite decide_False by (by rewrite Ha). by apply Hi.
    + intros a. destruct (decide _); [by eexists|done].
  - by subst.
Defined.

(** The header, two section headers, one of them null, and the bytes of the section. *)
Definition small_elf : list Z :=
  ELF_MAG ++ replicate 20 0 ++ le32 0x8048000 ++ le32 0 ++ le32 52 ++ le32 0 ++ le16 52 ++ le16 0 ++ le16 0 ++ le16 40 ++ le16 2 ++ le16 0 ++
  replicate 40 0 ++
  le32 0 ++ le32 1 ++ le32 0 ++ le32 0x8048000 ++ le32 49 ++ le32 3 ++ replicate 16 0.

(** The same with a symbol table behind it, which starts with a null symbol as the
    format requires. *)
Definition sample_elf : list Z := small_elf ++ replicate 40 0.

Definition elf_kernel : kernel flat :=
  Kernel {[ 30 := Object 1 (Process (ProcessFields 0 1 0 0 0 0 0 (HandleTable 0 0 0 None))) ]} ∅ 0 None None sample_console
    (Flat (Heap {[30]} 0 0) (λ _, None)).

Lemma elfLoadBinary_correct_witness :
  let h := ElfHeader ELF_MAG 0x8048000 52 40 2 in
  let tbl := [ElfSection 0 0 0 0; ElfSection 1 0x8048000 49 3] in
  executable sample_elf h tbl ∧ padded sample_elf h ∧
  wp (elfLoadBinary 30 sample_elf (lenZ sample_elf)) elf_kernel (λ ok k',
    ok = true ∧ (λ a, user (memory k') 30 a) <$> [0x8047FFF; 0x8048000; 0x8048001; 0x8048002] = [None; Some 0; Some 0; Some 0]).
Proof.
  intros h tbl. assert (lenZ sample_elf = 172) as Hl by (vm_compute; reflexivity).
  assert (executable sample_elf h tbl) as Hex.
  { unfold executable, headed. rewrite Hl.
    assert (read_header sample_elf = Some h) as Hh by (vm_compute; reflexivity).
    assert (section_table 2 sample_elf 40 52 = Some tbl) as Hs by (vm_compute; reflexivity).
    split; [split_and!; try exact Hh; done|]. split; [exact Hs|]. split; [by eexists _, _|].
    constructor; [by left|]. constructor; [|constructor]. right. rewrite Hl. cbn [es_addr es_size es_offset es_type].
    unfold USER_END, PAGE_COUNT, PAGE_SIZE. split_and!; [lia..|]. right. lia. }
  assert (padded sample_elf h) as Hpad.
  { split; [rewrite Hl; done|]. exists (ElfSection 0 0 0 0). split; [vm_compute; reflexivity|done]. }
  split; [exact Hex|]. split; [exact Hpad|]. eapply wp_mono;
    [refine (elfLoadBinary_correct elf_kernel 30 1 _ sample_elf h tbl 0 Hex Hpad _ _ I); [reflexivity|by intros]|].
  intros ok k' (-> & _ & _ & _ & _ & u & Hu & _ & Hout). split; [done|].
  cbn [fmap list_fmap]. rewrite !Hu. unfold loaded. cbn [foldl tbl es_addr Z.eqb].
  repeat f_equal. change (u 0x8047FFF = None). rewrite Hout; [done|].
  intros s Hs [Hne Hi]. apply elem_of_cons in Hs as [->|Hs]; [done|]. apply list_elem_of_singleton in Hs as ->.
  vm_compute in Hi. destruct Hi as [Hi _]. by apply Hi.
Defined.

(** The loader reads a header behind the table: when the table ends the file, the
    executable is refused, and the block for the pages of its section is not freed. *)
Example elf_table_last :
  let tbl := [ElfSection 0 0 0 0; ElfSection 1 0x8048000 49 3] in
  section_table 2 small_elf 40 52 = Some tbl ∧
  match elfLoadBinary 30 small_elf (lenZ small_elf) elf_kernel with
  | Ok (ok, k') => (ok, size (h_live (fl_heap (memory k'))), size (h_live (fl_heap (memory elf_kernel)))) = (false, 2, 1)%nat
  | _ => False
  end.
Proof. split; vm_compute; reflexivity. Qed.

Lemma elfLoadBinary_refuses_witness :
  wp (elfLoadBinary 30 [0x4D; 0x5A] 2) elf_kernel (λ ok k', ok = false ∧ k' = elf_kernel).
Proof. apply (elfLoadBinary_refuses elf_kernel 30 [0x4D; 0x5A]). by left. Defined.
