(* ===== verification/SyscallProofs.v ===== *)
(** * Theorems about the system calls

    A system call that names an object by a handle the process does not have, and a
    call that prints bytes of the memory of the process. *)

From S2P Require Import Prelude Console LinkedList Kernel Semaphore Event Timer Pipe Handle Thread Process Elf FileSystem Dispatch Syscall Sample HandleProofs ElfProofs.
Open Scope Z_scope.

Section BadHandle.
Context {mem : Type} `{Memory mem} `{UserMemory mem} `{Methods mem} `{Machine mem}.
Implicit Types k : kernel mem.

(** The calls that take a handle in [ebx], and what they return for one that does
    not exist; searching in a directory is not one of them, for it then begins at
    the root. [other]: the handle in [ecx] exists. *)
Definition bad_handle_result (syscall : Z) (other : bool) : option Z :=
  if bool_decide (syscall ∈ [SYSCALL_EXECUTE_PROGRAM; SYSCALL_OBJECT_DUP; SYSCALL_OBJECT_DUP2; SYSCALL_OBJECT_GET_STATUS;
       SYSCALL_OBJECT_WAIT; SYSCALL_OBJECT_WRITE; SYSCALL_OBJECT_READ; SYSCALL_OBJECT_DETACH_OBJ; SYSCALL_FILESYSTEM_OPEN])
  then Some (-1)
  else if bool_decide (syscall ∈ [SYSCALL_OBJECT_EXISTS; SYSCALL_OBJECT_CLOSE; SYSCALL_OBJECT_SHUTDOWN; SYSCALL_OBJECT_SIGNAL;
       SYSCALL_OBJECT_ATTACH_OBJ])
  then Some 0
  else if syscall =? SYSCALL_OBJECT_COMPARE then Some (if other then 0 else -1)
  else None.

(** Thread [t] of process [p] is running, with the table of its process. *)
Record runs k (t p : oid) (r : Z) (th : thread) (table : handleTable) (l : slots) : Prop := {
  rn_thread : objs k !! t = Some (Object r (Thread th));
  rn_process : th_process th = Some p;
  rn_table : has_table k p table;
  rn_ok : table_ok table l;
}.

Definition returned k (t : oid) (r : Z) (th : thread) (v : Z) : kernel mem :=
  set_objs (<[t := Object r (Thread (set_result (u32 v) th))]> (objs k)) k.

Lemma runs_returned k t p r th table l v : runs k t p r th table l →
  runs (returned k t r th v) t p r (set_result (u32 v) th) table l.
Proof.
  intros [Ht Hp (r' & q & Hq & Hh) Hok]. constructor; [apply lookup_insert_eq|done| |done].
  exists r', q. split; [|done]. simpl. rewrite lookup_insert_ne; [done|]. intros ->. congruence.
Qed.

Lemma returned_twice k t r th v v' : returned (returned k t r th v) t r (set_result (u32 v) th) v' = returned k t r th v'.
Proof. unfold returned, set_objs. simpl. rewrite insert_insert_eq. by destruct th as [? ? ? ? ? ? ? ? [] ?]. Qed.

Lemma wp_set_return k t p r th table l v (Q : unit → kernel mem → Prop) : runs k t p r th table l →
  Q tt (returned k t r th v) → wp (set_return t v) k Q.
Proof.
  intros [Ht _ _ _] HQ. unfold set_return, modify_thread. wp_step. eapply wp_pointee; [done..|]. by eapply wp_putBody.
Qed.

Lemma handleGet_entry t l h : table_ok t l → 0 ≤ h → handleGet t h = Ok (entry l h).
Proof.
  intros Hok Hh. unfold handleGet. rewrite (tb_slots _ _ Hok). destruct (Z.leb_spec (h_free_end t) h).
  - by rewrite (tb_unused _ _ Hok).
  - destruct (nthZ_is_Some l h) as [s Hs]; [pose proof (tb_end _ _ Hok); lia|]. unfold entry. by rewrite Hs.
Qed.

Lemma wp_lookup k t p r th table l h (Q : option oid → kernel mem → Prop) : runs k t p r th table l → 0 ≤ h →
  Q (entry l h) k → wp (lookup_handle (Some p) h) k Q.
Proof.
  intros [_ _ Ht Hok] Hh HQ. unfold lookup_handle, the_process. wp_step. eapply wp_deref; [done|]. wp_step.
  eapply wp_get_table; [done|]. by rewrite (handleGet_entry _ _ _ Hok).
Qed.

Lemma wp_with_handle k t p r th table l h body (Q : unit → kernel mem → Prop) : runs k t p r th table l → 0 ≤ h → entry l h = None →
  Q tt k → wp (with_handle (Some p) h body) k Q.
Proof. intros Hr Hh He HQ. unfold with_handle. wp_step. eapply wp_lookup; [done..|]. rewrite He. by wp_step. Qed.

Lemma wp_close k t p r th table l h (Q : bool → kernel mem → Prop) : runs k t p r th table l → 0 ≤ h → entry l h = None →
  Q false k → wp (handleRelease p h) k Q.
Proof.
  intros [_ _ Ht Hok] Hh He HQ. unfold handleRelease. wp_step. eapply wp_get_table; [done|]. wp_step.
  rewrite (handleGet_entry _ _ _ Hok), He by done. change (wp (lift (Ok None)) k ?Q) with (Q None k). cbv beta iota. by wp_step.
Qed.

(** Evaluates the switch over a number that is given. *)
Ltac at_number :=
  unfold syscall_switch;
  match goal with |- context [Z.shiftr ?e 8] => let n := eval vm_compute in (Z.shiftr e 8) in change (Z.shiftr e 8) with n end;
  unfold syscall_task, syscall_object, syscall_use, syscall_filesystem; cbv zeta;
  repeat match goal with |- context [if ?a =? ?b then _ else _] =>
    let c := eval vm_compute in (a =? b) in change (a =? b) with c; cbv iota end;
  unfold proceed.

(** Calls that leave the -1 that is there. *)
Lemma bad_handle_value k t p r th table l rg e : runs k t p r th table l → 0 ≤ ebx rg → 0 ≤ ecx rg → entry l (ebx rg) = None →
  e ∈ [SYSCALL_EXECUTE_PROGRAM; SYSCALL_OBJECT_DUP; SYSCALL_OBJECT_DUP2; SYSCALL_OBJECT_GET_STATUS;
       SYSCALL_OBJECT_WAIT; SYSCALL_OBJECT_WRITE; SYSCALL_OBJECT_READ; SYSCALL_OBJECT_DETACH_OBJ; SYSCALL_FILESYSTEM_OPEN] →
  wp (syscall_switch t (Some p) rg e) k (λ s k', s = Some INTERRUPT_CONTINUE_EXECUTION ∧ k' = k).
Proof.
  intros Hr Hb Hc He Hin. set_unfold in Hin.
  assert (Hlook : ∀ Q : option oid → kernel mem → Prop, Q None k → wp (lookup_handle (Some p) (ebx rg)) k Q).
  { intros Q HQ. eapply wp_lookup; [done..|]. by rewrite He. }
  repeat (destruct Hin as [->|Hin]); try done; at_number; wp_step;
    try (eapply wp_with_handle; [done..|]; by wp_step);
    try (unfold execute_program; wp_step); try (apply Hlook; by repeat wp_step).
Qed.

(** Calls that return false. *)
Lemma bad_handle_bool k t p r th table l rg e : runs k t p r th table l → 0 ≤ ebx rg → 0 ≤ ecx rg → entry l (ebx rg) = None →
  e ∈ [SYSCALL_OBJECT_EXISTS; SYSCALL_OBJECT_CLOSE; SYSCALL_OBJECT_SHUTDOWN; SYSCALL_OBJECT_SIGNAL; SYSCALL_OBJECT_ATTACH_OBJ] →
  wp (syscall_switch t (Some p) rg e) k (λ s k', s = Some INTERRUPT_CONTINUE_EXECUTION ∧ k' = returned k t r th 0).
Proof.
  intros Hr Hb Hc He Hin. set_unfold in Hin.
  assert (Hlook : ∀ Q : option oid → kernel mem → Prop, Q None k → wp (lookup_handle (Some p) (ebx rg)) k Q).
  { intros Q HQ. eapply wp_lookup; [done..|]. by rewrite He. }
  repeat (destruct Hin as [->|Hin]); try done; at_number; wp_step.
  - wp_step. apply Hlook. eapply wp_set_return; [done|]. by wp_step.
  - wp_step. eapply wp_deref; [done|]. wp_step. eapply wp_close; [done..|]. eapply wp_set_return; [done|]. by wp_step.
  - apply Hlook. wp_step. eapply wp_set_return; [done|]. wp_step. wp_step. wp_step. split; [|done].
    rewrite (bool_decide_false (None = Some t)), (bool_decide_false (None = Some p)) by done. by rewrite andb_false_r.
  - wp_step. apply Hlook. wp_step. eapply wp_set_return; [done|]. wp_step. by wp_step.
  - wp_step. apply Hlook. wp_step. eapply wp_lookup; [done..|]. wp_step. wp_step. eapply wp_set_return; [done|]. by wp_step.
Qed.

Lemma bad_handle_compare k t p r th table l rg : runs k t p r th table l → 0 ≤ ebx rg → 0 ≤ ecx rg → entry l (ebx rg) = None →
  wp (syscall_switch t (Some p) rg SYSCALL_OBJECT_COMPARE) k (λ s k', s = Some INTERRUPT_CONTINUE_EXECUTION ∧
    k' = if bool_decide (is_Some (entry l (ecx rg))) then returned k t r th 0 else k).
Proof.
  intros Hr Hb Hc He. at_number. wp_step. wp_step. eapply wp_lookup; [done..|]. rewrite He.
  wp_step. eapply wp_lookup; [done..|]. destruct (entry l (ecx rg)) as [o|]; cbn [bool_decide orb].
  - apply wp_when; [|done]. intros _. eapply wp_set_return; [done|]. by wp_step.
  - apply wp_when; [done|]. intros _. by wp_step.
Qed.

(** C16: A system call of a running thread whose handle is not one of its process
    changes nothing in the kernel but the result register, and the thread goes on.
    The result is -1 for executing a program, duplicating, status, waiting, writing,
    reading, detaching and opening a file or directory, 0 for exists, close, shutdown,
    signal and attach, and for a comparison 0, or -1 if the other handle is none
    either. (syscall.h promises false for status and detaching, which -1 is not.) *)
Theorem bad_handle_refused k t p r th table l v :
  runs k t p r th table l → 0 ≤ ebx (th_task th) → 0 ≤ ecx (th_task th) → entry l (ebx (th_task th)) = None →
  bad_handle_result (eax (th_task th)) (bool_decide (is_Some (entry l (ecx (th_task th))))) = Some v →
  interrupt_0x80 (Some t) k = Ok (INTERRUPT_CONTINUE_EXECUTION, returned k t r th v).
Proof.
  intros Hr Hb Hc He Hv.
  assert (wp (interrupt_0x80 (Some t)) k (λ s k', s = INTERRUPT_CONTINUE_EXECUTION ∧ k' = returned k t r th v)) as Hw.
  2: { apply wp_run in Hw as (s & k' & -> & -> & ->). done. }
  unfold interrupt_0x80. wp_step. eapply wp_pointee; [by apply Hr|done|]. wp_step. eapply wp_set_return; [done|].
  pose proof (runs_returned k t p r th table l (-1) Hr) as Hr1. rewrite (rn_process _ _ _ _ _ _ _ Hr).
  wp_step. unfold bad_handle_result in Hv. case_bool_decide as Hin.
  { injection Hv as <-. eapply wp_mono; [by eapply bad_handle_value|]. intros s k' [-> ->]. by wp_step. }
  clear Hin. case_bool_decide as Hin.
  { injection Hv as <-. eapply wp_mono; [by eapply bad_handle_bool|]. intros s k' [-> ->]. wp_step. by rewrite returned_twice. }
  destruct (Z.eqb_spec (eax (th_task th)) SYSCALL_OBJECT_COMPARE) as [->|]; [|done]. injection Hv as <-.
  eapply wp_mono; [by eapply bad_handle_compare|]. intros s k' [-> ->]. wp_step. split; [done|].
  by case_bool_decide; rewrite ?returned_twice.
Qed.
End BadHandle.

(** ** Printing

    Reading what is mapped gives the bytes of the process. *)
Class UserReadLaws (mem : Type) `{UserMemoryLaws mem} := {
  read_user m k p addr size bs : shows m k p addr size → lenZ bs = size →
    (∀ i, 0 ≤ i < size → user m p (addr + i) = nthZ bs i) → wp (read_bytes (k.1) size) m (λ r m', r = bs ∧ m' = m);
}.

Section Print.
Context {mem : Type} `{UserReadLaws mem} `{Methods mem} `{Machine mem}.
Implicit Types k : kernel mem.

(** C17: The system call that writes to the console maps the bytes of the process,
    shows them on the screen like a terminal that receives them one by one, and
    returns their number; no other object, no queue and no byte of the process
    changes. *)
Theorem console_write_prints k t p r th bs n :
  objs k !! t = Some (Object r (Thread th)) → th_process th = Some p →
  eax (th_task th) = SYSCALL_CONSOLE_WRITE → ecx (th_task th) = lenZ bs → let addr := ebx (th_task th) in
  0 ≤ addr → addr + lenZ bs ≤ USER_END → (∀ i, 0 ≤ i < lenZ bs → user (memory k) p (addr + i) = nthZ bs i) →
  enough (S (Z.to_nat (lenZ bs / PAGE_SIZE) + n)) (memory k) → console_ok (con k) →
  wp (interrupt_0x80 (Some t)) k (λ s k', s = INTERRUPT_CONTINUE_EXECUTION ∧
    screen (con k') = fold_left (term_putc (flag (con k) CONFLAGS_RAW_MODE) (consoleColor (con k))) bs (screen (con k)) ∧
    console_ok (con k') ∧ objs k' = objs (returned k t r th (lenZ bs)) ∧ qs k' = qs k ∧ enough n (memory k') ∧
    ∀ a, user (memory k') p a = user (memory k) p a).
Proof.
  intros Ht Hp Heax Hecx addr Ha Hend Hbytes Hen Hcon. unfold interrupt_0x80.
  wp_step. eapply wp_pointee; [done|done|]. wp_step. unfold set_return at 1, modify_thread. wp_step. eapply wp_pointee; [done..|].
  eapply wp_putBody; [done|]. rewrite Hp, Heax. wp_step. unfold syscall_switch. change (Z.shiftr SYSCALL_CONSOLE_WRITE 8) with 5. cbv iota.
  unfold syscall_console. rewrite Z.eqb_refl, Hecx. unfold proceed. wp_step. wp_step. unfold access, the_process. wp_step. eapply wp_deref; [done|].
  wp_step. apply wp_zoom. simpl. fold addr.
  assert (Hmapped : ∀ a, addr ≤ a < addr + lenZ bs → is_Some (user (memory k) p a)).
  { intros a Hra. destruct (nthZ_is_Some bs (a - addr)) as [b Hb]; [lia|]. exists b. rewrite <-Hb, <-Hbytes by lia. f_equal. lia. }
  eapply wp_mono; [apply (access_user _ n); [done|lia|done|done|done]|].
  intros [ok kk] m1 (Hok & Hsh & Hen1 & Hlive1 & Hu1). cbn [fst snd] in *. subst ok. unfold mapped. cbn [when]. wp_step. wp_step. wp_step.
  apply wp_zoom. simpl. eapply wp_mono; [apply (read_user m1 kk p addr (lenZ bs) bs); [done|done|intros i Hi; rewrite Hu1; by apply Hbytes]|].
  intros ? m2 [-> ->]. apply wp_zoom. simpl. rewrite Nat2Z.id.
  eapply wp_mono; [by apply (wp_write_len bs (length bs) (con k))|]. intros [] c' (Hscr & Hmode & Hcok). rewrite firstn_all in Hscr.
  apply wp_zoom. simpl. eapply wp_mono; [by eapply (release_user m1 n kk p addr)|]. intros [] m3 (Hen3 & Hlive3 & Hu3).
  wp_step. cbn [when]. unfold set_return, modify_thread. wp_step. eapply wp_pointee; [simpl; apply lookup_insert_eq|done|].
  eapply wp_putBody; [simpl; apply lookup_insert_eq|]. wp_step. simpl.
  split_and!; try done.
  - rewrite insert_insert_eq. unfold returned. simpl. by destruct th as [? ? ? ? ? ? ? ? [] ?].
  - intros a. by rewrite Hu3, Hu1.
Qed.
End Print.

(** ** Witnesses *)

#[local] Existing Instances flat_memory flat_laws flat_userMemory flat_userLaws.

#[local] Instance flat_reads : UserReadLaws flat.
Proof.
  constructor. intros m k p addr size bs Hk Hl Hb. unfold wp. simpl. split; [|done]. cbn in Hk. rewrite Hk.
  apply nthZ_ext; [rewrite length_fmap, length_seqZ; lia|]. intros i Hi. rewrite length_fmap, length_seqZ in Hi.
  rewrite <-Hb by lia. unfold nthZ. destruct (Z.ltb_spec i 0); [lia|]. rewrite list_lookup_fmap, lookup_seqZ_lt by lia. cbn [fmap option_fmap option_map].
  cbn in Hb. specialize (Hb i ltac:(lia)). rewrite Z2Nat.id by lia. destruct (nthZ_is_Some bs i) as [b Eb]; [lia|]. change (user m p (addr + i)) with (fl_user m (addr + i)). by rewrite Hb, Eb.
Defined.

#[local] Instance flat_methods : Methods flat := Dispatch.methods 8 2.
#[local] Instance flat_machine : Machine flat :=
  {| dataRing0_offset := 16; codeRing3_offset := 27; dataRing3_offset := 35; kernelStack := 0x200000; intJmpTable_user := 0x201000; fnsave := mret 0 |}.

(** A thread that has set its registers and called. *)
Definition calling (a b c : Z) : thread :=
  ThreadFields false (Some 30) ERR false 0x10000 16 0x20000 1
    (TaskContext 0 0 0 0 0 0 0 0 0 0 a c 0 b 0 0 0 0 0 0 0 0 0 0 0 0) 0.

Definition call_kernel (a b c : Z) (bytes : list Z) : kernel flat :=
  Kernel (list_to_map [(20, Object 1 (Thread (calling a b c))); (30, sample_process sample_table)]) ∅ 0 None None sample_console
    (Flat (Heap {[20; 30]} 0 0) (λ x, nthZ bytes (x - 0x5000))).

Lemma bad_handle_refused_witness :
  interrupt_0x80 (Some 20) (call_kernel SYSCALL_OBJECT_CLOSE 9 0 []) =
    Ok (INTERRUPT_CONTINUE_EXECUTION, returned (call_kernel SYSCALL_OBJECT_CLOSE 9 0 []) 20 1 (calling SYSCALL_OBJECT_CLOSE 9 0) 0) ∧
  interrupt_0x80 (Some 20) (call_kernel SYSCALL_OBJECT_WAIT 77 0 []) =
    Ok (INTERRUPT_CONTINUE_EXECUTION, returned (call_kernel SYSCALL_OBJECT_WAIT 77 0 []) 20 1 (calling SYSCALL_OBJECT_WAIT 77 0) (-1)).
Proof.
  assert (Hr : ∀ a b c, runs (call_kernel a b c []) 20 30 1 (calling a b c) sample_table sample_slots).
  { intros a b c. constructor; [done|done| |apply sample_table_ok]. by do 2 eexists. }
  split; (eapply bad_handle_refused; [apply Hr|done|done|reflexivity|reflexivity]).
Defined.

Lemma console_write_prints_witness :
  wp (interrupt_0x80 (Some 20)) (call_kernel SYSCALL_CONSOLE_WRITE 0x5000 2 [72; 105]) (λ s k',
    s = INTERRUPT_CONTINUE_EXECUTION ∧ cursorX (con k') = 2 ∧ take 3 (videoTextMemory (con k')) = [cell 15 72; cell 15 105; 0]).
Proof.
  assert (console_ok sample_console) as Hc.
  { split; [split_and!; [reflexivity|by apply Forall_replicate|by unfold is_u8; simpl]|by unfold VGA_WIDTH, VGA_HEIGHT; simpl]. }
  eapply wp_mono; [eapply (console_write_prints _ 20 30 1 (calling SYSCALL_CONSOLE_WRITE 0x5000 2) [72; 105] 0); try reflexivity; try done|].
  - intros i Hi. unfold call_kernel. cbn. f_equal. lia.
  - intros s k' (-> & Hs & _). split; [done|]. unfold screen in Hs. 
    match type of Hs with _ = ?r => let r' := eval vm_compute in r in change r with r' in Hs end.
    injection Hs as -> -> _. by split.
Defined.
