(* ===== verification/KeyboardProofs.v ===== *)
(** * From the bytes of the keyboard to the characters of a pipe

    The handler of the keyboard runs once for each byte. Whatever keys these bytes
    come from, the characters that they mean by the layout appear on the console and
    arrive in the pipe of the standard input, in their order. *)

From S2P Require Import Prelude Io Console LinkedList Kernel Semaphore Event Timer Pipe Thread Process FileSystem Dispatch.
From S2P Require Import KeymapDE Devices Pic Keyboard KeyLayout Waiting Sample Blocking PipeProofs.
Open Scope Z_scope.

(** What a pipe holds after it was offered [cs] one by one. *)
Definition accept (q cs : list Z) : list Z := q ++ take (Z.to_nat (MAX_PIPE_BUFFER_SIZE - lenZ q)) cs.

Lemma accept_nil q : accept q [] = q.
Proof. unfold accept. by rewrite take_nil, app_nil_r. Qed.

Lemma accept_app q cs cs' : accept (accept q cs) cs' = accept q (cs ++ cs').
Proof.
  unfold accept. rewrite <-app_assoc. f_equal. rewrite take_app. f_equal. f_equal.
  rewrite !length_app, length_take. lia.
Qed.

(** ** The tables are large enough *)

Lemma table_values l c n : Forall (λ n, 0 ≤ n < 112) l → nthZ l c = Some n → 0 ≤ n < 112.
Proof. intros Hl Hn. unfold nthZ in Hn. destruct (c <? 0); [done|]. by eapply Forall_lookup_1 in Hl. Qed.

Lemma standard_codes c : 0 ≤ c < 128 → ∃ n, nthZ standardKeyCodes c = Some n ∧ 0 ≤ n < 112.
Proof.
  intros Hc. destruct (nthZ_is_Some standardKeyCodes c) as [n Hn]; [by simpl|]. exists n. split; [done|].
  apply (table_values standardKeyCodes c n); [apply (bool_decide_unpack _); vm_compute; exact I|done].
Qed.

Lemma extended_codes c : 0 ≤ c < 128 → ∃ n, nthZ extendedKeyCodes c = Some n ∧ 0 ≤ n < 112.
Proof.
  intros Hc. destruct (nthZ_is_Some extendedKeyCodes c) as [n Hn]; [by simpl|]. exists n. split; [done|].
  apply (table_values extendedKeyCodes c n); [apply (bool_decide_unpack _); vm_compute; exact I|done].
Qed.

Lemma map_lookup m n : 0 ≤ n < 112 → is_Some (nthZ (decode_map m (km_maps keyMapDE)) n).
Proof.
  intros Hn. apply nthZ_is_Some. enough (112 ≤ lenZ (decode_map m (km_maps keyMapDE))) by lia.
  destruct m as [[] [] [] [] []]; vm_compute; discriminate.
Qed.

(** ** What a write to a pipe leaves alone *)

Section Keeps.
Context {pages : Type} `{Memory pages} `{Machine (platform pages)}.
Abbreviation KM := (KM (platform pages)).

(** If [m] returns, the console and the devices are what they were. *)
Definition keeps {A} (m : KM A) : Prop :=
  ∀ k, match m k with Ok (_, k') => con k' = con k ∧ devs (memory k') = devs (memory k) | _ => True end.

Lemma keeps_mret {A} (a : A) : keeps (mret a).
Proof. done. Qed.

Lemma keeps_bind {A B} (m : KM A) (f : A → KM B) : keeps m → (∀ a, keeps (f a)) → keeps (m ≫= f).
Proof.
  intros Hm Hf k. unfold mbind, M_bind. specialize (Hm k). destruct (m k) as [[a k']| | |]; try done.
  specialize (Hf a k'). destruct (f a k') as [[b k'']| | |]; try done. destruct Hm as [Hc Hd]. by rewrite <-Hc, <-Hd.
Qed.

Lemma keeps_deref {A} (o : option A) why : keeps (deref o why).
Proof. by destruct o. Qed.

Lemma keeps_pages {A} (m : Prelude.M pages A) : keeps (with_memory (with_pages m)).
Proof. intros k. unfold with_memory, with_pages, zoom. by destruct (m _) as [[a p]| | |]. Qed.

Lemma keeps_realloc o n : keeps (with_memory (heapReAlloc o n)).
Proof. apply keeps_pages. Qed.

Lemma keeps_queue_call c : keeps (Kernel.queue_call c).
Proof. intros k. unfold Kernel.queue_call, get, mbind, M_bind. by destruct (q_exec c (qs k)). Qed.

Lemma keeps_getObject o : keeps (getObject o).
Proof. intros k. unfold getObject, get, mbind, M_bind. by destruct (objs k !! o). Qed.

Lemma keeps_queue_empty l : keeps (queue_empty l).
Proof. intros k. unfold queue_empty, get, mbind, M_bind. by destruct (qs k !! l). Qed.

Lemma keeps_queue_next n : keeps (queue_next n).
Proof. intros k. unfold queue_next, get, mbind, M_bind. by destruct (q_next n (qs k)). Qed.

Lemma keeps_putObject o x : keeps (putObject o x).
Proof. done. Qed.

Lemma keeps_panic {A} why : keeps (panic why : KM A).
Proof. done. Qed.

Lemma keeps_undef {A} why : keeps (undef why : KM A).
Proof. done. Qed.

Lemma keeps_no_fuel {A} : keeps (no_fuel : KM A).
Proof. done. Qed.

Create HintDb keeps discriminated.
#[local] Hint Constants Opaque : keeps.
#[local] Hint Resolve keeps_mret keeps_deref keeps_realloc keeps_queue_call keeps_getObject
  keeps_putObject keeps_queue_empty keeps_queue_next keeps_panic keeps_undef keeps_no_fuel : keeps.

(** Takes a function apart. *)
Ltac keep :=
  repeat match goal with
  | |- keeps (mbind _ _) => apply keeps_bind; [|intros ?]
  | |- keeps (match ?x with _ => _ end) => destruct x
  | |- keeps (assert ?b _) => destruct b; cbn [when assert]
  | |- keeps (when ?b _) => destruct b; cbn [when assert]
  | |- keeps (let x := _ in _) => cbv zeta
  | |- keeps (putBody _ _) => unfold putBody
  | |- keeps (getBody _) => unfold getBody
  | |- keeps (pointee _ _) => unfold pointee
  | |- keeps (objectContainer _ _) => unfold objectContainer
  | |- keeps (modify_thread _ _) => unfold modify_thread
  | |- keeps (set_status _ _) => unfold set_status
  | |- keeps (set_blocked _ _) => unfold set_blocked
  | |- keeps (__semaphoreSignal _ _) => unfold __semaphoreSignal
  | |- keeps (__eventSignal _ _) => unfold __eventSignal
  | |- keeps (__subEventSignal _ _) => unfold __subEventSignal
  | |- keeps (__timerSignal _ _) => unfold __timerSignal
  | |- keeps (__threadSignal _ _) => unfold __threadSignal
  | |- keeps (__openedFileSignal _ _) => unfold __openedFileSignal
  | |- keeps (queue_remove _) => unfold queue_remove
  | |- keeps (queue_add_tail _ _) => unfold queue_add_tail, queue_add_before
  end;  eauto with keeps.

Lemma keeps_for_each_safe_loop {A} fuel l body : (∀ o (a : A), keeps (body o a)) →
  ∀ e n a, keeps (for_each_safe_loop fuel l body e n a).
Proof. intros Hb. induction fuel as [|fuel IH]; intros e n a; simpl; [done|]. keep. Qed.

Lemma keeps_for_each_safe {A} fuel l body (a : A) : (∀ o a, keeps (body o a)) → keeps (for_each_safe fuel l body a).
Proof. intros Hb. unfold for_each_safe. keep. by apply keeps_for_each_safe_loop. Qed.

Section Signals.
Context `{Methods (platform pages)} (Hsig : ∀ o r, keeps (__objectSignal o r)).

Lemma keeps_wakeup l all eax : keeps (queueWakeup l all eax).
Proof. apply keeps_for_each_safe. intros o []. keep. Qed.
#[local] Hint Resolve keeps_wakeup : keeps.

Lemma keeps_signal o r : keeps (call_signal o r).
Proof.
  apply keeps_bind; [keep|]. intros []; try apply keeps_mret; keep.
Qed.

Lemma keeps_pipeWrite o buf len : keeps (__pipeWrite o buf len).
Proof.
  unfold __pipeWrite, grow. keep.
Qed.

Lemma wp_keeps {A} (m : KM A) k (Q : A → kernel (platform pages) → Prop) : keeps m → wp m k Q →
  wp m k (λ a k', Q a k' ∧ con k' = con k ∧ devs (memory k') = devs (memory k)).
Proof. intros Hm. specialize (Hm k). unfold wp. destruct (m k) as [[a k']| | |]; done. Qed.
End Signals.

Lemma keeps_methods loops depth o r : keeps (@__objectSignal _ (methods loops depth) o r).
Proof. revert o r. induction depth as [|depth IH]; intros o r; [done|]. simpl. by apply keeps_signal. Qed.
End Keeps.

(** ** Typing *)

Section Typing.
Context {pages : Type} `{Memory pages} `{Machine (platform pages)} (rank : oid → nat) (loops depth : nat).
Context (Hdepth : ∀ o, (rank o < depth)%nat).
Context (Hmem : ∀ m a n, wp (heapReAlloc a n) (m : platform pages) (λ r _, is_Some r)).
#[local] Instance kbd_methods : Methods (platform pages) := methods loops depth.
Implicit Types k : kernel (platform pages).

Definition keyboard_of k : keyboard := kbd (devs (memory k)).

(** Pipe [o] holds [q], whatever its buffer is. *)
Definition pipe_holds k (o : oid) (q : list Z) : Prop := ∃ p b, holds rank loops k o p b q.

(** The pipe is the standard input and no key is half received. *)
Record ready k (o : oid) (q : list Z) (m : keyModifier) : Prop := {
  rd_pipe : pipe_holds k o q;
  rd_console : console_ok (con k);
  rd_stdin : keyboardStdin (keyboard_of k) = Some o;
  rd_modifiers : modifiers (keyboard_of k) = m;
}.

Definition between_keys k : Prop := ext1Code (keyboard_of k) = false ∧ ext2Code (keyboard_of k) = 0.

(** What is shown for the characters [cs]. *)
Definition echoed (c : console) (cs : list Z) : list Z * Z * Z :=
  if flag c CONFLAGS_ECHO then fold_left (term_putc (flag c CONFLAGS_RAW_MODE) (consoleColor c)) cs (screen c)
  else screen c.

(** The characters [cs] have been typed between [k] and [k']. *)
Record shows_typed k k' (cs : list Z) : Prop := {
  st_screen : screen (con k') = echoed (con k) cs;
  st_mode : same_mode (con k) (con k');
}.

Lemma shows_nil k k' : con k' = con k → shows_typed k k' [].
Proof. intros Hc. constructor; unfold echoed; rewrite Hc; [by case_match|done]. Qed.

Lemma shows_app k k1 k2 cs cs' : shows_typed k k1 cs → shows_typed k1 k2 cs' → shows_typed k k2 (cs ++ cs').
Proof.
  intros [Hs1 [Hc1 Hf1]] [Hs2 [Hc2 Hf2]]. constructor; [|by split; etrans].
  revert Hs1 Hs2. unfold echoed, flag. rewrite Hf1, Hc1. case_match; intros Hs1 Hs2; [by rewrite fold_left_app, Hs2, Hs1|by rewrite Hs2].
Qed.

(** The rest of the state does not matter for the pipe. *)
Lemma pipe_holds_same k k' o q : objs k' = objs k → qs k' = qs k → pipe_holds k o q → pipe_holds k' o q.
Proof.
  intros Ho Hq (p & b & [Hwf Hsz Hp Hr Hw Hok Hop Hc]). exists p, b. constructor; rewrite ?Ho, ?Hq; try done.
  unfold wf in *. destruct k, k'; simpl in *; subst. exact Hwf.
Qed.
Lemma wp_type_char k o q c : pipe_holds k o q →
  wp (__objectWrite o [c] 1) k (λ _ k', pipe_holds k' o (accept q [c]) ∧ con k' = con k ∧ devs (memory k') = devs (memory k)).
Proof.
  intros (p & b & Hh). pose proof Hh as [_ _ [r Ho] _ _ _ _ _]. unfold __objectWrite. wp_step. eapply wp_getBody; [done|]. simpl.
  eapply wp_mono; [eapply wp_keeps; [apply keeps_pipeWrite, keeps_methods|
    by eapply (wp_pipeWrite rank loops depth Hdepth Hmem k o p b q [c] 1)]|].
  intros n k' [(-> & p' & b' & Hh' & _) Hsame]. split; [|done]. exists p', b'. unfold accept.
  replace (take (Z.to_nat (MAX_PIPE_BUFFER_SIZE - lenZ q)) [c]) with (take (Z.to_nat (Z.min 1 (MAX_PIPE_BUFFER_SIZE - lenZ q))) [c]); [done|].
  rewrite Z2Nat.inj_min. by destruct (Z.to_nat (MAX_PIPE_BUFFER_SIZE - lenZ q)) as [|[|]].
Qed.

Lemma wp_emit k o q m c : ready k o q m →
  wp (emit_char c) k (λ _ k', ready k' o (accept q [c]) m ∧ shows_typed k k' [c] ∧ keyboard_of k' = keyboard_of k).
Proof.
  intros [Hp Hc Hs Hm]. unfold emit_char, consoleEchoChar. wp_step.
  apply wp_zoom. wp_step. wp_step.
  assert (wp (when (flag (con k) CONFLAGS_ECHO) (consolePutChar c)) (con k) (λ _ c', screen c' = echoed (con k) [c] ∧ same_mode (con k) c' ∧ console_ok c')) as Hecho.
  { unfold echoed. apply wp_when; intros Hf; rewrite Hf; [|done]. apply wp_putc; [done|]. intros c' Hs' Hm' Hok'. done. }
  eapply wp_mono; [exact Hecho|]. intros [] c' (Hs' & Hm' & Hok'). wp_step. unfold get_kbd, get_dev. wp_step. wp_step. wp_step.
  change (keyboardStdin _) with (keyboardStdin (keyboard_of k)). rewrite Hs.
  wp_step. eapply wp_mono; [apply wp_type_char; by apply (pipe_holds_same k)|].
  intros n k' (Hp' & Hcon & Hdev). wp_step. simpl in Hcon, Hdev.
  split; [constructor|split; [constructor|]]; unfold keyboard_of in *; rewrite ?Hcon, ?Hdev; done.
Qed.

(** What a key does to the kernel. *)
Lemma wp_process k o q m extended c n up : ready k o q m → 0 ≤ n < 112 →
  (extended = 0 ∧ nthZ standardKeyCodes c = Some n ∨ extended = 1 ∧ nthZ extendedKeyCodes c = Some n) →
  wp (processScancode extended c up) k (λ _ k', ready k' o (accept q (press m n up).2) (press m n up).1 ∧
    shows_typed k k' (press m n up).2 ∧
    ext1Code (keyboard_of k') = ext1Code (keyboard_of k) ∧ ext2Code (keyboard_of k') = ext2Code (keyboard_of k)).
Proof.
  intros Hr Hn Hcode. pose proof Hr as [Hp Hc Hs Hm]. unfold processScancode, get_kbd, get_dev. wp_step. wp_step. wp_step. wp_step.
  change (kbd _) with (keyboard_of k). rewrite Hm. unfold press at 1 2 3. destruct (map_lookup m n Hn) as [code Hcode'].
  apply wp_bind. assert (Hmap : ∀ Q : Z → kernel (platform pages) → Prop, Q n k → wp (if extended =? 0 then deref (nthZ standardKeyCodes c) "standardKeyCodes"
      else if extended =? 1 then deref (nthZ extendedKeyCodes c) "extendedKeyCodes" else mret 0) k Q).
  { intros Q HQ. destruct Hcode as [[-> ->]|[-> ->]]; exact HQ. }
  apply Hmap. destruct (n =? 0); [wp_step; cbn [fst snd]; split_and!; [by rewrite accept_nil|by apply shows_nil|done..]|].
  wp_step. eapply (wp_deref _ keyMapDE); [done|]. wp_step. eapply wp_deref; [done|]. rewrite Hcode'. cbn [default orb id].
  destruct (Z.land code 0x0FFF =? 0); [wp_step; cbn [fst snd]; split_and!; [by rewrite accept_nil|by apply shows_nil|done..]|].
  set (m' := update_modifiers _ _ m). unfold modify_kbd, modify_dev. wp_step. wp_step. set (k1 := set_memory _ k).
  assert (Hr1 : ready k1 o q m') by (constructor; try done; by apply (pipe_holds_same k)).
  destruct up; cbn [negb fst snd]; [wp_step; split_and!; [by rewrite accept_nil|by apply shows_nil|done..]|].
  destruct (key_char _) as [ch|]; cbn [option_list fst snd]; [|wp_step; split_and!; [by rewrite accept_nil|by apply shows_nil|done..]].
  eapply wp_mono; [by apply wp_emit|]. intros [] k2 (Hr2 & [Hss Hsm] & Hk2). rewrite Hk2. by split_and!.
Qed.
(** From [k] to [k'] the characters [cs] have been typed; [k'] is in the middle of a
    key as [ext1] and [ext2] say. *)
Record after k k' (o : oid) (q : list Z) (m : keyModifier) (cs : list Z) (ext1 : bool) (ext2 : Z) : Prop := {
  af_ready : ready k' o (accept q cs) m;
  af_shows : shows_typed k k' cs;
  af_ext1 : ext1Code (keyboard_of k') = ext1;
  af_ext2 : ext2Code (keyboard_of k') = ext2;
}.

Lemma after_app k k1 k2 o q m m' cs cs' e1 e2 e1' e2' :
  after k k1 o q m cs e1 e2 → after k1 k2 o (accept q cs) m' cs' e1' e2' → after k k2 o q m' (cs ++ cs') e1' e2'.
Proof. intros [Hr1 Hs1 _ _] [Hr2 Hs2 ? ?]. constructor; [by rewrite <-accept_app|by eapply shows_app|done..]. Qed.

Lemma wp_set_ext k o q m e1 e2 v : ready k o q m →
  wp (modify_kbd (kbd_with_ext e1 e2 v)) k (λ _ k', after k k' o q m [] e1 e2).
Proof.
  intros [Hp Hc Hs Hm]. unfold modify_kbd, modify_dev. wp_step. constructor; [|by apply shows_nil|done..].
  rewrite accept_nil. constructor; try done. by apply (pipe_holds_same k).
Qed.

(** A key, and the state of the sequence afterwards. *)
Lemma wp_process_then k o q m extended c n up e2 v : ready k o q m → 0 ≤ n < 112 →
  (extended = 0 ∧ nthZ standardKeyCodes c = Some n ∨ extended = 1 ∧ nthZ extendedKeyCodes c = Some n) →
  wp (processScancode extended c up ;; modify_kbd (kbd_with_ext false e2 v)) k (λ _ k',
    after k k' o q (press m n up).1 (press m n up).2 false e2).
Proof.
  intros Hr Hn Hc. wp_step. eapply wp_mono; [by eapply wp_process|]. intros [] k1 (Hr1 & Hs1 & He1 & He2).
  eapply wp_mono; [by apply wp_set_ext|]. intros [] k2 Hk2. rewrite <-(app_nil_r (press m n up).2).
  by eapply after_app; [constructor|].
Qed.

Lemma release_code c up : 0 ≤ c < 128 → is_u8 (with_release c up) ∧
  negb (Z.land (with_release c up) 0x80 =? 0) = up ∧ (if up then Z.land (with_release c up) (Z.lnot 0x80) else with_release c up) = c.
Proof.
  intros Hc. split; [unfold is_u8, with_release; destruct up; lia|].
  assert (Forall (λ c, ∀ up : bool, negb (Z.land (with_release c up) 0x80 =? 0) = up ∧
    (if up then Z.land (with_release c up) (Z.lnot 0x80) else with_release c up) = c) (seqZ 0 128)) as Hall.
  { apply (bool_decide_unpack _). vm_compute. exact I. }
  rewrite Forall_forall in Hall. apply Hall, elem_of_seqZ. lia.
Qed.
(** Begins the handler of a byte in a known state of the sequence. *)
Ltac at_byte He1 He2 :=
  unfold keyboard_byte, get_kbd, get_dev; wp_step; wp_step; wp_step; wp_step;
  change (kbd (devs (memory ?k))) with (keyboard_of k); unfold key_up; rewrite He1, He2; cbn [orb negb andb].

Lemma wp_byte_standard k o q m c up : ready k o q m → between_keys k → event_ok (StandardKey c up) →
  wp (keyboard_byte (with_release c up)) k (λ _ k', let n := default 0 (nthZ standardKeyCodes c) in
    after k k' o q (press m n up).1 (press m n up).2 false 0).
Proof.
  intros Hr [He1 He2] [Hc Hp]. destruct (standard_codes c Hc) as (n & Hn & Hrange). rewrite Hn. cbn [default].
  destruct (release_code c up Hc) as (_ & Hup & Hcode). at_byte He1 He2. rewrite Hup. change (0 =? 0) with true. cbn [negb orb andb].
  assert ((up && negb (with_release c up =? 0xE1)) && negb (with_release c up =? 0xE0) = up) as ->.
  { destruct up; [|done]. unfold with_release. destruct (Hp eq_refl). cbn [andb].
    destruct (Z.eqb_spec (c + 128) 0xE1), (Z.eqb_spec (c + 128) 0xE0); (done || lia). }
  rewrite Hcode. change (0 =? 2) with false. change (0 =? 1) with false. cbv iota.
  destruct (Z.eqb_spec c 0xE0), (Z.eqb_spec c 0xE1); [lia..|].
  eapply wp_mono; [by eapply wp_process; [..|left]|]. intros [] k' (Hr' & Hs' & He1' & He2'). constructor; [done..| |]; congruence.
Qed.

Lemma wp_byte_extended k o q m c up : ready k o q m → ext1Code (keyboard_of k) = true → ext2Code (keyboard_of k) = 0 →
  event_ok (ExtendedKey c up) →
  wp (keyboard_byte (with_release c up)) k (λ _ k', let n := default 0 (nthZ extendedKeyCodes c) in
    after k k' o q (press m n up).1 (press m n up).2 false 0).
Proof.
  intros Hr He1 He2 (Hc & Hl & Hrs & Hp). destruct (extended_codes c Hc) as (n & Hn & Hrange). rewrite Hn. cbn [default].
  destruct (release_code c up Hc) as (_ & Hup & Hcode). at_byte He1 He2. rewrite Hup. change (0 =? 0) with true. cbn [negb orb andb].
  assert ((up && negb (with_release c up =? 0xE1)) && true = up) as ->.
  { destruct up; [|done]. unfold with_release. specialize (Hp eq_refl). destruct (Z.eqb_spec (c + 128) 0xE1); (done || lia). }
  rewrite Hcode, (proj2 (Z.eqb_neq c 0x2A)), (proj2 (Z.eqb_neq c 0x36)) by done. cbn [orb].
  eapply wp_process_then; [done..|]. by right.
Qed.

Lemma wp_byte_fake k o q m rshift up : ready k o q m → ext1Code (keyboard_of k) = true → ext2Code (keyboard_of k) = 0 →
  wp (keyboard_byte (with_release (if rshift : bool then 0x36 else 0x2A) up)) k (λ _ k', after k k' o q m [] false 0).
Proof.
  intros Hr He1 He2. at_byte He1 He2. destruct rshift, up; by apply wp_set_ext.
Qed.

Lemma wp_byte_prefix k o q m (one : bool) : ready k o q m → between_keys k →
  wp (keyboard_byte (if one then 0xE1 else 0xE0)) k (λ _ k', after k k' o q m [] (negb one) (if one then 1 else 0)).
Proof. intros Hr [He1 He2]. at_byte He1 He2. destruct one; by apply wp_set_ext. Qed.

Lemma wp_byte_pause k o q m b (second : bool) : ready k o q m → ext1Code (keyboard_of k) = false →
  ext2Code (keyboard_of k) = (if second then 2 else 1) →
  wp (keyboard_byte b) k (λ _ k', after k k' o q m [] false (if second then 0 else 2)).
Proof.
  intros Hr He1 He2. at_byte He1 He2. destruct second; [|by apply wp_set_ext].
  change (2 =? 2) with true. cbv iota. wp_step. eapply wp_mono; [by apply wp_set_ext|]. intros [] k1 Hk1.
  unfold processScancode, get_kbd, get_dev. wp_step. wp_step. wp_step. wp_step. wp_step.
  change (2 =? 0) with false. change (2 =? 1) with false. cbv iota. wp_step. wp_step. change (0 =? 0) with true. cbv iota. wp_step.
  eapply wp_mono; [apply wp_set_ext, Hk1|]. intros [] k2 Hk2. by eapply (after_app _ _ _ _ _ _ _ [] []).
Qed.
(** The two prefixes one after the other, which no key sends: after 0xE0 the byte 0xE1
    is not taken for a release, keeps its high bit, and the table of the extended
    keys is read behind its end. *)
Theorem prefixes_out_of_table k : ext1Code (keyboard_of k) = true → ext2Code (keyboard_of k) = 0 →
  keyboard_byte 0xE1 k = Undef "extendedKeyCodes".
Proof.
  intros He1 He2. assert (get_kbd k = Ok (keyboard_of k, k)) as Hk by reflexivity.
  unfold keyboard_byte, mbind, M_bind. rewrite Hk. unfold key_up. rewrite He1, He2.
  change (_ && _ && _) with false. cbv iota zeta. change (_ || _) with false. cbv iota.
  unfold processScancode, mbind, M_bind. by rewrite Hk.
Qed.

(** ** Interrupts

    For every byte the keyboard puts it into its port and raises an interrupt. *)
Definition keyboard_interrupt (byte : Z) : Kernel.KM (platform pages) Z :=
  ports_of (modify (λ p, Ports (log p) [byte])) ;; keyboard_irq IRQ_KEYBOARD.

Fixpoint keyboard_interrupts (bytes : list Z) : Kernel.KM (platform pages) unit :=
  match bytes with
  | [] => mret tt
  | b :: bytes => keyboard_interrupt b ;; keyboard_interrupts bytes
  end.

Lemma wp_interrupt k o q m b m' cs e1 e2 : ready k o q m → is_u8 b →
  (∀ k1, ready k1 o q m → keyboard_of k1 = keyboard_of k → wp (keyboard_byte b) k1 (λ _ k', after k1 k' o q m' cs e1 e2)) →
  wp (keyboard_interrupt b) k (λ _ k', after k k' o q m' cs e1 e2).
Proof.
  intros [Hp Hc Hs Hm] Hb Hbyte. unfold keyboard_interrupt, keyboard_irq, ports_of. wp_step. apply wp_zoom, wp_with_io.
  wp_step. wp_step. apply wp_zoom, wp_with_io. unfold inb.
  wp_step. wp_step. change (answers _) with [b]. cbv iota. wp_step. wp_step. wp_step. rewrite (u8_small b Hb).
  set (k1 := set_con _ _). assert (Hr1 : ready k1 o q m) by (constructor; try done; by apply (pipe_holds_same k)).
  wp_step. eapply wp_mono; [by apply Hbyte|]. intros [] k' [Hr' [Hs' Hm'] He1 He2]. wp_step. constructor; [done|by constructor|done..].
Qed.

(** All the bytes of one key. *)
Lemma wp_event k o q m e : ready k o q m → between_keys k → event_ok e →
  wp (keyboard_interrupts (event_bytes e)) k (λ _ k', let r := press m (event_key e).1 (event_key e).2 in
    after k k' o q r.1 r.2 false 0).
Proof.
  intros Hr Hb He.
  assert (Hone : ∀ (one : bool) k, ready k o q m → between_keys k →
    wp (keyboard_interrupt (if one then 0xE1 else 0xE0)) k (λ _ k', after k k' o q m [] (negb one) (if one then 1 else 0))).
  { intros one k0 Hr0 Hb0. apply (wp_interrupt k0 o q m); [done|by destruct one|]. intros k1 Hr1 Hk1.
    apply wp_byte_prefix; [done|]. unfold between_keys. by rewrite Hk1. }
  destruct e as [c up|c up|rshift up|b1 b2]; cbn [event_bytes keyboard_interrupts event_key fst snd]; wp_step.
  - eapply wp_mono; [apply (wp_interrupt k o q m); [done|by apply release_code; destruct He|]|].
    + intros k1 Hr1 Hk1. apply wp_byte_standard; [done| |done]. unfold between_keys. by rewrite Hk1.
    + intros s k' Hk'. by wp_step.
  - eapply wp_mono; [by apply (Hone false)|]. intros s k1 Hk1. wp_step.
    eapply wp_mono; [apply (wp_interrupt k1 o (accept q []) m); [apply Hk1|by apply release_code; destruct He|]|].
    + intros k2 Hr2 Hk2. apply wp_byte_extended; [done|rewrite Hk2; apply Hk1|rewrite Hk2; apply Hk1|done].
    + intros s' k' Hk'. wp_step. exact (after_app _ _ _ _ _ _ _ [] _ _ _ _ _ Hk1 Hk').
  - eapply wp_mono; [by apply (Hone false)|]. intros s k1 Hk1. wp_step.
    eapply wp_mono; [apply (wp_interrupt k1 o (accept q []) m); [apply Hk1|apply release_code; destruct rshift; lia|]|].
    + intros k2 Hr2 Hk2. apply wp_byte_fake; [done|rewrite Hk2; apply Hk1|rewrite Hk2; apply Hk1].
    + intros s' k' Hk'. wp_step. exact (after_app _ _ _ _ _ _ _ [] [] _ _ _ _ Hk1 Hk').
  - destruct He as [Hb1 Hb2]. eapply wp_mono; [by apply (Hone true)|]. intros s k1 Hk1. wp_step.
    eapply wp_mono; [apply (wp_interrupt k1 o (accept q []) m b1 m [] false 2); [apply Hk1|done|]|].
    { intros k2 Hr2 Hk2. apply (wp_byte_pause _ _ _ _ _ false); [done|rewrite Hk2; apply Hk1..]. }
    intros s' k2 Hk2. wp_step. eapply wp_mono; [apply (wp_interrupt k2 o (accept (accept q []) []) m b2 m [] false 0); [apply Hk2|done|]|].
    { intros k3 Hr3 Hk3. apply (wp_byte_pause _ _ _ _ _ true); [done|rewrite Hk3; apply Hk2..]. }
    intros s'' k3 Hk3. wp_step.
    exact (after_app _ _ _ _ _ _ _ [] [] _ _ _ _ Hk1 (after_app _ _ _ _ _ _ _ [] [] _ _ _ _ Hk2 Hk3)).
Qed.

(** C18: The keyboard handler, run for each byte that any sequence of keys sends, turns
    the keys into the characters of the German keyboard as [KeyLayout.typed] has them
    by key: they appear on the console if it echoes, and arrive in the pipe of the
    standard input in their order as far as it has room; the modifiers follow the
    keys, and the handler is ready for the next key. The byte 0xE1 directly after 0xE0
    is not among them: no key sends it, and the handler then reads behind a table. *)
Theorem keys_reach_pipe k o q m es : ready k o q m → between_keys k → Forall event_ok es →
  wp (keyboard_interrupts (mjoin (event_bytes <$> es))) k (λ _ k',
    ready k' o (accept q (typed m es).2) (typed m es).1 ∧ between_keys k' ∧ shows_typed k k' (typed m es).2).
Proof.
  intros Hr Hb Hes.
  enough (wp (keyboard_interrupts (mjoin (event_bytes <$> es))) k (λ _ k', after k k' o q (typed m es).1 (typed m es).2 false 0)) as Hw.
  { eapply wp_mono; [exact Hw|]. by intros [] k' [? ? ? ?]. }
  assert (Happ : ∀ bs bs' k (Q : unit → kernel (platform pages) → Prop),
    wp (keyboard_interrupts bs) k (λ _ k', wp (keyboard_interrupts bs') k' Q) → wp (keyboard_interrupts (bs ++ bs')) k Q).
  { clear. induction bs as [|b bs IH]; intros bs' k Q HQ; [done|]. cbn [app keyboard_interrupts] in *. wp_step.
    apply wp_bind_inv in HQ. eapply wp_mono; [exact HQ|]. intros s k'. apply IH. }
  revert k q m Hr Hb. induction Hes as [|e es He Hes IH]; intros k q m Hr Hb; cbn [fmap list_fmap mjoin list_join typed].
  { cbn [keyboard_interrupts]. wp_step. destruct Hb. constructor; [by rewrite accept_nil|by apply shows_nil|done..]. }
  apply Happ. eapply wp_mono; [by apply wp_event|]. cbv zeta. rewrite press_hits by done. intros [] k1 Hk1.
  destruct (hits m e) as [m1 cs]. cbn [fst snd] in Hk1.
  eapply wp_mono; [apply IH; [apply Hk1|split; apply Hk1]|]. intros [] k2 Hk2. destruct (typed m1 es) as [m2 cs']. by eapply after_app.
Qed.
End Typing.

(** ** Example: H, i, Enter

    Pipe 90 is empty, and thread 11 waits to read from it. *)

#[local] Instance kbd_machine : Machine (platform heap) :=
  {| dataRing0_offset := 16; codeRing3_offset := 27; dataRing3_offset := 35; kernelStack := 0x200000; intJmpTable_user := 0x201000; fnsave := mret 0 |}.

Definition empty_block : block Z := Block 91 (replicate 4096 0).
Definition empty_pipe : pipe := PipeFields (Some empty_block) 0x1000 0 0 true.

Definition stdin_kernel : kernel heap := sample_kernel
  [(11, sample_thread true (Some 30)); (90, Object 1 (Pipe empty_pipe))]
  [(ThreadList, []); (TimerList, []); (Waiters 11, []); (WriteWaiters 90, []); (ReadWaiters 90, [Entry 11])].

Definition echo_console : console := Console (replicate 2000 0) 0 0 15 CONFLAGS_ECHO 0 0 (Ports [] []).

Definition kbd_kernel : kernel (platform heap) :=
  Kernel (objs stdin_kernel) (qs stdin_kernel) 100 None None echo_console
    (Platform (memory stdin_kernel) (MkDevices [] 0 [] (Keyboard 0 (Some 90) no_modifiers false 0 0) sample_registers [])).

Lemma stdin_holds : holds (λ _, 0%nat) 16 kbd_kernel 90 empty_pipe empty_block [].
Proof.
  constructor; try done; try (by eexists).
  - change (wf (λ _, 0%nat) stdin_kernel). apply wf_check_sound. vm_compute. reflexivity.
  - vm_compute. lia.
  - constructor; simpl; [done|unfold sizes; set_solver|by vm_compute|lia].
Qed.

Lemma platform_realloc_ok (m : platform heap) a n : wp (heapReAlloc a n) m (λ r _, is_Some r).
Proof. unfold wp. simpl. eauto. Qed.

(** The left shift key, held for H; then i, the pause key and Enter. *)
Definition hi_keys : list key_event :=
  [StandardKey 0x2A false; StandardKey 0x23 false; StandardKey 0x23 true; StandardKey 0x2A true;
   StandardKey 0x17 false; StandardKey 0x17 true; PauseKey 0x1D 0x45; StandardKey 0x1C false].

Lemma keys_reach_pipe_witness :
  wp (keyboard_interrupts 16 1 [0x2A; 0x23; 0xA3; 0xAA; 0x17; 0x97; 0xE1; 0x1D; 0x45; 0x1C]) kbd_kernel (λ _ k',
    pipe_holds (λ _, 0%nat) 16 k' 90 [72; 105; 10] ∧ take 3 (videoTextMemory (con k')) = [cell 15 72; cell 15 105; 0] ∧ cursorY (con k') = 1).
Proof.
  assert (console_ok echo_console) as Hc.
  { split; [split_and!; [reflexivity|by apply Forall_replicate|by unfold is_u8; simpl]|by unfold VGA_WIDTH, VGA_HEIGHT; simpl]. }
  eapply wp_mono; [apply (keys_reach_pipe (λ _, 0%nat) 16 1 (λ _, Nat.lt_0_succ 0) platform_realloc_ok kbd_kernel 90 [] no_modifiers hi_keys)|].
  - constructor; [|done|reflexivity|reflexivity]. exists empty_pipe, empty_block. apply stdin_holds.
  - by split.
  - repeat constructor; cbn; done.
  - intros [] k' ([Hp _ _ _] & _ & [Hs _]). split; [exact Hp|]. unfold screen in Hs.
    match type of Hs with _ = ?r => let r' := eval vm_compute in r in change r with r' in Hs end.
    injection Hs as Ht _ Hy. by rewrite Ht, Hy.
Defined.
