(* ===== verification/ScheduleProofs.v ===== *)
(** * The scheduler

    What running a thread does and which thread comes next, for every way in which
    its turn ends; and what goes wrong when the thread that is next is destroyed. *)

From S2P Require Import Prelude LinkedList Kernel Thread Process FileSystem Dispatch Sample.
Open Scope Z_scope.

Definition process_of {mem} (k : kernel mem) (t : oid) : option oid :=
  x ← objs k !! t; th ← as_thread (obj_body x); th_process th.

(** The link of the first of some threads, or the head of the list. *)
Definition first_of (ts : list oid) : node := hd ThreadList (Entry <$> ts).

Lemma run_exact {S A} (m : M S A) s a s' : wp m s (λ b s1, b = a ∧ s1 = s') → m s = Ok (a, s').
Proof. intros (? & ? & -> & -> & ->)%wp_run. done. Qed.

Lemma bind_ok {S A B} (m : M S A) (f : A → M S B) s a s' : m s = Ok (a, s') → (let* x := m in f x) s = f a s'.
Proof. unfold mbind, M_bind. by intros ->. Qed.

Section Run.
Context {mem : Type} `{Methods mem} `{UserMode mem}.
Implicit Types k : kernel mem.

Lemma pointee_ok {T} (f : body → option T) k o x v : objs k !! o = Some x → f (obj_body x) = Some v → pointee f o k = Ok (v, k).
Proof. intros. apply run_exact. by eapply wp_pointee. Qed.

(** Thread [t] of process [p] may run. *)
Definition ready k (t p : oid) : Prop :=
  ∃ r th, objs k !! t = Some (Object r (Thread th)) ∧ th_process th = Some p ∧ th_blocked th = false.

(** A turn of a thread: it runs until an interrupt ends the turn with a status, in at
    most [n] pieces, and is ready at the start of each. *)
Inductive turn (t p : oid) : nat → kernel mem → Z → kernel mem → Prop :=
  | turn_ends n k status k' :
      ready k t p → tssRunUsermodeThread t k = Ok (status, k') → status ≠ INTERRUPT_CONTINUE_EXECUTION →
      turn t p (S n) k status k'
  | turn_goes_on n k k' status k'' :
      ready k t p → tssRunUsermodeThread t k = Ok (INTERRUPT_CONTINUE_EXECUTION, k') → turn t p n k' status k'' →
      turn t p (S n) k status k''.

Lemma turn_run t p n k status k' : turn t p n k status k' → run_loop n t p k = Ok (status, k').
Proof.
  intros Ht. apply run_exact.
  induction Ht as [n k s k' (r & th & Ho & Hp & Hb) Hr Hs|n k k' s k'' (r & th & Ho & Hp & Hb) Hr _ IH]; cbn [run_loop];
    (wp_step; eapply wp_pointee; [done..|]; wp_step; apply wp_assert; [by rewrite Hb, Hp, bool_decide_true|];
     wp_step; unfold wp at 1; rewrite Hr).
  - rewrite (proj2 (Z.eqb_neq _ _)) by done. by wp_step.
  - exact IH.
Qed.

(** Skipping the threads of a process. *)
Lemma wp_skip_process k p mine others : ∀ fuel before (Q : node → kernel mem → Prop),
  q_ok (qs k) → qs k !! ThreadList = Some (Entry <$> before ++ mine ++ others) →
  (length mine < fuel)%nat → Forall (λ u, ∃ r th, objs k !! u = Some (Object r (Thread th)) ∧ th_process th = p) mine →
  (∀ u, head others = Some u → ∃ r th, objs k !! u = Some (Object r (Thread th)) ∧ th_process th ≠ p) →
  Q (first_of others) k → wp (skip_process fuel p (first_of (mine ++ others))) k Q.
Proof.
  induction mine as [|u mine IH]; intros fuel before Q Hok Hq Hf Hm Hother HQ; (destruct fuel as [|fuel]; [simpl in Hf; lia|]).
  - cbn [app skip_process] in *. destruct others as [|u others]; cbn [first_of fmap list_fmap hd] in *.
    { rewrite decide_True by done. by wp_step. }
    destruct (Hother u eq_refl) as (r & th & Ho & Hp). rewrite decide_False by done.
    wp_step. eapply wp_deref; [done|]. wp_step. eapply wp_pointee; [done..|]. rewrite decide_False by done. by wp_step.
  - apply Forall_cons in Hm as [(r & th & Ho & Hp) Hm]. cbn [app skip_process first_of fmap list_fmap hd].
    rewrite decide_False by done. wp_step. eapply wp_deref; [done|]. wp_step. eapply wp_pointee; [done..|].
    rewrite decide_True by done. wp_step. eapply wp_queue_next.
    { eapply q_next_elem; [done|]. rewrite fmap_app in Hq. exact Hq. }
    apply (IH fuel (before ++ [u])); [done|by rewrite <-app_assoc|simpl in Hf; lia|done|done|done].
Qed.

(** C19: Running a thread whose turn ends. The successor in the list is determined
    before the turn. If the thread yields, the scheduler goes on with this successor;
    if the thread ends, after its shutdown with the exit code in its register. If the
    process ends, the threads of the process that follow in the list are passed over,
    as the list is after the turn, and after the shutdown of the process the
    scheduler goes on with the first thread of another process, or the end. *)
Theorem threadRun_correct k k1 t p before after status r1 th1 :
  q_ok (qs k) → qs k !! ThreadList = Some (Entry <$> before ++ t :: after) →
  turn t p loop_fuel k status k1 → objs k1 !! t = Some (Object r1 (Thread th1)) →
  let code := ebx (th_task th1) in
  (status = INTERRUPT_YIELD → __threadRun t k = Ok (first_of after, k1)) ∧
  (status = INTERRUPT_EXIT_THREAD → __threadRun t k = (__objectShutdown t code ;; mret (first_of after)) k1) ∧
  (status = INTERRUPT_EXIT_PROCESS → ∀ before' mine others,
     q_ok (qs k1) → qs k1 !! ThreadList = Some (Entry <$> before' ++ mine ++ others) → first_of after = first_of (mine ++ others) →
     (length mine < loop_fuel)%nat → Forall (λ u, ∃ r th, objs k1 !! u = Some (Object r (Thread th)) ∧ th_process th = Some p) mine →
     (∀ u, head others = Some u → ∃ r th, objs k1 !! u = Some (Object r (Thread th)) ∧ th_process th ≠ Some p) →
     __threadRun t k = (__objectShutdown p code ;; mret (first_of others)) k1).
Proof.
  intros Hok Hq Hturn Ho1 code. assert (ready k t p) as (r & th & Ho & Hp & Hb) by by destruct Hturn.
  apply turn_run in Hturn.
  assert (__threadRun t k =
    (if status =? INTERRUPT_EXIT_THREAD then
       let* th := pointee as_thread t in __objectShutdown t (ebx (th_task th)) ;; mret (first_of after)
     else if status =? INTERRUPT_EXIT_PROCESS then
       let* next_t := skip_process loop_fuel (Some p) (first_of after) in
       let* th := pointee as_thread t in
       let* p := deref (Some p) "shutdown of a null process" in
       __objectShutdown p (ebx (th_task th)) ;; mret next_t
     else mret (first_of after)) k1) as E.
  { unfold __threadRun. erewrite bind_ok by (by eapply pointee_ok). rewrite Hp.
    assert (queue_next (Entry t) k = Ok (first_of after, k)) as En.
    { apply run_exact. rewrite fmap_app in Hq. eapply wp_queue_next; [by eapply q_next_elem|]. done. }
    cbv zeta. erewrite bind_ok by exact En. by erewrite bind_ok by exact Hturn. }
  rewrite E. split_and!; intros ->.
  - done.
  - cbn [Z.eqb]. change (INTERRUPT_EXIT_THREAD =? INTERRUPT_EXIT_THREAD) with true. cbv iota.
    by erewrite bind_ok by (by eapply pointee_ok).
  - intros before' mine others Hok1 Hq1 Hfirst Hl Hm Hother.
    change (INTERRUPT_EXIT_PROCESS =? INTERRUPT_EXIT_THREAD) with false. change (INTERRUPT_EXIT_PROCESS =? INTERRUPT_EXIT_PROCESS) with true.
    cbv iota. rewrite Hfirst.
    assert (skip_process loop_fuel (Some p) (first_of (mine ++ others)) k1 = Ok (first_of others, k1)) as Es.
    { apply run_exact. by eapply (wp_skip_process k1 (Some p) mine others). }
    erewrite bind_ok by exact Es. by erewrite bind_ok by (by eapply pointee_ok).
Qed.
End Run.

Section Destroyed.
Context {mem : Type} `{Methods mem} `{UserMode mem}.
Implicit Types k : kernel mem.

(** C31: The successor of a thread is determined before the thread runs. If the
    thread destroys it, for example by ending the process of it, which no handle
    names, the scheduler goes on with a structure that has been freed. *)
Theorem schedule_next_destroyed fuel k k' t u l r th p :
  (0 < loop_fuel)%nat → q_ok (qs k) → qs k !! ThreadList = Some (Entry t :: Entry u :: l) →
  objs k !! t = Some (Object r (Thread th)) → th_process th = Some p → th_blocked th = false →
  tssRunUsermodeThread t k = Ok (INTERRUPT_YIELD, k') → objs k' !! u = None →
  schedule_pass (S (S fuel)) (Entry t) k = Undef "dangling object pointer".
Proof.
  intros Hf Hok Hq Ho Hp Hb Hrun Hu. cbn [schedule_pass]. rewrite decide_False by done. cbn [container deref].
  assert (Hone : __threadRun t k = Ok (Entry u, k')).
  { assert (wp (__threadRun t) k (λ n k1, n = Entry u ∧ k1 = k')) as Hw; [|apply wp_run in Hw as (? & ? & -> & -> & ->); done].
    unfold __threadRun. wp_step. eapply wp_pointee; [done..|]. rewrite Hp. wp_step.
    eapply wp_queue_next; [by apply (q_next_elem (qs k) ThreadList [] (Entry t) (Entry u :: l))|]. cbn [hd].
    destruct loop_fuel as [|n]; [lia|]. cbn [run_loop]. wp_step. wp_step. eapply wp_pointee; [done..|].
    wp_step. apply wp_assert; [by rewrite Hp, Hb, bool_decide_true|]. wp_step. unfold wp at 1. rewrite Hrun.
    change (INTERRUPT_YIELD =? INTERRUPT_CONTINUE_EXECUTION) with false. cbv iota. wp_step.
    change (INTERRUPT_YIELD =? INTERRUPT_EXIT_THREAD) with false. change (INTERRUPT_YIELD =? INTERRUPT_EXIT_PROCESS) with false. cbv iota.
    by wp_step. }
  assert (Htwo : ∀ Q : node → KM mem unit, (let* n := __threadRun u in Q n) k' = Undef "dangling object pointer").
  { intros Q. unfold __threadRun, pointee, getBody, getObject, mbind, M_bind, get. by rewrite Hu. }
  unfold mbind at 1, M_bind at 1, mret, M_ret. unfold mbind at 1, M_bind at 1. rewrite Hone.
  rewrite decide_False by done. unfold mbind at 1, M_bind at 1. apply Htwo.
Qed.
End Destroyed.

(** ** A thread that ends its process

    Threads 20 and 22 are of process 30, thread 21 of process 31. *)

#[local] Instance kill_methods : Methods heap := Dispatch.methods 16 8.
#[local] Instance exit_user : UserMode heap := {|
  tssRunUsermodeThread _ := mret INTERRUPT_EXIT_PROCESS;
  tssKernelIdle := mret tt;
|}.

Definition kill_process (refs table : Z) : object :=
  Object refs (Process (ProcessFields ERR 0x100000 0x1000000 0 0 0 0 (HandleTable 256 0 0 (Some (Block table (replicate 256 None)))))).

Definition exit_kernel : kernel heap := sample_kernel
  [(20, sample_thread false (Some 30)); (22, sample_thread false (Some 30)); (21, sample_thread false (Some 31));
   (30, kill_process 3 80); (31, kill_process 3 81)]
  [(ThreadList, [Entry 20; Entry 22; Entry 21]); (ProcessList, [EntryList 30; EntryList 31]); (TimerList, []);
   (Threads 30, [EntryProcess 20; EntryProcess 22]); (Threads 31, [EntryProcess 21]);
   (Waiters 20, []); (Waiters 21, []); (Waiters 22, []); (Waiters 30, []); (Waiters 31, [])].

Lemma exit_kernel_ok : q_ok (qs exit_kernel).
Proof. apply nodes_q_ok, (bool_decide_unpack _). vm_compute. exact I. Qed.

(** The thread that is returned is still in the list, where it is now the only one. *)
Lemma threadRun_correct_witness :
  __threadRun 20 exit_kernel = (__objectShutdown 30 0 ;; mret (Entry 21)) exit_kernel ∧
  match (__objectShutdown 30 0 ;; mret (Entry 21)) exit_kernel with
  | Ok (n, k') => n = Entry 21 ∧ qs k' !! ThreadList = Some [Entry 21]
  | _ => False
  end.
Proof.
  split; [|vm_compute; by split].
  assert (turn 20 30 loop_fuel exit_kernel INTERRUPT_EXIT_PROCESS exit_kernel) as Ht.
  { apply turn_ends; [|reflexivity|done]. by do 2 eexists. }
  destruct (threadRun_correct exit_kernel exit_kernel 20 30 [] [22; 21] _ _ _ exit_kernel_ok eq_refl Ht eq_refl) as (_ & _ & Hexit).
  apply (Hexit eq_refl [20] [22] [21] exit_kernel_ok eq_refl eq_refl).
  - simpl. lia.
  - repeat constructor. by do 2 eexists.
  - intros u [= <-]. by do 2 eexists.
Defined.

(** ** A thread that ends the process of the next one

    Thread 20 of process 30 has a handle of process 31, whose only thread is 21. *)

#[local] Instance kill_user : UserMode heap := {|
  tssRunUsermodeThread _ := __objectShutdown 31 0 ;; mret INTERRUPT_YIELD;
  tssKernelIdle := mret tt;
|}.

Definition kill_kernel : kernel heap := sample_kernel
  [(20, sample_thread false (Some 30)); (21, sample_thread false (Some 31)); (30, kill_process 2 80); (31, kill_process 3 81)]
  [(ThreadList, [Entry 20; Entry 21]); (ProcessList, [EntryList 30; EntryList 31]); (TimerList, []);
   (Threads 30, [EntryProcess 20]); (Threads 31, [EntryProcess 21]);
   (Waiters 20, []); (Waiters 21, []); (Waiters 30, []); (Waiters 31, [])].

Definition after_kill : kernel heap :=
  match tssRunUsermodeThread 20 kill_kernel with Ok (_, k) => k | _ => kill_kernel end.

Lemma schedule_next_destroyed_witness :
  qs kill_kernel !! ThreadList = Some [Entry 20; Entry 21] ∧ schedule_pass 2 (Entry 20) kill_kernel = Undef "dangling object pointer".
Proof.
  split; [reflexivity|]. eapply (schedule_next_destroyed 0 kill_kernel after_kill 20 21 []).
  - simpl. lia.
  - apply nodes_q_ok, (bool_decide_unpack _). vm_compute. exact I.
  - reflexivity.
  - reflexivity.
  - reflexivity.
  - reflexivity.
  - vm_compute. reflexivity.
  - vm_compute. reflexivity.
Defined.
