(* ===== verification/User.v ===== *)
(** * The C library of user programs on top of the system calls

    Models the port of the C library to this system,
    src/usermode/libc/newlib/newlib/libc/sys/ibnos: the functions behind [open],
    [read], [write], [lseek], [stat], [dup], [pipe], [fork] and [execve], and how a program
    gets its arguments. The system calls of include/syscall.h are an interface,
    [Sys], over the state of whatever the process can see. A function of the library
    that sets errno returns it next to its result. The memory allocator of the
    library is third-party code, and its result is part of the interface. *)

From S2P Require Import Prelude.
Open Scope Z_scope.

(** The inline functions of include/syscall.h that the programs call; buffers are
    given by their bytes. [malloc] says if there is memory. *)
Class Sys (w : Type) := {
  objectWait : Z → Z → M w Z;
  objectRead : Z → Z → M w (Z * list Z);
  objectWrite : Z → list Z → M w Z;
  objectSignal : Z → Z → M w bool;
  objectShutdown : Z → Z → M w bool;
  objectClose : Z → M w bool;
  objectGetStatus : Z → Z → M w Z;
  objectAttach : Z → Z → Z → Z → M w bool;
  objectDetach : Z → Z → M w bool;
  createEvent : bool → M w Z;
  createPipe : M w Z;
  syscall_fork : M w Z;
  syscall_dup : Z → M w Z;
  syscall_dup2 : Z → Z → M w Z;
  syscall_exit_process : Z → M w unit;
  filesystemSearchFile : Z → list Z → bool → M w Z;
  filesystemSearchDirectory : Z → list Z → bool → M w Z;
  filesystemOpen : Z → M w Z;
  executeProgram : Z → list Z → list Z → M w Z;
  consoleSetFlags : Z → M w unit;
  consoleSetCursor : Z → Z → M w unit;
  consoleSetHardwareCursor : Z → Z → M w unit;
  consoleWriteRaw : list Z → M w Z;
  malloc : Z → M w bool;
  realloc : Z → M w bool;
  free : M w unit;
  execvp : list (list Z) → M w unit;
  printf : list Z → M w unit;
  setenv : list Z → list Z → M w unit;
}.

Definition ENOENT := 2.
Definition ENOEXEC := 8.
Definition EBADF := 9.
Definition ENOMEM := 12.
Definition EACCES := 13.
Definition EFAULT := 14.
Definition EINVAL := 22.
Definition EMFILE := 24.
Definition EPIPE := 32.
Definition ENOSYS := 88.
Definition O_APPEND := 0x8.
Definition O_CREAT := 0x200.
Definition O_TRUNC := 0x400.
Definition O_DIRECTORY := 0x10000.
Definition SEEK_CUR := 1.
Definition SEEK_END := 2.
Definition S_IFDIR := 0x4000.
Definition S_IFREG := 0x8000.

Section Libc.
Context {w : Type} `{Sys w}.

(** ** Files *)

Definition _close_r (fd : Z) : M w (Z * Z) :=
  let* ok := objectClose fd in mret (if negb ok then (-1, EBADF) else (0, 0)).

Definition dup (oldfd : Z) : M w (Z * Z) :=
  let* newfd := syscall_dup oldfd in mret (newfd, if newfd <? 0 then EBADF else 0).

Definition dup2 (oldfd newfd : Z) : M w (Z * Z) :=
  let* result := syscall_dup2 oldfd newfd in mret (result, if result <? 0 then EBADF else 0).

Definition _fork_r : M w (Z * Z) :=
  let* pid := syscall_fork in mret (pid, if pid <? 0 then ENOMEM else 0).

(** The two ends of a pipe are two handles of one object. [pipefd] says that the
    pointer to them is not null. *)
Definition pipe (pipefd : bool) : M w (Z * Z * option (Z * Z)) :=
  if negb pipefd then mret (-1, EFAULT, None) else
  let* p0 := createPipe in
  if 0 <=? p0 then
    let* ' (p1, _) := dup p0 in
    if 0 <=? p1 then mret (0, 0, Some (p0, p1)) else mret (-1, EMFILE, None)
  else mret (-1, EMFILE, None).

Definition _open_r (file : list Z) (flags : Z) : M w (Z * Z) :=
  let has bit := negb (Z.land flags bit =? 0) in
  let* fileobj := (if has O_DIRECTORY then filesystemSearchDirectory (-1) file false
                   else filesystemSearchFile (-1) file (has O_CREAT)) in
  if fileobj <? 0 then mret (-1, ENOENT)
  else
    let* ret := filesystemOpen fileobj in
    objectClose fileobj ;;
    if ret <? 0 then mret (-1, EACCES)
    else
      when (has O_TRUNC) (objectSignal ret 0 ;; objectShutdown ret 0 ;; mret tt) ;;
      when (has O_APPEND) (let* size := objectGetStatus ret 0 in objectSignal ret size ;; mret tt) ;;
      mret (ret, 0).

(** [objectSignal] returns a bool, so that the result is never below 0. *)
Definition _lseek_r (file pos whence : Z) : M w (Z * Z) :=
  let* start :=
    (if whence =? SEEK_CUR then let* o := objectGetStatus file 1 in mret (Some (i32 o))
     else if whence =? SEEK_END then let* o := objectGetStatus file 0 in mret (Some (i32 o))
     else mret None) in
  match start with
  | Some offset =>
      if offset =? -1 then mret (-1, EBADF)
      else let pos := i32 (pos + offset) in
           let* ok := objectSignal file (u32 pos) in
           let ret := Z.b2z ok in mret (if ret <? 0 then -1 else pos, if ret <? 0 then EINVAL else 0)
  | None =>
      let* ok := objectSignal file (u32 pos) in
      let ret := Z.b2z ok in mret (if ret <? 0 then -1 else pos, if ret <? 0 then EINVAL else 0)
  end.

(** [st] says that the pointer is not null; [st_mode] and [st_size] are the fields
    that are not 0. *)
Definition _fstat_r (file : Z) (st : bool) : M w (Z * Z * (Z * Z)) :=
  if negb st then mret (-1, EFAULT, (0, 0)) else
  let* size := objectGetStatus file 0 in
  mret (if i32 size <? 0 then (-1, EBADF, (S_IFREG, i32 size)) else (0, 0, (S_IFREG, i32 size))).

Definition _stat_r (file : list Z) : M w (Z * option Z * (Z * Z)) :=
  let* fileobj := filesystemSearchFile (-1) file false in
  if 0 <=? fileobj then
    let* size := objectGetStatus fileobj 0 in
    objectClose fileobj ;;
    mret (0, None, (S_IFREG, i32 size))
  else
    let* fileobj := filesystemSearchDirectory (-1) file false in
    if 0 <=? fileobj then objectClose fileobj ;; mret (0, None, (S_IFDIR, 0))
    else mret (-1, Some ENOENT, (0, 0)).

(** The result of [objectShutdown] is a bool here as well. *)
Definition _unlink_r (name : list Z) : M w (Z * option Z) :=
  let* fileobj := filesystemSearchFile (-1) name false in
  if fileobj <? 0 then mret (-1, Some ENOENT)
  else
    let* ok := objectShutdown fileobj 0 in
    let ret := Z.b2z ok in
    objectClose fileobj ;;
    mret (if ret <? 0 then (-1, Some EACCES) else (0, None)).

(** [for (;;)] until there are bytes or an error. *)
Fixpoint _read_r (fuel : nat) (file len : Z) : M w (Z * Z * list Z) :=
  match fuel with
  | O => no_fuel
  | S fuel =>
      let* ' (ret, bs) := objectRead file len in
      if negb (ret =? 0) then mret (if 0 <? ret then ret else 0, 0, bs)
      else objectWait file 0 ;; _read_r fuel file len
  end.

(** The loop of [_write_r]; [ret] is not set before the first round. *)
Fixpoint write_loop (fuel : nat) (file : Z) (ptr : list Z) (len : Z) (ret : option Z) (written : Z) : M w (option Z * Z) :=
  match fuel with
  | O => no_fuel
  | S fuel =>
      if 0 <? len then
        if len <=? lenZ ptr then
          let* r := objectWrite file (take (Z.to_nat len) ptr) in
          if r <? 0 then mret (Some r, written)
          else
            let len := u32 (len - r) in
            let written := u32 (written + r) in
            when (negb (len =? 0) && (r =? 0)) (objectWait file 1 ;; mret tt) ;;
            write_loop fuel file ptr len (Some r) written
        else undef "write: out of the buffer"
      else mret (ret, written)
  end.

Definition _write_r (fuel : nat) (file : Z) (ptr : list Z) (len : Z) : M w (Z * Z) :=
  let* ' (ret, written) := write_loop fuel file ptr len None 0 in
  let* r := deref ret "write: ret is not initialized" in
  mret (if r <? 0 then (-1, EPIPE) else (i32 written, 0)).

(** [d_name] of the entry; 0 for none. *)
Definition sizeof_dirent := 0x10C.
Definition sizeof_d_name := 0x100.
Definition getdents (fd : Z) : M w (Z * list Z) :=
  let* ' (ret, name) := objectRead fd sizeof_d_name in
  mret (if ret <? 0 then (0, []) else (sizeof_dirent, name)).

Definition _exit (status : Z) : M w unit := syscall_exit_process (u32 status).

(** Functions that are not there. *)
Definition _getpid_r : M w (Z * Z) := mret (-1, ENOSYS).
Definition _gettimeofday_r : M w (Z * Z) := mret (-1, ENOSYS).
Definition _isatty_r : M w (Z * Z) := mret (0, ENOSYS).
Definition _kill_r : M w (Z * Z) := mret (-1, ENOSYS).
Definition _link_r : M w (Z * Z) := mret (-1, ENOSYS).
Definition _times_r : M w (Z * Z) := mret (-1, ENOSYS).
Definition _wait_r : M w (Z * Z) := mret (-1, ENOSYS).
Definition _chown : M w Z := mret (-1).
Definition _readlink : M w Z := mret (-1).
Definition _symlink : M w Z := mret (-1).
End Libc.

(** ** The arguments of a program

    A block of bytes: the offsets of the strings as words, a word 0, and the
    strings with their terminators. *)

(** Storing bytes at an index of a block; [None]: outside. *)
Definition store_at (pos : Z) (bs : list Z) (block : list Z) : option (list Z) :=
  if (0 <=? pos) && (pos + lenZ bs <=? lenZ block) then
    Some (take (Z.to_nat pos) block ++ bs ++ drop (Z.to_nat pos + length bs) block)
  else None.

Definition word_of (block : list Z) (pos : Z) : option Z :=
  if (0 <=? pos) && (pos + 4 <=? lenZ block) then
    Some (foldr (λ b v, b + 256 * v) 0 (take 4 (drop (Z.to_nat pos) block)))
  else None.

(** The length of the block that [_execve_r] allocates. *)
Definition args_length (argv : list (list Z)) : Z := foldl (λ n s, u32 (n + (4 + lenZ s + 1))) 4 argv.

(** The loop that fills it; [offsets] and [cur] are indices. *)
Fixpoint pack_loop (argv : list (list Z)) (offsets cur : Z) (block : list Z) : option (list Z) :=
  match argv with
  | [] => store_at offsets (le32 0) block
  | s :: argv =>
      block ← store_at offsets (le32 cur) block;
      block ← store_at cur (s ++ [0]) block;
      pack_loop argv (offsets + 4) (cur + (lenZ s + 1)) block
  end.

(** [garbage] is what the allocator returns. *)
Definition pack_args (argv : list (list Z)) (garbage : list Z) : option (list Z) :=
  pack_loop argv 0 (4 * (lenZ argv + 1)) garbage.

(** The loop of [__get_ibnos_argv] over the block at address [base]; [offset] is an
    index and [buflen] counts down. *)
Fixpoint unpack_loop (fuel : nat) (base offset buflen : Z) (block : list Z) : option (list Z) :=
  match fuel with
  | O => None
  | S fuel =>
      if 4 <=? buflen then
        o ← word_of block offset;
        if (o =? 0) || (buflen <=? o) || (buflen <? 2 * 4) then store_at offset (le32 0) block
        else
          block ← store_at offset (le32 (o + base)) block;
          unpack_loop fuel base (offset + 4) (buflen - 4) block
      else Some block
  end.

(** The first call; [None] for a null pointer. *)
Definition __get_ibnos_argv (base : Z) (block : list Z) : option (list Z) :=
  if 4 <=? lenZ block then
    block ← store_at (lenZ block - 1) [0] block;
    unpack_loop (length block) base 0 (lenZ block) block
  else Some block.

(** [while (argv[argc]) argc++;] *)
Fixpoint count_args (fuel : nat) (block : list Z) (argc : Z) : option Z :=
  match fuel with
  | O => None
  | S fuel => v ← word_of block (4 * argc); if v =? 0 then Some argc else count_args fuel block (argc + 1)
  end.

Definition __get_ibnos_argc (base : Z) (block : list Z) : option Z :=
  block ← __get_ibnos_argv base block; count_args (S (length block)) block 0.

(** [__get_ibnos_envp] is the same code for the other block, [__get_ibnos_argv] with the
    environment. *)
Definition __get_ibnos_envp := __get_ibnos_argv.

Section Exec.
Context {w : Type} `{Sys w}.

Definition execute (fileobj : Z) (argv envp : list (list Z)) (garbage_argv garbage_envp : list Z) : M w Z :=
  let* ok_argv := malloc (args_length argv) in
  if negb ok_argv then mret (-1)
  else
    let* ok_envp := malloc (args_length envp) in
    if negb ok_envp then free ;; mret (-1)
    else
      let* buf_argv := deref (pack_args argv garbage_argv) "execve: out of the block of the arguments" in
      let* buf_envp := deref (pack_args envp garbage_envp) "execve: out of the block of the environment" in
      let* ret := executeProgram fileobj buf_argv buf_envp in
      free ;; free ;;
      mret ret.

(** [garbage]: the contents of blocks that have just been allocated. *)
Definition _execve_r (name : list Z) (argv envp : list (list Z)) (garbage : Z → list Z) : M w (Z * Z) :=
  let* fileobj := filesystemSearchFile (-1) name false in
  if fileobj <? 0 then mret (-1, ENOENT)
  else
    let* ret := execute fileobj argv envp (garbage (args_length argv)) (garbage (args_length envp)) in
    objectClose fileobj ;;
    mret (ret, if 0 <=? ret then 0 else ENOEXEC).
End Exec.
