(* ===== verification/UserProofs.v ===== *)
(** * Passing arguments to a program, and writing

    [_execve_r] packs the arguments into a block and the start-up code of the new
    program unpacks it in place, with what is left of the last page behind it. The
    check of the start-up code compares every offset with a length that shrinks by
    a word per argument, so that arguments at the end of a full page are lost; the
    theorem says exactly which ones arrive. *)

From S2P Require Import Prelude User.
Open Scope Z_scope.

(** ** Words and bytes in a block *)

Lemma length_le32 v : length (le32 v) = 4%nat.
Proof. done. Qed.

Lemma store_at_ok A X bs C : length X = length bs → store_at (lenZ A) bs (A ++ X ++ C) = Some (A ++ bs ++ C).
Proof.
  intros Hl. unfold store_at. rewrite !length_app.
  rewrite (proj2 (Z.leb_le 0 _)), (proj2 (Z.leb_le (_ + _) _)) by lia. simpl. f_equal.
  rewrite Nat2Z.id, take_app_length. f_equal. f_equal.
  rewrite drop_app_ge by lia. replace (length A + length bs - length A)%nat with (length X) by lia. by rewrite drop_app_length.
Qed.

Lemma le32_value v : is_u32 v → foldr (λ b n, b + 256 * n) 0 (le32 v) = v.
Proof.
  intros Hv. unfold le32. rewrite (u32_small v) by done. cbn [fmap list_fmap foldr].
  rewrite !Z.shiftr_div_pow2 by lia. change (2 ^ (8 * 0)) with 1. change (2 ^ (8 * 1)) with 256.
  change (2 ^ (8 * 2)) with 65536. change (2 ^ (8 * 3)) with 16777216. ulia.
Qed.

Lemma word_of_ok A v C : is_u32 v → word_of (A ++ le32 v ++ C) (lenZ A) = Some v.
Proof.
  intros Hv. unfold word_of. rewrite !length_app, length_le32.
  rewrite (proj2 (Z.leb_le 0 _)), (proj2 (Z.leb_le (_ + _) _)) by lia. cbn [andb]. f_equal.
  rewrite Nat2Z.id, drop_app_length, take_app_le by (rewrite length_le32; lia).
  rewrite firstn_all2 by (rewrite length_le32; lia). by apply le32_value.
Qed.

Definition words (l : list Z) : list Z := concat (le32 <$> l).

Lemma length_words l : length (words l) = (4 * length l)%nat.
Proof. unfold words. induction l as [|v l IH]; [done|]. cbn [fmap list_fmap concat]. rewrite length_app, IH, length_le32. simpl. lia. Qed.

Lemma words_app l l' : words (l ++ l') = words l ++ words l'.
Proof. unfold words. by rewrite fmap_app, concat_app. Qed.

Lemma words_cons v l : words (v :: l) = le32 v ++ words l.
Proof. done. Qed.

(** ** Packing *)

Definition strings (argv : list (list Z)) : list Z := concat ((λ s, s ++ [0]) <$> argv).

(** Where the strings start, the first one at [cur]. *)
Fixpoint starts (cur : Z) (argv : list (list Z)) : list Z :=
  match argv with
  | [] => []
  | s :: argv => cur :: starts (cur + (lenZ s + 1)) argv
  end.

Lemma length_starts cur argv : length (starts cur argv) = length argv.
Proof. revert cur. induction argv as [|s argv IH]; intros cur; simpl; [done|]. by rewrite IH. Qed.

Lemma strings_cons s argv : strings (s :: argv) = s ++ 0 :: strings argv.
Proof. unfold strings. simpl. by rewrite <-app_assoc. Qed.

Lemma pack_loop_ok argv : ∀ A G1 B G2, length G1 = (4 * length argv + 4)%nat → length G2 = length (strings argv) →
  pack_loop argv (lenZ A) (lenZ (A ++ G1 ++ B)) (A ++ G1 ++ B ++ G2) =
  Some (A ++ words (starts (lenZ (A ++ G1 ++ B)) argv ++ [0]) ++ B ++ strings argv).
Proof.
  induction argv as [|s argv IH]; intros A G1 B G2 H1 H2; cbn [pack_loop starts].
  { rewrite store_at_ok by (rewrite length_le32; simpl in H1; lia). destruct G2; [|done]. unfold words, strings. simpl. done. }
  rewrite strings_cons in H2. simpl in H1.
  rewrite <-(take_drop 4 G1), <-!app_assoc. set (g := take 4 G1). set (G1' := drop 4 G1).
  assert (length g = 4%nat) as Hg by (unfold g; rewrite length_take; lia).
  assert (length G1' = (4 * length argv + 4)%nat) as Hg' by (unfold G1'; rewrite length_drop; lia).
  rewrite store_at_ok by (by rewrite length_le32). cbn [mbind option_bind].
  set (cur := lenZ (A ++ g ++ G1' ++ B)).
  rewrite <-(take_drop (length s + 1) G2). set (h := take _ G2). set (G2' := drop _ G2).
  rewrite length_app in H2. simpl in H2.
  assert (length h = length (s ++ [0])) as Hh by (unfold h; rewrite length_take, length_app; simpl; lia).
  assert (length G2' = length (strings argv)) as Hh' by (unfold G2'; rewrite length_drop; lia).
  replace (A ++ le32 cur ++ G1' ++ B ++ h ++ G2') with ((A ++ le32 cur ++ G1' ++ B) ++ h ++ G2') by (by rewrite <-!app_assoc).
  replace cur with (lenZ (A ++ le32 cur ++ G1' ++ B)) at 1 by (unfold cur; rewrite !length_app, length_le32; lia).
  rewrite store_at_ok by done. cbn [mbind option_bind].
  replace (lenZ A + 4) with (lenZ (A ++ le32 cur)) by (rewrite length_app, length_le32; lia).
  replace (cur + (lenZ s + 1)) with (lenZ ((A ++ le32 cur) ++ G1' ++ (B ++ s ++ [0]))).
  2: { unfold cur. rewrite !length_app, length_le32. simpl. lia. }
  replace ((A ++ le32 cur ++ G1' ++ B) ++ (s ++ [0]) ++ G2') with ((A ++ le32 cur) ++ G1' ++ (B ++ s ++ [0]) ++ G2')
    by (by rewrite <-!app_assoc).
  rewrite IH by done. f_equal. cbn [app]. rewrite words_cons, strings_cons, <-!app_assoc. done.
Qed.

Definition block_size (argv : list (list Z)) : Z := 4 * (lenZ argv + 1) + lenZ (strings argv).

Lemma pack_args_ok argv garbage : lenZ garbage = block_size argv →
  pack_args argv garbage = Some (words (starts (4 * (lenZ argv + 1)) argv ++ [0]) ++ strings argv).
Proof.
  intros Hl. unfold pack_args, block_size in *. rewrite <-(take_drop (4 * length argv + 4) garbage).
  set (G1 := take _ garbage). set (G2 := drop _ garbage).
  assert (length G1 = (4 * length argv + 4)%nat) as H1 by (unfold G1; rewrite length_take; lia).
  pose proof (pack_loop_ok argv [] G1 [] G2 H1) as Hp. rewrite !app_nil_l, app_nil_r, H1 in Hp.
  replace (4 * (lenZ argv + 1)) with (Z.of_nat (4 * length argv + 4)) by lia. apply Hp.
  unfold G2. rewrite length_drop. lia.
Qed.

Lemma args_length_size argv : is_u32 (block_size argv) → args_length argv = block_size argv.
Proof.
  intros Hs. unfold args_length, block_size in *.
  assert (∀ n, 0 ≤ n → is_u32 (n + 4 * lenZ argv + lenZ (strings argv)) →
    foldl (λ n s, u32 (n + (4 + lenZ s + 1))) n argv = n + 4 * lenZ argv + lenZ (strings argv)) as Hg.
  { clear Hs. induction argv as [|s argv IH]; intros n Hn Hs; simpl; [lia|]. rewrite strings_cons in *.
    rewrite length_app in *. simpl in *. rewrite u32_small by (unfold is_u32 in *; lia). rewrite IH; [lia|lia|]. unfold is_u32 in *. lia. }
  rewrite Hg; [lia|lia|]. unfold is_u32 in *. lia.
Qed.

(** ** Unpacking *)

(** The words of the block after the start-up code. *)
Fixpoint unpack_words (base buflen : Z) (l : list Z) : list Z :=
  match l with
  | [] => []
  | o :: l =>
      if (o =? 0) || (buflen <=? o) || (buflen <? 8) then 0 :: l
      else o + base :: unpack_words base (buflen - 4) l
  end.

Lemma unpack_loop_ok l : ∀ fuel base buflen done_ S, (length l ≤ fuel)%nat → Forall is_u32 l → 4 * lenZ l ≤ buflen →
  last l = Some 0 →
  unpack_loop fuel base (4 * lenZ done_) buflen (words done_ ++ words l ++ S) =
  Some (words done_ ++ words (unpack_words base buflen l) ++ S).
Proof.
  induction l as [|o l IH]; intros fuel base buflen D S Hf Hu Hb Hlast; [done|].
  apply Forall_cons in Hu as [Ho Hu]. simpl in Hf, Hb. destruct fuel as [|fuel]; [lia|]. cbn [unpack_loop unpack_words].
  rewrite (proj2 (Z.leb_le _ _)) by lia. rewrite !words_cons, <-!app_assoc.
  assert (4 * lenZ D = lenZ (words D)) as Ed by (rewrite length_words; lia). rewrite Ed at 1.
  rewrite word_of_ok by done. cbn [mbind option_bind]. change (2 * 4) with 8.
  destruct ((o =? 0) || (buflen <=? o) || (buflen <? 8)) eqn:Estop.
  { rewrite Ed, store_at_ok by done. by rewrite words_cons, <-app_assoc. }
  rewrite Ed at 1. rewrite store_at_ok by done. cbn [mbind option_bind].
  rewrite words_cons, <-app_assoc.
  replace (4 * lenZ D + 4) with (4 * lenZ (D ++ [o + base])) by (rewrite length_app; simpl; lia).
  assert (∀ X, words D ++ le32 (o + base) ++ X = words (D ++ [o + base]) ++ X) as E
    by (intros X; rewrite words_app, <-app_assoc; done).
  rewrite !E. apply IH; [lia|done|lia|].
  destruct l as [|v l]; [|done]. simpl in Hlast. injection Hlast as ->. by rewrite Z.eqb_refl in Estop.
Qed.

(** ** What the program sees *)

(** The characters up to the terminator; [None]: there is none. *)
Fixpoint c_string (bs : list Z) : option (list Z) :=
  match bs with
  | [] => None
  | c :: bs => if c =? 0 then Some [] else s ← c_string bs; Some (c :: s)
  end.

(** [argv[i], argv[i + 1], ...] up to the null pointer, in the memory that is the
    block at [base]. *)
Fixpoint read_argv (fuel : nat) (base : Z) (block : list Z) (i : Z) : option (list (list Z)) :=
  match fuel with
  | O => None
  | S fuel =>
      v ← word_of block (4 * i);
      if v =? 0 then Some []
      else s ← (if base <=? v then c_string (drop (Z.to_nat (v - base)) block) else None);
           ss ← read_argv fuel base block (i + 1); Some (s :: ss)
  end.

(** What arrives of the arguments from number [j] on, with [pad] bytes behind them:
    an argument is lost, with all behind it, if from its start to the end of the
    pages there are at most [4 * j] bytes. *)
Fixpoint received (pad j : Z) (argv : list (list Z)) : list (list Z) :=
  match argv with
  | [] => []
  | s :: argv' => if 4 * j <? lenZ (strings argv) + pad then s :: received pad (j + 1) argv' else []
  end.

Definition c_ok (s : list Z) : Prop := Forall (λ c, 0 < c < 256) s.

Lemma c_string_ok s C : c_ok s → c_string (s ++ 0 :: C) = Some s.
Proof.
  induction 1 as [|c s Hc _ IH]; [done|]. simpl. destruct (Z.eqb_spec c 0); [lia|]. by rewrite IH.
Qed.

Lemma starts_words pad j argv : ∀ cur total base, 0 < cur → 0 ≤ pad → cur + lenZ (strings argv) + pad = total → 4 * (j + lenZ argv + 1) ≤ cur → 0 ≤ j →
  ∃ tail, unpack_words base (total - 4 * j) (starts cur argv ++ [0]) =
    ((λ o, o + base) <$> take (length (received pad j argv)) (starts cur argv)) ++ 0 :: tail.
Proof.
  revert j. induction argv as [|s argv IH]; intros j cur total base Hc Hpad Ht Hcur Hj.
  { simpl. by eexists. }
  cbn [starts app unpack_words received]. simpl in Hcur. rewrite strings_cons in *. rewrite length_app in *. simpl in *.
  destruct (Z.eqb_spec cur 0); [lia|]. cbn [orb].
  destruct (Z.ltb_spec (4 * j) (Z.of_nat (length s + S (length (strings argv))) + pad)) as [Hok|Hlost].
  - destruct (Z.leb_spec (total - 4 * j) cur); [lia|]. destruct (Z.ltb_spec (total - 4 * j) 8); [lia|]. cbn [orb].
    destruct (IH (j + 1) (cur + (lenZ s + 1)) total base) as [tail E]; [lia..|].
    replace (total - 4 * j - 4) with (total - 4 * (j + 1)) by lia. rewrite E. by eexists.
  - destruct (Z.leb_spec (total - 4 * j) cur); [|lia]. cbn [orb]. simpl. by eexists.
Qed.

Lemma length_received pad j argv : (length (received pad j argv) ≤ length argv)%nat.
Proof. revert j. induction argv as [|s argv IH]; intros j; cbn [received]; [done|]. destruct (_ <? _); simpl; [specialize (IH (j + 1)); lia|lia]. Qed.

(** Reading the arguments that have arrived. *)
Lemma read_argv_ok pad base S argv : ∀ D W fuel cur j tail, Forall c_ok argv → (length argv < fuel)%nat → 0 < base →
  (∃ V, W = words (D ++ ((λ o, o + base) <$> take (length (received pad j argv)) (starts cur argv)) ++ 0 :: tail) ∧
        lenZ W ≤ cur ∧ drop (Z.to_nat (cur - lenZ W)) S = strings argv ++ V) →
  Forall is_u32 (cur + lenZ (strings argv) + base :: []) → 0 ≤ cur →
  read_argv fuel base (W ++ S) (lenZ D) = Some (received pad j argv).
Proof.
  induction argv as [|s argv IH]; intros D W fuel cur j tail Hok Hf Hb (V & HW & Hle & Hd) Hu Hc;
    (destruct fuel as [|fuel]; [simpl in Hf; lia|]); cbn [read_argv received starts] in *;
    apply Forall_cons in Hu as [Hu _].
  { simpl in HW. rewrite HW, words_app, words_cons, <-!app_assoc. replace (4 * lenZ D) with (lenZ (words D)) by (rewrite length_words; lia).
    rewrite word_of_ok by (unfold is_u32; lia). done. }
  apply Forall_cons in Hok as [Hs Hok]. rewrite strings_cons in *. rewrite length_app in Hu. simpl in Hf, Hu.
  destruct (4 * j <? lenZ (s ++ 0 :: strings argv) + pad) eqn:Ej.
  2: { simpl in HW. rewrite HW, words_app, words_cons, <-!app_assoc.
       replace (4 * lenZ D) with (lenZ (words D)) by (rewrite length_words; lia).
       rewrite word_of_ok by (unfold is_u32; lia). done. }
  simpl in HW. assert (HW' := HW). rewrite words_app, words_cons in HW'.
  replace (word_of (W ++ S) (4 * lenZ D)) with (Some (cur + base)).
  2: { rewrite HW', <-!app_assoc. replace (4 * lenZ D) with (lenZ (words D)) by (rewrite length_words; lia).
       by rewrite word_of_ok by (unfold is_u32 in *; lia). }
  cbn [mbind option_bind]. destruct (Z.eqb_spec (cur + base) 0); [lia|]. rewrite (proj2 (Z.leb_le _ _)) by lia.
  replace (cur + base - base) with cur by lia. rewrite drop_app_ge by lia.
  replace (Z.to_nat cur - length W)%nat with (Z.to_nat (cur - lenZ W)) by lia. rewrite Hd, <-app_assoc. cbn [app].
  rewrite c_string_ok by done. cbn [mbind option_bind].
  replace (lenZ D + 1) with (lenZ (D ++ [cur + base])) by (rewrite length_app; simpl; lia).
  rewrite (IH (D ++ [cur + base]) W fuel (cur + (lenZ s + 1)) (j + 1) tail); [done|done|lia|done| | |lia].
  - exists V. split; [by rewrite HW, <-app_assoc|]. split; [lia|].
    replace (Z.to_nat (cur + (lenZ s + 1) - lenZ W)) with (Z.to_nat (cur - lenZ W) + (length s + 1))%nat by lia.
    rewrite <-drop_drop, Hd, <-app_assoc. rewrite drop_app_ge by lia.
    replace (length s + 1 - length s)%nat with 1%nat by lia. done.
  - constructor; [|constructor]. unfold is_u32 in *. lia.
Qed.

Lemma received_prefix pad j argv : received pad j argv `prefix_of` argv.
Proof.
  revert j. induction argv as [|s argv IH]; intros j; cbn [received]; [done|].
  destruct (_ <? _); [by apply prefix_cons|apply prefix_nil].
Qed.

(** All arguments arrive when every tail of them is long enough. *)
Lemma received_all pad j argv : 0 ≤ j →
  received pad j argv = argv ↔ ∀ i, (i < length argv)%nat → 4 * (j + Z.of_nat i) < lenZ (strings (drop i argv)) + pad.
Proof.
  revert j. induction argv as [|s argv IH]; intros j Hj; cbn [received]; [split; [intros _ i Hi; simpl in Hi; lia|done]|].
  destruct (Z.ltb_spec (4 * j) (lenZ (strings (s :: argv)) + pad)) as [Hlt|Hge].
  - specialize (IH (j + 1) ltac:(lia)). split.
    + intros [= E] [|i] Hi; [by rewrite Z.add_0_r|]. simpl in Hi. rewrite IH in E. cbn [drop].
      specialize (E i ltac:(lia)). rewrite Nat2Z.inj_succ. lia.
    + intros Hall. f_equal. apply IH. intros i Hi. specialize (Hall (S i)). cbn [drop] in Hall.
      rewrite Nat2Z.inj_succ in Hall. specialize (Hall ltac:(simpl; lia)). lia.
  - split; [done|]. intros Hall. specialize (Hall 0%nat ltac:(simpl; lia)). rewrite Z.add_0_r in Hall. cbn [drop] in Hall. lia.
Qed.

Lemma count_args_ok D fuel tail S : ∀ E, (length D < fuel)%nat → Forall (λ v, v ≠ 0 ∧ is_u32 v) D →
  count_args fuel (words (E ++ D ++ 0 :: tail) ++ S) (lenZ E) = Some (lenZ E + lenZ D).
Proof.
  revert fuel. induction D as [|v D IH]; intros fuel E Hf HD; (destruct fuel as [|fuel]; [simpl in Hf; lia|]); cbn [count_args].
  - simpl. rewrite words_app, words_cons, <-!app_assoc. replace (4 * lenZ E) with (lenZ (words E)) by (rewrite length_words; lia).
    rewrite word_of_ok by (unfold is_u32; lia). simpl. f_equal. lia.
  - apply Forall_cons in HD as [[Hv Hu] HD]. simpl in Hf.
    replace (word_of _ (4 * lenZ E)) with (Some v).
    2: { simpl. rewrite words_app, words_cons, <-!app_assoc. replace (4 * lenZ E) with (lenZ (words E)) by (rewrite length_words; lia).
         by rewrite word_of_ok. }
    cbn [mbind option_bind]. destruct (Z.eqb_spec v 0); [done|].
    replace (lenZ E + 1) with (lenZ (E ++ [v])) by (rewrite length_app; simpl; lia).
    replace (E ++ (v :: D) ++ 0 :: tail) with ((E ++ [v]) ++ D ++ 0 :: tail) by (by rewrite <-app_assoc).
    rewrite IH by (done || lia). f_equal. rewrite length_app. simpl. lia.
Qed.

Lemma starts_bound argv : ∀ cur, 0 < cur → Forall (λ o, 0 < o ≤ cur + lenZ (strings argv)) (starts cur argv).
Proof.
  induction argv as [|s argv IH]; intros cur Hc; cbn [starts]; [constructor|]. rewrite strings_cons, length_app. simpl.
  constructor; [lia|]. eapply Forall_impl; [apply IH; lia|]. intros o Ho. simpl in Ho. lia.
Qed.

(** Setting the last byte, which is padding or a terminator already. *)
Lemma store_last l c : store_at (lenZ (l ++ [c]) - 1) [0] (l ++ [c]) = Some (l ++ [0]).
Proof.
  replace (lenZ (l ++ [c]) - 1) with (lenZ l) by (rewrite length_app; simpl; lia).
  pose proof (store_at_ok l [c] [0] [] eq_refl) as E. by rewrite app_nil_r in E.
Qed.

Lemma block_last ws argv : ∃ l, words (ws ++ [0]) ++ strings argv = l ++ [0].
Proof.
  destruct (decide (argv = [])) as [->|Hne].
  - exists (words ws ++ [0; 0; 0]). rewrite words_app, app_nil_r, <-app_assoc. done.
  - apply exists_last in Hne as (init & s & ->). exists (words (ws ++ [0]) ++ strings init ++ s).
    unfold strings. rewrite fmap_app, concat_app. cbn [fmap list_fmap concat]. rewrite app_nil_r. by rewrite <-!app_assoc.
Qed.

Lemma set_last ws argv pad : let block := words (ws ++ [0]) ++ strings argv in ∃ pad', length pad' = length pad ∧
  store_at (lenZ (block ++ pad) - 1) [0] (block ++ pad) = Some (block ++ pad').
Proof.
  intros block. destruct (decide (pad = [])) as [->|Hne].
  - exists []. split; [done|]. rewrite !app_nil_r. unfold block. destruct (block_last ws argv) as [l ->]. by rewrite store_last.
  - apply exists_last in Hne as (init & c & ->). exists (init ++ [0]). split; [by rewrite !length_app|].
    by rewrite !app_assoc, store_last.
Qed.

(** The length of the memory for [n] bytes of arguments (SYSCALL_EXECUTE_PROGRAM). *)
Definition pages_length (n : Z) : Z := Z.shiftl (Z.shiftr (n + PAGE_MASK) PAGE_BITS) PAGE_BITS.

Lemma pages_length_bound n : 0 ≤ n → n ≤ pages_length n < n + PAGE_SIZE.
Proof.
  intros Hn. unfold pages_length, PAGE_MASK, PAGE_BITS, PAGE_SIZE. rewrite Z.shiftl_mul_pow2, Z.shiftr_div_pow2 by lia.
  change (2 ^ 12) with 4096. Z.to_euclidean_division_equations. lia.
Qed.

(** The whole way of the arguments of one block. *)
Lemma unpack_args argv pad base : Forall c_ok argv → 0 < base → is_u32 (block_size argv + lenZ pad + base) →
  let block := words (starts (4 * (lenZ argv + 1)) argv ++ [0]) ++ strings argv in
  ∃ ws tail pad', __get_ibnos_argv base (block ++ pad) = Some (words (ws ++ 0 :: tail) ++ strings argv ++ pad') ∧
    ws = (λ o, o + base) <$> take (length (received (lenZ pad) 0 argv)) (starts (4 * (lenZ argv + 1)) argv) ∧
    length (ws ++ 0 :: tail) = S (length argv).
Proof.
  intros Hok Hb Hu block. unfold block_size in Hu. set (cur := 4 * (lenZ argv + 1)) in *.
  set (total := cur + lenZ (strings argv) + lenZ pad).
  assert (lenZ (block ++ pad) = total) as Hl.
  { unfold block. rewrite !length_app, length_words, length_app, length_starts. simpl. unfold total, cur. lia. }
  unfold __get_ibnos_argv. rewrite Hl, (proj2 (Z.leb_le 4 total)) by (unfold total, cur; lia). rewrite <-Hl.
  destruct (set_last (starts cur argv) argv pad) as (pad' & Hpad & E0). fold block in E0. rewrite E0. cbn [mbind option_bind].
  assert (length (block ++ pad') = length (block ++ pad)) as Hl' by (rewrite !length_app; lia). rewrite Hl', Hl.
  destruct (starts_words (lenZ pad) 0 argv cur total base) as [tail E]; [unfold cur; lia|lia|done|unfold cur; lia|lia|].
  rewrite Z.mul_0_r, Z.sub_0_r in E.
  assert (Forall is_u32 (starts cur argv ++ [0])) as Hws.
  { apply Forall_app. split; [|repeat constructor; unfold is_u32; lia].
    eapply Forall_impl; [apply starts_bound; unfold cur; lia|]. intros o Ho. simpl in Ho. unfold is_u32 in *. lia. }
  pose proof (unpack_loop_ok (starts cur argv ++ [0]) (length (block ++ pad)) base total [] (strings argv ++ pad')) as Hun.
  rewrite E in Hun. eexists _, tail, pad'. split; [unfold block at 2; rewrite <-app_assoc; apply Hun|split; [done|]].
  - unfold block. rewrite !length_app, length_words, length_app. simpl. lia.
  - done.
  - rewrite length_app, length_starts. simpl. unfold total, cur. lia.
  - by rewrite last_app.
  - rewrite <-E. assert (∀ b n l, length (unpack_words b n l) = length l) as Hlen.
    { intros b n l'. revert n. induction l' as [|o l' IH]; intros n; cbn [unpack_words]; [done|]. destruct (_ || _); simpl; [done|by rewrite IH]. }
    rewrite Hlen, length_app, length_starts. simpl. lia.
Qed.

(** C22: What a program gets of the arguments it is started with. [_execve_r] packs
    the strings into a block of exactly the length it allocated; the kernel copies
    it to new pages, anywhere in memory and with any bytes behind it; and the start-up code turns
    the pages into [argv] and [argc]. The strings arrive unchanged and in order, but as
    the start-up code compares the offset of argument [j] with a length that is already
    [4 * j] bytes too small, the arguments end where at most [4 * j] bytes are left
    of the pages: all of them arrive if and only if this never happens. *)
Theorem exec_args_received argv garbage pad base :
  Forall c_ok argv → 0 < base → is_u32 (pages_length (block_size argv) + base) → lenZ garbage = block_size argv →
  lenZ pad = pages_length (block_size argv) - block_size argv →
  ∃ block block', pack_args argv garbage = Some block ∧ lenZ block = args_length argv ∧
    __get_ibnos_argv base (block ++ pad) = Some block' ∧
    read_argv (S (length argv)) base block' 0 = Some (received (lenZ pad) 0 argv) ∧
    __get_ibnos_argc base (block ++ pad) = Some (lenZ (received (lenZ pad) 0 argv)) ∧
    received (lenZ pad) 0 argv `prefix_of` argv ∧
    (received (lenZ pad) 0 argv = argv ↔
      ∀ i, (i < length argv)%nat → 4 * Z.of_nat i < lenZ (strings (drop i argv)) + lenZ pad).
Proof.
  intros Hok Hb Hu Hg Hpad. assert (0 ≤ block_size argv) as Hsize by (unfold block_size; lia).
  pose proof (pages_length_bound _ Hsize) as Hpl.
  destruct (unpack_args argv pad base Hok Hb) as (ws & tail & pad' & Hun & Hws & Hlen); [by rewrite Hpad, Zplus_minus|].
  assert (length ws = length (received (lenZ pad) 0 argv)) as Hl.
  { rewrite Hws, length_fmap, length_take, length_starts. pose proof (length_received (lenZ pad) 0 argv). lia. }
  eexists _, _. split; [by apply pack_args_ok|]. split; [|split; [exact Hun|]]; [|split_and!].
  - rewrite length_app, length_words, length_app, length_starts. unfold block_size in *. simpl.
    rewrite args_length_size by (unfold block_size, is_u32 in *; lia). unfold block_size. lia.
  - rewrite Hws. apply (read_argv_ok _ base (strings argv ++ pad') argv [] _ _ (4 * (lenZ argv + 1)) 0 tail); [done|lia|done| | |lia].
    + exists pad'. split; [done|]. rewrite <-Hws, length_words, Hlen. split; [lia|].
      replace (Z.to_nat _) with 0%nat by lia. by rewrite drop_0.
    + constructor; [|constructor]. unfold block_size, is_u32 in *. lia.
  - unfold __get_ibnos_argc. rewrite Hun. cbn [mbind option_bind]. rewrite <-Hl.
    apply (count_args_ok ws _ tail (strings argv ++ pad') []).
    + rewrite length_app, length_words, Hlen. pose proof (length_received (lenZ pad) 0 argv). lia.
    + rewrite Hws. apply Forall_fmap, Forall_take. eapply Forall_impl; [apply starts_bound; lia|].
      intros o Ho. simpl in Ho |- *. unfold block_size, is_u32 in *. lia.
  - apply received_prefix.
  - by rewrite received_all by done.
Qed.

(** "echo" with an argument of 4072 characters and the argument "a": the block is
    exactly a page, and "a" is lost. *)
Definition long_argv : list (list Z) := [[101; 99; 104; 111]; replicate (Z.to_nat 4072) 120; [97]].

Lemma exec_args_received_witness :
  ∃ block, pack_args long_argv (replicate (Z.to_nat 4096) 0) = Some block ∧ __get_ibnos_argc 0x40000000 (block ++ []) = Some 2.
Proof.
  assert (lenZ (replicate (Z.to_nat 4096) 0) = block_size long_argv) as Hg by (vm_compute; reflexivity).
  assert (pages_length (block_size long_argv) = 4096) as Hp by (vm_compute; reflexivity).
  assert (block_size long_argv = 4096) as Hs by (vm_compute; reflexivity).
  destruct (exec_args_received long_argv (replicate (Z.to_nat 4096) 0) [] 0x40000000) as (block & block' & Hb & _ & _ & _ & Hc & _).
  - constructor; [by repeat constructor|]. constructor; [by apply Forall_replicate|]. by repeat constructor.
  - done.
  - rewrite Hp. done.
  - exact Hg.
  - rewrite Hp, Hs. done.
  - exists block. split; [exact Hb|]. rewrite Hc. f_equal.
Defined.

(** ** Writing in several pieces *)

(** An object that takes the given numbers of bytes, one per write, and keeps
    what it was given. *)
Record sink := Sink { accepts : list Z; taken : list Z }.

Definition sink_write (bs : list Z) : M sink Z := λ s,
  match accepts s with
  | [] => Ok (-1, s)
  | n :: ns => let n := Z.min n (lenZ bs) in Ok (n, Sink ns (taken s ++ take (Z.to_nat n) bs))
  end.

Definition sink_sys : Sys sink := {|
  objectWait _ _ := mret 0; objectRead _ _ := mret (-1, []); objectWrite _ bs := sink_write bs;
  objectSignal _ _ := mret false; objectShutdown _ _ := mret false; objectClose _ := mret true;
  objectGetStatus _ _ := mret 0; objectAttach _ _ _ _ := mret false; objectDetach _ _ := mret false;
  createEvent _ := mret (-1); createPipe := mret (-1); syscall_fork := mret (-1); syscall_dup _ := mret (-1);
  syscall_dup2 _ _ := mret (-1); syscall_exit_process _ := mret tt; filesystemSearchFile _ _ _ := mret (-1);
  filesystemSearchDirectory _ _ _ := mret (-1); filesystemOpen _ := mret (-1); executeProgram _ _ _ := mret (-1);
  consoleSetFlags _ := mret tt; consoleSetCursor _ _ := mret tt; consoleSetHardwareCursor _ _ := mret tt;
  consoleWriteRaw _ := mret 0; malloc _ := mret false; realloc _ := mret false; free := mret tt;
  execvp _ := mret tt; printf _ := mret tt; setenv _ _ := mret tt;
|}.
#[local] Existing Instance sink_sys.

Definition sum_of (ns : list Z) : Z := foldr Z.add 0 ns.

Lemma write_loop_sink file buf ns : ∀ len out ret written, Forall (λ n, 0 < n) ns → sum_of ns = len → 0 ≤ written →
  len ≤ lenZ buf → written + len < 2 ^ 31 →
  write_loop (S (length ns)) file buf len ret written (Sink ns out) =
  Ok ((match last ns with Some n => Some n | None => ret end, written + len),
      Sink [] (out ++ concat ((λ n, take (Z.to_nat n) buf) <$> ns))).
Proof.
  induction ns as [|n ns IH]; intros len out ret written Hns Hsum Hw Hlen Hbound; simpl in Hsum; subst len.
  { simpl. by rewrite Z.add_0_r, app_nil_r. }
  apply Forall_cons in Hns as [Hn Hns].
  assert (0 ≤ sum_of ns) as Hpos by (clear -Hns; induction Hns; simpl; lia).
  cbn [length write_loop]. rewrite (proj2 (Z.ltb_lt _ _)), (proj2 (Z.leb_le _ _)) by lia.
  unfold mbind, M_bind, objectWrite, sink_sys, sink_write. cbn [accepts taken].
  rewrite length_take, Z.min_l by lia. destruct (Z.ltb_spec n 0); [lia|].
  rewrite !u32_small by (unfold is_u32; lia). replace (n + sum_of ns - n) with (sum_of ns) by lia.
  destruct (Z.eqb_spec n 0); [lia|]. rewrite andb_false_r. unfold when, mret, M_ret.
  rewrite take_take, Nat.min_l by lia.
  etransitivity; [apply (IH (sum_of ns)); [done|done|lia|lia|lia]|].
  f_equal. f_equal; [|cbn [fmap list_fmap concat]; by rewrite <-app_assoc]. f_equal; [|lia].
  destruct ns as [|m ns]; [done|]. rewrite last_cons_cons. destruct (last (m :: ns)) eqn:E; [done|by apply last_None in E].
Qed.

(** C24: [_write_r] writes the front of the buffer again and again. Its loop
    counts down what is left but never moves the pointer, so that an object which
    takes the bytes in pieces of the sizes [ns] gets, for every piece, the first
    bytes of the buffer, although the result says that everything was written. *)
Theorem write_restarts file buf ns :
  Forall (λ n, 0 < n) ns → sum_of ns = lenZ buf → buf ≠ [] → lenZ buf < 2 ^ 31 →
  wp (_write_r (S (length ns)) file buf (lenZ buf)) (Sink ns []) (λ r s,
    r = (lenZ buf, 0) ∧ taken s = concat ((λ n, take (Z.to_nat n) buf) <$> ns)).
Proof.
  intros Hns Hsum Hne Hlen. unfold _write_r. wp_step. unfold wp at 1.
  rewrite (write_loop_sink file buf ns (lenZ buf) [] None 0) by (done || lia).
  destruct (last ns) as [n|] eqn:El.
  2: { apply last_None in El as ->. destruct buf; [done|simpl in Hsum; lia]. }
  assert (0 < n) as Hn by (apply last_Some_elem_of in El; by eapply Forall_forall in Hns).
  wp_step. eapply wp_deref; [done|]. wp_step. destruct (Z.ltb_spec n 0); [lia|].
  split; [|done]. unfold i32. rewrite u32_small by (unfold is_u32; lia). destruct (Z.ltb_spec (0 + lenZ buf) 2147483648); [done|lia].
Qed.

(** "abcd" through a pipe that has room for three bytes at first. *)
Lemma write_restarts_witness :
  wp (_write_r 3 1 [97; 98; 99; 100] 4) (Sink [3; 1] []) (λ r s, r = (4, 0) ∧ taken s = [97; 98; 99; 97]).
Proof. apply (write_restarts 1 [97; 98; 99; 100] [3; 1]); [by repeat constructor|done|done|done]. Defined.
