(* ===== verification/Shell.v ===== *)
(** * shell.c: the command line

    Models src/usermode/shell.c: the parser, which unescapes a line in place and
    stores pointers into it, the line editor, and running the commands of a
    pipeline. A pointer into the line is an index, and an access outside of the
    line or of the array of arguments has no defined result. *)

From S2P Require Import Prelude User.
Open Scope Z_scope.

Definition MAX_ARGS : nat := 30.

Definition CH_NEWLINE := 10.
Definition CH_RETURN := 13.
Definition CH_ESCAPE := 27.
Definition CH_SPACE := 32.
Definition CH_QUOTE := 34.
Definition CH_BACKSLASH := 92.
Definition CH_PIPE := 124.
Definition CH_DELETE := 127.

(** The characters of a string, and the digits of a number that is not negative. *)
Definition chars (s : string) : list Z := Z.of_N ∘ Ascii.N_of_ascii <$> String.list_ascii_of_string s.
Fixpoint decimal (fuel : nat) (n : Z) : list Z :=
  match fuel with
  | O => []
  | S fuel => (if n <? 10 then [] else decimal fuel (n / 10)) ++ [48 + n mod 10]
  end.

(** [isspace] of the C locale. *)
Definition isspace (c : Z) : bool := ((9 <=? c) && (c <=? 13)) || (c =? CH_SPACE).

Inductive parserState := STATE_BLANK | STATE_TEXT | STATE_QUOTE | STATE_ESCAPE | STATE_QUOTE_ESCAPE.

(** An element of [args]: not set yet, a null pointer, or a place in the line. *)
Inductive slot := Unset | Null | At (pos : nat).

Record parse := Parse { p_str : list Z; p_args : list slot }.

Definition read_char (i : nat) : M parse Z := let* p := get in deref (p_str p !! i) "read outside of the line".
Definition write_char (i : nat) (c : Z) : M parse unit :=
  let* p := get in
  if (i <? length (p_str p))%nat then put (Parse (<[i := c]> (p_str p)) (p_args p)) else undef "write outside of the line".
Definition set_arg (i : nat) (v : slot) : M parse unit :=
  let* p := get in
  if (i <? length (p_args p))%nat then put (Parse (p_str p) (<[i := v]> (p_args p))) else undef "write outside of args".
Definition get_arg (i : nat) : M parse slot := let* p := get in deref (p_args p !! i) "read outside of args".

(** The place [args[i]] points to. *)
Definition arg_pos (i : nat) : M parse nat :=
  let* v := get_arg i in match v with At a => mret a | _ => undef "args[count] is not a string" end.

(** "check if it is fully quoted". *)
Definition strip_quotes (count dst : nat) : M parse unit :=
  let* a := arg_pos count in
  let* c := read_char a in
  if (c =? CH_QUOTE) && (a <? dst - 1)%nat then
    let* l := read_char (dst - 1) in
    when (l =? CH_QUOTE) (set_arg count (At (S a)) ;; write_char (dst - 1) 0)
  else mret tt.

(** [if (src != dst) *dst = *src;] *)
Definition copy_char (src dst : nat) : M parse unit :=
  if (src =? dst)%nat then mret tt else let* c := read_char src in write_char dst c.

(** The body of the loop: the state, [dst] and [count] for the next character, or
    the result. *)
Definition parse_char (maxArgs : nat) (st : parserState) (src dst count : nat) : M parse (nat + parserState * nat * nat) :=
  let* c := read_char src in
  match st with
  | STATE_BLANK =>
      if isspace c then mret (inr (STATE_BLANK, dst, count))
      else if (maxArgs <=? count)%nat then mret (inl count)
      else if c =? CH_PIPE then set_arg count Null ;; mret (inr (STATE_BLANK, dst, S count))
      else
        set_arg count (At dst) ;;
        if c =? CH_BACKSLASH then mret (inr (STATE_ESCAPE, dst, count))
        else copy_char src dst ;; mret (inr (if c =? CH_QUOTE then STATE_QUOTE else STATE_TEXT, S dst, count))
  | STATE_TEXT =>
      if isspace c || (c =? CH_PIPE) then
        strip_quotes count dst ;;
        write_char dst 0 ;;
        if c =? CH_PIPE then
          if (maxArgs <? S count)%nat then mret (inl (S count))
          else set_arg (S count) Null ;; mret (inr (STATE_BLANK, S dst, S (S count)))
        else mret (inr (STATE_BLANK, S dst, S count))
      else if c =? CH_BACKSLASH then mret (inr (STATE_ESCAPE, dst, count))
      else copy_char src dst ;; mret (inr (if c =? CH_QUOTE then STATE_QUOTE else STATE_TEXT, S dst, count))
  | STATE_QUOTE =>
      if c =? CH_BACKSLASH then mret (inr (STATE_QUOTE_ESCAPE, dst, count))
      else
        copy_char src dst ;;
        let* c := read_char src in
        mret (inr (if c =? CH_QUOTE then STATE_TEXT else STATE_QUOTE, S dst, count))
  | STATE_ESCAPE | STATE_QUOTE_ESCAPE =>
      let* dst :=
        (if c =? 110 then write_char dst CH_NEWLINE ;; mret (S dst)
         else if c =? 114 then write_char dst CH_RETURN ;; mret (S dst)
         else if (c =? CH_QUOTE) || (c =? CH_SPACE) || (c =? CH_PIPE) then write_char dst c ;; mret (S dst)
         else write_char dst CH_BACKSLASH ;; let* c := read_char src in write_char (S dst) c ;; mret (S (S dst))) in
      mret (inr (match st with STATE_QUOTE_ESCAPE => STATE_QUOTE | _ => STATE_TEXT end, dst, count))
  end.

(** [do ... while] over the characters. *)
Fixpoint parse_loop (fuel maxArgs : nat) (st : parserState) (src dst count : nat) : M parse (nat + parserState * nat * nat) :=
  match fuel with
  | O => no_fuel
  | S fuel =>
      let* r := parse_char maxArgs st src dst count in
      match r with
      | inl n => mret (inl n)
      | inr (st, dst, count) =>
          let* c := read_char (S src) in
          if c =? 0 then mret (inr (st, dst, count)) else parse_loop fuel maxArgs st (S src) dst count
      end
  end.

(** The end of the line. *)
Definition parse_end (st : parserState) (dst count : nat) : M parse nat :=
  match st with
  | STATE_BLANK => mret count
  | STATE_TEXT | STATE_QUOTE => strip_quotes count dst ;; write_char dst 0 ;; mret (S count)
  | STATE_ESCAPE | STATE_QUOTE_ESCAPE => write_char dst CH_BACKSLASH ;; write_char (S dst) 0 ;; mret (S count)
  end.

Definition shellParseArgs (fuel maxArgs : nat) : M parse nat :=
  let* c := read_char 0 in
  if c =? 0 then mret 0%nat
  else
    let* r := parse_loop fuel maxArgs STATE_BLANK 0 0 0 in
    match r with
    | inl n => mret n
    | inr (st, dst, count) => parse_end st dst count
    end.

(** The part of [shell] that works on the line: [None] ends the shell. *)
Definition shell_line (fuel : nat) : M parse (option nat) :=
  let* count := shellParseArgs fuel MAX_ARGS in
  if (count =? 0)%nat then mret None
  else set_arg count Null ;; set_arg (S count) Null ;; mret (Some count).

Section Shell.
Context {w : Type} `{Sys w}.

(** ** The line editor *)

(** The buffer of [shellInput], up to [pos], and its length. *)
Record input := Input { i_line : list Z; i_length : Z }.

Definition i_pos (i : input) : Z := lenZ (i_line i).

(** One character that was read; [true]: the line is complete. *)
Definition edit_char (chr : Z) (i : input) : M w (bool * input) :=
  if chr =? CH_DELETE then
    if i_pos i =? 0 then mret (false, i)
    else objectWrite 1 [chr] ;; mret (false, Input (take (length (i_line i) - 1) (i_line i)) (i_length i))
  else if chr =? CH_ESCAPE then mret (false, i)
  else if i_pos i <? i_length i then
    objectWrite 1 [chr] ;; mret (chr =? CH_NEWLINE, Input (i_line i ++ [chr]) (i_length i))
  else undef "write outside of the buffer".

(** The result is the line; [None] for a null pointer. *)
Fixpoint input_loop (fuel : nat) (i : input) : M w (option (list Z)) :=
  match fuel with
  | O => no_fuel
  | S fuel =>
      let finish i := if i_pos i <? i_length i then mret (Some (i_line i)) else undef "write outside of the buffer" in
      let* r := objectWait 0 0 in
      if r <? 0 then finish i
      else
        let* grown :=
          (if i_length i <=? i_pos i + 1 then
             let* ok := realloc (i_length i + 1024) in
             if negb ok then free ;; mret None else mret (Some (Input (i_line i) (u32 (i_length i + 1024))))
           else mret (Some i)) in
        match grown with
        | None => mret None
        | Some i =>
            let* ' (result, bs) := objectRead 0 1 in
            if result <? 0 then finish i
            else if 1 <=? result then
              let* chr := deref (head bs) "chr is not set" in
              let* ' (complete, i) := edit_char chr i in
              if complete : bool then finish i else input_loop fuel i
            else input_loop fuel i
        end
  end.

Definition shellInput (fuel : nat) : M w (option (list Z)) :=
  let* ok := malloc 1024 in
  if negb ok then undef "write to a null pointer" else input_loop fuel (Input [] 1024).

(** ** Running commands *)

(** [argv] is an index of [args]; the strings are taken from the line. *)
Fixpoint string_from (bs : list Z) : option (list Z) :=
  match bs with
  | [] => None
  | c :: bs => if c =? 0 then Some [] else s ← string_from bs; Some (c :: s)
  end.

Fixpoint count_argv (fuel : nat) (p : parse) (argv argc : nat) : option nat :=
  match fuel with
  | O => None
  | S fuel => v ← p_args p !! (argv + argc)%nat;
              match v with Null => Some argc | At _ => count_argv fuel p argv (S argc) | Unset => None end
  end.

Definition argv_strings (p : parse) (argv argc : nat) : option (list (list Z)) :=
  mapM (λ i, v ← p_args p !! i; match v with At a => string_from (drop a (p_str p)) | _ => None end) (seq argv argc).

(** The loop that starts the processes; [true]: this is a child that has called
    [exit]. The numbers are [expectedEvents] and whether the loop came to its end. *)
Fixpoint start_commands (fuel : nat) (p : parse) (argv : nat) (event in_pipe expected : Z) : M w (bool * Z) :=
  match fuel with
  | O => no_fuel
  | S fuel =>
      let* v := deref (p_args p !! argv) "argv outside of args" in
      match v with
      | Unset => undef "argv is not set"
      | Null => mret (false, expected)
      | At _ =>
          let* argc := deref (count_argv (length (p_args p)) p argv 1) "argv[argc] outside of args" in
          let* next := deref (p_args p !! (argv + argc + 1)%nat) "argv[argc + 1] outside of args" in
          let* out_pipe := match next with
                           | Null => mret 1
                           | At _ => createPipe
                           | Unset => undef "argv[argc + 1] is not set"
                           end in
          let* ' (pid, _) := _fork_r in
          if pid <? 0 then mret (false, expected)
          else if pid =? 0 then
            when (negb (in_pipe =? 0)) (dup2 in_pipe 0 ;; mret tt) ;;
            when (negb (out_pipe =? 1)) (dup2 out_pipe 1 ;; mret tt) ;;
            let* strings := deref (argv_strings p argv argc) "argument without an end" in
            execvp strings ;;
            _exit 127 ;;
            mret (true, expected)
          else
            objectAttach event pid 0 (u32 out_pipe) ;;
            objectClose pid ;;
            start_commands fuel p (argv + argc + 1) event out_pipe (u32 (expected + 1))
      end
  end.

(** Waiting for the processes; the result is the exit code of the last one. *)
Fixpoint wait_commands (expected : nat) (event exitcode : Z) : M w Z :=
  match expected with
  | O => mret exitcode
  | S expected =>
      let* out_pipe := objectWait event 0 in
      if out_pipe <? 0 then mret exitcode
      else
        let* exitcode :=
          (if negb (out_pipe =? 1) then objectShutdown out_pipe 1 ;; objectClose out_pipe ;; mret exitcode
           else let* e := objectGetStatus event 0 in mret (i32 e)) in
        objectDetach event (u32 out_pipe) ;;
        wait_commands expected event exitcode
  end.

(** What is printed at the end: the text of the format strings, with [%d] filled in. *)
Inductive notice := Crashed | Terminated (exitcode : Z) | Quiet.

Definition exit_notice (exitcode : Z) : notice :=
  if exitcode =? -2 then Crashed else if 0 <? exitcode then Terminated exitcode else Quiet.

Definition notice_text (n : notice) : list Z :=
  match n with
  | Crashed => chars "*** Programm crashed" ++ [CH_NEWLINE]
  | Terminated exitcode => chars "*** Program terminated with exitcode " ++ decimal 10 exitcode ++ [CH_NEWLINE]
  | Quiet => []
  end.

(** [true]: this is a child. *)
Definition shellRunCommand (fuel : nat) (p : parse) : M w bool :=
  let* event := createEvent true in
  if event <? 0 then mret false
  else
    let* ' (child, expected) := start_commands fuel p 0 event 0 0 in
    if child : bool then mret true
    else
      let* exitcode := wait_commands (Z.to_nat expected) event (-1) in
      printf (notice_text (exit_notice exitcode)) ;;
      printf [CH_NEWLINE] ;;
      objectClose event ;;
      mret false.

(** A round of the loop of [shell]; [true]: the function returns. *)
Definition shell_round (fuel : nat) : M w bool :=
  printf (chars "> ") ;;
  let* line := shellInput fuel in
  match line with
  | None => mret false
  | Some line =>
      let* c := deref (head (line ++ [0])) "line" in
      if negb (c =? CH_NEWLINE) then
        match shell_line (S (length line)) (Parse (line ++ [0]) (replicate (MAX_ARGS + 2) Unset)) with
        | Ok (None, _) => mret true
        | Ok (Some _, p) =>
            let* child := shellRunCommand fuel p in
            if child : bool then mret true else free ;; mret false
        | Panic why => panic why
        | Undef why => undef why
        | NoFuel => no_fuel
        end
      else free ;; mret false
  end.

Fixpoint shell_loop (rounds fuel : nat) : M w unit :=
  match rounds with
  | O => no_fuel
  | S rounds => let* stop := shell_round fuel in if stop : bool then mret tt else shell_loop rounds fuel
  end.

(** [welcome]: the picture [welcomeMSG]. *)
Definition shell (welcome : list Z) (rounds fuel : nat) : M w unit :=
  setenv (chars "PATH") (chars "/bin:/usr/bin") ;;
  printf (welcome ++ [CH_NEWLINE]) ;;
  shell_loop rounds fuel.
End Shell.

(** An example: echo "a b" | wc. *)
Example parse_example :
  let line := [101; 99; 104; 111; 32; 34; 97; 32; 98; 34; 32; 124; 32; 119; 99; 10] in
  match shell_line 20 (Parse (line ++ [0]) (replicate 32 Unset)) with
  | Ok (Some n, p) => n = 4%nat ∧ argv_strings p 0 2 = Some [[101; 99; 104; 111]; [97; 32; 98]] ∧
                      p_args p !! 2%nat = Some Null ∧ argv_strings p 3 1 = Some [[119; 99]]
  | _ => False
  end.
Proof. vm_compute. split_and!; reflexivity. Qed.
