(* ===== verification/ShellProofs.v ===== *)
(** * The parser of the shell is the tokenizer it means to be

    [shellParseArgs] unescapes the line in place, behind its own reading
    position, and stores pointers into it. The reference is a function on lists;
    the proof keeps the line as the words that are done, the word under
    construction, the gap between writing and reading, and what is left. *)

From S2P Require Import Prelude User Shell.
Open Scope Z_scope.

(** ** The reference *)

(** A word in quotes loses them. *)
Definition unquote (word : list Z) : list Z :=
  match word with
  | q :: rest => if (q =? CH_QUOTE) && bool_decide (last rest = Some CH_QUOTE) then removelast rest else word
  | [] => []
  end.

Definition unescape (c : Z) : list Z :=
  if c =? 110 then [CH_NEWLINE]
  else if c =? 114 then [CH_RETURN]
  else if (c =? CH_QUOTE) || (c =? CH_SPACE) || (c =? CH_PIPE) then [c]
  else [CH_BACKSLASH; c].

(** A token is a word, or [None] for the pipe operator. *)
Abbreviation token := (option (list Z)).

(** The tokens of the rest [s] of a line, when [count] tokens are there and [word]
    is under construction. *)
Fixpoint tokens (maxArgs : nat) (st : parserState) (word : list Z) (count : nat) (s : list Z) : list token :=
  match s with
  | [] =>
      match st with
      | STATE_BLANK => []
      | STATE_TEXT | STATE_QUOTE => [Some (unquote word)]
      | STATE_ESCAPE | STATE_QUOTE_ESCAPE => [Some (word ++ [CH_BACKSLASH])]
      end
  | c :: s =>
      match st with
      | STATE_BLANK =>
          if isspace c then tokens maxArgs STATE_BLANK [] count s
          else if (maxArgs <=? count)%nat then []
          else if c =? CH_PIPE then None :: tokens maxArgs STATE_BLANK [] (S count) s
          else if c =? CH_BACKSLASH then tokens maxArgs STATE_ESCAPE [] count s
          else tokens maxArgs (if c =? CH_QUOTE then STATE_QUOTE else STATE_TEXT) [c] count s
      | STATE_TEXT =>
          if isspace c then Some (unquote word) :: tokens maxArgs STATE_BLANK [] (S count) s
          else if c =? CH_PIPE then Some (unquote word) :: None :: tokens maxArgs STATE_BLANK [] (S (S count)) s
          else if c =? CH_BACKSLASH then tokens maxArgs STATE_ESCAPE word count s
          else tokens maxArgs (if c =? CH_QUOTE then STATE_QUOTE else STATE_TEXT) (word ++ [c]) count s
      | STATE_QUOTE =>
          if c =? CH_BACKSLASH then tokens maxArgs STATE_QUOTE_ESCAPE word count s
          else tokens maxArgs (if c =? CH_QUOTE then STATE_TEXT else STATE_QUOTE) (word ++ [c]) count s
      | STATE_ESCAPE => tokens maxArgs STATE_TEXT (word ++ unescape c) count s
      | STATE_QUOTE_ESCAPE => tokens maxArgs STATE_QUOTE (word ++ unescape c) count s
      end
  end.

(** ** Accesses to the line and to the arguments *)

Lemma wp_read_char i p A x C (Q : Z → parse → Prop) : p_str p = A ++ x :: C → i = length A → Q x p → wp (read_char i) p Q.
Proof. intros E -> HQ. unfold read_char. wp_step. wp_step. eapply wp_deref; [|exact HQ]. rewrite E. by apply list_lookup_middle. Qed.

Lemma wp_write_char i v p A x C (Q : unit → parse → Prop) : p_str p = A ++ x :: C → i = length A →
  Q tt (Parse (A ++ v :: C) (p_args p)) → wp (write_char i v) p Q.
Proof.
  intros E -> HQ. unfold write_char. wp_step. wp_step. rewrite E.
  rewrite (proj2 (Nat.ltb_lt _ _)) by (rewrite length_app; simpl; lia). wp_step. by rewrite insert_app_r_alt, Nat.sub_diag by lia.
Qed.

Lemma wp_set_arg i v p (Q : unit → parse → Prop) : (i < length (p_args p))%nat →
  Q tt (Parse (p_str p) (<[i := v]> (p_args p))) → wp (set_arg i v) p Q.
Proof. intros Hi HQ. unfold set_arg. wp_step. wp_step. rewrite (proj2 (Nat.ltb_lt _ _)) by done. by wp_step. Qed.

Lemma wp_arg_pos i a p (Q : nat → parse → Prop) : p_args p !! i = Some (At a) → Q a p → wp (arg_pos i) p Q.
Proof.
  intros E HQ. unfold arg_pos, get_arg. wp_step. wp_step. wp_step. eapply wp_deref; [exact E|]. exact HQ.
Qed.

(** ** The invariant *)

Definition nonzero (l : list Z) : Prop := Forall (λ c, c ≠ 0) l.

(** Token [i] is stored in the part [D] of the line. *)
Definition stored (D : list Z) (args : list slot) (i : nat) (t : token) : Prop :=
  match t with
  | None => args !! i = Some Null
  | Some w => nonzero w ∧ ∃ A D2, D = A ++ w ++ 0 :: D2 ∧ args !! i = Some (At (length A))
  end.

Definition all_stored (D : list Z) (args : list slot) (T : list token) : Prop := ∀ i t, T !! i = Some t → stored D args i t.

Lemma stored_more D D' args i t : stored D args i t → stored (D ++ D') args i t.
Proof.
  destruct t as [w|]; [|done]. intros (Hw & A & D2 & -> & Ha). split; [done|]. exists A, (D2 ++ D'). split; [|done].
  by rewrite <-!app_assoc.
Qed.

Lemma stored_args D args args' i t : args' !! i = args !! i → stored D args i t → stored D args' i t.
Proof. intros E. destruct t as [w|]; simpl; by rewrite E. Qed.

Lemma all_stored_snoc D args T t : all_stored D args T → stored D args (length T) t → all_stored D args (T ++ [t]).
Proof.
  intros HT Ht i t' [Hi|(Hi & Hx)]%lookup_app_Some; [by apply HT|]. apply list_lookup_singleton_Some in Hx as [Hx <-].
  by replace i with (length T) by lia.
Qed.

Lemma all_stored_mono D D' args i v T : all_stored D args T → (length T ≤ i)%nat → all_stored (D ++ D') (<[i := v]> args) T.
Proof.
  intros HT Hi j t Hj. apply stored_more. eapply stored_args; [|by apply HT].
  rewrite list_lookup_insert_ne; [done|]. apply lookup_lt_Some in Hj. lia.
Qed.

Section Parser.
Context (maxArgs N : nat) (rest : list Z).

(** The line in front of character [src]. *)
Record inv (st : parserState) (T : list token) (W s : list Z) (p : parse) (src dst count : nat) (D G : list Z) : Prop := {
  iv_str : p_str p = D ++ W ++ G ++ s ++ 0 :: rest;
  iv_src : src = (length D + length W + length G)%nat;
  iv_dst : dst = (length D + length W)%nat;
  iv_count : count = length T;
  iv_word : nonzero W;
  iv_rest : nonzero s;
  iv_stored : all_stored D (p_args p) T;
  iv_args : length (p_args p) = N ∧ (maxArgs < N)%nat;
  iv_state : match st with
             | STATE_BLANK => W = [] ∧ (count ≤ S maxArgs)%nat
             | STATE_TEXT | STATE_QUOTE => W ≠ [] ∧ p_args p !! count = Some (At (length D)) ∧ (count < maxArgs)%nat
             | STATE_ESCAPE | STATE_QUOTE_ESCAPE => G ≠ [] ∧ p_args p !! count = Some (At (length D)) ∧ (count < maxArgs)%nat
             end;
}.

(** The line after the next character has been read but nothing been written. *)
Lemma iv_free st T W c s p src dst count D G : inv st T W (c :: s) p src dst count D G →
  p_str p = (D ++ W) ++ (G ++ [c]) ++ s ++ 0 :: rest ∧ p_str p = (D ++ W ++ G) ++ c :: s ++ 0 :: rest ∧
  src = length (D ++ W ++ G) ∧ dst = length (D ++ W).
Proof. intros Hi. destruct Hi. rewrite !length_app. split_and!; [by rewrite iv_str0, <-!app_assoc..|lia|lia]. Qed.

(** Writing the next character of the word. *)
Lemma wp_write_next p D W F tl v dst (Q : unit → parse → Prop) : p_str p = (D ++ W) ++ F ++ tl → dst = length (D ++ W) → F ≠ [] →
  (∀ F', length F' = (length F - 1)%nat → Q tt (Parse ((D ++ W ++ [v]) ++ F' ++ tl) (p_args p))) →
  wp (write_char dst v) p Q.
Proof.
  intros E Hd HF HQ. destruct F as [|x F]; [done|]. apply (wp_write_char dst v p (D ++ W) x (F ++ tl)); [exact E|done|].
  replace ((D ++ W) ++ v :: F ++ tl) with ((D ++ W ++ [v]) ++ F ++ tl) by (by rewrite <-!app_assoc). apply HQ. simpl. lia.
Qed.

Lemma wp_copy_char p D W G c s src dst (Q : unit → parse → Prop) :
  p_str p = (D ++ W ++ G) ++ c :: s ++ 0 :: rest → src = length (D ++ W ++ G) → dst = length (D ++ W) →
  (∀ G', length G' = length G → last (c :: G') = Some c →
     Q tt (Parse ((D ++ W ++ [c]) ++ G' ++ s ++ 0 :: rest) (p_args p))) →
  wp (copy_char src dst) p Q.
Proof.
  intros E Hs Hd HQ. unfold copy_char. destruct (Nat.eqb_spec src dst) as [Heq|Hne].
  - wp_step. assert (G = []) as -> by (apply length_zero_iff_nil; rewrite Heq in Hs; rewrite !length_app in *; lia).
    specialize (HQ [] eq_refl eq_refl). rewrite app_nil_r in *. destruct p as [str args]. simpl in *. subst str.
    by rewrite <-!app_assoc in *.
  - wp_step. eapply wp_read_char; [exact E|done|].
    destruct G as [|g G]; [exfalso; apply Hne; rewrite Hs, Hd, app_nil_r; done|].
    eapply (wp_write_char _ _ _ (D ++ W) g (G ++ c :: s ++ 0 :: rest)); [by rewrite E, <-!app_assoc|done|].
    replace ((D ++ W) ++ c :: G ++ c :: s ++ 0 :: rest) with ((D ++ W ++ [c]) ++ (G ++ [c]) ++ s ++ 0 :: rest)
      by (rewrite <-!app_assoc; reflexivity).
    apply HQ; [rewrite length_app; simpl; lia|]. exact (last_snoc c (c :: G)).
Qed.

(** Ending a word. *)
Lemma wp_strip_quotes p D W F tl dst count (Q : unit → parse → Prop) : p_str p = (D ++ W) ++ F ++ tl → dst = length (D ++ W) →
  W ≠ [] → nonzero W → p_args p !! count = Some (At (length D)) → (count < length (p_args p))%nat →
  (∀ W' a, length W' = length W → stored (D ++ W' ++ [0]) (<[count := a]> (p_args p)) count (Some (unquote W)) →
     Q tt (Parse ((D ++ W') ++ F ++ tl) (<[count := a]> (p_args p)))) →
  wp (strip_quotes count dst) p Q.
Proof.
  intros E Hd HW Hnz Ha Hc HQ. destruct W as [|q W]; [done|]. unfold strip_quotes.
  assert (length (D ++ q :: W) = S (length D + length W)) as El by (rewrite length_app; simpl; lia).
  wp_step. eapply wp_arg_pos; [done|]. wp_step. eapply (wp_read_char _ p D q (W ++ F ++ tl)); [by rewrite E, <-app_assoc|done|].
  assert (Hplain : unquote (q :: W) = q :: W → Q tt p).
  { intros Eu. specialize (HQ (q :: W) (At (length D)) eq_refl). rewrite (list_insert_id _ _ _ Ha) in HQ.
    destruct p as [str args]. simpl in *. subst str. apply HQ. rewrite Eu. split; [done|]. exists D, []. split; [done|done]. }
  cbn [unquote] in *.
  destruct (Z.eqb_spec q CH_QUOTE) as [->|Hq]; cbn [andb] in *; [|wp_step; by apply Hplain].
  destruct (decide (W = [])) as [->|HW'].
  { simpl in El. rewrite (proj2 (Nat.ltb_ge _ _)) by lia. wp_step. by apply Hplain. }
  apply exists_last in HW' as (W1 & l & ->). assert (length (W1 ++ [l]) = S (length W1)) as El1 by (rewrite length_app; simpl; lia). rewrite El1 in El. simpl in El.
  rewrite (proj2 (Nat.ltb_lt _ _)) by lia.
  wp_step. eapply (wp_read_char _ p (D ++ CH_QUOTE :: W1) l (F ++ tl)).
  { rewrite E, <-!app_assoc. simpl. by rewrite <-app_assoc. }
  { rewrite length_app. simpl. lia. }
  rewrite last_snoc, removelast_last in *.
  destruct (Z.eqb_spec l CH_QUOTE) as [->|Hl].
  2: { apply wp_when; [done|]. intros _. apply Hplain. by rewrite bool_decide_false by congruence. }
  rewrite bool_decide_true in * by done. apply wp_when; [|done]. intros _. wp_step. apply wp_set_arg; [done|].
  eapply (wp_write_char _ 0 (Parse (p_str p) _) (D ++ CH_QUOTE :: W1) CH_QUOTE (F ++ tl)).
  { simpl. rewrite E, <-!app_assoc. simpl. by rewrite <-app_assoc. }
  { rewrite length_app. simpl. lia. }
  cbn [p_args]. replace ((D ++ CH_QUOTE :: W1) ++ 0 :: F ++ tl) with ((D ++ (CH_QUOTE :: W1 ++ [0])) ++ F ++ tl).
  2: { rewrite <-!app_assoc. simpl. by rewrite <-app_assoc. }
  apply HQ; [simpl; rewrite !length_app; simpl; lia|]. split.
  - apply Forall_cons in Hnz as [_ Hnz]. by apply Forall_app in Hnz as [? _].
  - exists (D ++ [CH_QUOTE]), [0]. split; [rewrite <-!app_assoc; simpl; by rewrite <-app_assoc|].
    rewrite list_lookup_insert_eq by done. rewrite length_app. simpl. do 3 f_equal. lia.
Qed.

(** ** One character *)

(** What the parser leaves: [n] tokens, stored in the line of [len] characters,
    behind which nothing has changed. *)
Definition parsed (len : nat) (T : list token) (n : nat) (p : parse) : Prop :=
  n = length T ∧ length (p_args p) = N ∧ ∃ L, p_str p = L ++ rest ∧ length L = len ∧ all_stored L (p_args p) T.

(** What a character does: the tokens that are complete afterwards, and those of
    the rest of the line, are those of before. *)
Definition stepped (st : parserState) (T : list token) (W : list Z) (c : Z) (s : list Z) (src : nat)
    (r : nat + parserState * nat * nat) (p' : parse) : Prop :=
  match r with
  | inl n => parsed (src + S (S (length s))) T n p' ∧ tokens maxArgs st W (length T) (c :: s) = []
  | inr (st', dst', count') => ∃ T' W' D' G', inv st' T' W' s p' (S src) dst' count' D' G' ∧
      T' ++ tokens maxArgs st' W' (length T') s = T ++ tokens maxArgs st W (length T) (c :: s)
  end.

Ltac inv_tac := constructor; simpl in *; try done; try (by apply Forall_nil_2);
  try (rewrite ?length_app, ?length_insert in *; simpl in *; lia); try (by rewrite length_insert).

Lemma all_stored_set D args i v T : all_stored D args T → (length T ≤ i)%nat → all_stored D (<[i := v]> args) T.
Proof. intros HT Hi. pose proof (all_stored_mono D [] _ i v T HT Hi) as Hm. by rewrite app_nil_r in Hm. Qed.

Lemma step_blank T W c s p src dst count D G : inv STATE_BLANK T W (c :: s) p src dst count D G →
  wp (parse_char maxArgs STATE_BLANK src dst count) p (stepped STATE_BLANK T W c s src).
Proof.
  intros Hi. destruct (iv_free _ _ _ _ _ _ _ _ _ _ _ Hi) as (E1 & E2 & Esrc & Edst).
  destruct Hi as [Es Hsrc Hdst Hcount _ Hnz HT [HN Hmax] [-> Hc]]. apply Forall_cons in Hnz as [Hc0 Hnz].
  rewrite app_nil_r in E1, Edst. cbn [app] in E2, Esrc. unfold parse_char.
  wp_step. eapply wp_read_char; [exact E2|exact Esrc|]. unfold stepped. cbn [tokens].
  destruct (isspace c) eqn:Esp.
  { wp_step. exists T, [], D, (G ++ [c]). split; [|done]. inv_tac. }
  destruct (Nat.leb_spec maxArgs count) as [Hfull|Hroom].
  { wp_step. rewrite (proj2 (Nat.leb_le _ _)) by lia. split; [|done]. split; [done|]. split; [done|].
    exists (D ++ G ++ (c :: s) ++ [0]). split; [rewrite Es, <-!app_assoc; reflexivity|].
    split; [rewrite !length_app; simpl in *; rewrite ?length_app; simpl; lia|]. intros i t Hit. apply stored_more. by apply HT. }
  rewrite (proj2 (Nat.leb_gt maxArgs (length T))) by lia.
  destruct (Z.eqb_spec c CH_PIPE) as [->|Hpipe].
  { wp_step. apply wp_set_arg; [lia|]. wp_step. exists (T ++ [None]), [], D, (G ++ [CH_PIPE]).
    split; [|rewrite length_app, Nat.add_1_r; by rewrite <-app_assoc]. inv_tac; [|split; [done|lia]].
    apply all_stored_snoc; [by apply all_stored_set; [|lia]|]. rewrite <-Hcount. simpl. apply list_lookup_insert_eq. lia. }
  wp_step. apply wp_set_arg; [lia|].
  assert (HT' : all_stored D (<[count := At dst]> (p_args p)) T) by (apply all_stored_set; [done|lia]).
  assert (Harg : <[count := At dst]> (p_args p) !! count = Some (At (length D))) by (rewrite list_lookup_insert_eq by lia; by rewrite Edst).
  destruct (Z.eqb_spec c CH_BACKSLASH) as [->|Hesc].
  { wp_step. exists T, [], D, (G ++ [CH_BACKSLASH]). split; [|done]. inv_tac. split; [by destruct G|by split]. }
  wp_step. eapply (wp_copy_char (Parse (p_str p) _) D [] G c s); [exact E2|exact Esrc|cbn [app]; by rewrite app_nil_r|].
  intros G' HG' _. cbn [p_args app]. wp_step. exists T, [c], D, G'. split; [|done].
  inv_tac; [by rewrite <-app_assoc|by repeat constructor|]. destruct (c =? CH_QUOTE); by split.
Qed.

(** Copying a character of a word; it can be read at its place afterwards. *)
Lemma step_copy st st' T W c s p src dst count D G : inv st T W (c :: s) p src dst count D G →
  (st = STATE_TEXT ∨ st = STATE_QUOTE) → (st' = STATE_TEXT ∨ st' = STATE_QUOTE) →
  wp (copy_char src dst) p (λ _ p', (∃ A C, p_str p' = A ++ c :: C ∧ src = length A) ∧
    ∃ G', inv st' T (W ++ [c]) s p' (S src) (S dst) count D G').
Proof.
  intros Hi Hst Hst'. destruct (iv_free _ _ _ _ _ _ _ _ _ _ _ Hi) as (E1 & E2 & Esrc & Edst).
  destruct Hi as [Es Hsrc Hdst Hcount HW Hnz HT [HN Hmax] Hs]. apply Forall_cons in Hnz as [Hc0 Hnz].
  eapply (wp_copy_char p D W G c s); [exact E2|exact Esrc|exact Edst|]. intros G' HG' HL. split.
  - assert (∃ A, (W ++ [c]) ++ G' = W ++ A ++ [c] ∧ length A = length G') as (A & EA & HA).
    { destruct (exists_last (l := c :: G')) as (A & l & El); [done|]. rewrite El, last_snoc in HL. injection HL as ->.
      exists A. rewrite <-app_assoc. simpl. rewrite El. split; [done|]. apply (f_equal length) in El.
      rewrite length_app in El. simpl in El. lia. }
    exists (D ++ W ++ A), (s ++ 0 :: rest). split; [|rewrite Esrc, !length_app; lia].
    cbn [p_str]. rewrite <-!app_assoc. f_equal. rewrite app_assoc, (app_assoc (W ++ [c])), EA. by rewrite <-!app_assoc.
  - exists G'. inv_tac; [by rewrite <-!app_assoc|by apply Forall_app_2; [|repeat constructor]|].
    destruct Hst as [-> | ->]; destruct Hst' as [-> | ->]; destruct Hs as (? & ? & ?); (split; [by destruct W|by split]).
Qed.

(** A backslash is skipped. *)
Lemma step_backslash st st' T W c s p src dst count D G : inv st T W (c :: s) p src dst count D G →
  (st = STATE_TEXT ∨ st = STATE_QUOTE) → (st' = STATE_ESCAPE ∨ st' = STATE_QUOTE_ESCAPE) →
  inv st' T W s p (S src) dst count D (G ++ [c]).
Proof.
  intros Hi Hst Hst'. destruct (iv_free _ _ _ _ _ _ _ _ _ _ _ Hi) as (E1 & _).
  destruct Hi as [Es Hsrc Hdst Hcount HW Hnz HT [HN Hmax] Hs]. apply Forall_cons in Hnz as [Hc0 Hnz].
  constructor; try done; [by rewrite E1, <-!app_assoc|rewrite length_app; simpl; lia|].
  destruct Hst as [-> | ->]; destruct Hst' as [-> | ->]; destruct Hs as (? & ? & ?); (split; [by destruct G|by split]).
Qed.

(** The end of a word: its quotes are stripped and the terminator is written. *)
Lemma wp_end_word {A} (k : M parse A) p T D W F tl dst count (Q : A → parse → Prop) : p_str p = (D ++ W) ++ F ++ tl → dst = length (D ++ W) →
  F ≠ [] → W ≠ [] → nonzero W → p_args p !! count = Some (At (length D)) → count = length T → (count < length (p_args p))%nat →
  all_stored D (p_args p) T →
  (∀ D' F' args', length D' = S dst → length F' = (length F - 1)%nat → length args' = length (p_args p) →
     all_stored D' args' (T ++ [Some (unquote W)]) → wp k (Parse (D' ++ F' ++ tl) args') Q) →
  wp (strip_quotes count dst ;; write_char dst 0 ;; k) p Q.
Proof.
  intros E Hd HF HW Hnz Ha Hcount Hc HT HQ. wp_step. eapply (wp_strip_quotes p D W F tl); try done. intros W' a HW' Hst.
  wp_step. eapply (wp_write_next _ D W' F tl); [done|rewrite Hd, !length_app; lia|done|]. intros F' HF'. cbn [p_args].
  apply HQ; [rewrite !length_app in *; simpl; lia|done|by rewrite length_insert|].
  apply all_stored_snoc; [|by rewrite <-Hcount]. apply all_stored_mono; [done|lia].
Qed.

Lemma step_text T W c s p src dst count D G : inv STATE_TEXT T W (c :: s) p src dst count D G →
  wp (parse_char maxArgs STATE_TEXT src dst count) p (stepped STATE_TEXT T W c s src).
Proof.
  intros Hi. pose proof Hi as Hi0. destruct (iv_free _ _ _ _ _ _ _ _ _ _ _ Hi) as (E1 & E2 & Esrc & Edst).
  destruct Hi as [Es Hsrc Hdst Hcount HW Hnz HT [HN Hmax] (HW0 & Harg & Hlt)]. apply Forall_cons in Hnz as [Hc0 Hnz].
  unfold parse_char. wp_step. eapply wp_read_char; [exact E2|exact Esrc|]. unfold stepped. cbn [tokens].
  destruct (isspace c || (c =? CH_PIPE)) eqn:Eend.
  { eapply (wp_end_word _ p T D W (G ++ [c]) (s ++ 0 :: rest)); try done; [by destruct G|lia|].
    intros D' F' args' HD' HF' Hargs' HT'. rewrite length_app in HF'. simpl in HF'.
    destruct (Z.eqb_spec c CH_PIPE) as [->|Hpipe].
    - rewrite (proj2 (Nat.ltb_ge _ _)) by lia. wp_step. apply wp_set_arg; [simpl; lia|]. wp_step.
      cbn [p_str p_args]. change (isspace CH_PIPE) with false. cbv iota. change (CH_PIPE =? CH_PIPE) with true. cbv iota.
      exists ((T ++ [Some (unquote W)]) ++ [None]), [], D', F'. split.
      2: { rewrite !length_app. cbn [length]. rewrite !Nat.add_1_r, <-!app_assoc. reflexivity. }
      inv_tac; [|split; [done|lia]].
      assert (Hl : S count = length (T ++ [Some (unquote W)])) by (rewrite length_app; simpl; lia).
      apply all_stored_snoc; [apply all_stored_set; [done|lia]|]. rewrite <-Hl. simpl. apply list_lookup_insert_eq. lia.
    - rewrite orb_false_r in Eend. rewrite Eend. wp_step. exists (T ++ [Some (unquote W)]), [], D', F'. split.
      2: { rewrite length_app, Nat.add_1_r, <-!app_assoc. reflexivity. }
      inv_tac. split; [done|lia]. }
  apply orb_false_iff in Eend as [-> ->].
  destruct (Z.eqb_spec c CH_BACKSLASH) as [->|Hesc].
  { wp_step. exists T, W, D, (G ++ [CH_BACKSLASH]). split; [|done]. eapply step_backslash; eauto. }
  wp_step. eapply wp_mono; [eapply (step_copy STATE_TEXT (if c =? CH_QUOTE then STATE_QUOTE else STATE_TEXT)); eauto|].
  { destruct (c =? CH_QUOTE); auto. }
  intros [] p' (_ & G' & Hi'). wp_step. exists T, (W ++ [c]), D, G'. by split.
Qed.

Lemma step_quote T W c s p src dst count D G : inv STATE_QUOTE T W (c :: s) p src dst count D G →
  wp (parse_char maxArgs STATE_QUOTE src dst count) p (stepped STATE_QUOTE T W c s src).
Proof.
  intros Hi. destruct (iv_free _ _ _ _ _ _ _ _ _ _ _ Hi) as (E1 & E2 & Esrc & Edst).
  unfold parse_char. wp_step. eapply wp_read_char; [exact E2|exact Esrc|]. unfold stepped. cbn [tokens].
  destruct (Z.eqb_spec c CH_BACKSLASH) as [->|Hesc].
  { wp_step. exists T, W, D, (G ++ [CH_BACKSLASH]). split; [|done]. eapply step_backslash; eauto. }
  wp_step. eapply wp_mono; [eapply (step_copy STATE_QUOTE (if c =? CH_QUOTE then STATE_TEXT else STATE_QUOTE)); eauto|].
  { destruct (c =? CH_QUOTE); auto. }
  intros [] p' ((A & C & Ep & HA) & G' & Hi'). wp_step. eapply wp_read_char; [exact Ep|exact HA|].
  wp_step. exists T, (W ++ [c]), D, G'. by split.
Qed.

Lemma inv_word st T W u s p dst src count D F : p_str p = (D ++ W ++ u) ++ F ++ s ++ 0 :: rest →
  src = length (D ++ W ++ u ++ F) → dst = length (D ++ W ++ u) → count = length T → nonzero (W ++ u) → nonzero s →
  all_stored D (p_args p) T → length (p_args p) = N → (maxArgs < N)%nat → u ≠ [] → p_args p !! count = Some (At (length D)) →
  (count < maxArgs)%nat → st = STATE_TEXT ∨ st = STATE_QUOTE → inv st T (W ++ u) s p src dst count D F.
Proof.
  intros E Hs Hd Hc HW Hnz HT HN HmN Hu Ha Hlt Hst. rewrite !length_app in *. constructor; try done.
  - by rewrite E, <-!app_assoc.
  - rewrite length_app. lia.
  - rewrite length_app. lia.
  - destruct Hst as [-> | ->]; (split; [by destruct W, u|by split]).
Qed.

(** The character behind a backslash. There is room for two characters. *)
Lemma step_escape st st' T W c s p src dst count D G : inv st T W (c :: s) p src dst count D G →
  (st = STATE_ESCAPE ∨ st = STATE_QUOTE_ESCAPE) → (st' = STATE_TEXT ∨ st' = STATE_QUOTE) →
  wp (if c =? 110 then write_char dst CH_NEWLINE ;; mret (S dst)
      else if c =? 114 then write_char dst CH_RETURN ;; mret (S dst)
      else if (c =? CH_QUOTE) || (c =? CH_SPACE) || (c =? CH_PIPE) then write_char dst c ;; mret (S dst)
      else write_char dst CH_BACKSLASH ;; let* c := read_char src in write_char (S dst) c ;; mret (S (S dst))) p
     (λ dst' p', ∃ G', inv st' T (W ++ unescape c) s p' (S src) dst' count D G').
Proof.
  intros Hi Hst Hst'. destruct (iv_free _ _ _ _ _ _ _ _ _ _ _ Hi) as (E1 & E2 & Esrc & Edst).
  destruct Hi as [Es Hsrc Hdst Hcount HW Hnz HT [HN Hmax] Hs]. apply Forall_cons in Hnz as [Hc0 Hnz].
  assert (G ≠ [] ∧ p_args p !! count = Some (At (length D)) ∧ (count < maxArgs)%nat) as (HG & Harg & Hlt)
    by (destruct Hst as [-> | ->]; exact Hs). clear Hs.
  assert (Hone : ∀ v, v ≠ 0 → wp (write_char dst v ;; mret (S dst)) p
            (λ dst' p', ∃ G', inv st' T (W ++ [v]) s p' (S src) dst' count D G')).
  { intros v Hv. wp_step. eapply (wp_write_next p D W (G ++ [c])); [exact E1|exact Edst|by destruct G|]. intros F HF. wp_step.
    exists F. rewrite length_app in HF. simpl in HF. apply inv_word; try done.
    - rewrite !length_app. simpl. lia.
    - rewrite !length_app. simpl. lia.
    - apply Forall_app_2; [done|by repeat constructor]. }
  unfold unescape. destruct (c =? 110); [by apply Hone|]. destruct (c =? 114); [by apply Hone|].
  destruct ((c =? CH_QUOTE) || (c =? CH_SPACE) || (c =? CH_PIPE)); [by apply Hone|].
  destruct G as [|g G]; [done|]. wp_step. eapply (wp_write_char dst _ p (D ++ W) g (G ++ c :: s ++ 0 :: rest)).
  { rewrite E2, <-!app_assoc. reflexivity. }
  { done. }
  wp_step. eapply (wp_read_char src _ (D ++ W ++ CH_BACKSLASH :: G) c (s ++ 0 :: rest)).
  { simpl. rewrite <-!app_assoc. reflexivity. }
  { rewrite Esrc, !length_app. simpl. lia. }
  wp_step. eapply (wp_write_next _ D (W ++ [CH_BACKSLASH]) (G ++ [c]) (s ++ 0 :: rest)).
  { simpl. rewrite <-!app_assoc. reflexivity. }
  { rewrite Edst, !length_app. simpl. lia. }
  { by destruct G. }
  intros F HF. wp_step. exists F. rewrite length_app in HF. simpl in HF. apply inv_word; try done.
  - simpl. rewrite <-!app_assoc. reflexivity.
  - rewrite !length_app in *. simpl in *. lia.
  - rewrite !length_app. simpl. lia.
  - apply Forall_app_2; [done|]. by repeat constructor.
Qed.

Lemma parse_char_ok st T W c s p src dst count D G : inv st T W (c :: s) p src dst count D G →
  wp (parse_char maxArgs st src dst count) p (stepped st T W c s src).
Proof.
  intros Hi. destruct (iv_free _ _ _ _ _ _ _ _ _ _ _ Hi) as (E1 & E2 & Esrc & Edst).
  destruct st; [by eapply step_blank|by eapply step_text|by eapply step_quote|..]; unfold parse_char; wp_step;
    (eapply wp_read_char; [exact E2|exact Esrc|]); wp_step.
  - eapply wp_mono; [eapply (step_escape _ STATE_TEXT); eauto|]. intros dst' p' (G' & Hi'). wp_step. exists T, (W ++ unescape c), D, G'. by split.
  - eapply wp_mono; [eapply (step_escape _ STATE_QUOTE); eauto|]. intros dst' p' (G' & Hi'). wp_step. exists T, (W ++ unescape c), D, G'. by split.
Qed.

(** ** The line *)

Lemma parse_end_ok st T W p src dst count D G : inv st T W [] p src dst count D G →
  wp (parse_end st dst count) p (parsed (S src) (T ++ tokens maxArgs st W count [])).
Proof.
  intros [Es Hsrc Hdst Hcount HW _ HT [HN Hmax] Hs]. cbn [app] in Es. unfold parse_end. cbn [tokens].
  assert (Es' : p_str p = (D ++ W) ++ (G ++ [0]) ++ rest) by (rewrite Es, <-!app_assoc; reflexivity).
  assert (Ed : dst = length (D ++ W)) by (by rewrite length_app).
  assert (Hend : ∀ D' F' args' t, length args' = N → length (D' ++ F') = S src → all_stored D' args' (T ++ [t]) →
            parsed (S src) (T ++ [t]) (S count) (Parse (D' ++ F' ++ rest) args')).
  { intros D' F' args' t Hl HL Ht. split; [rewrite length_app; simpl; lia|]. split; [done|]. exists (D' ++ F').
    split; [by rewrite <-app_assoc|]. split; [done|]. intros i t' Hi. apply stored_more. by apply Ht. }
  assert (Hword : st = STATE_TEXT ∨ st = STATE_QUOTE →
            wp (strip_quotes count dst ;; write_char dst 0 ;; mret (S count)) p (parsed (S src) (T ++ [Some (unquote W)]))).
  { intros Hst. assert (W ≠ [] ∧ p_args p !! count = Some (At (length D)) ∧ (count < maxArgs)%nat) as (HW0 & Harg & Hlt)
      by (destruct Hst as [-> | ->]; exact Hs).
    eapply (wp_end_word _ p T D W (G ++ [0]) rest); try done; [by destruct G|lia|].
    intros D' F' args' HD' HF' Hargs HT'. wp_step. rewrite length_app in HF'. simpl in HF'.
    apply Hend; [lia|rewrite length_app; lia|done]. }
  assert (Hesc : st = STATE_ESCAPE ∨ st = STATE_QUOTE_ESCAPE →
            wp (write_char dst CH_BACKSLASH ;; write_char (S dst) 0 ;; mret (S count)) p (parsed (S src) (T ++ [Some (W ++ [CH_BACKSLASH])]))).
  { intros Hst. assert (G ≠ [] ∧ p_args p !! count = Some (At (length D)) ∧ (count < maxArgs)%nat) as (HG & Harg & Hlt)
      by (destruct Hst as [-> | ->]; exact Hs).
    wp_step. eapply (wp_write_next p D W (G ++ [0]) rest); [done|done|by destruct G|]. intros F1 HF1.
    rewrite length_app in HF1. simpl in HF1. assert (F1 ≠ []) by (destruct F1, G; simpl in *; try done; lia).
    wp_step. eapply (wp_write_next _ D (W ++ [CH_BACKSLASH]) F1 rest); [done|rewrite Ed, !length_app; simpl; lia|done|].
    intros F2 HF2. wp_step. cbn [p_args]. apply Hend; [done|rewrite !length_app; destruct F1, G; simpl in *; try done; lia|].
    apply all_stored_snoc; [intros i t Hi; apply stored_more; by apply HT|]. rewrite <-Hcount.
    split; [apply Forall_app_2; [done|by repeat constructor]|]. exists D, []. by rewrite <-!app_assoc. }
  destruct st; [|by apply Hword; auto|by apply Hword; auto|by apply Hesc; auto|by apply Hesc; auto].
  destruct Hs as [-> Hc]. wp_step. rewrite app_nil_r. split; [done|]. split; [done|]. exists (D ++ G ++ [0]).
  split; [by rewrite Es, <-!app_assoc|]. split; [rewrite !length_app; simpl in *; lia|]. intros i t Hi. apply stored_more. by apply HT.
Qed.

(** The loop and the end of the line. *)
Lemma parse_loop_ok s : ∀ fuel st T W c p src dst count D G, (length s < fuel)%nat → inv st T W (c :: s) p src dst count D G →
  wp (parse_loop fuel maxArgs st src dst count) p
     (λ r p', wp (match r with inl n => mret n | inr (st, dst, count) => parse_end st dst count end) p'
                 (parsed (src + S (S (length s))) (T ++ tokens maxArgs st W count (c :: s)))).
Proof.
  induction s as [|c' s IH]; intros fuel st T W c p src dst count D G Hf Hi; (destruct fuel as [|fuel]; [simpl in Hf; lia|]);
    cbn [parse_loop]; wp_step; (eapply wp_mono; [by eapply parse_char_ok|]);
    pose proof (iv_count _ _ _ _ _ _ _ _ _ _ Hi) as Hc; rewrite Hc;
    (intros [n|[[st' dst'] count']] p'; cbn [stepped];
       [intros (Hp & ->); wp_step; wp_step; by rewrite app_nil_r
       |intros (T' & W' & D' & G' & Hi' & <-)]).
  - wp_step. eapply (wp_read_char _ p' (D' ++ W' ++ G') 0 rest).
    { by rewrite (iv_str _ _ _ _ _ _ _ _ _ _ Hi'), <-!app_assoc. }
    { rewrite !length_app. pose proof (iv_src _ _ _ _ _ _ _ _ _ _ Hi'). lia. }
    cbn [Z.eqb]. wp_step. replace (src + S (S (length [])))%nat with (S (S src)) by (simpl; lia).
    rewrite <-(iv_count _ _ _ _ _ _ _ _ _ _ Hi'). by eapply parse_end_ok.
  - destruct (iv_free _ _ _ _ _ _ _ _ _ _ _ Hi') as (_ & E & Es & _). wp_step. eapply wp_read_char; [exact E|exact Es|].
    pose proof (iv_rest _ _ _ _ _ _ _ _ _ _ Hi') as [Hc' _]%Forall_cons. rewrite (proj2 (Z.eqb_neq _ _)) by done.
    replace (src + S (S (length (c' :: s))))%nat with (S src + S (S (length s)))%nat by (simpl; lia).
    rewrite <-(iv_count _ _ _ _ _ _ _ _ _ _ Hi'). eapply (IH fuel st' T' W' c'); [simpl in Hf; lia|exact Hi'].
Qed.
End Parser.

Lemma tokens_length maxArgs s : ∀ st word count,
  match st with STATE_BLANK => (count ≤ S maxArgs)%nat | _ => (count < maxArgs)%nat end →
  (count + length (tokens maxArgs st word count s) ≤ S maxArgs)%nat.
Proof.
  assert (Hcons : ∀ (t : token) l n m, (S n + length l ≤ m)%nat → (n + length (t :: l) ≤ m)%nat) by (intros; simpl; lia).
  induction s as [|c s IH]; intros st word count Hc; [destruct st; simpl; lia|].
  destruct st; cbn [tokens]; repeat case_match; repeat apply Hcons;
    repeat match goal with H : (_ <=? _)%nat = false |- _ => apply Nat.leb_gt in H end;
    first [by apply IH; lia | by apply IH | simpl; lia].
Qed.

Lemma string_from_word w r : nonzero w → string_from (w ++ 0 :: r) = Some w.
Proof.
  induction 1 as [|c w Hc _ IH]; [done|]. simpl. rewrite (proj2 (Z.eqb_neq _ _)) by done. simpl in IH. by rewrite IH.
Qed.

(** The strings of a command are the words of its part of the tokens. *)
Lemma argv_strings_words p T i ws : all_stored (p_str p) (p_args p) T → (∀ k w, ws !! k = Some w → T !! (i + k)%nat = Some (Some w)) →
  argv_strings p i (length ws) = Some ws.
Proof.
  intros HT. unfold argv_strings. revert i. induction ws as [|w ws IH]; intros i Hw; [done|].
  cbn [length seq mapM]. rewrite (IH (S i)); [|intros k w' Hk; rewrite Nat.add_succ_comm; by apply Hw].
  destruct (HT _ _ (Hw 0%nat w eq_refl)) as (Hnz & A & C & E & Ha). rewrite Nat.add_0_r in Ha. rewrite Ha. cbn [mbind option_bind].
  rewrite E, drop_app_length. cbn [app]. by rewrite string_from_word.
Qed.

Lemma set_arg_twice {A} i (a : A) p : (S i < length (p_args p))%nat →
  (set_arg i Null ;; set_arg (S i) Null ;; mret a) p = Ok (a, Parse (p_str p) (<[S i := Null]> (<[i := Null]> (p_args p)))).
Proof.
  intros Hi. unfold set_arg, mbind, M_bind, get. rewrite (proj2 (Nat.ltb_lt _ _)) by lia. cbn [put p_args p_str].
  rewrite length_insert. by rewrite (proj2 (Nat.ltb_lt _ _)) by lia.
Qed.

Section Line.
Context (rest : list Z).

Lemma wp_shellParseArgs maxArgs fuel s args :
  nonzero s → (length s < fuel)%nat → (maxArgs < length args)%nat →
  wp (shellParseArgs fuel maxArgs) (Parse (s ++ 0 :: rest) args)
     (parsed (length args) rest (S (length s)) (tokens maxArgs STATE_BLANK [] 0 s)).
Proof.
  intros Hs Hf Hargs. unfold shellParseArgs. destruct s as [|c s].
  { wp_step. eapply (wp_read_char _ _ []); [done|done|]. cbn [Z.eqb]. wp_step. split; [done|]. split; [done|].
    exists [0]. split; [done|]. by split. }
  wp_step. eapply (wp_read_char _ _ []); [done|done|]. pose proof Hs as [Hc _]%Forall_cons.
  rewrite (proj2 (Z.eqb_neq _ _)) by done. wp_step.
  eapply (parse_loop_ok maxArgs (length args) rest s fuel STATE_BLANK [] [] c _ 0 0 0 [] []); [simpl in Hf; lia|].
  constructor; try done; [by apply Forall_nil_2|]. split; [done|lia].
Qed.

(** C21: Parsing a line in place gives the tokens of the reference: their number is
    the result, a pipe operator is a null pointer in [args], the strings [args]
    points to, taken from the line as it is afterwards, are the words unescaped and
    unquoted, and nothing behind the line is written. *)
Theorem shellParseArgs_tokens maxArgs fuel s args :
  nonzero s → (length s < fuel)%nat → (maxArgs < length args)%nat →
  let T := tokens maxArgs STATE_BLANK [] 0 s in
  ∃ p, shellParseArgs fuel maxArgs (Parse (s ++ 0 :: rest) args) = Ok (length T, p) ∧
    length (p_args p) = length args ∧ drop (S (length s)) (p_str p) = rest ∧
    (∀ i, T !! i = Some None → p_args p !! i = Some Null) ∧
    (∀ i ws, (∀ k w, ws !! k = Some w → T !! (i + k)%nat = Some (Some w)) → argv_strings p i (length ws) = Some ws).
Proof.
  intros Hs Hf Hargs T. pose proof (wp_shellParseArgs maxArgs fuel s args Hs Hf Hargs) as Hp.
  apply wp_run in Hp as (n & p & Hr & -> & Hl & L & E & HL & HT). exists p. split; [done|]. split; [done|].
  assert (HT' : all_stored (p_str p) (p_args p) T) by (intros i t Hi; rewrite E; apply stored_more; by apply HT).
  split; [rewrite E, <-HL; apply drop_app_length|]. split; [intros i Hi; by apply (HT' i None)|].
  intros i ws. by apply argv_strings_words.
Qed.

(** C23: The shell takes a line of up to [MAX_ARGS] tokens and marks its end by two
    null pointers; a line of blanks ends the shell; and a line of [MAX_ARGS] words
    whose last one is followed directly by a pipe makes it write behind the end of
    [args], which has only two elements more. *)
Theorem shell_line_limits fuel s args :
  nonzero s → (length s < fuel)%nat → length args = (MAX_ARGS + 2)%nat →
  let T := tokens MAX_ARGS STATE_BLANK [] 0 s in
  let r := shell_line fuel (Parse (s ++ 0 :: rest) args) in
  (length T ≤ S MAX_ARGS)%nat ∧
  (T = [] → ∃ p, r = Ok (None, p)) ∧
  ((0 < length T ≤ MAX_ARGS)%nat → ∃ p, r = Ok (Some (length T), p) ∧ all_stored (p_str p) (p_args p) T ∧
     p_args p !! length T = Some Null ∧ p_args p !! S (length T) = Some Null) ∧
  (length T = S MAX_ARGS → r = Undef "write outside of args").
Proof.
  intros Hs Hf Hargs T r. split; [apply (tokens_length MAX_ARGS s STATE_BLANK [] 0); lia|].
  assert (HmN : (MAX_ARGS < length args)%nat) by (rewrite Hargs; lia).
  pose proof (wp_shellParseArgs MAX_ARGS fuel s args Hs Hf HmN) as Hp.
  apply wp_run in Hp as (n & p & Hr & Hn & Hl & L & E & HL & HT). fold T in Hn, HT. rewrite Hargs in Hl.
  assert (Er : r = (if (n =? 0)%nat then mret None else set_arg n Null ;; set_arg (S n) Null ;; mret (Some n)) p)
    by (unfold r, shell_line, mbind at 1, M_bind at 1; by rewrite Hr).
  split; [intros HT0|split].
  - exists p. rewrite Er, Hn, HT0. done.
  - intros Hlen. rewrite Er. rewrite <-Hn in *. rewrite (proj2 (Nat.eqb_neq _ _)) by lia.
    eexists. split; [apply set_arg_twice; lia|]. cbn [p_str p_args]. split_and!.
    + intros i t Hi. pose proof (lookup_lt_Some _ _ _ Hi). eapply stored_args; [|rewrite E; apply stored_more; by apply HT].
      by rewrite !list_lookup_insert_ne by lia.
    + rewrite list_lookup_insert_ne by lia. apply list_lookup_insert_eq. lia.
    + apply list_lookup_insert_eq. rewrite length_insert. lia.
  - intros Hlen. rewrite Er, Hn, Hlen. cbn [Nat.eqb MAX_ARGS]. unfold set_arg, mbind, M_bind, get.
    rewrite Hl. cbn [Nat.ltb Nat.leb Nat.add MAX_ARGS put p_args]. by rewrite length_insert, Hl.
Qed.
End Line.

(** ** Witnesses *)

(** A command with a word in quotes and one with an escaped quote, and a second command. *)
Definition sample_line : list Z :=
  [101; 99; 104; 111; 32; 34; 97; 32; 98; 34; 32; 92; 34; 120; 32; 124; 32; 119; 99; 10].

Definition sample_args : list slot := replicate 32 Unset.

Lemma sample_line_nonzero : nonzero sample_line.
Proof. by repeat constructor. Qed.

Lemma shellParseArgs_tokens_witness :
  ∃ p, shellParseArgs 21 MAX_ARGS (Parse (sample_line ++ 0 :: [7; 8]) sample_args) = Ok (5%nat, p) ∧
    p_args p !! 3%nat = Some Null ∧ drop 21 (p_str p) = [7; 8] ∧
    argv_strings p 0 3 = Some [[101; 99; 104; 111]; [97; 32; 98]; [34; 120]] ∧ argv_strings p 4 1 = Some [[119; 99]].
Proof.
  destruct (shellParseArgs_tokens [7; 8] MAX_ARGS 21 sample_line sample_args sample_line_nonzero) as (p & Hr & _ & Hd & Hn & Hs);
    [apply Nat.ltb_lt; reflexivity|apply Nat.ltb_lt; reflexivity|].
  exists p. split; [exact Hr|]. split; [apply Hn; reflexivity|]. split; [exact Hd|]. split.
  - apply (Hs 0%nat [[101; 99; 104; 111]; [97; 32; 98]; [34; 120]]). intros [|[|[|k]]] w; [intros [= <-]; reflexivity..|done].
  - apply (Hs 4%nat [[119; 99]]). intros [|k] w; [intros [= <-]; reflexivity|done].
Defined.

(** Thirty words and a pipe. *)
Definition long_line : list Z := mjoin (replicate 29 [97; 32]) ++ [97; CH_PIPE].

Lemma shell_line_limits_witness :
  shell_line 61 (Parse (long_line ++ [0]) sample_args) = Undef "write outside of args" ∧
  ∃ p, shell_line 21 (Parse (sample_line ++ [0]) sample_args) = Ok (Some 5%nat, p).
Proof.
  split.
  - refine (proj2 (proj2 (proj2 (shell_line_limits [] 61 long_line sample_args _ _ eq_refl))) _).
    + by repeat constructor.
    + apply Nat.ltb_lt. reflexivity.
    + reflexivity.
  - destruct (shell_line_limits [] 21 sample_line sample_args sample_line_nonzero) as (_ & _ & H & _);
      [apply Nat.ltb_lt; reflexivity|reflexivity|].
    destruct H as (p & Hr & _); [split; apply Nat.leb_le; reflexivity|]. exists p. exact Hr.
Defined.
