(* ===== verification/VConsole.v ===== *)
(** * vconsole.c and main.c of the user mode: the virtual consoles

    Models src/usermode/vconsole.c, the screens of the virtual consoles and how the
    one that is shown is copied to the console of the kernel, and the routing of
    input and output in src/usermode/main.c. Characters are bytes: a char that is
    negative in C is only compared with characters below 128 or masked to 8 bits. *)

From S2P Require Import Prelude Console User Shell.
Open Scope Z_scope.

Definition ESCAPE_COLOR := 1.
Definition ESCAPE_CURSORX := 2.
Definition ESCAPE_CURSORY := 3.
Definition COLOR_BLUE := 1.
Definition CONSOLE_BLANK : Z := MAKE_RAW_CHAR (MAKE_COLOR COLOR_WHITE COLOR_BLACK) CH_SPACE.
Definition NUM_VIRT_CONSOLES : nat := 7.
Definition BUFFER_SIZE := 1024.
Definition CH_TAB := 9.

(** [struct virtConsole]; the cursor and [pid] are 32-bit, [vc_data] 16-bit and
    the last fields 8-bit integers. *)
Record virtConsole := VirtConsole {
  vc_data : list Z;
  vc_cursorX : Z;
  vc_cursorY : Z;
  vc_input : Z;
  vc_output : Z;
  vc_color : Z;
  vc_pid : Z;
  vc_escape : bool;
  vc_escapeCode : Z;
  vc_escapeValue : Z;
}.

Definition set_data (d : list Z) (v : virtConsole) : virtConsole :=
  VirtConsole d (vc_cursorX v) (vc_cursorY v) (vc_input v) (vc_output v) (vc_color v) (vc_pid v)
    (vc_escape v) (vc_escapeCode v) (vc_escapeValue v).
Definition set_vc_cursor (x y : Z) (v : virtConsole) : virtConsole :=
  VirtConsole (vc_data v) x y (vc_input v) (vc_output v) (vc_color v) (vc_pid v)
    (vc_escape v) (vc_escapeCode v) (vc_escapeValue v).
Definition set_ends (i o : Z) (v : virtConsole) : virtConsole :=
  VirtConsole (vc_data v) (vc_cursorX v) (vc_cursorY v) i o (vc_color v) (vc_pid v)
    (vc_escape v) (vc_escapeCode v) (vc_escapeValue v).
Definition set_vc_color (c : Z) (v : virtConsole) : virtConsole :=
  VirtConsole (vc_data v) (vc_cursorX v) (vc_cursorY v) (vc_input v) (vc_output v) c (vc_pid v)
    (vc_escape v) (vc_escapeCode v) (vc_escapeValue v).
Definition set_pid (p : Z) (v : virtConsole) : virtConsole :=
  VirtConsole (vc_data v) (vc_cursorX v) (vc_cursorY v) (vc_input v) (vc_output v) (vc_color v) p
    (vc_escape v) (vc_escapeCode v) (vc_escapeValue v).
Definition set_escape (e : bool) (code value : Z) (v : virtConsole) : virtConsole :=
  VirtConsole (vc_data v) (vc_cursorX v) (vc_cursorY v) (vc_input v) (vc_output v) (vc_color v) (vc_pid v)
    e code value.

(** The array [consoles] (zeroed at the start) and what the process can see. *)
Record tty (w : Type) := Tty { consoles : list virtConsole; world : w }.
Arguments Tty {w} _ _.
Arguments consoles {w} _.
Arguments world {w} _.

Definition zero_console : virtConsole := VirtConsole (replicate 2000 0) 0 0 0 0 0 0 false 0 0.

Section VConsole.
Context {w : Type} `{Sys w}.

Definition with_world {A} (m : M w A) : M (tty w) A := zoom world (λ x t, Tty (consoles t) x) m.

Definition the_console (index : Z) : M (tty w) virtConsole :=
  let* t := get in deref (nthZ (consoles t) index) "consoles: out of the array".

Definition change (index : Z) (f : virtConsole → virtConsole) : M (tty w) unit :=
  let* v := the_console index in
  modify (λ t, Tty (setZ (consoles t) index (f v)) (world t)).

(** Accesses to [consoles[index].data[i]]. *)
Definition get_cell (index i : Z) : M (tty w) Z :=
  let* v := the_console index in deref (nthZ (vc_data v) i) "data: out of the screen".
Definition set_cell (index i c : Z) : M (tty w) unit :=
  let* v := the_console index in
  match nthZ (vc_data v) i with
  | Some _ => change index (set_data (setZ (vc_data v) i (u16 c)))
  | None => undef "data: out of the screen"
  end.

Definition virtConsoleSwitchTo (index : Z) : M (tty w) unit :=
  with_world (User.consoleSetFlags (Z.lor CONFLAGS_HWCURSOR_AUTO CONFLAGS_RAW_MODE)) ;;
  with_world (User.consoleSetCursor 0 0) ;;
  let* v := the_console index in
  with_world (User.consoleWriteRaw (vc_data v)) ;;
  let* v := the_console index in
  with_world (User.consoleSetCursor (vc_cursorX v) (vc_cursorY v)) ;;
  with_world (User.consoleSetHardwareCursor (vc_cursorX v) (vc_cursorY v)) ;;
  with_world (User.consoleSetFlags (Z.lor CONFLAGS_HWCURSOR (Z.lor CONFLAGS_HWCURSOR_AUTO CONFLAGS_RAW_MODE))).

(** [snprintf(text, VGA_WIDTH, "IBN OS - Console %d", (int)index)] into zeroes. *)
Definition header_text (index : Z) : list Z :=
  let s := chars "IBN OS - Console " ++ decimal 10 index in
  s ++ replicate (80 - length s) 0.

Definition virtConsoleInit (index : Z) : M (tty w) unit :=
  assert (index <? Z.of_nat NUM_VIRT_CONSOLES) "index < NUM_VIRT_CONSOLES" ;;
  for_loop 2000 0 (λ i, set_cell index i CONSOLE_BLANK) ;;
  for_loop 80 0 (λ i,
    let* c := deref (nthZ (header_text index) i) "text: out of the array" in
    set_cell index i (MAKE_RAW_CHAR (MAKE_COLOR COLOR_WHITE COLOR_BLUE) (if c =? 0 then CH_SPACE else c))) ;;
  change index (set_vc_cursor 0 1) ;;
  let* input := with_world createPipe in
  let* output := with_world createPipe in
  change index (λ v, set_vc_color (MAKE_COLOR COLOR_WHITE COLOR_BLACK) (set_escape false 0 0 (set_ends input output v))) ;;
  assert (0 <=? input) "consoles[index].input >= 0" ;;
  assert (0 <=? output) "consoles[index].output >= 0".

Definition virtConsoleScrollUp (index : Z) : M (tty w) unit :=
  assert (index <? Z.of_nat NUM_VIRT_CONSOLES) "index < NUM_VIRT_CONSOLES" ;;
  for_loop 23 2 (λ y, for_loop 80 0 (λ x,
    let* c := get_cell index (CHAR_OFFSET x y) in set_cell index (CHAR_OFFSET x (y - 1)) c)) ;;
  for_loop 80 0 (λ x, set_cell index (CHAR_OFFSET x (VGA_HEIGHT - 1)) CONSOLE_BLANK).

Definition set_cursor_both (x y : Z) : M (tty w) unit :=
  with_world (User.consoleSetCursor (u32 x) (u32 y)) ;;
  with_world (User.consoleSetHardwareCursor (u32 x) (u32 y)).

Definition virtConsolePutChar (index chr : Z) (active : bool) : M (tty w) unit :=
  let* v := the_console index in
  let x := i32 (vc_cursorX v) in
  let y := i32 (vc_cursorY v) in
  assert (index <? Z.of_nat NUM_VIRT_CONSOLES) "index < NUM_VIRT_CONSOLES" ;;
  if chr =? CH_DELETE then
    let x := x - 1 in
    let ' (x, y) := if x <? 0 then (VGA_WIDTH - 1, y - 1) else (x, y) in
    let y := if y <? 1 then 1 else y in
    set_cell index (CHAR_OFFSET x y) (MAKE_RAW_CHAR (vc_color v) CH_SPACE) ;;
    when active (virtConsoleSwitchTo index) ;;
    change index (set_vc_cursor (u32 x) (u32 y)) ;;
    when active (set_cursor_both x y)
  else
    let* ' (x, y) :=
      (if negb (chr =? CH_NEWLINE) then
         set_cell index (CHAR_OFFSET x y) (MAKE_RAW_CHAR (vc_color v) chr) ;;
         when active
           (let* c := get_cell index (CHAR_OFFSET x y) in with_world (User.consoleWriteRaw [c]) ;; mret tt) ;;
         mret (x + 1, y)
       else mret (0, y + 1)) in
    let ' (x, y) := if VGA_WIDTH <=? x then (0, y + 1) else (x, y) in
    if VGA_HEIGHT <=? y then
      let y := VGA_HEIGHT - 1 in
      virtConsoleScrollUp index ;;
      change index (set_vc_cursor (u32 x) (u32 y)) ;;
      when active (virtConsoleSwitchTo index)
    else
      change index (set_vc_cursor (u32 x) (u32 y)) ;;
      when active (set_cursor_both x y).

Definition virtConsoleProcessEscape (index : Z) (active : bool) : M (tty w) unit :=
  let* v := the_console index in
  if negb (vc_escape v) then mret tt
  else if vc_escapeCode v =? ESCAPE_COLOR then change index (set_vc_color (vc_escapeValue v))
  else if (vc_escapeCode v =? ESCAPE_CURSORX) || (vc_escapeCode v =? ESCAPE_CURSORY) then
    let posX := if vc_escapeCode v =? ESCAPE_CURSORX then vc_escapeValue v else vc_cursorX v in
    let posY := if vc_escapeCode v =? ESCAPE_CURSORY then vc_escapeValue v + 1 else vc_cursorY v in
    when ((posX <? VGA_WIDTH) && (posY <? VGA_HEIGHT))
      (change index (set_vc_cursor posX posY) ;;
       when active (set_cursor_both posX posY))
  else mret tt.

(** ** main.c *)

(** A character of the output of the processes of console [index]. *)
Definition output_char (index current chr : Z) : M (tty w) unit :=
  let* v := the_console index in
  if negb (vc_escape v) && (chr =? CH_ESCAPE) then change index (set_escape true 0 0)
  else if vc_escape v then
    if vc_escapeCode v =? 0 then change index (λ v, set_escape (vc_escape v) chr (vc_escapeValue v) v)
    else
      change index (λ v, set_escape (vc_escape v) (vc_escapeCode v) chr v) ;;
      virtConsoleProcessEscape index (index =? current) ;;
      change index (λ v, set_escape false (vc_escapeCode v) (vc_escapeValue v) v)
  else virtConsolePutChar index chr (current =? index).

Fixpoint output_chars (index current : Z) (bs : list Z) : M (tty w) unit :=
  match bs with
  | [] => mret tt
  | chr :: bs => output_char index current chr ;; output_chars index current bs
  end.

(** The search for the console whose output [handle] is. *)
Definition find_output (handle : Z) (l : list virtConsole) : option Z :=
  Z.of_nat ∘ fst <$> list_find (λ v, vc_output v = handle) l.

Definition handle_output (handle current : Z) (bs : list Z) : M (tty w) unit :=
  let* t := get in
  match find_output handle (consoles t) with
  | Some index => output_chars index current bs
  | None => mret tt
  end.

(** The characters of the keyboard; the result is [currentConsole]. *)
Fixpoint handle_input (current : Z) (bs : list Z) : M (tty w) Z :=
  match bs with
  | [] => mret current
  | chr :: bs =>
      if chr =? CH_TAB then
        let current := (current + 1) mod Z.of_nat NUM_VIRT_CONSOLES in
        virtConsoleSwitchTo current ;;
        handle_input current bs
      else
        let* v := the_console current in
        with_world (objectWrite (vc_input v) [chr]) ;;
        handle_input current bs
  end.

(** What is done with the bytes read from [handle]. *)
Definition main_dispatch (current handle : Z) (bs : list Z) : M (tty w) Z :=
  if negb (handle =? 0) then handle_output handle current bs ;; mret current
  else handle_input current bs.

(** A round of the loop of [main]. *)
Definition main_round (fuel : nat) (event current : Z) : M (tty w) Z :=
  let* handle := with_world (objectWait event 0) in
  if handle <? 0 then mret current
  else
    let* ' (length, _, bs) := with_world (_read_r fuel handle BUFFER_SIZE) in
    main_dispatch current handle (take (Z.to_nat length) bs).

(** What comes before the loop; a child that has left its shell goes on here as well. *)
Definition spawn_shell (shell : M w unit) (event i : Z) : M (tty w) unit :=
  let* ' (pid, _) := with_world _fork_r in
  change i (set_pid pid) ;;
  assert (0 <=? pid) "consoles[i].pid >= 0" ;;
  when (pid =? 0)
    (let* v := the_console i in
     with_world (dup2 (vc_input v) 0) ;;
     with_world (dup2 (vc_output v) 1) ;;
     with_world shell) ;;
  let* v := the_console i in
  with_world (objectAttach event (vc_output v) 0 (u32 (vc_output v))) ;;
  mret tt.

Definition main_start (shell : M w unit) : M (tty w) Z :=
  let* event := with_world (createEvent true) in
  assert (0 <=? event) "event >= 0" ;;
  for_loop NUM_VIRT_CONSOLES 0 virtConsoleInit ;;
  virtConsoleSwitchTo 0 ;;
  for_loop NUM_VIRT_CONSOLES 0 (spawn_shell shell event) ;;
  with_world (objectAttach event 0 0 0) ;;
  mret event.
End VConsole.
