(* ===== verification/VConsoleProofs.v ===== *)
(** * The virtual consoles show what their programs print

    The reference is a terminal: cells, a position, a color and an escape
    sequence that is under way. Every virtual console is such a terminal for the
    bytes its programs have written so far, in whatever portions and whether it is
    shown or not; and the screen of the kernel (Console.v) shows the current one. *)

From S2P Require Import Prelude Io Console User Shell VConsole.
Open Scope Z_scope.

(** ** The reference *)

(** The screen without the row below the header and with a blank row at the end. *)
Definition scrolled_up (d : list Z) : list Z := take 80 d ++ drop 160 d ++ replicate 80 CONSOLE_BLANK.

Inductive escape := Plain | Code | Value (code : Z).
Record terminal := Terminal { t_cells : list Z; t_pos : Z; t_color : Z; t_escape : escape }.

(** A character that is printed; the cells in front of 80 are the header. *)
Definition feed_char (t : terminal) (chr : Z) : terminal :=
  let '(d, p) :=
    if chr =? CH_DELETE then
      let p := if t_pos t =? 80 then 159 else t_pos t - 1 in (setZ (t_cells t) p (cell (t_color t) CH_SPACE), p)
    else if chr =? CH_NEWLINE then (t_cells t, (t_pos t / 80 + 1) * 80)
    else (setZ (t_cells t) (t_pos t) (cell (t_color t) chr), t_pos t + 1) in
  if p <? 2000 then Terminal d p (t_color t) Plain else Terminal (scrolled_up d) (p - 80) (t_color t) Plain.

(** An escape sequence: the code and a value. *)
Definition apply_escape (t : terminal) (code value : Z) : terminal :=
  if code =? ESCAPE_COLOR then Terminal (t_cells t) (t_pos t) value Plain
  else if (code =? ESCAPE_CURSORX) && (value <? 80) then Terminal (t_cells t) (t_pos t / 80 * 80 + value) (t_color t) Plain
  else if (code =? ESCAPE_CURSORY) && (value <? 24) then
    Terminal (t_cells t) ((value + 1) * 80 + t_pos t mod 80) (t_color t) Plain
  else Terminal (t_cells t) (t_pos t) (t_color t) Plain.

Definition feed (t : terminal) (chr : Z) : terminal :=
  match t_escape t with
  | Plain => if chr =? CH_ESCAPE then Terminal (t_cells t) (t_pos t) (t_color t) Code else feed_char t chr
  | Code => Terminal (t_cells t) (t_pos t) (t_color t) (if chr =? 0 then Code else Value chr)
  | Value code => apply_escape t code chr
  end.

(** The terminal a virtual console is. *)
Definition escape_of (v : virtConsole) : escape :=
  if vc_escape v then if vc_escapeCode v =? 0 then Code else Value (vc_escapeCode v) else Plain.
Definition terminal_of (v : virtConsole) : terminal :=
  Terminal (vc_data v) (CHAR_OFFSET (vc_cursorX v) (vc_cursorY v)) (vc_color v) (escape_of v).

(** All terminals, the one that is shown, and what has been typed: the bytes written
    to the inputs of the consoles. [ins] and [outs] are their handles. *)
Record desk := Desk { d_terminals : list terminal; d_current : Z; d_sent : list (Z * list Z) }.

Definition type_char (ins : list Z) (d : desk) (chr : Z) : desk :=
  if chr =? CH_TAB then Desk (d_terminals d) ((d_current d + 1) mod 7) (d_sent d)
  else Desk (d_terminals d) (d_current d) (d_sent d ++ [(default 0 (nthZ ins (d_current d)), [chr])]).

(** The terminal whose output [handle] is gets its bytes. *)
Definition feed_output (outs : list Z) (handle : Z) (bs : list Z) (d : desk) : desk :=
  match list_find (.= handle) outs with
  | Some (i, _) => Desk (alter (λ T, foldl feed T bs) i (d_terminals d)) (d_current d) (d_sent d)
  | None => d
  end.

Definition desk_event (ins outs : list Z) (d : desk) (e : Z * list Z) : desk :=
  if e.1 =? 0 then foldl (type_char ins) d e.2 else feed_output outs e.1 e.2 d.

(** ** The console of the kernel in raw mode *)

Definition console_pos (c : console) : Z := CHAR_OFFSET (cursorX c) (cursorY c).

Lemma wp_putraw_cell chr c Q :
  console_ok c → is_u16 chr → flag c CONFLAGS_RAW_MODE = true →
  (∀ c', videoTextMemory c' = setZ (videoTextMemory c) (console_pos c) chr →
         console_pos c' = (console_pos c + 1) mod 2000 → same_mode c c' → console_ok c' → Q tt c') →
  wp (consolePutCharRaw chr) c Q.
Proof.
  intros Hok Hchr Hraw HQ. pose proof (console_ok_offset c Hok) as Ho. pose proof Hok as ((Hl & Hu & Hc) & Hx & Hy).
  unfold consolePutCharRaw. wp_steps. apply wp_poke; [rewrite Hl; lia|]. wp_steps.
  set (c1 := set_text _ _).
  assert (u8 (cursorX c1 + 1) = cursorX c + 1) as ->.
  { apply u8_small. unfold is_u8, VGA_WIDTH in *. simpl. lia. }
  assert (u16 chr = chr) as Eu by (unfold u16; ulia).
  apply wp_advance; [|simpl; lia|done|].
  { split_and!; simpl; [by rewrite length_setZ| |done].
    unfold setZ. case_match; [done|]. apply Forall_insert; [done|]. by rewrite Eu. }
  intros c' Hs Hm Hok'. change (flag (set_cursor _ _ c1) CONFLAGS_RAW_MODE) with (flag c CONFLAGS_RAW_MODE) in Hs.
  rewrite Hraw in Hs. unfold screen, term_advance in Hs. rewrite andb_false_r in Hs. simpl in Hs. rewrite Eu in Hs.
  apply HQ; [|unfold console_pos|done|done].
  - destruct (VGA_WIDTH <=? cursorX c + 1), (VGA_HEIGHT <=? _); by injection Hs.
  - unfold CHAR_OFFSET, VGA_WIDTH, VGA_HEIGHT in *.
    destruct (Z.leb_spec 80 (cursorX c + 1)).
    + destruct (Z.leb_spec 25 (cursorY c + 1)); injection Hs as _ -> ->.
      * replace (cursorY c * 80 + cursorX c + 1) with 2000 by lia. done.
      * rewrite Z.mod_small; lia.
    + destruct (Z.leb_spec 25 (cursorY c)); [lia|]. injection Hs as _ -> ->. rewrite Z.mod_small; lia.
Qed.

(** Writing cells from the position on, to the end of the screen at most. *)
Lemma wp_write_raw bs : ∀ c p, console_ok c → Forall is_u16 bs → flag c CONFLAGS_RAW_MODE = true →
  console_pos c = p mod 2000 → 0 ≤ p → p + lenZ bs ≤ 2000 →
  wp (consoleWriteRawLen bs (length bs)) c (λ _ c',
    videoTextMemory c' = take (Z.to_nat p) (videoTextMemory c) ++ bs ++ drop (Z.to_nat p + length bs) (videoTextMemory c) ∧
    console_pos c' = (p + lenZ bs) mod 2000 ∧ same_mode c c' ∧ console_ok c').
Proof.
  induction bs as [|b bs IH]; intros c p Hok Hbs Hraw Hp Hp0 Hlen.
  { cbn [length consoleWriteRawLen]. wp_step. rewrite Nat.add_0_r. simpl. rewrite take_drop, Z.add_0_r. done. }
  apply Forall_cons in Hbs as [Hb Hbs]. cbn [length consoleWriteRawLen]. simpl in Hlen.
  wp_step. apply wp_putraw_cell; [done|done|done|]. intros c1 Ht Hp1 [Hcol Hfl] Hok1.
  rewrite (Z.mod_small p) in Hp by lia. rewrite Hp in Ht, Hp1. pose proof Hok as ((Hl & _) & _).
  eapply wp_mono; [apply (IH c1 (p + 1)); [done|done|by unfold flag in *; rewrite Hfl|done|lia|simpl; lia]|].
  intros [] c' (Ht' & Hp' & [Hcol' Hfl'] & Hok'). split_and!; [|rewrite Hp'; f_equal; simpl; lia|split; congruence|done].
  rewrite Ht', Ht. unfold setZ. destruct (Z.ltb_spec p 0); [lia|].
  replace (Z.to_nat (p + 1)) with (S (Z.to_nat p)) by lia.
  assert (length (take (Z.to_nat p) (videoTextMemory c)) = Z.to_nat p) as Ht1 by (rewrite length_take; lia).
  rewrite insert_take_drop by lia. rewrite take_app_ge, drop_app_ge by lia. rewrite Ht1.
  replace (S (Z.to_nat p) - Z.to_nat p)%nat with 1%nat by lia.
  replace (S (Z.to_nat p) + length bs - Z.to_nat p)%nat with (S (length bs)) by lia.
  cbn [take drop length]. rewrite drop_drop, <-app_assoc. simpl. do 4 f_equal. lia.
Qed.

Lemma wp_write_screen bs c : console_ok c → Forall is_u16 bs → flag c CONFLAGS_RAW_MODE = true →
  console_pos c = 0 → length bs = 2000%nat →
  wp (consoleWriteRawLen bs (length bs)) c (λ _ c', videoTextMemory c' = bs ∧ same_mode c c' ∧ console_ok c').
Proof.
  intros Hok Hbs Hraw Hp Hlen. pose proof Hok as ((Hl & _) & _).
  eapply wp_mono; [apply (wp_write_raw bs c 0); try done; lia|]. intros [] c' (Ht & _ & Hm & Hok'). split; [|done].
  rewrite Ht, take_0, drop_ge by lia. by rewrite app_nil_r.
Qed.

(** ** The interface to the kernel

    The calls for the console are those of Console.v on a part of what the process
    can see, and [sent] is what has been written to other objects. *)
Class KernelConsole (w : Type) `{Sys w} := {
  con : w → console;
  set_con : console → w → w;
  sent : w → list (Z * list Z);
  con_set c s : con (set_con c s) = c;
  sent_set c s : sent (set_con c s) = sent s;
  kc_flags f : User.consoleSetFlags f = zoom con set_con (Console.consoleSetFlags f);
  kc_cursor x y : User.consoleSetCursor x y = zoom con set_con (consoleSetCursorPos x y ;; mret tt);
  kc_hardware x y : User.consoleSetHardwareCursor x y = zoom con set_con (Console.consoleSetHardwareCursor x y);
  kc_raw bs : User.consoleWriteRaw bs = zoom con set_con (consoleWriteRawLen bs (length bs) ;; mret (lenZ bs));
  kc_write h bs s : ∃ r s', objectWrite h bs s = Ok (r, s') ∧ con s' = con s ∧ sent s' = sent s ++ [(h, bs)];
}.

Definition is_char (c : Z) : Prop := is_u8 c.

(** A virtual console: its cursor stays below the header. *)
Record vc_ok (v : virtConsole) : Prop := {
  ok_length : length (vc_data v) = 2000%nat;
  ok_cells : Forall is_u16 (vc_data v);
  ok_x : 0 ≤ vc_cursorX v < VGA_WIDTH;
  ok_y : 1 ≤ vc_cursorY v < VGA_HEIGHT;
  ok_color : is_u8 (vc_color v);
}.

(** The screen shows a virtual console, and both cursors are at its cursor. *)
Record shows (v : virtConsole) (c : console) : Prop := {
  sh_ok : console_ok c;
  sh_flags : consoleFlags c = 14;
  sh_cells : videoTextMemory c = vc_data v;
  sh_x : cursorX c = vc_cursorX v ∧ cursorHardwareX c = vc_cursorX v;
  sh_y : cursorY c = vc_cursorY v ∧ cursorHardwareY c = vc_cursorY v;
}.

(** The cells are shown, whatever the cursors. *)
Definition drawn (v : virtConsole) (c : console) : Prop :=
  console_ok c ∧ consoleFlags c = 14 ∧ videoTextMemory c = vc_data v.

Lemma shows_drawn v c : shows v c → drawn v c.
Proof. by intros []. Qed.

Section Tty.
Context {w : Type} `{KernelConsole w}.
Implicit Types t : tty w.

Definition kcon t : console := con (world t).
Definition ksent t : list (Z * list Z) := sent (world t).

(** The console of the kernel is the only thing that changes. *)
Definition on_screen t (c : console) : tty w := Tty (consoles t) (set_con c (world t)).

Lemma kcon_on t c : kcon (on_screen t c) = c.
Proof. apply con_set. Qed.

Lemma wp_screen {A} (m : M console A) t Q :
  wp m (kcon t) (λ a c, Q a (on_screen t c)) → wp (with_world (zoom con set_con m)) t Q.
Proof. intros Hm. apply wp_zoom, wp_zoom. exact Hm. Qed.

Lemma wp_flags f t Q : (∀ p, Q tt (on_screen t (set_io p (set_flags f (kcon t))))) →
  wp (with_world (User.consoleSetFlags f)) t Q.
Proof. intros HQ. rewrite kc_flags. apply wp_screen. unfold Console.consoleSetFlags. wp_steps. by apply io_only_show. Qed.

Lemma wp_cursor x y t Q : 0 ≤ x < VGA_WIDTH → 0 ≤ y < VGA_HEIGHT → Q tt (on_screen t (set_cursor x y (kcon t))) →
  wp (with_world (User.consoleSetCursor x y)) t Q.
Proof.
  intros Hx Hy HQ. rewrite kc_cursor. apply wp_screen. wp_step. unfold consoleSetCursorPos, VGA_WIDTH, VGA_HEIGHT in *.
  rewrite !u8_small by (unfold is_u8; lia). rewrite (proj2 (Z.leb_gt _ _)), (proj2 (Z.leb_gt _ _)) by lia. simpl. by wp_steps.
Qed.

Lemma wp_hardware x y t Q : 0 ≤ x < VGA_WIDTH → 0 ≤ y < VGA_HEIGHT →
  (∀ p, Q tt (on_screen t (set_io p (set_hwcursor x y (kcon t))))) →
  wp (with_world (User.consoleSetHardwareCursor x y)) t Q.
Proof.
  intros Hx Hy HQ. rewrite kc_hardware. apply wp_screen, wp_set_hw. unfold VGA_WIDTH, VGA_HEIGHT in *.
  rewrite !u8_small by (unfold is_u8; lia). exact HQ.
Qed.

Lemma wp_the_console index v t Q : nthZ (consoles t) index = Some v → Q v t → wp (the_console index) t Q.
Proof. intros Hv HQ. unfold the_console. wp_step. wp_step. by eapply wp_deref. Qed.

Lemma wp_change index f v t Q : nthZ (consoles t) index = Some v →
  Q tt (Tty (setZ (consoles t) index (f v)) (world t)) → wp (change index f) t Q.
Proof. intros Hv HQ. unfold change. wp_step. eapply wp_the_console; [done|]. by wp_step. Qed.

(** *** Showing a console *)

Lemma wp_SwitchTo index v t Q : nthZ (consoles t) index = Some v → vc_ok v → console_ok (kcon t) →
  (∀ t', consoles t' = consoles t → ksent t' = ksent t → shows v (kcon t') → Q tt t') →
  wp (virtConsoleSwitchTo index) t Q.
Proof.
  intros Hv [Hl Hd Hx Hy _] Hok HQ. unfold virtConsoleSwitchTo. unfold VGA_WIDTH, VGA_HEIGHT in *.
  wp_step. apply wp_flags. intros p1. wp_step. apply wp_cursor; [done|done|].
  wp_step. eapply wp_the_console; [exact Hv|]. wp_step. rewrite kc_raw. apply wp_screen. wp_step.
  rewrite !kcon_on. eapply wp_mono; [apply wp_write_screen; try done; by destruct Hok as (? & _)|].
  intros [] c2 (Ht & [Hc2 Hf2] & Hok2). wp_step. wp_step. eapply wp_the_console; [exact Hv|].
  wp_step. apply wp_cursor; [done|unfold VGA_HEIGHT; lia|]. wp_step. apply wp_hardware; [done|unfold VGA_HEIGHT; lia|]. intros p3. apply wp_flags. intros p4.
  rewrite !kcon_on. apply HQ; [done|unfold ksent; simpl; by rewrite !sent_set|]. rewrite kcon_on.
  constructor; try done. destruct Hok2 as ((? & ? & ?) & _). split; [done|]. simpl. unfold VGA_HEIGHT, VGA_WIDTH. lia.
Qed.

Lemma wp_cursor_both v x y t Q : 0 ≤ x < VGA_WIDTH → 1 ≤ y < VGA_HEIGHT → drawn v (kcon t) → vc_cursorX v = x → vc_cursorY v = y →
  (∀ t', consoles t' = consoles t → ksent t' = ksent t → shows v (kcon t') → Q tt t') →
  wp (set_cursor_both x y) t Q.
Proof.
  intros Hx Hy (Hok & Hf & Hc) Ex Ey HQ. unfold set_cursor_both, VGA_WIDTH, VGA_HEIGHT in *.
  rewrite !u32_small by (unfold is_u32; lia). wp_step. apply wp_cursor; [done|unfold VGA_HEIGHT; lia|].
  apply wp_hardware; [done|unfold VGA_HEIGHT; lia|]. intros p. rewrite kcon_on.
  apply HQ; [done|unfold ksent; simpl; by rewrite !sent_set|]. rewrite kcon_on.
  constructor; try done. destruct Hok as (? & _). split; [done|]. simpl. unfold VGA_HEIGHT, VGA_WIDTH. lia.
Qed.

(** *** The cells of a console *)

(** Console [index] is [v], the rest is as in [t]. *)
Definition with_vc t (index : Z) (v : virtConsole) : tty w := Tty (setZ (consoles t) index v) (world t).

Lemma with_vc_twice t index v v' : with_vc (with_vc t index v) index v' = with_vc t index v'.
Proof. unfold with_vc, setZ. simpl. case_match; [done|]. by rewrite list_insert_insert_eq. Qed.

Lemma with_vc_same t index v : nthZ (consoles t) index = Some v → with_vc t index v = t.
Proof. intros Hv. unfold with_vc, setZ, nthZ in *. destruct t as [cs wo]. simpl in *. case_match; [done|]. by rewrite list_insert_id. Qed.

Lemma with_vc_lookup t index v v' : nthZ (consoles t) index = Some v → nthZ (consoles (with_vc t index v')) index = Some v'.
Proof. intros Hv. apply nthZ_setZ_eq. by eapply nthZ_Some_lt. Qed.

Section Cells.
Context (t : tty w) (index : Z) (v : virtConsole).
Hypothesis Hv : nthZ (consoles t) index = Some v.

Lemma wp_get_cell d i c Q : nthZ d i = Some c → Q c (with_vc t index (set_data d v)) →
  wp (get_cell index i) (with_vc t index (set_data d v)) Q.
Proof. intros Hi HQ. unfold get_cell. wp_step. eapply wp_the_console; [by eapply with_vc_lookup|]. by eapply wp_deref. Qed.

Lemma wp_set_cell d i c Q : 0 ≤ i < lenZ d → is_u16 c → Q tt (with_vc t index (set_data (setZ d i c) v)) →
  wp (set_cell index i c) (with_vc t index (set_data d v)) Q.
Proof.
  intros Hi Hc HQ. unfold set_cell. wp_step. eapply wp_the_console; [by eapply with_vc_lookup|].
  destruct (nthZ_is_Some d i Hi) as [x Hx]. simpl. rewrite Hx. eapply wp_change; [by eapply with_vc_lookup|].
  replace (u16 c) with c by (unfold u16; ulia). change (Tty _ _) with (with_vc (with_vc t index (set_data d v)) index (set_data (setZ d i c) v)).
  by rewrite with_vc_twice.
Qed.

(** The rows below the header move up; [k] cells are done. *)
Definition vc_moved (k : Z) (t' : tty w) : Prop :=
  ∃ d, t' = with_vc t index (set_data d v) ∧ length d = 2000%nat ∧
    ∀ i, 0 ≤ i < 2000 → nthZ d i = nthZ (vc_data v) (if (80 <=? i) && (i <? 80 + k) then i + 80 else i).

Lemma vc_moved_step k t' : vc_ok v → 0 ≤ k < 1840 → vc_moved k t' →
  wp (let* c := get_cell index (k + 160) in set_cell index (k + 80) c) t' (λ _ t', vc_moved (k + 1) t').
Proof.
  intros [Hl Hd _ _ _] Hk (d & -> & Hld & Hi). destruct (nthZ_is_Some d (k + 160)) as [c Hc]; [lia|].
  assert (Hc' := Hc). rewrite Hi in Hc' by lia.
  destruct (Z.ltb_spec (k + 160) (80 + k)); [lia|]. rewrite andb_false_r in Hc'.
  assert (is_u16 c) as Hcu.
  { unfold nthZ in Hc'. case_match; [done|]. by eapply Forall_lookup_1 in Hd. }
  wp_step. eapply wp_get_cell; [exact Hc|]. apply wp_set_cell; [lia|done|].
  eexists. split; [done|]. rewrite length_setZ. split; [done|]. intros i Hi2.
  destruct (decide (i = k + 80)) as [->|Hne].
  - rewrite nthZ_setZ_eq by lia. destruct (Z.leb_spec 80 (k + 80)), (Z.ltb_spec (k + 80) (80 + (k + 1))); try lia. simpl.
    by replace (k + 80 + 80) with (k + 160) by lia.
  - rewrite nthZ_setZ_ne, Hi by done. f_equal. destruct (Z.leb_spec 80 i), (Z.ltb_spec i (80 + k)), (Z.ltb_spec i (80 + (k + 1))); simpl; lia.
Qed.

Definition vc_blanked (k : Z) (t' : tty w) : Prop :=
  ∃ d, t' = with_vc t index (set_data d v) ∧ length d = 2000%nat ∧
    ∀ i, 0 ≤ i < 2000 → nthZ d i = if i <? 80 then nthZ (vc_data v) i else if i <? 1920 then nthZ (vc_data v) (i + 80)
      else if i <? 1920 + k then Some CONSOLE_BLANK else nthZ (vc_data v) i.

Lemma vc_blanked_step k t' : 0 ≤ k < 80 → vc_blanked k t' →
  wp (set_cell index (1920 + k) CONSOLE_BLANK) t' (λ _ t', vc_blanked (k + 1) t').
Proof.
  intros Hk (d & -> & Hld & Hi). apply wp_set_cell; [lia|done|]. eexists. split; [done|]. rewrite length_setZ.
  split; [done|]. intros i Hi2. destruct (decide (i = 1920 + k)) as [->|Hne].
  - rewrite nthZ_setZ_eq by lia. destruct (Z.ltb_spec (1920 + k) 80), (Z.ltb_spec (1920 + k) 1920), (Z.ltb_spec (1920 + k) (1920 + (k + 1))); lia || done.
  - rewrite nthZ_setZ_ne, Hi by done.
    destruct (Z.ltb_spec i 80), (Z.ltb_spec i 1920), (Z.ltb_spec i (1920 + k)), (Z.ltb_spec i (1920 + (k + 1))); lia || done.
Qed.
End Cells.

Lemma nthZ_scrolled_up d i : length d = 2000%nat → 0 ≤ i < 2000 →
  nthZ (scrolled_up d) i = if i <? 80 then nthZ d i else if i <? 1920 then nthZ d (i + 80) else Some CONSOLE_BLANK.
Proof.
  intros Hl Hi. unfold scrolled_up. assert (length (take 80 d) = 80%nat) by (rewrite length_take; lia).
  assert (length (drop 160 d) = 1840%nat) by (rewrite length_drop; lia).
  destruct (Z.ltb_spec i 80); [rewrite nthZ_app_l by lia; by rewrite nthZ_take by lia|].
  rewrite nthZ_app_r by lia. destruct (Z.ltb_spec i 1920).
  - rewrite nthZ_app_l by lia. rewrite nthZ_drop by lia. f_equal. lia.
  - rewrite nthZ_app_r by lia. apply nthZ_replicate. lia.
Qed.

Lemma wp_ScrollUp index v t Q : nthZ (consoles t) index = Some v → vc_ok v → index < Z.of_nat NUM_VIRT_CONSOLES →
  Q tt (with_vc t index (set_data (scrolled_up (vc_data v)) v)) → wp (virtConsoleScrollUp index) t Q.
Proof.
  intros Hv Hok Hindex HQ. pose proof Hok as [Hl _ _ _ _]. unfold virtConsoleScrollUp. wp_step.
  apply wp_assert; [by apply Z.ltb_lt|]. wp_step.
  apply (wp_for_loop (λ y t', vc_moved t index v ((y - 2) * 80) t')).
  { exists (vc_data v). split; [by destruct v; rewrite with_vc_same|]. split; [done|]. intros i Hi.
    f_equal. destruct (Z.leb_spec 80 i), (Z.ltb_spec i (80 + (2 - 2) * 80)); simpl; lia. }
  { intros y t1 Hy Hm. apply (wp_for_loop (λ x t', vc_moved t index v ((y - 2) * 80 + x) t')).
    - by rewrite Z.add_0_r.
    - intros x t2 Hx Hm2. unfold CHAR_OFFSET, VGA_WIDTH.
      replace (y * 80 + x) with ((y - 2) * 80 + x + 160) by lia.
      replace ((y - 1) * 80 + x) with ((y - 2) * 80 + x + 80) by lia. rewrite Z.add_assoc.
      apply vc_moved_step; [done|done|lia|done].
    - intros t2. by replace ((y - 2) * 80 + (0 + Z.of_nat 80)) with ((y + 1 - 2) * 80) by lia. }
  intros t1 (d & -> & Hld & Hi). apply (wp_for_loop (λ k t', vc_blanked t index v k t')).
  { exists d. split; [done|]. split; [done|]. intros i Hi2. rewrite Hi by done.
    destruct (Z.leb_spec 80 i), (Z.ltb_spec i (80 + (2 + Z.of_nat 23 - 2) * 80)), (Z.ltb_spec i 80), (Z.ltb_spec i 1920), (Z.ltb_spec i (1920 + 0)); simpl; lia || done. }
  { intros k t2 Hk Hb. unfold CHAR_OFFSET, VGA_HEIGHT, VGA_WIDTH. by apply vc_blanked_step. }
  intros t2 (d2 & -> & Hl2 & Hi2).
  replace (scrolled_up (vc_data v)) with d2 in HQ; [done|]. apply nthZ_ext.
  - unfold scrolled_up. rewrite !length_app, length_take, length_drop, length_replicate. lia.
  - intros i Hi3. rewrite Hi2, nthZ_scrolled_up by (done || lia).
    destruct (Z.ltb_spec i (1920 + (0 + Z.of_nat 80))); [done|lia].
Qed.

(** *** A character *)

(** Console [index] has become [v'], and the screen follows it if it is shown. *)
Definition became t (index : Z) (active : bool) (v : virtConsole) (T : terminal) t' : Prop :=
  ∃ v', consoles t' = setZ (consoles t) index v' ∧ ksent t' = ksent t ∧ vc_ok v' ∧ terminal_of v' = T ∧
    vc_input v' = vc_input v ∧ vc_output v' = vc_output v ∧
    if active then shows v' (kcon t') else world t' = world t.

Lemma raw_cell color chr : is_u8 color → is_u8 chr → MAKE_RAW_CHAR color chr = cell color chr.
Proof.
  intros Hc Hh. unfold MAKE_RAW_CHAR. rewrite (u32_small chr), (u32_small color) by (unfold is_u8, is_u32 in *; lia).
  pose proof (land_low color 8 255 ltac:(lia) eq_refl) as E1. rewrite E1.
  replace (color mod 2 ^ 8) with color by (unfold is_u8 in *; rewrite Z.mod_small; lia).
  rewrite <-cell_lor by done. unfold u16. rewrite Z.mod_small; [done|].
  pose proof (cell_u16 color chr Hc) as Hu. pose proof (land_low chr 8 255 ltac:(lia) eq_refl) as E.
  rewrite Z.lor_comm, lor_shiftl_low by (try rewrite E; unfold is_u8 in *; lia || ulia). rewrite E. unfold is_u8 in *. ulia.
Qed.

Lemma shows_as v v' c : shows v c → vc_data v' = vc_data v → vc_cursorX v' = vc_cursorX v → vc_cursorY v' = vc_cursorY v → shows v' c.
Proof. intros [] Hd Hx Hy. constructor; by rewrite ?Hd, ?Hx, ?Hy. Qed.

(** A change of a console that leaves its cells and its cursor alone. *)
Lemma wp_change_state index f v t active Q : nthZ (consoles t) index = Some v → vc_ok v → (active = true → shows v (kcon t)) →
  vc_data (f v) = vc_data v → vc_cursorX (f v) = vc_cursorX v → vc_cursorY (f v) = vc_cursorY v → is_u8 (vc_color (f v)) →
  vc_input (f v) = vc_input v → vc_output (f v) = vc_output v →
  (∀ t', became t index active v (terminal_of (f v)) t' → Q tt t') → wp (change index f) t Q.
Proof.
  intros Hv [] Hs Hd Hx Hy Hc Hin Hout HQ. eapply wp_change; [exact Hv|]. apply HQ. exists (f v). split; [done|]. split; [done|].
  split; [constructor; by rewrite ?Hd, ?Hx, ?Hy|]. split_and!; try done. destruct active; [|done]. eapply shows_as; [by apply Hs|done..].
Qed.

(** The cursor is moved. *)
Lemma wp_move_cursor index v t active x y Q : nthZ (consoles t) index = Some v → vc_ok v → (active = true → drawn v (kcon t)) →
  0 ≤ x < VGA_WIDTH → 1 ≤ y < VGA_HEIGHT →
  (∀ t', became t index active v (Terminal (vc_data v) (CHAR_OFFSET x y) (vc_color v) (escape_of v)) t' → Q tt t') →
  wp (change index (set_vc_cursor x y) ;; when active (set_cursor_both x y)) t Q.
Proof.
  intros Hv [] Hs Hx Hy HQ. wp_step. eapply wp_change; [exact Hv|].
  assert (vc_ok (set_vc_cursor x y v)) as Hok' by by constructor.
  apply wp_when; intros Ha.
  - eapply (wp_cursor_both (set_vc_cursor x y v)); try done; [by apply Hs|].
    intros t' Hc Hsent Hsh. apply HQ. exists (set_vc_cursor x y v). rewrite Ha. split_and!; try done.
  - apply HQ. exists (set_vc_cursor x y v). rewrite Ha. split_and!; try done.
Qed.

(** In between, console [index] is [v1] and its cells are shown if it is. *)
Definition between t (index : Z) (active : bool) (v1 : virtConsole) t1 : Prop :=
  consoles t1 = setZ (consoles t) index v1 ∧ ksent t1 = ksent t ∧ if active then drawn v1 (kcon t1) else world t1 = world t.

Lemma setZ_setZ {A} (l : list A) i x y : setZ (setZ l i x) i y = setZ l i y.
Proof. unfold setZ. case_match; [done|]. by rewrite list_insert_insert_eq. Qed.

Lemma became_trans t index active v v1 T t1 t' : consoles t1 = setZ (consoles t) index v1 → ksent t1 = ksent t →
  (active = false → world t1 = world t) → vc_input v1 = vc_input v → vc_output v1 = vc_output v →
  became t1 index active v1 T t' → became t index active v T t'.
Proof.
  intros Hc Hs Hw Hin Hout (v' & Hc' & Hs' & Hok & HT & Hin' & Hout' & Hw'). exists v'.
  split; [by rewrite Hc', Hc, setZ_setZ|]. split_and!; [congruence..|]. destruct active; [done|]. rewrite <-Hw by done. congruence.
Qed.

Lemma became_between t index active v v1 T t1 t' : between t index active v1 t1 → vc_input v1 = vc_input v → vc_output v1 = vc_output v →
  became t1 index active v1 T t' → became t index active v T t'.
Proof. intros (Hc & Hs & Hw) Hin Hout. apply became_trans; try done. by intros ->. Qed.

Lemma set_data_same v : set_data (vc_data v) v = v.
Proof. by destruct v. Qed.

Lemma wp_set_cell_here index v t i c Q : nthZ (consoles t) index = Some v → vc_ok v → 0 ≤ i < 2000 → is_u16 c →
  Q tt (with_vc t index (set_data (setZ (vc_data v) i c) v)) → wp (set_cell index i c) t Q.
Proof.
  intros Hv [Hl _ _ _ _] Hi Hc HQ. rewrite <-(with_vc_same t index v Hv), <-(set_data_same v) at 1.
  eapply wp_set_cell; [done|lia|done|exact HQ].
Qed.

Lemma vc_ok_data v d : vc_ok v → length d = 2000%nat → Forall is_u16 d → vc_ok (set_data d v).
Proof. by intros []; constructor. Qed.

Lemma cell_ok v i c : vc_ok v → is_u16 c → vc_ok (set_data (setZ (vc_data v) i c) v).
Proof.
  intros Hok Hc. pose proof Hok as []. apply vc_ok_data; [done|by rewrite length_setZ|].
  unfold setZ. case_match; [done|]. by apply Forall_insert.
Qed.

(** Drawing one cell. *)
Lemma wp_draw_cell {A} (k : M (tty w) A) index v t active chr Q : nthZ (consoles t) index = Some v → vc_ok v → (active = true → shows v (kcon t)) → is_u16 chr →
  let p := CHAR_OFFSET (vc_cursorX v) (vc_cursorY v) in
  (∀ t', between t index active (set_data (setZ (vc_data v) p chr) v) t' → wp k t' Q) →
  wp (set_cell index p chr ;;
      when active (let* c := get_cell index p in with_world (User.consoleWriteRaw [c]) ;; mret tt) ;; k) t Q.
Proof.
  intros Hv Hok Hs Hchr p HQ. pose proof Hok as [Hl Hd Hx Hy _].
  assert (0 ≤ p < 2000) as Hp by (unfold p, CHAR_OFFSET, VGA_WIDTH, VGA_HEIGHT in *; lia).
  wp_step. eapply wp_set_cell_here; [done|done|done|done|].
  wp_step. apply wp_when; intros Ha; [|apply HQ; rewrite Ha; split_and!; done].
  wp_step. eapply wp_get_cell; [done|apply nthZ_setZ_eq; lia|]. wp_step. rewrite kc_raw. apply wp_screen.
  change (kcon (with_vc _ _ _)) with (kcon t). destruct (Hs Ha) as [Hcok Hf Hc [Hcx _] [Hcy _]]. cbn [length consoleWriteRawLen]. wp_step. wp_step.
  apply wp_putraw_cell; [done|done|unfold flag; by rewrite Hf|]. intros c' Ht' _ [_ Hf'] Hok'. wp_step. wp_step. wp_step.
  apply HQ. rewrite Ha. split; [done|]. split; [unfold ksent; simpl; by rewrite sent_set|]. rewrite kcon_on.
  split; [done|]. split; [by rewrite Hf'|]. rewrite Ht'. unfold console_pos. rewrite Hcx, Hcy. by rewrite Hc.
Qed.

Lemma cell_pos x y : 0 ≤ x < 80 → CHAR_OFFSET x y / 80 = y ∧ CHAR_OFFSET x y mod 80 = x.
Proof. intros Hx. unfold CHAR_OFFSET, VGA_WIDTH. split; [rewrite Z.div_add_l, Z.div_small by lia; lia|]. rewrite Z.add_comm, Z.mod_add by lia. by apply Z.mod_small. Qed.

(** The end of a character that advances the cursor. *)
Lemma wp_put_end index v t active x y Q : nthZ (consoles t) index = Some v → vc_ok v → (active = true → drawn v (kcon t)) →
  index < Z.of_nat NUM_VIRT_CONSOLES → 0 ≤ x < VGA_WIDTH → 1 ≤ y ≤ VGA_HEIGHT → vc_escape v = false →
  let p := CHAR_OFFSET x y in
  (∀ t', became t index active v
     (if p <? 2000 then Terminal (vc_data v) p (vc_color v) Plain
      else Terminal (scrolled_up (vc_data v)) (p - 80) (vc_color v) Plain) t' → Q tt t') →
  wp (if VGA_HEIGHT <=? y then
        virtConsoleScrollUp index ;;
        change index (set_vc_cursor (u32 x) (u32 (VGA_HEIGHT - 1))) ;;
        when active (virtConsoleSwitchTo index)
      else
        change index (set_vc_cursor (u32 x) (u32 y)) ;;
        when active (set_cursor_both x y)) t Q.
Proof.
  intros Hv Hok Hs Hindex Hx Hy He p HQ. unfold VGA_WIDTH, VGA_HEIGHT in *. pose proof Hok as [Hl Hd _ _ Hc].
  rewrite (u32_small x) by (unfold is_u32; lia). destruct (Z.leb_spec 25 y).
  - replace (p <? 2000) with false in HQ by (symmetry; apply Z.ltb_ge; unfold p, CHAR_OFFSET, VGA_WIDTH; lia).
    set (v1 := set_vc_cursor x 24 (set_data (scrolled_up (vc_data v)) v)).
    assert (vc_ok v1) as Hok1.
    { constructor; simpl; try done; unfold scrolled_up, VGA_WIDTH, VGA_HEIGHT; [|apply Forall_app; split; [by apply Forall_take|apply Forall_app; split; [by apply Forall_drop|by apply Forall_replicate]]].
      rewrite !length_app, length_take, length_drop, length_replicate. lia. }
    assert (terminal_of v1 = Terminal (scrolled_up (vc_data v)) (p - 80) (vc_color v) Plain) as HT.
    { unfold terminal_of, escape_of, v1, p, CHAR_OFFSET, VGA_WIDTH. simpl. rewrite He. f_equal. lia. }
    wp_step. eapply wp_ScrollUp; [done|done|done|]. wp_step. eapply wp_change; [by eapply with_vc_lookup|].
    change (Tty _ _) with (with_vc (with_vc t index (set_data (scrolled_up (vc_data v)) v)) index v1). rewrite with_vc_twice.
    apply wp_when; intros Ha.
    + eapply wp_SwitchTo; [by eapply with_vc_lookup|done|by destruct (Hs Ha)|]. intros t' Hc' Hs' Hsh.
      apply HQ. exists v1. rewrite Ha. by split_and!.
    + apply HQ. exists v1. rewrite Ha. by split_and!.
  - replace (p <? 2000) with true in HQ by (symmetry; apply Z.ltb_lt; unfold p, CHAR_OFFSET, VGA_WIDTH; lia).
    rewrite (u32_small y) by (unfold is_u32; lia). eapply wp_move_cursor; [done|done|done|unfold VGA_WIDTH; lia|unfold VGA_HEIGHT; lia|].
    intros t' Ht'. apply HQ. by unfold escape_of in Ht'; rewrite He in Ht'.
Qed.

(** Where the cursor goes for a backspace. *)
Definition back (x y : Z) : Z * Z :=
  let ' (x, y) := if x - 1 <? 0 then (79, y - 1) else (x - 1, y) in (x, if y <? 1 then 1 else y).

Lemma back_ok x y : 0 ≤ x < 80 → 1 ≤ y < 25 → let p := CHAR_OFFSET x y in
  0 ≤ (back x y).1 < 80 ∧ 1 ≤ (back x y).2 < 25 ∧ CHAR_OFFSET (back x y).1 (back x y).2 = if p =? 80 then 159 else p - 1.
Proof.
  intros Hx Hy p. unfold back, p, CHAR_OFFSET, VGA_WIDTH. destruct (Z.ltb_spec (x - 1) 0); simpl.
  - destruct (Z.ltb_spec (y - 1) 1), (Z.eqb_spec (y * 80 + x) 80); lia.
  - rewrite (proj2 (Z.ltb_ge y 1)) by lia. destruct (Z.eqb_spec (y * 80 + x) 80); lia.
Qed.

Lemma wp_put_delete index v t active x y Q : nthZ (consoles t) index = Some v → vc_ok v → (active = true → shows v (kcon t)) →
  vc_escape v = false → 0 ≤ x < VGA_WIDTH → 1 ≤ y < VGA_HEIGHT → let p := CHAR_OFFSET x y in
  (∀ t', became t index active v (Terminal (setZ (vc_data v) p (cell (vc_color v) CH_SPACE)) p (vc_color v) Plain) t' → Q tt t') →
  wp (set_cell index p (MAKE_RAW_CHAR (vc_color v) CH_SPACE) ;;
      when active (virtConsoleSwitchTo index) ;;
      change index (set_vc_cursor (u32 x) (u32 y)) ;;
      when active (set_cursor_both x y)) t Q.
Proof.
  intros Hv Hok Hs He Hx Hy p HQ. pose proof Hok as [Hl Hd _ _ Hc]. unfold VGA_WIDTH, VGA_HEIGHT in *.
  assert (0 ≤ p < 2000) as Hp by (unfold p, CHAR_OFFSET, VGA_WIDTH; lia).
  rewrite raw_cell by (done || unfold is_u8, CH_SPACE; lia).
  set (v1 := set_data (setZ (vc_data v) p (cell (vc_color v) CH_SPACE)) v) in *.
  assert (vc_ok v1) as Hok1 by (apply cell_ok; [done|by apply cell_u16]).
  wp_step. eapply wp_set_cell_here; [done|done|lia|by apply cell_u16|].
  assert (∀ t1, between t index active v1 t1 → wp (change index (set_vc_cursor (u32 x) (u32 y)) ;; when active (set_cursor_both x y)) t1 Q) as Hend.
  { intros t1 Hb. pose proof Hb as (Hc1 & _ & Hw1). rewrite (u32_small x), (u32_small y) by (unfold is_u32; lia).
    eapply (wp_move_cursor index v1); [rewrite Hc1; eapply nthZ_setZ_eq, nthZ_Some_lt, Hv|done| |done|done|].
    - intros Ha. by rewrite Ha in Hw1.
    - intros t' Ht'. apply HQ. eapply became_between; [exact Hb|done|done|]. unfold escape_of in Ht'. simpl in Ht'. by rewrite He in Ht'. }
  wp_step. apply wp_when; intros Ha.
  - eapply wp_SwitchTo; [by eapply with_vc_lookup|done|by destruct (Hs Ha)|]. intros t1 Hc1 Hs1 Hsh. apply Hend.
    rewrite Ha. split; [done|]. split; [done|]. by apply shows_drawn.
  - apply Hend. rewrite Ha. by split_and!.
Qed.

Lemma wp_PutChar index v t active chr Q : nthZ (consoles t) index = Some v → vc_ok v → (active = true → shows v (kcon t)) →
  index < Z.of_nat NUM_VIRT_CONSOLES → is_u8 chr → vc_escape v = false →
  (∀ t', became t index active v (feed_char (terminal_of v) chr) t' → Q tt t') → wp (virtConsolePutChar index chr active) t Q.
Proof.
  intros Hv Hok Hs Hindex Hchr He HQ. pose proof Hok as [Hl Hd Hx Hy Hc]. unfold virtConsolePutChar.
  wp_step. eapply wp_the_console; [exact Hv|]. wp_step. apply wp_assert; [by apply Z.ltb_lt|].
  unfold VGA_WIDTH, VGA_HEIGHT in *. rewrite (i32_small (vc_cursorX v)), (i32_small (vc_cursorY v)) by lia.
  set (p := CHAR_OFFSET (vc_cursorX v) (vc_cursorY v)).
  unfold feed_char in HQ. change (t_pos (terminal_of v)) with p in HQ. cbn [terminal_of t_cells t_color] in HQ.
  destruct (Z.eqb_spec chr CH_DELETE) as [->|Hdel].
  { destruct (back_ok (vc_cursorX v) (vc_cursorY v) Hx Hy) as (Hx' & Hy' & Eo). fold p in Eo. rewrite <-Eo in HQ.
    unfold back in *. change (80 - 1) with 79.
    destruct (if vc_cursorX v - 1 <? 0 then _ else _) as [x0 y0]. cbn [fst snd] in *.
    rewrite (proj2 (Z.ltb_lt (CHAR_OFFSET x0 _) 2000)) in HQ by (unfold CHAR_OFFSET, VGA_WIDTH; lia).
    by eapply wp_put_delete. }
  destruct (Z.eqb_spec chr CH_NEWLINE) as [->|Hnl]; cbn [negb].
  - wp_step. wp_step. change (80 <=? 0) with false. cbv iota.
    destruct (cell_pos (vc_cursorX v) (vc_cursorY v) Hx) as [Ediv _]. fold p in Ediv. rewrite Ediv in HQ.
    replace ((vc_cursorY v + 1) * 80) with (CHAR_OFFSET 0 (vc_cursorY v + 1)) in HQ by (unfold CHAR_OFFSET, VGA_WIDTH; lia).
    eapply wp_put_end; [done|done|intros Ha; by apply shows_drawn, Hs|done|done|unfold VGA_HEIGHT; lia|done|exact HQ].
  - rewrite raw_cell by done. wp_step. eapply wp_draw_cell; [done|done|done|by apply cell_u16|]. fold p. intros t1 Hb. wp_step.
    set (v1 := set_data (setZ (vc_data v) p (cell (vc_color v) chr)) v) in *.
    assert (vc_ok v1) as Hok1 by (apply cell_ok; [done|by apply cell_u16]).
    pose proof Hb as (Hc1 & _ & Hw1).
    assert (∃ x y, (if 80 <=? vc_cursorX v + 1 then (0, vc_cursorY v + 1) else (vc_cursorX v + 1, vc_cursorY v)) = (x, y) ∧
              0 ≤ x < 80 ∧ 1 ≤ y ≤ 25 ∧ CHAR_OFFSET x y = p + 1) as (x & y & -> & Hx' & Hy' & Eo).
    { unfold p, CHAR_OFFSET, VGA_WIDTH. destruct (Z.leb_spec 80 (vc_cursorX v + 1)); eexists _, _; (split; [done|lia]). }
    rewrite <-Eo in HQ. eapply (wp_put_end index v1); [rewrite Hc1; eapply nthZ_setZ_eq, nthZ_Some_lt, Hv|done| |done|done|done|done|].
    + intros Ha. by rewrite Ha in Hw1.
    + intros t' Ht'. apply HQ. by eapply became_between.
Qed.

(** *** Escape sequences and the output of a console *)

Definition with_escape (e : escape) (T : terminal) : terminal := Terminal (t_cells T) (t_pos T) (t_color T) e.

Lemma became_here t index active v : nthZ (consoles t) index = Some v → vc_ok v → (active = true → shows v (kcon t)) →
  became t index active v (terminal_of v) t.
Proof.
  intros Hv Hok Hs. exists v. split; [|split_and!; try done; destruct active; [by apply Hs|done]].
  pose proof (with_vc_same t index v Hv) as E. by rewrite <-E at 1.
Qed.

Lemma wp_ProcessEscape index v t active Q : nthZ (consoles t) index = Some v → vc_ok v → (active = true → shows v (kcon t)) →
  vc_escape v = true → is_u8 (vc_escapeValue v) →
  (∀ t', became t index active v
     (with_escape (escape_of v) (apply_escape (terminal_of v) (vc_escapeCode v) (vc_escapeValue v))) t' → Q tt t') →
  wp (virtConsoleProcessEscape index active) t Q.
Proof.
  intros Hv Hok Hs He Hval HQ. pose proof Hok as [_ _ Hx Hy _]. unfold VGA_WIDTH, VGA_HEIGHT, is_u8 in *.
  unfold virtConsoleProcessEscape. wp_step. eapply wp_the_console; [exact Hv|]. rewrite He. cbn [negb].
  unfold apply_escape in HQ. cbn [terminal_of t_cells t_pos t_color] in HQ.
  destruct (cell_pos (vc_cursorX v) (vc_cursorY v) Hx) as [Ediv Emod]. rewrite Ediv, Emod in HQ.
  destruct (Z.eqb_spec (vc_escapeCode v) ESCAPE_COLOR) as [Hcode|Hcode].
  { eapply wp_change_state; try done. }
  assert (Hstay : (∀ t', became t index active v (terminal_of v) t' → Q tt t') → wp (mret tt) t Q).
  { intros Hq. apply wp_ret, Hq. by apply became_here. }
  destruct (Z.eqb_spec (vc_escapeCode v) ESCAPE_CURSORX) as [Hcx|Hcx]; cbn [orb andb] in *.
  - rewrite Hcx in *. change (ESCAPE_CURSORX =? ESCAPE_CURSORY) with false in *. cbn [andb] in *.
    destruct (Z.ltb_spec (vc_escapeValue v) VGA_WIDTH) as [Hlt|Hge]; cbn [andb]; unfold VGA_WIDTH, VGA_HEIGHT in *.
    + rewrite (proj2 (Z.ltb_lt (vc_escapeValue v) 80)) in HQ by lia. rewrite (proj2 (Z.ltb_lt (vc_cursorY v) 25)) by lia.
      cbn [when]. eapply wp_move_cursor; [done|done|intros Ha; by apply shows_drawn, Hs|unfold VGA_WIDTH; lia|done|exact HQ].
    + rewrite (proj2 (Z.ltb_ge (vc_escapeValue v) 80)) in HQ by lia. by apply Hstay.
  - destruct (Z.eqb_spec (vc_escapeCode v) ESCAPE_CURSORY) as [Hcy|Hcy]; [|by apply Hstay]. cbn [andb].
    unfold VGA_WIDTH, VGA_HEIGHT in *. rewrite (proj2 (Z.ltb_lt (vc_cursorX v) 80)) by lia. cbn [andb].
    destruct (Z.ltb_spec (vc_escapeValue v + 1) 25).
    + rewrite (proj2 (Z.ltb_lt (vc_escapeValue v) 24)) in HQ by lia. cbn [when andb] in *.
      eapply wp_move_cursor; [done|done|intros Ha; by apply shows_drawn, Hs|done|unfold VGA_HEIGHT; lia|exact HQ].
    + rewrite (proj2 (Z.ltb_ge (vc_escapeValue v) 24)) in HQ by lia. by apply Hstay.
Qed.

Lemma became_elim t index active v T t' : nthZ (consoles t) index = Some v → became t index active v T t' →
  ∃ v', nthZ (consoles t') index = Some v' ∧ consoles t' = setZ (consoles t) index v' ∧ vc_ok v' ∧ terminal_of v' = T ∧
    (active = true → shows v' (kcon t')) ∧
    (∀ T' t'', became t' index active v' T' t'' → became t index active v T' t'').
Proof.
  intros Hv (v' & Hc & Hs & Hok & HT & Hin & Hout & Hw). exists v'. split_and!; try done.
  - rewrite Hc. by eapply nthZ_setZ_eq, nthZ_Some_lt.
  - intros Ha. by rewrite Ha in Hw.
  - intros T' t'' Hb. eapply became_trans; try done. intros Ha. by rewrite Ha in Hw.
Qed.

Lemma wp_output_char index current v t chr Q : nthZ (consoles t) index = Some v → vc_ok v →
  let active := index =? current in
  (active = true → shows v (kcon t)) → index < Z.of_nat NUM_VIRT_CONSOLES → is_u8 chr →
  (∀ t', became t index active v (feed (terminal_of v) chr) t' → Q tt t') → wp (output_char index current chr) t Q.
Proof.
  intros Hv Hok active Hs Hindex Hchr HQ. unfold output_char. wp_step. eapply wp_the_console; [exact Hv|].
  unfold feed in HQ. change (t_escape (terminal_of v)) with (escape_of v) in HQ. unfold escape_of in HQ at 1.
  destruct (vc_escape v) eqn:He; cbn [negb andb].
  - destruct (Z.eqb_spec (vc_escapeCode v) 0) as [Hcode|Hcode].
    + eapply wp_change_state; try done; [by apply Hok|]. intros t' Ht'. apply HQ.
      unfold terminal_of, escape_of in Ht'. simpl in Ht'. by rewrite He in Ht'.
    + set (v1 := set_escape true (vc_escapeCode v) chr v). set (t1 := with_vc t index v1).
      assert (vc_ok v1) as Hok1 by by destruct Hok.
      wp_step. eapply wp_change; [exact Hv|]. rewrite He. change (Tty _ _) with t1. wp_step.
      assert (Hv1 : nthZ (consoles t1) index = Some v1) by by eapply with_vc_lookup.
      assert (Htr : ∀ T t', became t1 index active v1 T t' → became t index active v T t').
      { intros T t' Hb. eapply became_trans; try exact Hb; done. }
      eapply (wp_ProcessEscape index v1 t1); [done|done| |done|done|].
      { intros Ha. eapply shows_as; [by apply Hs|done..]. }
      intros t2 Hb2. apply (became_elim _ _ _ _ _ _ Hv1) in Hb2 as (v2 & Hv2 & Hc2 & Hok2 & HT2 & Hs2 & Htr2).
      eapply (wp_change_state _ _ v2 _ active); try done; [by apply Hok2|]. intros t' Ht'. apply HQ, Htr, Htr2.
      replace (apply_escape _ _ _) with (with_escape Plain (terminal_of v2)); [exact Ht'|].
      rewrite HT2. unfold apply_escape. cbn [terminal_of t_cells t_pos t_color v1 vc_escapeCode vc_escapeValue set_escape vc_data vc_cursorX vc_cursorY vc_color].
      by repeat case_match.
  - destruct (Z.eqb_spec chr CH_ESCAPE) as [->|Hesc]; cbn [andb].
    + eapply wp_change_state; try done; by apply Hok.
    + rewrite Z.eqb_sym. eapply wp_PutChar; try done.
Qed.

(** The output of a console, in one portion. *)
Lemma wp_output_chars index current bs : let active := index =? current in
  ∀ v t Q, nthZ (consoles t) index = Some v → vc_ok v → (active = true → shows v (kcon t)) →
  index < Z.of_nat NUM_VIRT_CONSOLES → Forall is_u8 bs →
  (∀ t', became t index active v (foldl feed (terminal_of v) bs) t' → Q tt t') → wp (output_chars index current bs) t Q.
Proof.
  intros active. induction bs as [|b bs IH]; intros v t Q Hv Hok Hs Hindex Hbs HQ; cbn [output_chars].
  { apply wp_ret, HQ. by apply became_here. }
  apply Forall_cons in Hbs as [Hb Hbs]. wp_step. eapply wp_output_char; [done..|]. intros t1 Hb1.
  apply (became_elim _ _ _ _ _ _ Hv) in Hb1 as (v1 & Hv1 & _ & Hok1 & HT1 & Hs1 & Htr).
  eapply IH; [done..|]. intros t' Ht'. apply HQ, Htr. by rewrite HT1 in Ht'.
Qed.

(** *** Everything *)

Definition ins_of t : list Z := vc_input <$> consoles t.
Definition outs_of t : list Z := vc_output <$> consoles t.
Definition desk_of t (current : Z) : desk := Desk (terminal_of <$> consoles t) current (ksent t).

Record tty_ok t (current : Z) : Prop := {
  tty_length : length (consoles t) = NUM_VIRT_CONSOLES;
  tty_consoles : Forall vc_ok (consoles t);
  tty_current : 0 ≤ current < 7;
  tty_shows : ∃ v, nthZ (consoles t) current = Some v ∧ shows v (kcon t);
}.

(** Several rounds of [main]. *)
Fixpoint main_events (current : Z) (events : list (Z * list Z)) : M (tty w) Z :=
  match events with
  | [] => mret current
  | (handle, bs) :: events => let* current := main_dispatch current handle bs in main_events current events
  end.

Lemma nthZ_Forall {A} (P : A → Prop) l i x : Forall P l → nthZ l i = Some x → P x.
Proof. intros Hl Hi. unfold nthZ in Hi. case_match; [done|]. by eapply Forall_lookup_1 in Hl. Qed.

Lemma ends_became t index (f : virtConsole → Z) v v' t' : nthZ (consoles t) index = Some v → consoles t' = setZ (consoles t) index v' →
  f v' = f v → f <$> consoles t' = f <$> consoles t.
Proof.
  intros Hv -> Hf. unfold setZ, nthZ in *. case_match; [done|]. rewrite list_fmap_insert, Hf.
  apply list_insert_id. by rewrite list_lookup_fmap, Hv.
Qed.

Lemma feed_output_found t handle bs d : feed_output (outs_of t) handle bs d =
  match list_find (λ v, vc_output v = handle) (consoles t) with
  | Some (i, _) => Desk (alter (λ T, foldl feed T bs) i (d_terminals d)) (d_current d) (d_sent d)
  | None => d
  end.
Proof.
  unfold feed_output, outs_of. rewrite list_find_fmap.
  change (list_find ((.= handle) ∘ vc_output) (consoles t)) with (list_find (λ v, vc_output v = handle) (consoles t)).
  by destruct (list_find (λ v, vc_output v = handle) (consoles t)) as [[i v]|].
Qed.

Lemma desk_became t index current v T t' : nthZ (consoles t) index = Some v → tty_ok t current →
  became t index (index =? current) v T t' →
  tty_ok t' current ∧ ins_of t' = ins_of t ∧ outs_of t' = outs_of t ∧
  desk_of t' current = Desk (<[Z.to_nat index := T]> (terminal_of <$> consoles t)) current (ksent t).
Proof.
  intros Hv [Hl Hall Hcur (vc & Hvc & Hsh)] (v' & Hc & Hs & Hok & HT & Hin & Hout & Hw).
  pose proof (nthZ_Some_lt _ _ _ Hv) as Hlt. split_and!.
  - constructor; [by rewrite Hc, length_setZ| |done|].
    { rewrite Hc. unfold setZ. destruct (index <? 0); [done|]. by apply Forall_insert. }
    rewrite Hc. destruct (Z.eqb_spec index current) as [->|Hne].
    + exists v'. split; [by apply nthZ_setZ_eq|done].
    + exists vc. split; [by rewrite nthZ_setZ_ne|]. unfold kcon. by rewrite Hw.
  - by apply (ends_became t index vc_input v v').
  - by apply (ends_became t index vc_output v v').
  - unfold desk_of. rewrite Hs, Hc. f_equal. unfold setZ. destruct (Z.ltb_spec index 0); [lia|]. by rewrite list_fmap_insert, HT.
Qed.

Lemma wp_handle_output handle current bs t Q : tty_ok t current → Forall is_u8 bs →
  (∀ t', tty_ok t' current → ins_of t' = ins_of t → outs_of t' = outs_of t →
     desk_of t' current = feed_output (outs_of t) handle bs (desk_of t current) → Q tt t') →
  wp (handle_output handle current bs) t Q.
Proof.
  intros Hok Hbs HQ. unfold handle_output. wp_step. wp_step. unfold find_output. rewrite feed_output_found in HQ.
  destruct (list_find (λ v, vc_output v = handle) (consoles t)) as [[i v]|] eqn:Ef; cbn [fmap option_fmap option_map compose fst].
  2: { apply wp_ret. by apply HQ. }
  apply list_find_Some in Ef as (Hi & _ & _). pose proof Hok as [Hl Hall Hcur (vc & Hvc & Hsh)].
  assert (nthZ (consoles t) (Z.of_nat i) = Some v) as Hv by (unfold nthZ; destruct (Z.ltb_spec (Z.of_nat i) 0); [lia|by rewrite Nat2Z.id]).
  eapply wp_output_chars; [exact Hv|by eapply nthZ_Forall| |apply nthZ_Some_lt in Hv; lia|done|].
  { intros Ha. apply Z.eqb_eq in Ha as <-. congruence. }
  intros t' Hb. apply (desk_became t _ current v) in Hb as (Hok' & Hin & Hout & Hd); [|done|done].
  apply HQ; try done. rewrite Hd, Nat2Z.id. unfold desk_of. cbn [d_terminals d_current d_sent]. f_equal. symmetry. apply list_eq. intros j.
  destruct (decide (j = i)) as [->|Hne].
  - rewrite list_lookup_alter_eq, list_lookup_insert_eq by (rewrite length_fmap; by eapply lookup_lt_Some). by rewrite list_lookup_fmap, Hi.
  - by rewrite list_lookup_alter_ne, list_lookup_insert_ne by done.
Qed.

Lemma wp_handle_input bs : ∀ current t Q, tty_ok t current →
  (∀ current' t', tty_ok t' current' → ins_of t' = ins_of t → outs_of t' = outs_of t →
     desk_of t' current' = foldl (type_char (ins_of t)) (desk_of t current) bs → Q current' t') →
  wp (handle_input current bs) t Q.
Proof.
  induction bs as [|b bs IH]; intros current t Q Hok HQ; cbn [handle_input foldl] in *; [wp_step; by apply HQ|].
  pose proof Hok as [Hl Hall Hcur (vc & Hvc & Hsh)]. unfold type_char in HQ at 2. cbn [desk_of d_current d_terminals d_sent] in HQ.
  destruct (Z.eqb_spec b CH_TAB) as [->|Htab].
  - set (next := (current + 1) mod 7) in *. assert (0 ≤ next < 7) as Hn by (apply Z.mod_pos_bound; lia).
    destruct (nthZ_is_Some (consoles t) next) as [v Hv]; [unfold NUM_VIRT_CONSOLES in Hl; lia|].
    change ((current + 1) mod Z.of_nat NUM_VIRT_CONSOLES) with next. wp_step.
    eapply wp_SwitchTo; [exact Hv|by eapply nthZ_Forall|apply Hsh|]. intros t1 Hc1 Hs1 Hsh1.
    assert (tty_ok t1 next) as Hok1 by (constructor; rewrite ?Hc1; [done|done|done|by exists v]).
    apply (IH next t1); [done|]. intros current' t' Hok' Hin' Hout' Hd'. unfold ins_of, outs_of, desk_of in *. rewrite Hc1, ?Hs1 in *.
    by apply HQ.
  - wp_step. eapply wp_the_console; [exact Hvc|]. wp_step.
    destruct (kc_write (vc_input vc) [b] (world t)) as (r & x & Hr & Hcon & Hsent).
    apply wp_zoom. unfold wp at 1. rewrite Hr. set (t1 := Tty (consoles t) x).
    assert (tty_ok t1 current) as Hok1 by (constructor; try done; exists vc; split; [done|]; unfold kcon; simpl; by rewrite Hcon).
    apply (IH current t1); [done|]. intros current' t' Hok' Hin' Hout' Hd'. apply HQ; try done.
    rewrite Hd'. unfold desk_of, ksent, t1. simpl. rewrite Hsent. do 3 f_equal.
    unfold ins_of, nthZ in *. case_match; [done|]. by rewrite list_lookup_fmap, Hvc.
Qed.

(** C20: Whatever the consoles print and whatever is typed, in whatever portions it
    arrives: each of the seven consoles is a terminal of 80 x 24 characters below a
    header that has been fed the output of its own programs, escape sequences that
    are split between portions included; the characters typed go to the console that
    is current at that moment, and tab selects the next one; and the screen of the
    kernel always shows the current console, with both cursors at its position. *)
Theorem consoles_correct events current t :
  tty_ok t current → Forall (λ e : Z * list Z, Forall is_u8 e.2) events →
  wp (main_events current events) t (λ current' t',
    tty_ok t' current' ∧ desk_of t' current' = foldl (desk_event (ins_of t) (outs_of t)) (desk_of t current) events).
Proof.
  revert current t. induction events as [|[handle bs] events IH]; intros current t Hok Hevents; cbn [main_events foldl].
  { by wp_step. }
  apply Forall_cons in Hevents as [Hbs Hevents]. wp_step. unfold main_dispatch, desk_event at 2. cbn [fst snd] in *.
  destruct (Z.eqb_spec handle 0) as [->|Hh]; cbn [negb].
  - apply wp_handle_input; [done|]. intros current' t' Hok' Hin Hout Hd.
    eapply wp_mono; [by apply IH|]. intros c'' t'' [Hok'' Hd'']. split; [done|]. by rewrite Hd'', Hd, Hin, Hout.
  - wp_step. apply wp_handle_output; [done|done|]. intros t' Hok' Hin Hout Hd. wp_step.
    eapply wp_mono; [by apply IH|]. intros c'' t'' [Hok'' Hd'']. split; [done|]. by rewrite Hd'', Hd, Hin, Hout.
Qed.
End Tty.

(** ** A concrete kernel *)

Record desktop := Desktop { screen_of : console; written : list (Z * list Z) }.

Definition desktop_console {A} (m : M console A) : M desktop A :=
  zoom screen_of (λ c s, Desktop c (written s)) m.

Definition desktop_sys : Sys desktop := {|
  objectWait _ _ := mret 0; objectRead _ _ := mret (-1, []);
  objectWrite h bs := λ s, Ok (lenZ bs, Desktop (screen_of s) (written s ++ [(h, bs)]));
  objectSignal _ _ := mret false; objectShutdown _ _ := mret false; objectClose _ := mret true;
  objectGetStatus _ _ := mret 0; objectAttach _ _ _ _ := mret false; objectDetach _ _ := mret false;
  createEvent _ := mret 1; createPipe := mret 2; syscall_fork := mret (-1); syscall_dup _ := mret (-1);
  syscall_dup2 _ _ := mret (-1); syscall_exit_process _ := mret tt; filesystemSearchFile _ _ _ := mret (-1);
  filesystemSearchDirectory _ _ _ := mret (-1); filesystemOpen _ := mret (-1); executeProgram _ _ _ := mret (-1);
  consoleSetFlags f := desktop_console (Console.consoleSetFlags f);
  consoleSetCursor x y := desktop_console (consoleSetCursorPos x y ;; mret tt);
  consoleSetHardwareCursor x y := desktop_console (Console.consoleSetHardwareCursor x y);
  consoleWriteRaw bs := desktop_console (consoleWriteRawLen bs (length bs) ;; mret (lenZ bs));
  malloc _ := mret false; realloc _ := mret false; free := mret tt;
  execvp _ := mret tt; printf _ := mret tt; setenv _ _ := mret tt;
|}.
#[local] Existing Instance desktop_sys.

#[local] Instance desktop_kernel : KernelConsole desktop.
Proof.
  refine {| con := screen_of; set_con c s := Desktop c (written s); sent := written |}; try reflexivity.
  intros h bs s. eexists _, _. split; [reflexivity|]. by split.
Defined.

Definition blank_screen : list Z := replicate 2000 CONSOLE_BLANK.

Definition first_tty : tty desktop := Tty
  ((λ i, VirtConsole blank_screen 0 1 (10 + i) (20 + i) 15 0 false 0 0) <$> [0; 1; 2; 3; 4; 5; 6])
  (Desktop (Console blank_screen 0 1 15 14 0 1 (Io.Ports [] [])) []).

(** A colored letter on the first console, two keys with a tab in between, a line
    break and an escape sequence in two portions on the second one. *)
Definition some_events : list (Z * list Z) := [(20, [27; 1; 12; 72]); (0, [97; 9; 98]); (21, [10; 27]); (21, [3; 5; 88])].

Lemma first_tty_ok : tty_ok first_tty 0.
Proof.
  assert (Forall is_u16 blank_screen) as Hb by (apply Forall_replicate; by vm_compute).
  assert (length blank_screen = 2000%nat) as Hl by apply length_replicate.
  constructor; [done| |done|].
  - apply Forall_fmap, Forall_forall. intros i _. constructor; simpl; unfold is_u8, VGA_WIDTH, VGA_HEIGHT; [done|done|lia|lia|lia].
  - eexists. split; [reflexivity|]. constructor; simpl; try done.
Qed.

Lemma consoles_correct_witness : ∃ t',
  main_events 0 some_events first_tty = Ok (1, t') ∧ ksent t' = [(10, [97]); (11, [98])] ∧
  t_pos ∘ terminal_of <$> consoles t' = [81; 481; 80; 80; 80; 80; 80] ∧
  t_color ∘ terminal_of <$> consoles t' = [12; 15; 15; 15; 15; 15; 15] ∧
  nthZ (videoTextMemory (kcon t')) 480 = Some (cell 15 88).
Proof.
  assert (Forall (λ e : Z * list Z, Forall is_u8 e.2) some_events) as He by (apply (bool_decide_unpack _); vm_compute; exact I).
  destruct (proj1 (wp_run _ _ _) (consoles_correct some_events 0 first_tty first_tty_ok He)) as (c & t' & Hr & [_ _ _ (v & Hv & Hsh)] & Hd).
  exists t'. pose proof (f_equal d_current Hd) as Hcur. vm_compute in Hcur. simpl in Hcur. subst c.
  split; [exact Hr|]. split; [pose proof (f_equal d_sent Hd) as E; vm_compute in E; exact E|].
  pose proof (f_equal d_terminals Hd) as Ht. change (d_terminals (desk_of t' 1)) with (terminal_of <$> consoles t') in Ht.
  split; [rewrite list_fmap_compose, Ht; vm_compute; reflexivity|].
  split; [rewrite list_fmap_compose, Ht; vm_compute; reflexivity|].
  rewrite (sh_cells _ _ Hsh). change (vc_data v) with (t_cells (terminal_of v)).
  pose proof (f_equal (λ l, l !! 1%nat) Ht) as Hone. cbv beta in Hone. rewrite list_lookup_fmap in Hone.
  change (nthZ (consoles t') 1) with (consoles t' !! 1%nat) in Hv. rewrite Hv in Hone. cbn [fmap option_fmap option_map] in Hone.
  apply (f_equal (λ T, option_map (λ T, nthZ (t_cells T) 480) T)) in Hone. cbn [option_map] in Hone.
  match type of Hone with _ = ?r => let r' := eval vm_compute in r in change r with r' in Hone end.
  injection Hone as Hone. etransitivity; [exact Hone|]. vm_compute. reflexivity.
Defined.
