(* ===== verification/Programs.v ===== *)
(** * The small programs: wc, echo, setled and top

    Models src/usermode/programs/wc.c, echo.c, setled.c and top.c. What a program
    prints is given as the bytes of its output. *)

From S2P Require Import Prelude Process User Shell.
Open Scope Z_scope.

Section Programs.
Context {w : Type} `{Sys w}.

(** ** wc.c *)

(** [count++] on an int. *)
Definition incr (count : Z) : M w Z := if count <? 2147483647 then mret (count + 1) else undef "wc: count overflows".

Definition wc_char (count : Z) (inWord : bool) (c : Z) : M w (Z * bool) :=
  if inWord then mret (count, negb (isspace c))
  else if isspace c then mret (count, false)
  else let* count := incr count in mret (count, true).

Fixpoint wc_block (count : Z) (inWord : bool) (bs : list Z) : M w (Z * bool) :=
  match bs with
  | [] => mret (count, inWord)
  | c :: bs => let* ' (count, inWord) := wc_char count inWord c in wc_block count inWord bs
  end.

(** [None]: reading fails. *)
Fixpoint wc_loop (fuel : nat) (count : Z) (inWord : bool) : M w (option Z) :=
  match fuel with
  | O => no_fuel
  | S fuel =>
      let* r := objectWait 0 0 in
      if 0 <=? r then
        let* ' (result, bs) := objectRead 0 1024 in
        if result <? 0 then mret None
        else let* ' (count, inWord) := wc_block count inWord (take (Z.to_nat result) bs) in wc_loop fuel count inWord
      else mret (Some count)
  end.

(** The exit code. *)
Definition wc_main (fuel : nat) : M w Z :=
  let* r := wc_loop fuel 0 false in
  match r with
  | None => mret 1
  | Some count =>
      printf (decimal 10 count ++ chars " word" ++ (if negb (count =? 1) then chars "s" else []) ++ [CH_NEWLINE]) ;;
      mret 0
  end.

(** ** echo.c *)

Fixpoint echo_loop (args : list (list Z)) : M w unit :=
  match args with
  | [] => mret tt
  | a :: args => printf a ;; when (bool_decide (args ≠ [])) (printf (chars " ")) ;; echo_loop args
  end.

Definition echo_main (argv : list (list Z)) : M w Z :=
  echo_loop (tail argv) ;; printf [CH_NEWLINE] ;; mret 0.

(** ** setled.c *)

Definition setled_main (argv : list (list Z)) : M w Z :=
  if (length argv <=? 1)%nat then
    printf (chars "Usage:" ++ [CH_NEWLINE]) ;;
    printf (chars "  setled [scroll] [num] [caps]" ++ [CH_NEWLINE]) ;;
    printf [CH_NEWLINE] ;;
    printf (chars "Enable/Disable keyboard LEDs." ++ [CH_NEWLINE]) ;;
    mret 0
  else
    let given s := bool_decide (chars s ∈ tail argv) in
    let flag b := decimal 1 (Z.b2z b) in
    printf (chars "Setting scroll=" ++ flag (given "scroll"%string) ++ chars ", num=" ++ flag (given "num"%string) ++
            chars ", caps=" ++ flag (given "caps"%string) ++ [CH_NEWLINE]) ;;
    printf (chars "Syscall not implemented yet!" ++ [CH_NEWLINE]) ;;
    mret 1.
End Programs.

(** ** top.c *)

(** [__byteSizeMem]: [snprintf] into [length] characters, the last one being the
    terminator. *)
Definition __byteSizeMem (size : Z) (length : nat) : list Z :=
  take (length - 1)
    (if size <? 1024 * 5 then decimal 10 size ++ chars " B"
     else if size <? 1024 * 1024 * 5 then decimal 10 (size / 1024) ++ chars " KB"
     else decimal 10 (size / (1024 * 1024)) ++ chars " MB").

(** The argument of [__byteSizeMem] for a number of pages. *)
Definition pages_size (pages : Z) : Z := u32 (pages * PAGE_SIZE).

(** [%4u], [%7s], [%08x]. *)
Definition pad (n : nat) (fill : Z) (s : list Z) : list Z := replicate (n - length s) fill ++ s.
Definition hex_digit (d : Z) : Z := if d <? 10 then 48 + d else 87 + d.
Definition column (n : nat) (s : list Z) : list Z := chars " | " ++ pad n CH_SPACE s.

Definition top_row (i : processInfo) : list Z :=
  let size pages := __byteSizeMem (pages_size pages) 34 in
  (hex_digit <$> digits 16 8 (processID i)) ++
  column 4 (decimal 10 (numberOfTotalThreads i)) ++ column 4 (decimal 10 (numberOfBlockedThreads i)) ++
  column 7 (size (pagesShared i)) ++ column 7 (size (pagesNoFork i)) ++ column 7 (size (pagesReserved i)) ++
  column 7 (size (pagesOutpaged i)) ++ column 7 (size (pagesPhysical i)) ++
  column 4 (decimal 10 (pi_handleCount i)) ++ [CH_NEWLINE].

Definition top_header : list Z :=
  pad 8 CH_SPACE (chars "PID") ++ column 4 (chars "THRD") ++ column 4 (chars "WAIT") ++ column 7 (chars "SHR MEM") ++
  column 7 (chars "FRK MEM") ++ column 7 (chars "RSV MEM") ++ column 7 (chars "OUT MEM") ++ column 7 (chars "PHS MEM") ++
  column 4 (chars "HNDL") ++ [CH_NEWLINE].

(** What top prints for the result of [getProcessInfo] and the array it has filled. *)
Definition top_output (numProcesses : Z) (info : list processInfo) : list Z :=
  (if 1024 <? numProcesses then
     chars "Too many processes, will only display information for the first 1024" ++ [CH_NEWLINE; CH_NEWLINE]
   else decimal 10 numProcesses ++ chars " running processes" ++ [CH_NEWLINE; CH_NEWLINE]) ++
  top_header ++ replicate 80 45 ++
  mjoin (top_row <$> take (Z.to_nat (Z.min numProcesses 1024)) info).
