(* ===== verification/ProgramsProofs.v ===== *)
(** * wc counts words, however its input is cut into blocks *)

From S2P Require Import Prelude User Shell Programs.
Open Scope Z_scope.

(** ** The reference *)

(** What is between the blanks. *)
Fixpoint fields (s : list Z) : list Z * list (list Z) :=
  match s with
  | [] => ([], [])
  | c :: s => let '(f, fs) := fields s in if isspace c then ([], f :: fs) else (c :: f, fs)
  end.

Definition nonempty (f : list Z) : nat := match f with [] => 0 | _ => 1 end.
Definition words (s : list Z) : nat := sum_list (nonempty <$> (fields s).1 :: (fields s).2).

(** ** A pipe that delivers blocks and is closed then *)

Record source := Source { blocks : list (list Z); printed : list Z }.

Definition source_sys : Sys source := {|
  objectWait _ _ := λ s, Ok (match blocks s with [] => -1 | _ => 0 end, s);
  objectRead _ len := λ s,
    match blocks s with
    | [] => Ok ((-1, []), s)
    | b :: bs => Ok ((lenZ b, b), Source bs (printed s))
    end;
  objectWrite _ bs := mret (lenZ bs);
  objectSignal _ _ := mret false; objectShutdown _ _ := mret false; objectClose _ := mret true;
  objectGetStatus _ _ := mret 0; objectAttach _ _ _ _ := mret false; objectDetach _ _ := mret false;
  createEvent _ := mret (-1); createPipe := mret (-1); syscall_fork := mret (-1); syscall_dup _ := mret (-1);
  syscall_dup2 _ _ := mret (-1); syscall_exit_process _ := mret tt; filesystemSearchFile _ _ _ := mret (-1);
  filesystemSearchDirectory _ _ _ := mret (-1); filesystemOpen _ := mret (-1); executeProgram _ _ _ := mret (-1);
  consoleSetFlags _ := mret tt; consoleSetCursor _ _ := mret tt; consoleSetHardwareCursor _ _ := mret tt;
  consoleWriteRaw _ := mret 0; malloc _ := mret false; realloc _ := mret false; free := mret tt;
  execvp _ := mret tt; setenv _ _ := mret tt;
  printf bs := λ s, Ok (tt, Source (blocks s) (printed s ++ bs));
|}.
#[local] Existing Instance source_sys.

(** ** Counting *)

(** Words that begin in [s] when [inWord] says what is in front of it. *)
Definition starts (inWord : bool) (s : list Z) : nat :=
  (if inWord then 0 else nonempty (fields s).1) + sum_list (nonempty <$> (fields s).2).

Definition in_word (inWord : bool) (s : list Z) : bool := foldl (λ _ c, negb (isspace c)) inWord s.

Lemma starts_cons inWord c s :
  starts inWord (c :: s) = ((if inWord || isspace c then 0 else 1) + starts (negb (isspace c)) s)%nat.
Proof. unfold starts. simpl. destruct (fields s) as [f fs]. destruct inWord, (isspace c); cbn; lia. Qed.

Lemma starts_app inWord s s' : starts inWord (s ++ s') = (starts inWord s + starts (in_word inWord s) s')%nat.
Proof.
  revert inWord. induction s as [|c s IH]; intros inWord; [by destruct inWord|].
  cbn [app]. rewrite !starts_cons, IH. unfold in_word. simpl. lia.
Qed.

Lemma starts_le inWord s : (starts inWord s ≤ length s)%nat.
Proof.
  revert inWord. induction s as [|c s IH]; intros inWord; [by destruct inWord|]. rewrite starts_cons.
  specialize (IH (negb (isspace c))). simpl. destruct (inWord || isspace c); lia.
Qed.

Lemma wc_block_ok bs : ∀ count inWord (x : source), count + Z.of_nat (starts inWord bs) < 2 ^ 31 →
  wc_block count inWord bs x = Ok ((count + Z.of_nat (starts inWord bs), in_word inWord bs), x).
Proof.
  induction bs as [|c bs IH]; intros count inWord x Hb.
  { destruct inWord; cbn [wc_block]; unfold starts, in_word; simpl; by rewrite Z.add_0_r. }
  rewrite starts_cons in *. cbn [wc_block]. unfold wc_char, incr, in_word. cbn [foldl].
  destruct inWord; cbn [orb] in *; [|destruct (isspace c) eqn:Ec]; cbn [negb Nat.add] in *; unfold mbind, M_bind, mret, M_ret.
  - by rewrite IH by lia.
  - by rewrite IH by lia.
  - rewrite (proj2 (Z.ltb_lt count 2147483647)) by lia. rewrite IH by lia. do 3 f_equal. lia.
Qed.

Lemma wc_loop_ok bs : ∀ fuel count inWord out, (length bs < fuel)%nat → count + Z.of_nat (starts inWord (mjoin bs)) < 2 ^ 31 →
  wc_loop fuel count inWord (Source bs out) =
  Ok (Some (count + Z.of_nat (starts inWord (mjoin bs))), Source [] out).
Proof.
  induction bs as [|b bs IH]; intros [|fuel] count inWord out Hf Hb; try (simpl in Hf; lia).
  { simpl. replace (starts inWord []) with 0%nat by by destruct inWord. by rewrite Z.add_0_r. }
  change (mjoin (b :: bs)) with (b ++ mjoin bs) in *. rewrite starts_app in *. cbn [wc_loop]. simpl in Hf.
  unfold mbind at 1, M_bind at 1. cbn [objectWait source_sys blocks]. change (0 <=? 0) with true. cbv iota.
  unfold mbind at 1, M_bind at 1. cbn [objectRead source_sys blocks printed].
  rewrite (proj2 (Z.ltb_ge (lenZ b) 0)) by lia. rewrite Nat2Z.id, firstn_all.
  unfold mbind at 1, M_bind at 1. rewrite wc_block_ok by lia. rewrite IH by lia. do 3 f_equal. lia.
Qed.

(** wc prints the number of words of all that it reads, wherever the blocks are
    cut, and returns 0. *)
Theorem wc_correct bs : Z.of_nat (words (mjoin bs)) < 2 ^ 31 →
  let n := Z.of_nat (words (mjoin bs)) in
  wc_main (S (length bs)) (Source bs []) =
  Ok (0, Source [] (decimal 10 n ++ chars " word" ++ (if negb (n =? 1) then chars "s" else []) ++ [CH_NEWLINE])).
Proof.
  intros Hb n. unfold wc_main, mbind at 1, M_bind at 1. 
  change (words (mjoin bs)) with (starts false (mjoin bs)) in *. rewrite wc_loop_ok by lia.
  reflexivity.
Qed.

Lemma wc_correct_witness :
  let bs := [[97; 98]; [99; 32; 10]; [100; 32]] in
  Z.of_nat (words (mjoin bs)) < 2 ^ 31 ∧ wc_main 4 (Source bs []) = Ok (0, Source [] (chars "2 words" ++ [CH_NEWLINE])).
Proof. intros bs. split; [reflexivity|]. apply (wc_correct bs). reflexivity. Defined.
